(* ===== verification/_CoqProject ===== *)
-Q . S2P
Prelude.v
GoStd.v
Ticker.v
ApiServer.v
Json.v
Domain.v
Utils.v
Interface.v
Fixtures.v
Synchronizer.v
Delivery.v
Libraries.v
Mock.v
Convergence.v
Config.v
K8s.v
InClusterClient.v
InClusterAdapter.v
Reconcile.v
Runs.v
Pools.v
Watch.v
Pipeline.v
Mirror.v
Shadows.v
Base64.v
HttpProxy.v
Messages.v
Messaging.v
Features.v
BackendClient.v
Queue.v
BackendAdapter.v
Connections.v
Duplex.v
EndToEnd.v
Reconnect.v
Periodic.v
Clocks.v
HttpEndpoint.v
Authentication.v
KafkaConfig.v
Metrics.v
Kafka.v
KafkaStartup.v
KafkaReader.v
Pulsar.v
PulsarReader.v
ServerMain.v
Session.v
ClientMain.v
ServerPath.v
Environment.v
