(* ===== verification/Prelude.v ===== *)
(** * A verification library for the synchronizer

    The synchronizer keeps Kubernetes objects in step between clusters and a backend.  In
    every cluster a client watches objects; a server accepts the websocket connections of
    the clients and exchanges messages with the ingester of the backend through a message
    queue.  This library models that program, written in Go, as functions over explicit
    state, and proves what its parts promise to each other.

    ** The parts and how they interact

<<
      cluster                                  server
      adapters/incluster  <->  core  <=websocket=>  core  <->  adapters/backend
                                                               |        ^
                                                      messaging producer|handler
                                                               v        |
                                                             message queue (ingester)
>>

    The two cores are the same code (core/synchronizer.go).  A core turns the callbacks of
    its adapters into messages, and received messages into operations of its adapters.  An
    adapter knows the core only by [Callbacks], the core an adapter only by [Adapter]
    (Interface.v); every adapter below is such a record over its own world.

    ** Files

    - Prelude: effects.  A Go function that may fail is a [M W A]: it maps a world to an
      [outcome] (a result, an error, a panic) and the world after it.  Effects done before
      an error stay done.
    - GoStd: [int] with its bounds and wrap-around, strconv, strings.  Json: the text format
      of encoding/json, with its reader ([parse_print]).  Base64: byte slices in JSON.
    - Domain: the messages of domain/*.go with their codecs; the class [Wire] is a codec,
      [WireLaws] that decoding inverts encoding.  Utils: contexts and comparisons of
      utils/utils.go.  Config: config/config.go.  Ticker, HttpProxy: utils/ticker.go and
      utils/http_proxy.go.
    - Synchronizer: core/synchronizer.go: the callbacks, [send*], the worker of incoming
      messages ([inWorker]), [sendData] and the reading loop.  Delivery: both sides at once.
    - Runs: what a system of steps can reach, and how its runs end.  Pools: the goroutines of
      one synchronizer over its two pools.  Duplex: two synchronizers at the ends of a
      connection.  Reconnect: sender and reading loop over a connection that breaks.
    - Mock: adapters/mock.go, the reference adapter.  Convergence: two of them over the core.
    - K8s: the objects and clients of Kubernetes that the code uses, as parameters, and
      [MaskEnvironmentVariables].  InClusterClient, InClusterAdapter: adapters/incluster/v1.
      Reconcile: what their events and batches announce.  Watch: utils/cooldownqueue.go and
      the two loops around it, [watchRetry] that fills it and [Start] that empties it.
      Pipeline: the goroutines of these loops and of the cache between them, in single steps.
      Mirror, Shadows: the events of a cluster and a server that handles their messages in
      order, without and with shadow objects.  EndToEnd: the goroutines of Pipeline and Duplex in one
      system of steps, from the watch to the store.  ApiServer: what a client tells of its cluster.
    - Messages, Messaging, Metrics: messaging/*.go, the payloads and the handler of the
      queue, and the counters of its producers.
    - Features, BackendClient, BackendAdapter: adapters/backend/v1 (skip_alerts.go, client.go,
      adapter.go).  Queue: what client and handler promise together.  Connections: which
      connection the adapter serves.  Periodic: its tasks with their tickers, and its state
      over any history of connections, calls and ticks.  Clocks: the goroutines of a task and
      of its ticker (utils/ticker.go), in single steps and in a time that passes.
    - KafkaConfig, Kafka, KafkaStartup, KafkaReader: kafka_security.go and kafka.go: settings,
      records and producer, startup, the goroutines of the reader.  Pulsar, PulsarReader: the
      same for pulsar.go, and the factories that choose between the two.
    - Authentication: cmd/server/authentication and core/headers.go.  ServerMain, ClientMain:
      the two commands.  Session: a connection of the server from its goroutine through its
      synchronizer to the adapter, with the others that share the adapter.  ServerPath: a
      request through middleware, goroutine, worker and adapter to the queue.  Environment: the files of the settings, the clients of
      Kubernetes and the servers beside the commands (config.go, utils.go).
    - HttpEndpoint: adapters/httpendpoint/v1, objects pushed over HTTP.
    - Libraries, Fixtures: third-party functions as classes, and concrete instances of all
      parameters, with which the theorems are applied.

    A definition has the name of the function it models; methods of a type carry a prefix:
    [m_] of the mock adapter, [c_] of the in-cluster client, [a_] of its adapter, [b_] of the
    backend client, [ba_] of its adapter, [he_] of the HTTP endpoint, [q_] of the cooldown
    queue, [p_] of the Pulsar reader.  Fields carry a prefix where Go has the same name in
    several structs.

    ** What the theorems show

    - Protocol (Delivery, Synchronizer): an event called on one side is delivered on the
      other ([event_delivered]); conversations end ([conversation_ends]) and keep their id;
      only accepted messages act; a client sends until its message is written, a server
      once; the adapters handle an event in order, up to the first failure.
    - Concurrency (Pools, Duplex, Reconnect): over every interleaving of goroutines, messages
      cross the connection once and in order and are handled as if one after the other
      ([link_in_order]), which is why the other theorems may take the handler as one step;
      nothing waits for ever between a client and a server whose adapters do not send while
      they handle ([link_delivers]), a condition that two reference adapters do not meet
      ([mocks_block]); over a connection that breaks and is restored every message is written
      once and in order, and what arrives over each connection is a beginning of what was
      written on it ([reconnection_safe]), but what was on its way when the connection broke
      is lost ([written_can_be_lost]); a ping is enough to restore it ([ping_restores]).
    - Convergence (Convergence, Reconcile): an announced checksum brings the other side to
      the object where the two can be reconciled ([verification_converges], and
      [stale_shadow_never_converges] where they cannot); a reconciliation batch announces exactly the
      differences.
    - From cluster to server (Watch, Pipeline, Mirror, Shadows, EndToEnd): a watch that is
      interrupted, without an error event, resumes where it was ([watch_resumes]); the cooldown queue only coalesces,
      and over every interleaving the last event of every object is handled in the end
      ([cluster_events_handled]), so that a server which handles the messages holds the last
      state of every object of a quiet cluster that was not just added
      ([quiet_cluster_mirrored]), and so does one that gets them over a connection, while all
      goroutines of both sides interleave, from the watch to the worker of the server
      ([cluster_reaches_server]); a client that sends patches computes them against what a
      server that does not compare versions holds, at every moment ([shadows_in_step]).
    - Safety of data (K8s, Reconcile, KafkaConfig): no value of an environment variable leaves
      the cluster unmasked; filtered objects are silent; metadata is merged, not replaced; no
      password goes to a broker in clear.
    - Time (Periodic, Clocks): a task does one tick for every firing of its ticker
      ([reconciliation_task]), and the loop of Periodic is the one of Clocks
      ([reconciliation_clocked]); ticks come in
      order, not before their time and not more often than their interval ([ticks_on_time]);
      how tickers end, and when one may never do ([ticker_stops]).
    - Queue (Queue, Kafka, Pulsar): what a client writes is read back as the same call;
      batches are written item by item; what is held back, rejected, or answered with an
      error; the records of Kafka carry messages unchanged, the key of a record is that of
      its cluster, and a server recognises its own ([kafka_transport]).
    - Readers (KafkaReader, PulsarReader): over every interleaving of their goroutines, the
      order of receipt, capacity, at most one handler for each record, no send on a closed
      channel, and the end of every shutdown; for Pulsar, where these fail.  Records are
      handled in their order by one worker only ([handling_order]).
    - Connections (Authentication, ClientMain, Connections, Periodic, Session, ServerPath,
      InClusterAdapter): exactly who is admitted and under which name, and that nobody writes to the
      queue under another one, whatever arrives on a connection
      ([authenticated_messages]); a client and its server agree on that name and on what a
      refusal means ([client_identity], [client_meets_server]); clients and connections stay
      in step over any history ([server_adapter_in_step]); a connection is refused or served,
      whatever the others do meanwhile, and is not recorded once it ended ([session_ends]);
      newer connections win, but can be refused when they meet the end of the one before
      ([reconnection_refused]); who is asked to reconcile, and when; dialing ends.
    - Startup (KafkaStartup, Pulsar, ServerMain): a startup that fails leaves no client of the
      queue open, and a server that uses Kafka closes them however its [main] ends.
    - HTTP (HttpEndpoint, HttpProxy): which requests reach the core, and that every other one
      fails without effect; a proxy's refusal leaves no connection.
    - Deviations: theorems about panics, lost errors and states that never converge state
      what the code does where that is not what it means to do.

    ** Bounds and fuel

    An [int] has 64 bits; [wrap_int] is applied where the code adds, [int32_of] where it
    narrows.  Recursion is structural except for the JSON reader, whose fuel is the length of
    the text plus one: every step consumes a character, and [parse_print] shows it enough for
    every text that the writer makes.  Loops that wait for the network ([sendData], the
    reading loop, [watchRetry], [newConn]) take the number of attempts as fuel, and their
    theorems hold for every number, or give the one that is enough
    ([client_delivers_after_outage], [dialing_ends]).  Goroutines that share a channel are a
    relation of single steps; [run] takes a list of them, and [left_to_do], [link_measure] or
    [steps_left] bounds its length.  A time is a number of nanoseconds that only [Passes]
    moves.  A connection holds [cap] messages in each direction, for any [cap]
    above 0.

    ** What is not modelled

    Third-party code (Kubernetes clients, json-patch, multierr, semver, the websocket, the
    worker pools, franz-go and the Pulsar client) is a parameter with the behaviour its
    documentation gives as a named hypothesis.  The order of a [range] over a map is a
    parameter.  Logs are left out; an error keeps its text, up to the values it quotes, and
    its cause.  Goroutines are steps that can happen later: the fetches of a
    [FeaturesProvider] and the announcements of [Start] are lists of work under way.  The cache
    of the cooldown queue, a library, takes an entry out in one step.  A tick of a task is one
    step, although the adapter gives up its lock before it writes to the queue.  Between two
    [Invoke]s of a handler its adapters do what they do at once: what a handler sends is
    computed when it starts, and sent one message at a time.  A field that goroutines share
    without a lock is read and written in one step each, so the races that the runtime of Go
    itself detects, as on the map of shadow objects, are outside the model.  Telemetry and the
    registration of metrics are calls of libraries without a result; the helpers that only
    tests use (CompareJson and its printed difference, FileToUnstructured, FileContent) and
    two message structs that nothing uses have no behaviour that another part relies on. *)

From stdpp Require Export base tactics gmap strings list fin_maps sorting.
From Stdlib Require Export ZArith Lia.

(** ** Errors and outcomes

    A Go [error] value.  [Errorf] is [errors.New] or [fmt.Errorf] without [%w];
    [Wrapf m e] is [fmt.Errorf("m: %w", e)]; [ApiStatus r] is a Kubernetes status
    error whose reason is [r]; [Permanent e] is [backoff.Permanent(e)]; [Joined]
    is an error that holds several ones. *)
Inductive gerror : Type :=
| Errorf (msg : string)
| Wrapf (msg : string) (cause : gerror)
| ApiStatus (reason : string)
| Permanent (cause : gerror)
| Joined (errs : list gerror).

(** The outcome of a Go call whose last result is an [error]: it returns a value
    with a nil error, returns a non-nil error, or panics. *)
Inductive outcome (A : Type) : Type :=
| Ret (a : A)
| Throw (e : gerror)
| Panic (why : string).
Arguments Ret {A} _.
Arguments Throw {A} _.
Arguments Panic {A} _.

(** Stateful Go code over a world [W].  The world survives errors and panics: the
    effects done before the failure stay done. *)
Definition M (W A : Type) : Type := W → outcome A * W.

Declare Scope go_scope.
Delimit Scope go_scope with go.

#[export] Instance M_ret {W} : MRet (M W) := λ A a w, (Ret a, w).
#[export] Instance M_bind {W} : MBind (M W) := λ A B f m w,
  match m w with
  | (Ret a, w') => f a w'
  | (Throw e, w') => (Throw e, w')
  | (Panic s, w') => (Panic s, w')
  end.

Section Effects.
Context {W : Type}.

Definition throw {A} (e : gerror) : M W A := λ w, (Throw e, w).
Definition panic {A} (s : string) : M W A := λ w, (Panic s, w).
Definition getW : M W W := λ w, (Ret w, w).
Definition modifyW (f : W → W) : M W unit := λ w, (Ret tt, f w).

(** [*p]: dereferencing a nil pointer panics. *)
Definition deref {A} (p : option A) : M W A :=
  match p with Some a => mret a | None => panic "nil pointer dereference" end.

(** [v, err := m]: observe the error instead of propagating it. *)
Definition attempt {A} (m : M W A) : M W (A + gerror) := λ w,
  match m w with
  | (Ret a, w') => (Ret (inl a), w')
  | (Throw e, w') => (Ret (inr e), w')
  | (Panic s, w') => (Panic s, w')
  end.

(** [if err := m; err != nil { return fmt.Errorf("msg: %w", err) }]. *)
Definition wrapE {A} (msg : string) (m : M W A) : M W A := λ w,
  match m w with
  | (Throw e, w') => (Throw (Wrapf msg e), w')
  | r => r
  end.

(** [for _, x := range l { if err := f(x); err != nil { return err } }]. *)
Fixpoint mfor {A} (f : A → M W unit) (l : list A) : M W unit :=
  match l with
  | [] => mret tt
  | x :: l' => f x ≫= λ _, mfor f l'
  end.

(** [for _, x := range l { acc = f(acc, x) }]. *)
Fixpoint mfold {S A} (f : S → A → M W S) (acc : S) (l : list A) : M W S :=
  match l with
  | [] => mret acc
  | x :: l' => f acc x ≫= λ acc', mfold f acc' l'
  end.

(** A call returning only an [error], read as an error value ([nil] is [None]). *)
Definition errval (m : M W unit) : M W (option gerror) :=
  attempt m ≫= λ r, mret match r with inl _ => None | inr e => Some e end.

(** [return err] for an error value. *)
Definition return_err (e : option gerror) : M W unit :=
  match e with None => mret tt | Some e => throw e end.
End Effects.

(** The same effect seen in a larger world. *)
Definition liftL {W X A} (m : M W A) : M (W * X) A := λ '(w, x),
  let '(o, w') := m w in (o, (w', x)).
Definition liftR {W X A} (m : M X A) : M (W * X) A := λ '(w, x),
  let '(o, x') := m x in (o, (w, x')).

Notation "m ;; k" := (mbind (λ _, k) m)
  (at level 100, k at level 200, right associativity) : go_scope.
Notation "x ← m ; k" := (mbind (λ x, k) m)
  (at level 20, m at level 100, k at level 200) : go_scope.
Open Scope go_scope.

(** ** Equations of the effects, and the tactic that runs them *)
Section EffectLemmas.
Context {W : Type}.

Lemma bind_run {A B} (m : M W A) (f : A → M W B) w :
  (m ≫= f) w =
    match m w with
    | (Ret a, w') => f a w'
    | (Throw e, w') => (Throw e, w')
    | (Panic s, w') => (Panic s, w')
    end.
Proof. reflexivity. Qed.

Lemma ret_run {A} (a : A) (w : W) : (mret a : M W A) w = (Ret a, w).
Proof. reflexivity. Qed.

Lemma throw_run {A} e (w : W) : throw (A := A) e w = (Throw e, w).
Proof. reflexivity. Qed.

Lemma panic_run {A} s (w : W) : panic (A := A) s w = (Panic s, w).
Proof. reflexivity. Qed.

Lemma deref_Some_run {A} (a : A) (w : W) : deref (Some a) w = (Ret a, w).
Proof. reflexivity. Qed.

Lemma deref_None_run {A} (w : W) :
  deref (A := A) None w = (Panic "nil pointer dereference", w).
Proof. reflexivity. Qed.

Lemma deref_bind_Some {A B} (a : A) (f : A → M W B) w : (deref (Some a) ≫= f) w = f a w.
Proof. reflexivity. Qed.

Lemma deref_bind_None {A B} (f : A → M W B) w :
  (deref None ≫= f) w = (Panic "nil pointer dereference", w).
Proof. reflexivity. Qed.

Lemma attempt_run {A} (m : M W A) w :
  attempt m w =
    match m w with
    | (Ret a, w') => (Ret (inl a), w')
    | (Throw e, w') => (Ret (inr e), w')
    | (Panic s, w') => (Panic s, w')
    end.
Proof. reflexivity. Qed.

Lemma wrapE_run {A} msg (m : M W A) w :
  wrapE msg m w =
    match m w with
    | (Throw e, w') => (Throw (Wrapf msg e), w')
    | r => r
    end.
Proof. reflexivity. Qed.

Lemma errval_run (m : M W unit) w :
  errval m w =
    match m w with
    | (Ret _, w') => (Ret None, w')
    | (Throw e, w') => (Ret (Some e), w')
    | (Panic s, w') => (Panic s, w')
    end.
Proof. unfold errval. rewrite bind_run, attempt_run. by destruct (m w) as [[]]. Qed.

(** [mfor] stops at the first element that fails. *)
Lemma mfor_app {A} (f : A → M W unit) l1 l2 w :
  mfor f (l1 ++ l2) w = (mfor f l1 ;; mfor f l2) w.
Proof.
  revert w. induction l1 as [|x l1 IH]; intros w; [done|].
  cbn. rewrite !bind_run. destruct (f x w) as [[?|?|?] w']; [|done..].
  apply IH.
Qed.

Lemma mfor_map {A B} (g : A → B) (f : B → M W unit) l w :
  mfor f (g <$> l) w = mfor (λ x, f (g x)) l w.
Proof.
  revert w. induction l as [|x l IH]; intros w; [done|].
  cbn. rewrite !bind_run. destruct (f (g x) w) as [[?|?|?] w']; auto.
Qed.
End EffectLemmas.

Create Rewrite HintDb go.
#[export] Hint Rewrite @bind_run @ret_run @throw_run @panic_run @deref_Some_run
  @deref_None_run @attempt_run @wrapE_run @errval_run : go.

(** [go_run] executes the effects of the goal as far as the known results allow;
    [go_case] also splits on the first result that is not known. *)
Ltac go_run := repeat progress (autorewrite with go; cbn beta iota).
Ltac go_case :=
  go_run;
  match goal with
  | |- context [match ?m ?w with (_, _) => _ end] =>
      let r := fresh "r" in let w' := fresh "w" in
      let E := fresh "E" in
      destruct (m w) as [r w'] eqn:E; destruct r
  end.

(** [go_compute] opens every effect of the goal, to compute with concrete worlds. *)
Ltac go_compute :=
  cbv beta iota zeta delta [mbind M_bind mret M_ret attempt liftL liftR wrapE throw panic
    modifyW getW fst snd].
