(* ===== verification/GoStd.v ===== *)
(** * GoStd: the parts of Go's [strings] and [strconv] packages that the program uses.

    Go strings and byte slices are lists of bytes: [string] here.  Letter case is
    mapped on ASCII letters, which is what Kubernetes names, kinds and the
    configuration keys consist of. *)

From S2P Require Export Prelude.
From Stdlib Require Export Ascii DecimalString DecimalZ DecimalFacts.

Open Scope Z_scope.

#[global] Arguments String.append : simpl nomatch.

(** ** Machine integers: Go's [int] has 64 bits *)
Definition int_min : Z := - 2 ^ 63.
Definition int_max : Z := 2 ^ 63 - 1.
Definition in_int (z : Z) : Prop := int_min ≤ z ≤ int_max.
Definition in_intb (z : Z) : bool := (int_min <=? z) && (z <=? int_max).
(** Two's complement wrap-around of an [int] result. *)
Definition wrap_int (z : Z) : Z := (z + 2 ^ 63) mod 2 ^ 64 - 2 ^ 63.

Lemma in_intb_spec z : in_intb z = true ↔ in_int z.
Proof. unfold in_intb, in_int. rewrite andb_true_iff, !Z.leb_le. lia. Qed.

Lemma wrap_int_id z : in_int z → wrap_int z = z.
Proof.
  unfold in_int, wrap_int, int_min, int_max. intros H.
  rewrite Z.mod_small; lia.
Qed.

Lemma wrap_int_range z : in_int (wrap_int z).
Proof.
  unfold in_int, wrap_int, int_min, int_max.
  pose proof (Z.mod_pos_bound (z + 2 ^ 63) (2 ^ 64)). lia.
Qed.

(** ** strings *)

(** The one-character string. *)
Definition chr (c : ascii) : string := String c EmptyString.
Definition slash : ascii := "/"%char.

(** [strings.Split(s, sep)] for a one-byte separator. *)
Fixpoint Split (sep : ascii) (s : string) : list string :=
  match s with
  | EmptyString => [EmptyString]
  | String c s' =>
      if Ascii.eqb c sep then EmptyString :: Split sep s'
      else match Split sep s' with
           | [] => [chr c]
           | p :: ps => String c p :: ps
           end
  end.

(** [strings.Join(parts, sep)]. *)
Fixpoint Join (parts : list string) (sep : string) : string :=
  match parts with
  | [] => EmptyString
  | [p] => p
  | p :: ps => (p ++ sep ++ Join ps sep)%string
  end.

Definition lower_ascii (c : ascii) : ascii :=
  let n := nat_of_ascii c in
  if (Nat.leb 65 n && Nat.leb n 90)%bool then ascii_of_nat (n + 32) else c.
Definition upper_ascii (c : ascii) : ascii :=
  let n := nat_of_ascii c in
  if (Nat.leb 97 n && Nat.leb n 122)%bool then ascii_of_nat (n - 32) else c.

Fixpoint smap (f : ascii → ascii) (s : string) : string :=
  match s with EmptyString => EmptyString | String c s' => String (f c) (smap f s') end.
Definition ToLower : string → string := smap lower_ascii.
Definition ToUpper : string → string := smap upper_ascii.

(** [strings.HasPrefix], [strings.Index] (byte offset; [-1] is [None]), [strings.Contains]. *)
Definition HasPrefix (s p : string) : bool := String.prefix p s.
Fixpoint Index (s sub : string) : option nat :=
  if HasPrefix s sub then Some 0%nat
  else match s with
       | EmptyString => None
       | String _ s' => S <$> Index s' sub
       end.
Definition Contains (s sub : string) : bool :=
  match Index s sub with Some _ => true | None => false end.

(** [strings.LastIndex] of a one-byte separator. *)
Fixpoint LastIndex (s : string) (sep : ascii) : option nat :=
  match s with
  | EmptyString => None
  | String c s' =>
      match LastIndex s' sep with
      | Some n => Some (S n)
      | None => if Ascii.eqb c sep then Some 0%nat else None
      end
  end.

(** [s[:n]] and [s[n:]]. *)
Fixpoint stake (n : nat) (s : string) : string :=
  match n, s with
  | S n', String c s' => String c (stake n' s')
  | _, _ => EmptyString
  end.
Fixpoint sdrop (n : nat) (s : string) : string :=
  match n, s with
  | 0%nat, _ => s
  | S n', String _ s' => sdrop n' s'
  | _, EmptyString => EmptyString
  end.

(** [strings.Cut(s, sep)] for a one-byte separator: what precedes it, if it occurs. *)
Fixpoint CutBefore (sep : ascii) (s : string) : option string :=
  match s with
  | EmptyString => None
  | String c s' => if Ascii.eqb c sep then Some EmptyString else String c <$> CutBefore sep s'
  end.

(** ** strconv *)

(** [strconv.Itoa]. *)
Definition Itoa (z : Z) : string := NilZero.string_of_int (Z.to_int z).

(** [strconv.ParseInt(s, 10, 64)] and [strconv.Atoi]: an optional sign, at least
    one digit, and a value that fits; [None] is the error. *)
Definition parse_digits (s : string) : option Z :=
  (λ u, Z.of_uint u) <$> NilZero.uint_of_string s.
Definition Atoi (s : string) : option Z :=
  z ← match s with
      | String "-" s' => Z.opp <$> parse_digits s'
      | String "+" s' => parse_digits s'
      | _ => parse_digits s
      end ; if in_intb z then Some z else None.

(** ** Lemmas *)
Section StringLemmas.
Local Open Scope string_scope.

Lemma sapp_assoc (a b c : string) : a ++ (b ++ c) = (a ++ b) ++ c.
Proof. induction a as [|x a IH]; cbn; [done|]. by rewrite IH. Qed.

Lemma sapp_nil_r (a : string) : a ++ "" = a.
Proof. induction a as [|x a IH]; cbn; [done|]. by rewrite IH. Qed.

Lemma sapp_inj (a b c : string) : a ++ b = a ++ c → b = c.
Proof. induction a as [|x a IH]; cbn; [done|]. intros [= ?]. auto. Qed.

Lemma slength_app (a b : string) :
  String.length (a ++ b) = (String.length a + String.length b)%nat.
Proof. induction a as [|x a IH]; cbn; [done|]. by rewrite IH. Qed.

(** A prefix, what it leaves and what it takes. *)
Lemma HasPrefix_app (p s : string) : HasPrefix (p ++ s) p = true.
Proof.
  unfold HasPrefix. induction p as [|c p IH]; cbn; [by destruct s|]. by destruct (ascii_dec c c).
Qed.
Lemma sdrop_app (p s : string) : sdrop (String.length p) (p ++ s) = s.
Proof. induction p as [|c p IH]; cbn; [by destruct s|done]. Qed.
Lemma stake_app_length (p s : string) : stake (String.length p) (p ++ s) = p.
Proof. induction p as [|c p IH]; cbn; [by destruct s|by rewrite IH]. Qed.

(** [Split] never returns an empty slice. *)
Lemma Split_nonempty sep s : Split sep s ≠ [].
Proof. destruct s as [|c s]; cbn; [done|]. repeat case_match; done. Qed.

Lemma Join_Split sep s : Join (Split sep s) (chr sep) = s.
Proof.
  induction s as [|c s IH]; cbn; [done|].
  pose proof (Split_nonempty sep s) as Hne.
  destruct (Ascii.eqb_spec c sep) as [->|Hc].
  - destruct (Split sep s) as [|p ps]; [done|]. cbn in *. by rewrite IH.
  - destruct (Split sep s) as [|p ps]; [done|]. cbn in *.
    destruct ps; cbn in *; by rewrite IH.
Qed.

(** A string without the separator. *)
Fixpoint no_sep (sep : ascii) (s : string) : bool :=
  match s with
  | EmptyString => true
  | String c s' => negb (Ascii.eqb c sep) && no_sep sep s'
  end.

Lemma Split_no_sep sep s : no_sep sep s = true → Split sep s = [s].
Proof.
  induction s as [|c s IH]; cbn; [done|].
  rewrite andb_true_iff, negb_true_iff. intros [-> H]. by rewrite IH.
Qed.

Lemma Split_app sep a s :
  no_sep sep a = true → Split sep (a ++ String sep s) = a :: Split sep s.
Proof.
  induction a as [|c a IH]; cbn.
  - by rewrite Ascii.eqb_refl.
  - rewrite andb_true_iff, negb_true_iff. intros [-> H]. by rewrite IH.
Qed.

Lemma Split_Join sep parts :
  parts ≠ [] → Forall (λ p, no_sep sep p = true) parts →
  Split sep (Join parts (chr sep)) = parts.
Proof.
  intros Hne HF. induction HF as [|p ps Hp HF IH]; [done|].
  destruct ps as [|q ps]; [by apply Split_no_sep|].
  change (Join (p :: q :: ps) (chr sep)) with (p ++ String sep (Join (q :: ps) (chr sep))).
  rewrite Split_app by done. by rewrite IH.
Qed.

Lemma Split_no_sep_all sep s : Forall (λ p, no_sep sep p = true) (Split sep s).
Proof.
  induction s as [|c s IH]; cbn; [by repeat constructor|].
  destruct (Ascii.eqb_spec c sep) as [->|Hc]; [by constructor|].
  assert (Ascii.eqb c sep = false) as Hf by (by apply Ascii.eqb_neq).
  destruct (Split sep s) as [|p ps]; cbn.
  - repeat constructor; cbn. by rewrite Hf.
  - inversion_clear IH. constructor; [cbn; rewrite Hf|]; done.
Qed.

Lemma smap_app f a b : smap f (a ++ b) = smap f a ++ smap f b.
Proof. induction a as [|c a IH]; cbn; [done|]. by rewrite IH. Qed.
End StringLemmas.

Lemma lower_ascii_idemp c : lower_ascii (lower_ascii c) = lower_ascii c.
Proof. by destruct c as [[] [] [] [] [] [] [] []]. Qed.

Lemma ToLower_idemp s : ToLower (ToLower s) = ToLower s.
Proof.
  unfold ToLower. induction s as [|c s IH]; cbn; [done|]. by rewrite lower_ascii_idemp, IH.
Qed.

(** ** Decimal round trip *)
Lemma Zto_int_uint z :
  (∃ u, Z.to_int z = Decimal.Pos u ∧ u ≠ Decimal.Nil ∧ 0 ≤ z) ∨
  (∃ u, Z.to_int z = Decimal.Neg u ∧ u ≠ Decimal.Nil ∧ z < 0).
Proof.
  destruct z as [|p|p]; cbn.
  - left. by exists (Decimal.D0 Decimal.Nil).
  - left. exists (Pos.to_uint p). split; [done|]. split; [|lia].
    apply DecimalPos.Unsigned.to_uint_nonnil.
  - right. exists (Pos.to_uint p). split; [done|]. split; [|lia].
    apply DecimalPos.Unsigned.to_uint_nonnil.
Qed.

Lemma uint_of_string_of_uint u :
  u ≠ Decimal.Nil → NilZero.uint_of_string (NilZero.string_of_uint u) = Some u.
Proof. apply NilZero.usu. Qed.

Lemma string_of_uint_head u :
  u ≠ Decimal.Nil → ∃ c s, NilZero.string_of_uint u = String c s ∧
    (48 ≤ nat_of_ascii c ≤ 57)%nat.
Proof. destruct u; intros; try done; eexists _, _; (split; [reflexivity|]);
  split; apply Nat.leb_le; reflexivity.
Qed.

Lemma Zof_to_pos z u : Z.to_int z = Decimal.Pos u → Z.of_uint u = z.
Proof. intros H. pose proof (DecimalZ.of_to z) as Hz. by rewrite H in Hz. Qed.
Lemma Zof_to_neg z u : Z.to_int z = Decimal.Neg u → - Z.of_uint u = z.
Proof. intros H. pose proof (DecimalZ.of_to z) as Hz. by rewrite H in Hz. Qed.

(** Printing an [int] and reading it back is the identity. *)
Lemma Atoi_Itoa z : in_int z → Atoi (Itoa z) = Some z.
Proof.
  intros Hz. unfold Atoi, Itoa, parse_digits.
  destruct (Zto_int_uint z) as [(u & Hu & Hnil & _)|(u & Hu & Hnil & _)]; rewrite Hu.
  - destruct (string_of_uint_head u Hnil) as (c & s & Hs & Hc). cbn -[NilZero.uint_of_string].
    assert (NilZero.uint_of_string (String c s) = Some u) as Hp.
    { rewrite <- Hs. by apply uint_of_string_of_uint. }
    rewrite Hs. rewrite <- (Zof_to_pos _ _ Hu) in Hz |- *.
    apply in_intb_spec in Hz.
    destruct c as [[] [] [] [] [] [] [] []]; 
      try (exfalso; destruct Hc as [Hc1 Hc2]; apply Nat.leb_le in Hc1, Hc2; discriminate);
      rewrite Hp; cbn; by rewrite Hz.
  - cbn -[NilZero.uint_of_string]. rewrite uint_of_string_of_uint by done. cbn.
    rewrite (Zof_to_neg _ _ Hu). apply in_intb_spec in Hz. by rewrite Hz.
Qed.
