(* ===== verification/Ticker.v ===== *)
(** * Ticker: the schedule of the reconciliation task, [utils/ticker.go].

    The parser of schedules and the database of time zones are libraries; a location and a
    parsed schedule are whatever they give.  Clocks models what the goroutine that is started
    for a schedule does with it. *)

From S2P Require Export GoStd.

Section Ticker.
Context {W Location Schedule : Type}.
(** [time.LoadLocation] and [cron.Parser.Parse]. *)
Variable LoadLocation : string → Location + gerror.
Variable Parse : string → Schedule + gerror.

(** [schedule[eq+1:end]] panics when [end] is -1. *)
Definition extractTZ (schedule : string) : M W string :=
  match Index schedule " ", Index schedule "=" with
  | None, _ => panic "slice bounds out of range"
  | Some e, None => mret (stake e schedule)
  | Some e, Some eq =>
      if (S eq <=? e)%nat then mret (stake (e - S eq) (sdrop (S eq) schedule))
      else panic "slice bounds out of range"
  end.
(** The schedule with its zone, and the zone. *)
Definition guaranteeTimeZone (schedule : string) : M W (string * Location) :=
  let schedule := if negb (HasPrefix schedule "TZ=") then ("TZ=UTC " ++ schedule)%string else schedule in
  tz ← extractTZ schedule;
  match LoadLocation tz with
  | inr err => throw err
  | inl loc => mret (schedule, loc)
  end.
(** [NewCronTicker], whose goroutine runs the parsed schedule in the zone. *)
Definition newCronTicker (schedule : string) : M W (Schedule * Location) :=
  '(scheduleWithTZ, loc) ← guaranteeTimeZone schedule;
  match Parse scheduleWithTZ with
  | inr err => throw err
  | inl cronSchedule => mret (cronSchedule, loc)
  end.
End Ticker.

(** ** The zone of a schedule *)
Lemma Index_here s sub : HasPrefix s sub = true → Index s sub = Some 0%nat.
Proof. intros H. destruct s; cbn [Index]; by rewrite H. Qed.
Definition space : ascii := " "%char.
Lemma Index_char_app sep z rest :
  no_sep sep z = true → Index (z ++ String sep rest) (chr sep) = Some (String.length z).
Proof.
  induction z as [|c z IH]; intros Hz.
  - apply Index_here. unfold HasPrefix, chr. cbn. by destruct (ascii_dec sep sep); [destruct rest|].
  - cbn in Hz. apply andb_true_iff in Hz as [Hc Hz]. rewrite negb_true_iff in Hc.
    cbn [String.append Index]. unfold HasPrefix at 1, chr at 1. cbn [String.prefix].
    destruct (ascii_dec sep c) as [->|_]; [by rewrite Ascii.eqb_refl in Hc|]. by rewrite (IH Hz).
Qed.
Lemma Index_char_none sep z : no_sep sep z = true → Index z (chr sep) = None.
Proof.
  induction z as [|c z IH]; intros Hz; [done|].
  cbn in Hz. apply andb_true_iff in Hz as [Hc Hz]. rewrite negb_true_iff in Hc.
  cbn [Index]. unfold HasPrefix at 1, chr at 1. cbn [String.prefix].
  destruct (ascii_dec sep c) as [->|_]; [by rewrite Ascii.eqb_refl in Hc|]. by rewrite (IH Hz).
Qed.
Lemma extractTZ_zone {W} z rest (w : W) :
  no_sep space z = true → extractTZ ("TZ=" ++ z ++ String space rest) w = (Ret z, w).
Proof.
  intros Hz. unfold extractTZ.
  assert (Index ("TZ=" ++ z ++ String space rest) " " = Some (3 + String.length z)%nat) as ->.
  { exact (Index_char_app space ("TZ=" ++ z)%string rest Hz). }
  assert (Index ("TZ=" ++ z ++ String space rest) "=" = Some 2%nat) as ->.
  { exact (Index_char_app "="%char "TZ" (z ++ String space rest)%string eq_refl). }
  cbn [Nat.leb Nat.add]. cbn [Nat.sub]. rewrite Nat.sub_0_r. cbn [sdrop String.append].
  by rewrite stake_app_length.
Qed.

(** The zone of a schedule is the one it names before its first space, or UTC when it
    names none, and it is an error exactly when no such zone is known; but a schedule that
    is nothing except the name of a zone makes the server panic. *)
Theorem schedule_zone {W Location} (LoadLocation : string → Location + gerror) z rest schedule (w : W) :
  let located zone s := match LoadLocation zone with inl loc => Ret (s, loc) | inr e => Throw e end in
  (HasPrefix schedule "TZ=" = false →
     guaranteeTimeZone LoadLocation schedule w = (located "UTC" ("TZ=UTC " ++ schedule)%string, w)) ∧
  (no_sep space z = true →
     guaranteeTimeZone LoadLocation ("TZ=" ++ z ++ String space rest) w
       = (located z ("TZ=" ++ z ++ String space rest)%string, w) ∧
     guaranteeTimeZone LoadLocation ("TZ=" ++ z) w = (Panic "slice bounds out of range", w)).
Proof.
  intros located. unfold guaranteeTimeZone. cbv zeta. split.
  - intros ->. cbn [negb]. rewrite bind_run.
    change ("TZ=UTC " ++ schedule)%string with ("TZ=" ++ "UTC" ++ String space schedule)%string.
    rewrite extractTZ_zone by done. unfold located. by destruct (LoadLocation "UTC").
  - intros H. split.
    { rewrite HasPrefix_app. cbn [negb]. rewrite bind_run, extractTZ_zone by done. unfold located. by destruct (LoadLocation z). }
    rewrite HasPrefix_app. cbn [negb]. rewrite bind_run. unfold extractTZ.
    assert (Index ("TZ=" ++ z) " " = None) as ->; [|done].
    exact (Index_char_none space ("TZ=" ++ z)%string H).
Qed.

Lemma schedule_zone_witness :
  let zones z := if String.eqb z "UTC" then inl tt else inr (Errorf "unknown time zone") in
  guaranteeTimeZone zones "0 0 * * *" tt = (Ret ("TZ=UTC 0 0 * * *"%string, tt), tt) ∧
  guaranteeTimeZone zones "TZ=UTC" tt = (Panic "slice bounds out of range", tt).
Proof.
  intros zones. destruct (schedule_zone zones "UTC" "" "0 0 * * *" tt) as [Hutc Hz].
  split; [exact (Hutc eq_refl)|exact (proj2 (Hz eq_refl))].
Defined.
