(* ===== verification/ApiServer.v ===== *)
(** * ApiServer: what the client tells of its cluster, [adapters/incluster/v1/apiserver.go].

    The calls of the Kubernetes API are parameters; a nil client is [None]. *)

From S2P Require Export Ticker.

Definition azureResourceGroupMarker : string := "/resourceGroups/".
(** [strings.ToLower] and the offsets agree for text of single bytes. *)
Definition parseAzureResourceGroup (providerID : string) : string :=
  match Index (ToLower providerID) (ToLower azureResourceGroupMarker) with
  | None => ""
  | Some idx =>
      let rest := sdrop (idx + String.length azureResourceGroupMarker) providerID in
      match CutBefore "/" rest with Some before => before | None => rest end
  end.

Section Api.
Context {W NodeList : Type}.
Record KubernetesApi : Type := mkKubernetesApi {
  ListNodes : W → (list string * NodeList + gerror) * W;
  GetNamespaceUID : string → W → (string + gerror) * W;
  ServerVersion : W → (string + gerror) * W;
  GetCloudProvider : NodeList → string
}.
Implicit Types (api : option KubernetesApi) (w : W).

Definition api_call {A} (f : W → (A + gerror) * W) : M W A := λ w,
  match f w with (inl a, w') => (Ret a, w') | (inr e, w') => (Throw e, w') end.
Definition getCloudProvider (api : KubernetesApi) : M W string :=
  '(items, nodeList) ← wrapE "failed to list nodes" (api_call (ListNodes api));
  if Nat.eqb (length items) 0 then throw (Errorf "no nodes found in the cluster")
  else mret (GetCloudProvider api nodeList).
(** A failure gives the value that comes with it: ["Unknown"]. *)
Definition getApiServerGitVersion (api : KubernetesApi) : M W (string * option gerror) :=
  r ← attempt (api_call (ServerVersion api));
  match r with inl v => mret (v, None) | inr e => mret ("Unknown"%string, Some e) end.
Definition GetApiServerGitVersionAndCloudProvider api : M W (string * string) :=
  match api with
  | None => mret ("", "")%string
  | Some api =>
      cloud ← attempt (getCloudProvider api);
      version ← getApiServerGitVersion api;
      mret (version.1, match cloud with inl c => c | inr _ => "" end)
  end.
Definition GetClusterUID api : M W string :=
  match api with
  | None => mret ""
  | Some api =>
      r ← attempt (api_call (GetNamespaceUID api "kube-system"));
      mret match r with inl uid => uid | inr _ => "" end
  end.
(** The items of the node list are the provider ids of the nodes. *)
Definition GetResourceGroup api : M W string :=
  match api with
  | None => mret ""
  | Some api =>
      r ← attempt (api_call (ListNodes api));
      mret match r with
           | inl (providerID :: _, _) => parseAzureResourceGroup providerID
           | _ => ""
           end
  end.
End Api.

(** ** The resource group in a provider id *)
Lemma prefix_app_length p s : (String.length p ≤ String.length s)%nat → ∀ t,
  HasPrefix (s ++ t) p = HasPrefix s p.
Proof.
  unfold HasPrefix. revert s. induction p as [|c p IH]; intros s Hlen t; [by destruct s, t|].
  destruct s as [|d s]; cbn in *; [lia|]. destruct (ascii_dec c d); [|done]. apply IH. lia.
Qed.
Lemma CutBefore_app sep a b : no_sep sep a = true → CutBefore sep (a ++ String sep b) = Some a.
Proof.
  induction a as [|c a IH]; cbn; [by rewrite Ascii.eqb_refl|].
  rewrite andb_true_iff, negb_true_iff. intros [-> Ha]. by rewrite (IH Ha).
Qed.
Lemma CutBefore_none sep a : no_sep sep a = true → CutBefore sep a = None.
Proof.
  induction a as [|c a IH]; cbn; [done|]. rewrite andb_true_iff, negb_true_iff. intros [-> Ha]. by rewrite (IH Ha).
Qed.
Lemma CutBefore_no_sep sep s a : CutBefore sep s = Some a → no_sep sep a = true.
Proof.
  revert a. induction s as [|c s IH]; cbn; [done|]. intros a. destruct (Ascii.eqb c sep) eqn:Hc.
  - by intros [= <-].
  - destruct (CutBefore sep s) as [b|]; cbn; [|done]. intros [= <-]. cbn. by rewrite Hc, IH.
Qed.
Lemma CutBefore_None_no_sep sep s : CutBefore sep s = None → no_sep sep s = true.
Proof.
  induction s as [|c s IH]; cbn; [done|]. destruct (Ascii.eqb c sep) eqn:Hc; [done|].
  destruct (CutBefore sep s); cbn; [done|]. intros _. by rewrite IH.
Qed.
(** What follows the first occurrence does not move it. *)
Lemma Index_app_stable s sub t n :
  Index s sub = Some n → (n + String.length sub ≤ String.length s)%nat → Index (s ++ t) sub = Some n.
Proof.
  revert n. induction s as [|c s IH]; intros n Hi Hlen.
  - cbn [Index] in Hi. destruct (HasPrefix "" sub) eqn:Hp; [|done]. injection Hi as <-.
    destruct sub; [|cbn in Hlen; lia]. by apply Index_here; destruct t.
  - cbn [Index] in Hi. cbn [String.append Index]. change (String c (s ++ t)) with (String c s ++ t)%string.
    destruct (HasPrefix (String c s) sub) eqn:Hp.
    + injection Hi as <-. rewrite prefix_app_length by (cbn in *; lia). by rewrite Hp.
    + destruct (Index s sub) as [k|] eqn:Hk; [|done]. injection Hi as <-. cbn in Hlen.
      assert (k + String.length sub ≤ String.length s)%nat as Hle by lia.
      rewrite prefix_app_length by (cbn; lia). rewrite Hp. by rewrite (IH k eq_refl Hle).
Qed.
Lemma smap_length f s : String.length (smap f s) = String.length s.
Proof. induction s as [|c s IH]; cbn; congruence. Qed.

(** The resource group found in the id of a node is the segment that follows the first
    marker, in whatever case the marker is written and whether or not more follows; it
    never contains a slash; and an id without the marker has none. *)
Theorem azure_resource_group p m rg rest :
  (ToLower m = ToLower azureResourceGroupMarker → Index (ToLower (p ++ m)) (ToLower m) = Some (String.length p) →
   no_sep slash rg = true →
   parseAzureResourceGroup (p ++ m ++ rg) = rg ∧ parseAzureResourceGroup (p ++ m ++ rg ++ String slash rest) = rg) ∧
  no_sep slash (parseAzureResourceGroup p) = true ∧
  (Contains (ToLower p) (ToLower azureResourceGroupMarker) = false → parseAzureResourceGroup p = "").
Proof.
  split; [|split].
  - intros Hm Hfirst Hrg.
    assert (String.length m = String.length azureResourceGroupMarker) as Hlen.
    { apply (f_equal String.length) in Hm. unfold ToLower in Hm. by rewrite !smap_length in Hm. }
    assert (∀ t, parseAzureResourceGroup (p ++ m ++ t) = match CutBefore "/" t with Some b => b | None => t end) as Hparse.
    { intros t. unfold parseAzureResourceGroup. rewrite sapp_assoc. unfold ToLower at 1. rewrite smap_app.
      change (smap lower_ascii ?x) with (ToLower x). rewrite <- Hm.
      rewrite (Index_app_stable _ _ (ToLower t) _ Hfirst).
      2: { unfold ToLower. rewrite !smap_length, slength_app. lia. }
      rewrite <- Hlen, <- slength_app, sdrop_app. done. }
    rewrite !Hparse. rewrite CutBefore_none by done. by rewrite (CutBefore_app slash).
  - unfold parseAzureResourceGroup. destruct (Index _ _) as [n|]; [|done].
    destruct (CutBefore "/" _) as [b|] eqn:Hc; [by eapply CutBefore_no_sep|by apply CutBefore_None_no_sep].
  - unfold Contains, parseAzureResourceGroup. by destruct (Index _ _).
Qed.

Lemma azure_resource_group_witness :
  parseAzureResourceGroup "azure:///subscriptions/s1/RESOURCEGROUPS/mc_prod/providers/x" = "mc_prod" ∧
  parseAzureResourceGroup "aws:///eu-west-1a/i-0123" = "".
Proof.
  split.
  - apply (azure_resource_group "azure:///subscriptions/s1" "/RESOURCEGROUPS/" "mc_prod" "providers/x"); reflexivity.
  - apply (azure_resource_group "aws:///eu-west-1a/i-0123" "" "" ""). reflexivity.
Defined.
