(* ===== verification/Json.v ===== *)
(** * Json: Go's [encoding/json] on values, as the message codecs use it.

    A document is a [json] tree; [print] is the compact text [json.Marshal] writes
    (strings escaped as Go escapes them, HTML-safe, invalid UTF-8 replaced), and
    [parse] is the reader behind [json.Unmarshal].  A number keeps its literal, as
    Go keeps it until it knows the type of the target.  The nesting limit of Go's
    scanner (10000) is not modelled: the messages nest five levels.

    [parse_print] is the round trip: reading what was written gives the tree back
    with each string made valid UTF-8. *)

From S2P Require Export GoStd.

Inductive json : Type :=
| JNull
| JBool (b : bool)
| JNum (lit : string)
| JStr (s : string)
| JArr (l : list json)
| JObj (ms : list (string * json)).

Section JsonInd.
Variable P : json → Prop.
Hypothesis HNull : P JNull.
Hypothesis HBool : ∀ b, P (JBool b).
Hypothesis HNum : ∀ l, P (JNum l).
Hypothesis HStr : ∀ s, P (JStr s).
Hypothesis HArr : ∀ l, Forall P l → P (JArr l).
Hypothesis HObj : ∀ ms, Forall (λ kv, P (kv.2)) ms → P (JObj ms).

Fixpoint json_nested_ind (j : json) : P j :=
  match j with
  | JNull => HNull
  | JBool b => HBool b
  | JNum l => HNum l
  | JStr s => HStr s
  | JArr l => HArr l ((fix go (l : list json) : Forall P l := match l with
      | [] => Forall_nil_2 _ | x :: l' => Forall_cons_2 _ _ _ (json_nested_ind x) (go l') end) l)
  | JObj ms => HObj ms ((fix go (l : list (string * json)) : Forall (λ kv, P (kv.2)) l := match l with
      | [] => Forall_nil_2 _ | x :: l' => Forall_cons_2 (λ kv, P (kv.2)) x l' (json_nested_ind (x.2)) (go l') end) ms)
  end.
End JsonInd.

(** ** Bytes *)
Definition code (c : ascii) : N := N_of_ascii c.
Definition between (lo hi : N) (c : ascii) : bool := N.leb lo (code c) && N.leb (code c) hi.
Definition dq : ascii := "034"%char.
Definition bs : ascii := "\"%char.
Definition byte (n : N) : ascii := ascii_of_N n.
Definition bytes (l : list N) : string := foldr (λ n, String (byte n)) EmptyString l.
Definition is_digit : ascii → bool := between 48 57.
Definition is_space (c : ascii) : bool :=
  Ascii.eqb c " " || Ascii.eqb c "009" || Ascii.eqb c "010" || Ascii.eqb c "013".

(** ** UTF-8: [utf8.DecodeRune]

    The width of the rune at the head of the string; [0] when the bytes there are
    not a valid encoding (Go then reads one byte as U+FFFD). *)
Definition is_cont : ascii → bool := between 128 191.
Definition lead3 (a b : ascii) : bool :=
  (between 224 224 a && between 160 191 b)
  || (between 225 236 a && is_cont b)
  || (between 237 237 a && between 128 159 b)
  || (between 238 239 a && is_cont b).
Definition lead4 (a b : ascii) : bool :=
  (between 240 240 a && between 144 191 b)
  || (between 241 243 a && is_cont b)
  || (between 244 244 a && between 128 143 b).
Definition utf8_width (s : string) : nat :=
  match s with
  | String a (String b r) =>
      if between 194 223 a && is_cont b then 2
      else match r with
           | String c r' =>
               if lead3 a b && is_cont c then 3
               else match r' with
                    | String d _ => if lead4 a b && is_cont c && is_cont d then 4 else 0
                    | EmptyString => 0
                    end
           | EmptyString => 0
           end
  | _ => 0
  end%nat.

(** The UTF-8 encoding of a code point below U+110000 that is not a surrogate. *)
Definition utf8_encode (n : N) : string :=
  (if N.ltb n 128 then bytes [n]
   else if N.ltb n 2048 then bytes [192 + n / 64; 128 + n mod 64]
   else if N.ltb n 65536 then bytes [224 + n / 4096; 128 + (n / 64) mod 64; 128 + n mod 64]
   else bytes [240 + n / 262144; 128 + (n / 4096) mod 64; 128 + (n / 64) mod 64; 128 + n mod 64])%N.
Definition replacement : string := bytes [239; 191; 189]%N.

(** U+2028 and U+2029, which Go escapes inside strings. *)
Definition line_sep (s : string) : bool :=
  match s with
  | String a (String b (String c _)) =>
      between 226 226 a && between 128 128 b && between 168 169 c
  | _ => false
  end.

(** ** Writing strings *)
Definition hex_digit (n : N) : ascii :=
  byte (if N.ltb n 10 then 48 + n else 87 + n)%N.
Definition escape_byte (c : ascii) : string :=
  let n := code c in
  if Ascii.eqb c dq then String bs (chr dq)
  else if Ascii.eqb c bs then String bs (chr bs)
  else match n with
       | 8%N => "\b"
       | 9%N => "\t"
       | 10%N => "\n"
       | 12%N => "\f"
       | 13%N => "\r"
       | _ => if N.ltb n 32 || Ascii.eqb c "<" || Ascii.eqb c ">" || Ascii.eqb c "&"
              then ("\u00" ++ String (hex_digit (n / 16)%N) (chr (hex_digit (n mod 16)%N)))%string
              else chr c
       end.

(** The body of a quoted string; [k] bytes of a rune already recognised are still
    to be copied ([cp]) or dropped. *)
Fixpoint quote_go (cp : bool) (k : nat) (s : string) : string :=
  match s with
  | EmptyString => EmptyString
  | String c s' =>
      match k with
      | S k' => if cp then String c (quote_go cp k' s') else quote_go cp k' s'
      | O =>
          if N.ltb (code c) 128 then (escape_byte c ++ quote_go cp 0 s')%string
          else match utf8_width s with
               | O => ("\ufffd" ++ quote_go cp 0 s')%string
               | S w => if line_sep s
                        then ("\u202" ++ String (hex_digit (match s' with
                               | String _ (String c' _) => (code c' - 160)%N | _ => 0%N end))
                               (quote_go false w s'))%string
                        else String c (quote_go true w s')
               end
      end
  end.
Definition quote (s : string) : string :=
  String dq (quote_go true 0 s ++ chr dq)%string.

(** ** Reading strings *)
Definition hex_val (c : ascii) : option N :=
  if is_digit c then Some (code c - 48)%N
  else if between 97 102 c then Some (code c - 87)%N
  else if between 65 70 c then Some (code c - 55)%N
  else None.
Definition hex4 (a b c d : ascii) : option N :=
  match hex_val a, hex_val b, hex_val c, hex_val d with
  | Some w, Some x, Some y, Some z => Some (4096 * w + 256 * x + 16 * y + z)%N
  | _, _, _, _ => None
  end.
Definition simple_escape (c : ascii) : option ascii :=
  if Ascii.eqb c dq then Some dq
  else if Ascii.eqb c bs then Some bs
  else if Ascii.eqb c "/" then Some "/"%char
  else if Ascii.eqb c "b" then Some (byte 8)
  else if Ascii.eqb c "f" then Some (byte 12)
  else if Ascii.eqb c "n" then Some (byte 10)
  else if Ascii.eqb c "r" then Some (byte 13)
  else if Ascii.eqb c "t" then Some (byte 9)
  else None.
Definition is_surrogate (n : N) : bool := N.leb 55296 n && N.ltb n 57344.
Definition pre (p : string) (r : option (string * string)) : option (string * string) :=
  (λ '(a, b), ((p ++ a)%string, b)) <$> r.

(** The content of a string whose opening quote was read, and what follows its
    closing quote. *)
Fixpoint unquote_go (k : nat) (s : string) : option (string * string) :=
  match s with
  | EmptyString => None
  | String c s' =>
      match k with
      | S k' => pre (chr c) (unquote_go k' s')
      | O =>
          if Ascii.eqb c dq then Some (EmptyString, s')
          else if Ascii.eqb c bs then
            match s' with
            | EmptyString => None
            | String e r =>
                if Ascii.eqb e "u" then
                  match r with
                  | String h1 (String h2 (String h3 (String h4 r1))) =>
                      match hex4 h1 h2 h3 h4 with
                      | None => None
                      | Some n =>
                          if is_surrogate n then
                            match r1 with
                            | String x1 (String x2 (String g1 (String g2 (String g3 (String g4 r2))))) =>
                                match hex4 g1 g2 g3 g4 with
                                | Some m =>
                                    if Ascii.eqb x1 bs && Ascii.eqb x2 "u"
                                       && N.ltb n 56320 && N.leb 56320 m && N.ltb m 57344
                                    then pre (utf8_encode (65536 + 1024 * (n - 55296) + (m - 56320))%N)
                                             (unquote_go 0 r2)
                                    else pre replacement (unquote_go 0 r1)
                                | None => pre replacement (unquote_go 0 r1)
                                end
                            | _ => pre replacement (unquote_go 0 r1)
                            end
                          else pre (utf8_encode n) (unquote_go 0 r1)
                      end
                  | _ => None
                  end
                else match simple_escape e with
                     | Some x => pre (chr x) (unquote_go 0 r)
                     | None => None
                     end
            end
          else if N.ltb (code c) 32 then None
          else if N.ltb (code c) 128 then pre (chr c) (unquote_go 0 s')
          else match utf8_width s with
               | O => pre replacement (unquote_go 0 s')
               | S w => pre (chr c) (unquote_go w s')
               end
      end
  end.

(** [strings.ToValidUTF8(s, "\uFFFD")], one replacement per invalid byte. *)
Fixpoint sanitize_go (k : nat) (s : string) : string :=
  match s with
  | EmptyString => EmptyString
  | String c s' =>
      match k with
      | S k' => String c (sanitize_go k' s')
      | O => if N.ltb (code c) 128 then String c (sanitize_go 0 s')
             else match utf8_width s with
                  | O => (replacement ++ sanitize_go 0 s')%string
                  | S w => String c (sanitize_go w s')
                  end
      end
  end.
Definition sanitize : string → string := sanitize_go 0.
(** [utf8.ValidString]. *)
Definition utf8_valid (s : string) : bool := String.eqb (sanitize s) s.

(** ** Strings round trip *)
Lemma pre_Some p a b : pre p (Some (a, b)) = Some ((p ++ a)%string, b).
Proof. reflexivity. Qed.

(** The escape of an ASCII byte reads back as that byte. *)
Lemma unquote_escape c t :
  N.ltb (code c) 128 = true →
  unquote_go 0 (escape_byte c ++ t) = pre (chr c) (unquote_go 0 t).
Proof.
  destruct c as [[] [] [] [] [] [] [] []]; intros H; try discriminate H; reflexivity.
Qed.

Lemma unquote_copy p t :
  unquote_go (String.length p) (p ++ t) = pre p (unquote_go 0 t).
Proof.
  induction p as [|c p IH]; cbn.
  - by destruct (unquote_go 0 t) as [[]|].
  - rewrite IH. by destruct (unquote_go 0 t) as [[]|].
Qed.

Lemma quote_copy k s : quote_go true k s = (stake k s ++ quote_go true 0 (sdrop k s))%string.
Proof. revert s. induction k as [|k IH]; intros [|c s]; cbn; [done..|]. by rewrite IH. Qed.
Lemma quote_cp cp cp' s : quote_go cp 0 s = quote_go cp' 0 s.
Proof.
  induction s as [|c s IH]; cbn -[utf8_width line_sep escape_byte]; [done|].
  by rewrite IH.
Qed.
Lemma quote_drop k s : quote_go false k s = quote_go true 0 (sdrop k s).
Proof.
  revert s. induction k as [|k IH]; intros s; [apply quote_cp|].
  destruct s as [|c s]; [done|]. apply IH.
Qed.
Lemma sanitize_copy k s : sanitize_go k s = (stake k s ++ sanitize (sdrop k s))%string.
Proof. revert s. induction k as [|k IH]; intros [|c s]; cbn; [done..|]. by rewrite IH. Qed.

Lemma utf8_width_app c s w t :
  utf8_width (String c s) = S w →
  String.length (stake w s) = w ∧ utf8_width (String c (stake w s ++ t)) = S w.
Proof.
  cbn. destruct s as [|b s]; [done|].
  destruct (between 194 223 c && is_cont b) eqn:E2.
  { intros [= <-]. cbn. by rewrite E2. }
  destruct s as [|d s]; [done|].
  destruct (lead3 c b && is_cont d) eqn:E3.
  { intros [= <-]. cbn. by rewrite E2, E3. }
  destruct s as [|f s]; [done|].
  destruct (lead4 c b && is_cont d && is_cont f) eqn:E4; intros [= <-].
  cbn. by rewrite E2, E3, E4.
Qed.

Lemma line_sep_shape c s w :
  line_sep (String c s) = true → utf8_width (String c s) = S w →
  ∃ d s', c = byte 226 ∧ s = String (byte 128) (String d s') ∧ w = 2%nat ∧
          (d = byte 168 ∨ d = byte 169).
Proof.
  destruct s as [|b [|d s]]; [done..|]. cbn -[utf8_width].
  rewrite !andb_true_iff. intros [[Hc Hb] Hd] Hw.
  assert (c = byte 226) as -> by (by destruct c as [[] [] [] [] [] [] [] []]).
  assert (b = byte 128) as -> by (by destruct b as [[] [] [] [] [] [] [] []]).
  assert (d = byte 168 ∨ d = byte 169) as Hd'
    by (destruct d as [[] [] [] [] [] [] [] []]; try discriminate Hd; auto).
  exists d, s. destruct Hd' as [-> | ->]; cbn in Hw; injection Hw as <-; auto.
Qed.

Lemma sdrop_length k s : (String.length (sdrop k s) ≤ String.length s)%nat.
Proof. revert s. induction k; intros [|c s]; cbn; [lia..|]. specialize (IHk s). lia. Qed.

Lemma unquote_body s rest :
  unquote_go 0 (quote_go true 0 s ++ String dq rest) = Some (sanitize s, rest).
Proof.
  remember (String.length s) as n eqn:Hn. revert s Hn.
  induction n as [n IH] using lt_wf_ind. intros [|c s] ->; [reflexivity|].
  assert (∀ k, unquote_go 0 (quote_go true 0 (sdrop k s) ++ String dq rest)
             = Some (sanitize (sdrop k s), rest)) as IHk.
  { intros k. eapply IH; [|done]. pose proof (sdrop_length k s). cbn. lia. }
  pose proof (IHk 0%nat) as IH0. cbn in IH0. clear IH.
  cbn -[utf8_width line_sep escape_byte]. unfold sanitize. cbn -[utf8_width line_sep escape_byte].
  destruct (N.ltb (code c) 128) eqn:Hc.
  { by rewrite <- sapp_assoc, unquote_escape, IH0 by done. }
  destruct (utf8_width (String c s)) as [|w] eqn:Hw.
  { change (pre replacement (unquote_go 0 (quote_go true 0 s ++ String dq rest))
            = Some ((replacement ++ sanitize_go 0 s)%string, rest)).
    by rewrite IH0. }
  destruct (line_sep (String c s)) eqn:Hl.
  { destruct (line_sep_shape _ _ _ Hl Hw) as (d & s' & -> & -> & -> & Hd).
    rewrite quote_drop. specialize (IHk 2%nat). cbn in IHk |- *.
    destruct Hd as [-> | ->]; vm_compute hex_digit; cbn; rewrite IHk; reflexivity. }
  rewrite quote_copy, sanitize_copy. cbn -[utf8_width]. rewrite <- sapp_assoc.
  destruct (utf8_width_app c s w (quote_go true 0 (sdrop w s) ++ String dq rest) Hw) as [Hlen Hw'].
  assert (Ascii.eqb c dq = false ∧ Ascii.eqb c bs = false ∧ N.ltb (code c) 32 = false)
    as (-> & -> & ->) by (by destruct c as [[] [] [] [] [] [] [] []]).
  rewrite Hc, Hw'. rewrite <- Hlen at 1. by rewrite unquote_copy, IHk.
Qed.

(** ** Documents *)
Fixpoint print (j : json) : string :=
  match j with
  | JNull => "null"
  | JBool true => "true"
  | JBool false => "false"
  | JNum lit => lit
  | JStr s => quote s
  | JArr l => ("[" ++ Join (map print l) "," ++ "]")%string
  | JObj ms => ("{" ++ Join (map (λ kv, quote (kv.1) ++ ":" ++ print (kv.2))%string ms) "," ++ "}")%string
  end.

Fixpoint skip_ws (s : string) : string :=
  match s with
  | String c s' => if is_space c then skip_ws s' else s
  | EmptyString => EmptyString
  end.

(** The longest run of digits, and what follows. *)
Fixpoint take_digits (s : string) : string * string :=
  match s with
  | String c s' => if is_digit c then let '(d, r) := take_digits s' in (String c d, r)
                   else (EmptyString, s)
  | EmptyString => (EmptyString, EmptyString)
  end.
Definition scan_digits1 (s : string) : option (string * string) :=
  match take_digits s with
  | (EmptyString, _) => None
  | r => Some r
  end.
Definition scan_int (s : string) : option (string * string) :=
  match s with
  | String "0" s' => Some ("0", s')
  | _ => scan_digits1 s
  end.
Definition scan_frac (s : string) : option (string * string) :=
  match s with
  | String "." s' => pre "." (scan_digits1 s')
  | _ => Some (EmptyString, s)
  end.
Definition scan_exp (s : string) : option (string * string) :=
  match s with
  | String c s' =>
      if Ascii.eqb c "e" || Ascii.eqb c "E" then
        match s' with
        | String d s'' => if Ascii.eqb d "+" || Ascii.eqb d "-"
                          then pre (String c (chr d)) (scan_digits1 s'')
                          else pre (chr c) (scan_digits1 s')
        | EmptyString => None
        end
      else Some (EmptyString, s)
  | EmptyString => Some (EmptyString, s)
  end.
(** A number literal at the head of the text. *)
Definition scan_number (s : string) : option (string * string) :=
  '(sg, s0) ← Some (match s with String "-" s' => ("-", s') | _ => (EmptyString, s) end);
  '(i, s1) ← scan_int s0;
  '(f, s2) ← scan_frac s1;
  '(e, s3) ← scan_exp s2;
  Some ((sg ++ i ++ f ++ e)%string, s3).

(** [parse_val n s] reads one value; [n] bounds the number of calls and is spent one
    per value, element or member, each of which takes at least one byte of text. *)
Fixpoint parse_val (n : nat) (s : string) : option (json * string) :=
  match n with
  | O => None
  | S n =>
      match skip_ws s with
      | EmptyString => None
      | String c r =>
          if Ascii.eqb c dq then '(str, r') ← unquote_go 0 r; Some (JStr str, r')
          else if Ascii.eqb c "{" then
            match skip_ws r with
            | String "}" r' => Some (JObj [], r')
            | _ => '(ms, r') ← parse_members n r; Some (JObj ms, r')
            end
          else if Ascii.eqb c "[" then
            match skip_ws r with
            | String "]" r' => Some (JArr [], r')
            | _ => '(l, r') ← parse_elems n r; Some (JArr l, r')
            end
          else if HasPrefix (String c r) "null" then Some (JNull, sdrop 3 r)
          else if HasPrefix (String c r) "true" then Some (JBool true, sdrop 3 r)
          else if HasPrefix (String c r) "false" then Some (JBool false, sdrop 4 r)
          else '(lit, r') ← scan_number (String c r); Some (JNum lit, r')
      end
  end
with parse_elems (n : nat) (s : string) : option (list json * string) :=
  match n with
  | O => None
  | S n =>
      '(v, r) ← parse_val n s;
      match skip_ws r with
      | String "," r' => '(vs, r'') ← parse_elems n r'; Some (v :: vs, r'')
      | String "]" r' => Some ([v], r')
      | _ => None
      end
  end
with parse_members (n : nat) (s : string) : option (list (string * json) * string) :=
  match n with
  | O => None
  | S n =>
      match skip_ws s with
      | String c r =>
          if Ascii.eqb c dq then
            '(k, r1) ← unquote_go 0 r;
            match skip_ws r1 with
            | String ":" r2 =>
                '(v, r3) ← parse_val n r2;
                match skip_ws r3 with
                | String "," r' => '(ms, r'') ← parse_members n r'; Some ((k, v) :: ms, r'')
                | String "}" r' => Some ([(k, v)], r')
                | _ => None
                end
            | _ => None
            end
          else None
      | EmptyString => None
      end
  end.

(** A whole text is one value and blanks. *)
Definition parse (s : string) : option json :=
  '(j, r) ← parse_val (S (String.length s)) s;
  match skip_ws r with EmptyString => Some j | _ => None end.

(** The tree that reading a written tree gives: its strings as valid UTF-8. *)
Fixpoint jsanitize (j : json) : json :=
  match j with
  | JStr s => JStr (sanitize s)
  | JArr l => JArr (map jsanitize l)
  | JObj ms => JObj (map (λ kv, (sanitize (kv.1), jsanitize (kv.2))) ms)
  | _ => j
  end.
(** Every number of the tree is an integer, as in all the program's messages. *)
Fixpoint int_nums (j : json) : Prop :=
  match j with
  | JNum lit => ∃ z, lit = Itoa z
  | JArr l => foldr (λ x P, int_nums x ∧ P) True l
  | JObj ms => foldr (λ x P, int_nums (x.2) ∧ P) True ms
  | _ => True
  end.

(** ** Documents round trip *)
Definition num_stop (s : string) : Prop :=
  match s with
  | EmptyString => True
  | String c _ => is_digit c = false ∧ Ascii.eqb c "." = false ∧
                  Ascii.eqb c "e" = false ∧ Ascii.eqb c "E" = false
  end.

Section Numbers.
Import Decimal.

Lemma take_digits_uint u rest :
  num_stop rest →
  take_digits (NilEmpty.string_of_uint u ++ rest) = (NilEmpty.string_of_uint u, rest).
Proof.
  intros Hr. induction u; cbn; try (rewrite IHu; done).
  destruct rest as [|c r]; [done|]. destruct Hr as [Hd _]. cbn. by rewrite Hd.
Qed.

Lemma nzhead_not_D0 u v : nzhead u ≠ D0 v.
Proof. induction u; cbn; congruence. Qed.

(** The digits [Itoa] writes: a lone zero, or no leading zero. *)
Lemma Zto_int_normal z u :
  Z.to_int z = Pos u ∨ Z.to_int z = Neg u →
  u = D0 Nil ∨ (u ≠ Nil ∧ ∀ v, u ≠ D0 v).
Proof.
  intros H. pose proof (DecimalZ.to_of (Z.to_int z)) as Hn.
  rewrite DecimalZ.of_to in Hn. destruct H as [H|H]; rewrite H in Hn; cbn in Hn.
  - injection Hn as Hn. unfold unorm in Hn. pose proof (nzhead_not_D0 u).
    destruct (nzhead u) eqn:E; subst; auto; right; split; congruence.
  - pose proof (nzhead_not_D0 u). destruct (nzhead u) eqn:E; try discriminate Hn;
      injection Hn as Hn; subst; right; split; congruence.
Qed.

Lemma scan_int_uint u rest :
  (u = D0 Nil ∨ (u ≠ Nil ∧ ∀ v, u ≠ D0 v)) → num_stop rest →
  scan_int (NilZero.string_of_uint u ++ rest) = Some (NilZero.string_of_uint u, rest).
Proof.
  intros [->|[Hnil HD0]] Hr; [done|].
  pose proof (take_digits_uint u rest Hr) as Ht.
  destruct u; try done; try (by destruct (HD0 u));
    unfold scan_int, scan_digits1; cbn -[take_digits] in *; rewrite Ht; done.
Qed.

Lemma scan_tail rest :
  num_stop rest → scan_frac rest = Some (EmptyString, rest) ∧
                  scan_exp rest = Some (EmptyString, rest).
Proof.
  destruct rest as [|c r]; [done|]. intros (Hd & Hdot & He & HE). split.
  - by destruct c as [[] [] [] [] [] [] [] []].
  - cbn. by rewrite He, HE.
Qed.

Lemma scan_number_Itoa z rest :
  num_stop rest → scan_number (Itoa z ++ rest) = Some (Itoa z, rest).
Proof.
  intros Hr. unfold Itoa.
  destruct (Zto_int_uint z) as [(u & Hu & Hnil & _)|(u & Hu & Hnil & _)]; rewrite Hu.
  - pose proof (scan_int_uint u rest (Zto_int_normal z u (or_introl Hu)) Hr) as Hi.
    destruct (string_of_uint_head u Hnil) as (c & s & Hs & Hc).
    cbn -[NilZero.string_of_uint]. rewrite Hs in Hi |- *. cbn [String.append] in Hi |- *.
    unfold scan_number.
    assert (c ≠ "-"%char) as Hm.
    { intros ->. destruct Hc as [Hc _]. apply Nat.leb_le in Hc. discriminate Hc. }
    assert (match String c (s ++ rest) with
            | String "-" s' => ("-", s') | _ => (EmptyString, String c (s ++ rest)) end
            = (EmptyString, String c (s ++ rest))) as ->.
    { by destruct c as [[] [] [] [] [] [] [] []]. }
    cbn -[scan_int scan_frac scan_exp]. rewrite Hi. cbn -[scan_frac scan_exp].
    destruct (scan_tail rest Hr) as [-> He]. cbn -[scan_exp]. rewrite He. cbn.
    by rewrite sapp_nil_r.
  - pose proof (scan_int_uint u rest (Zto_int_normal z u (or_intror Hu)) Hr) as Hi.
    cbn -[NilZero.string_of_uint]. unfold scan_number.
    cbn -[scan_int scan_frac scan_exp NilZero.string_of_uint].
    rewrite Hi. cbn -[scan_frac scan_exp NilZero.string_of_uint].
    destruct (scan_tail rest Hr) as [-> He]. cbn -[scan_exp NilZero.string_of_uint].
    rewrite He. cbn -[NilZero.string_of_uint]. by rewrite sapp_nil_r.
Qed.

Lemma Itoa_head z : ∃ c s, Itoa z = String c s ∧
  (is_digit c = true ∨ c = "-"%char).
Proof.
  unfold Itoa.
  destruct (Zto_int_uint z) as [(u & Hu & Hnil & _)|(u & Hu & Hnil & _)]; rewrite Hu.
  - destruct u; try done; eexists _, _; (split; [reflexivity|by left]).
  - eexists _, _. split; [reflexivity|by right].
Qed.
End Numbers.

(** What spending a unit of fuel per value, element and member costs. *)
Fixpoint jsize (j : json) : nat :=
  match j with
  | JArr l => S (foldr (λ x n, S (jsize x) + n) 0 l)
  | JObj ms => S (foldr (λ x n, S (jsize (x.2)) + n) 0 ms)
  | _ => 1
  end%nat.

(** How the text of a value can start. *)
Definition value_start (c : ascii) : bool :=
  negb (is_space c) && negb (Ascii.eqb c "]") && negb (Ascii.eqb c "}")
  && negb (Ascii.eqb c ",") && negb (Ascii.eqb c ":").
Lemma print_head j : int_nums j → ∃ c s, print j = String c s ∧ value_start c = true.
Proof.
  destruct j as [|[]|lit|s|l|ms]; intros Hj; cbn in *;
    try (eexists _, _; split; [reflexivity|reflexivity]).
  destruct Hj as [z ->]. destruct (Itoa_head z) as (c & s & -> & Hc).
  exists c, s. split; [done|].
  destruct Hc as [Hc| ->]; [|done]. by destruct c as [[] [] [] [] [] [] [] []].
Qed.

Lemma skip_ws_start c s : value_start c = true → skip_ws (String c s) = String c s.
Proof. unfold value_start. cbn. by destruct (is_space c). Qed.

Lemma Join_cons2 p q ps sep : Join (p :: q :: ps) sep = (p ++ sep ++ Join (q :: ps) sep)%string.
Proof. reflexivity. Qed.

Definition reads_back (j : json) : Prop :=
  ∀ n rest, num_stop rest → (jsize j ≤ n)%nat →
    parse_val n (print j ++ rest)%string = Some (jsanitize j, rest).

Lemma parse_elems_print l : l ≠ [] → Forall int_nums l → Forall reads_back l →
  ∀ n rest, (foldr (λ x n, S (jsize x) + n) 0 l ≤ n)%nat →
    parse_elems n (Join (map print l) "," ++ String "]" rest)%string
    = Some (map jsanitize l, rest).
Proof.
  intros Hne Hint HF. induction HF as [|x l Hx HF IH]; [done|]. intros n rest Hn.
  inversion_clear Hint. cbn in Hn. destruct n as [|n]; [lia|].
  destruct l as [|y l].
  - cbn -[print jsanitize]. rewrite Hx; [done|done|lia].
  - cbn [map]. rewrite Join_cons2, <- !sapp_assoc. cbn [parse_elems].
    rewrite Hx; [|done|lia]. cbn -[Join parse_elems print jsanitize].
    change (print y :: map print l) with (map print (y :: l)).
    rewrite IH; [done..|]. cbn in Hn |- *. lia.
Qed.

Definition print_member (kv : string * json) : string :=
  (quote (kv.1) ++ ":" ++ print (kv.2))%string.

Lemma parse_member_step n k x t rest :
  reads_back x → num_stop t → (jsize x ≤ n)%nat →
  parse_members (S n) (print_member (k, x) ++ t)%string = Some rest ↔
  match skip_ws t with
  | String "," r' => '(ms, r'') ← parse_members n r';
                     Some ((sanitize k, jsanitize x) :: ms, r'')
  | String "}" r' => Some ([(sanitize k, jsanitize x)], r')
  | _ => None
  end = Some rest.
Proof.
  intros Hx Ht Hn. unfold print_member. cbn [fst snd].
  unfold quote. rewrite <- !sapp_assoc.
  cbn -[print jsanitize unquote_go quote_go parse_val skip_ws].
  rewrite <- !sapp_assoc. cbn -[print jsanitize unquote_go quote_go parse_val].
  rewrite unquote_body. cbn -[print jsanitize unquote_go quote_go parse_val].
  rewrite Hx by done. done.
Qed.

Lemma parse_members_print ms : ms ≠ [] → Forall (λ kv, reads_back (kv.2)) ms →
  ∀ n rest, (foldr (λ x n, S (jsize (x.2)) + n) 0 ms ≤ n)%nat →
    parse_members n (Join (map print_member ms) "," ++ String "}" rest)%string
    = Some (map (λ kv, (sanitize (kv.1), jsanitize (kv.2))) ms, rest).
Proof.
  intros Hne HF. induction HF as [|[k x] ms Hx HF IH]; [done|]. intros n rest Hn.
  cbn in Hn. destruct n as [|n]; [lia|].
  destruct ms as [|[k' y] ms].
  - apply parse_member_step; [done|done|lia|done].
  - cbn [map]. rewrite Join_cons2, <- !sapp_assoc.
    apply parse_member_step; [done|done|lia|].
    cbn -[Join parse_members print_member].
    change (print_member (k', y) :: ?r) with (map print_member ((k', y) :: ms)).
    rewrite IH; [done..|]. cbn in Hn |- *. lia.
Qed.

Lemma int_nums_arr l : int_nums (JArr l) → Forall int_nums l.
Proof.
  cbn. induction l as [|x l IH]; cbn; [constructor|]. intros [Hx Hl]. constructor; auto.
Qed.
Lemma int_nums_obj ms : int_nums (JObj ms) → Forall (λ kv, int_nums (kv.2)) ms.
Proof.
  cbn. induction ms as [|x l IH]; cbn; [constructor|]. intros [Hx Hl]. constructor; auto.
Qed.

Lemma value_start_spec c : value_start c = true →
  Ascii.eqb c "]" = false ∧ Ascii.eqb c "}" = false.
Proof. unfold value_start. rewrite !andb_true_iff, !negb_true_iff. tauto. Qed.

Lemma print_reads_back j : int_nums j → reads_back j.
Proof.
  induction j as [|[]|lit|s|l IH|ms IH] using json_nested_ind; intros Hj [|n] rest Hr Hn;
    try (cbn in Hn; lia).
  1-3: by destruct rest.
  - destruct Hj as [z ->]. pose proof (scan_number_Itoa z rest Hr) as Hs.
    destruct (Itoa_head z) as (c & s & Hc & Hd). cbn [print jsanitize].
    rewrite Hc in Hs |- *. cbn [String.append] in Hs |- *.
    assert (value_start c = true ∧ Ascii.eqb c dq = false ∧ Ascii.eqb c "{" = false ∧
            Ascii.eqb c "[" = false ∧ ∀ t, HasPrefix (String c t) "null" = false ∧
            HasPrefix (String c t) "true" = false ∧ HasPrefix (String c t) "false" = false)
      as (Hv & Hq & Hb & Hk & Hp).
    { destruct Hd as [Hd| ->]; [|done].
      by destruct c as [[] [] [] [] [] [] [] []]. }
    destruct (Hp (s ++ rest)%string) as (Hp1 & Hp2 & Hp3).
    cbn [parse_val]. by rewrite skip_ws_start, Hq, Hb, Hk, Hp1, Hp2, Hp3, Hs.
  - cbn [print jsanitize]. unfold quote. cbn -[unquote_go quote_go].
    rewrite <- sapp_assoc. cbn -[unquote_go quote_go]. by rewrite unquote_body.
  - apply int_nums_arr in Hj. cbn [print].
    destruct l as [|x l]; [done|].
    assert (Forall reads_back (x :: l)) as HF.
    { revert Hj. clear -IH. induction IH; inversion_clear 1; constructor; auto. }
    pose proof (parse_elems_print (x :: l) ltac:(done) Hj HF n rest ltac:(cbn in *; lia)) as He.
    destruct (print_head x) as (c & s & Hs & Hv); [by inversion Hj|].
    destruct (value_start_spec c Hv) as [Hc _].
    rewrite <- !sapp_assoc. cbn -[Join parse_elems map jsanitize]. rewrite He.
    assert (∃ t, (Join (map print (x :: l)) "," ++ String "]" rest)%string = String c t) as [t ->].
    { cbn. rewrite Hs. destruct l; eexists; reflexivity. }
    rewrite skip_ws_start by done.
    destruct c as [[] [] [] [] [] [] [] []]; try done.
  - apply int_nums_obj in Hj.
    change (print (JObj ms)) with ("{" ++ Join (map print_member ms) "," ++ "}")%string.
    destruct ms as [|[k x] ms]; [done|].
    assert (Forall (λ kv, reads_back (kv.2)) ((k, x) :: ms)) as HF.
    { revert Hj. clear -IH. induction IH; inversion_clear 1; constructor; auto. }
    pose proof (parse_members_print ((k, x) :: ms) ltac:(done) HF n rest ltac:(cbn in *; lia)) as He.
    rewrite <- !sapp_assoc. cbn -[Join parse_members map jsanitize]. rewrite He.
    assert (∃ t, (Join (map print_member ((k, x) :: ms)) "," ++ String "}" rest)%string
            = String dq t) as [t ->].
    { cbn. destruct ms; eexists; reflexivity. }
    done.
Qed.

Lemma jsize_join {A} (sz : A → nat) (pr : A → string) l :
  Forall (λ x, sz x ≤ String.length (pr x))%nat l →
  (foldr (λ x n, S (sz x) + n) 0 l ≤ S (String.length (Join (map pr l) ",")))%nat.
Proof.
  induction 1 as [|x l Hx HF IH]; [cbn; lia|].
  destruct l as [|y l]; [cbn; lia|].
  cbn [map] in *. rewrite Join_cons2, !slength_app. cbn [String.length].
  cbn [foldr] in *. lia.
Qed.

Lemma jsize_print j : int_nums j → (jsize j ≤ String.length (print j))%nat.
Proof.
  induction j as [|[]|lit|s|l IH|ms IH] using json_nested_ind; intros Hj; try (cbn; lia).
  - destruct Hj as [z ->]. destruct (Itoa_head z) as (c & s & Hs & _). cbn. rewrite Hs. cbn. lia.
  - cbn [print jsize]. rewrite !slength_app. cbn [String.length]. apply int_nums_arr in Hj.
    cut (Forall (λ x, jsize x ≤ String.length (print x))%nat l);
      [intros HF; pose proof (jsize_join jsize print l HF); lia|].
    revert Hj. clear -IH. induction IH; inversion_clear 1; constructor; auto.
  - change (print (JObj ms)) with ("{" ++ Join (map print_member ms) "," ++ "}")%string.
    cbn [jsize]. rewrite !slength_app. cbn [String.length]. apply int_nums_obj in Hj.
    cut (Forall (λ kv, jsize (kv.2) ≤ String.length (print_member kv))%nat ms);
      [intros HF; pose proof (jsize_join (λ kv, jsize (kv.2)) print_member ms HF); lia|].
    revert Hj. clear -IH. induction IH as [|x l Hx _ IHl]; inversion_clear 1 as [|? ? Hj1 Hj2]; constructor; auto.
    specialize (Hx Hj1). unfold print_member. rewrite !slength_app. lia.
Qed.

(** Reading the text of a tree gives the tree, its strings made valid UTF-8. *)
Lemma parse_print j : int_nums j → parse (print j) = Some (jsanitize j).
Proof.
  intros Hj. unfold parse.
  pose proof (print_reads_back j Hj (S (String.length (print j))) EmptyString I) as Hp.
  rewrite sapp_nil_r in Hp. rewrite Hp; [done|].
  pose proof (jsize_print j Hj). lia.
Qed.
