(* ===== verification/Domain.v ===== *)
(** * Domain: the messages and identifiers of [domain/], with their JSON codecs.

    One record per Go struct, fields in the order of the source.  The codec of a
    struct is an instance of [Wire]: [enc] is [json.Marshal] (one member per field,
    in order, named as the field), [dec prev] is [json.Unmarshal] into a variable
    that holds [prev].  [WireLaws] states that decoding what was encoded gives the
    value back; the core's message handlers are proved against it. *)

From S2P Require Export Json.

(** ** Go values in JSON *)

(** A [map[string]any]; [None] is the nil map. *)
Abbreviation GoMap := (option (gmap string json)).
(** A slice; [None] is the nil slice. *)
Definition GoSlice (A : Type) : Type := option (list A).
Definition elems {A} (s : GoSlice A) : list A := default [] s.

(** The members of an object that decode into the field [name], in order of
    appearance: names match up to letter case, later members override. *)
Fixpoint field {A} (name : string) (decode : A → json → option A) (prev : A)
    (ms : list (string * json)) : option A :=
  match ms with
  | [] => Some prev
  | (k, v) :: ms' =>
      if String.eqb (ToLower k) (ToLower name)
      then match decode prev v with Some a => field name decode a ms' | None => None end
      else field name decode prev ms'
  end.

(** Decoders of basic types into a variable holding [prev]; [null] leaves it alone. *)
Definition dec_string (prev : string) (j : json) : option string :=
  match j with JNull => Some prev | JStr s => Some s | _ => None end.
Definition dec_int (prev : Z) (j : json) : option Z :=
  match j with JNull => Some prev | JNum lit => Atoi lit | _ => None end.
Definition dec_uint (prev : Z) (j : json) : option Z :=
  match j with
  | JNull => Some prev
  | JNum lit => n ← parse_digits lit; if n <? 2 ^ 64 then Some n else None
  | _ => None
  end.
Definition dec_map (prev : GoMap) (j : json) : option GoMap :=
  match j with
  | JNull => Some None
  | JObj ms => Some (Some (foldl (λ m kv, <[kv.1 := kv.2]> m) (default ∅ prev) ms))
  | _ => None
  end.
Definition dec_ptr {A} (decode : A → json → option A) (zero : A)
    (prev : option A) (j : json) : option (option A) :=
  match j with
  | JNull => Some None
  | _ => Some <$> decode (default zero prev) j
  end.
Definition dec_slice {A} (decode : A → json → option A) (zero : A)
    (prev : GoSlice A) (j : json) : option (GoSlice A) :=
  match j with
  | JNull => Some None
  | JArr l => Some <$> mapM (decode zero) l
  | _ => None
  end.
(** A struct: the members of an object, or [null], which changes nothing. *)
Definition dec_struct {A} (decode : A → list (string * json) → option A)
    (prev : A) (j : json) : option A :=
  match j with JNull => Some prev | JObj ms => decode prev ms | _ => None end.

Definition enc_int (z : Z) : json := JNum (Itoa z).
Definition enc_ptr {A} (encode : A → json) (p : option A) : json :=
  match p with None => JNull | Some a => encode a end.
Definition enc_slice {A} (encode : A → json) (s : GoSlice A) : json :=
  match s with None => JNull | Some l => JArr (map encode l) end.
(** Go writes the members of a map in the order of their keys. *)
Definition enc_map (m : GoMap) : json :=
  match m with
  | None => JNull
  | Some m => JObj (merge_sort (λ x y, Is_true (String.leb (x.1) (y.1))) (map_to_list m))
  end.

Class Wire (A : Type) : Type := {
  enc : A → json;
  dec : A → json → option A;
  zero : A
}.

(** [json.Marshal(v)] and [json.Unmarshal(data, &v)] for a fresh [v]. *)
Definition Marshal {A} `{Wire A} (a : A) : string := print (enc a).
Definition Unmarshal {A} `{Wire A} (data : string) : option A :=
  match parse data with Some j => dec zero j | None => None end.

(** Values the text format can carry: valid UTF-8 strings, integers in range. *)
Class WireOk (A : Type) : Type := wire_ok : A → Prop.

Class WireLaws (A : Type) `{Wire A, WireOk A} : Prop := {
  enc_int_nums : ∀ a, wire_ok a → int_nums (enc a);
  enc_sanitized : ∀ a, wire_ok a → jsanitize (enc a) = enc a;
  dec_enc : ∀ a, wire_ok a → dec zero (enc a) = Some a;
  enc_not_null : ∀ a, enc a ≠ JNull
}.

Definition text_ok (s : string) : Prop := sanitize s = s.
Definition uint_ok (z : Z) : Prop := 0 ≤ z < 2 ^ 64.
Definition opt_ok {A} (P : A → Prop) (o : option A) : Prop :=
  match o with None => True | Some a => P a end.

(** ** Enumerations and identifiers *)

(** [domain.Event]: an unsigned integer. *)
Abbreviation Event := Z (only parsing).
Definition EventNewChecksum : Event := 0.
Definition EventObjectAdded : Event := 1.
Definition EventObjectDeleted : Event := 2.
Definition EventObjectModified : Event := 3.
Definition EventGetObject : Event := 4.
Definition EventPatchObject : Event := 5.
Definition EventPutObject : Event := 6.
Definition EventPing : Event := 7.
Definition EventBatch : Event := 8.
Definition EventValues : list string :=
  ["newChecksum"; "objectAdded"; "objectDeleted"; "objectModified"; "getObject";
   "patchObject"; "putObject"; "ping"; "batch"].
(** [Event.Value()]: nil out of range. *)
Definition Event_Value (op : Event) : option string :=
  if Z.of_nat (length EventValues) <=? op then None else EventValues !! Z.to_nat op.
Definition ValuesToEvent : gmap string Event :=
  list_to_map (zip EventValues
    [EventNewChecksum; EventObjectAdded; EventObjectDeleted; EventObjectModified;
     EventGetObject; EventPatchObject; EventPutObject; EventPing; EventBatch]).

Definition BatchType : Type := string.
Definition DefaultBatch : BatchType := "".
Definition ReconciliationBatch : BatchType := "reconciliation".

Definition Strategy : Type := string.
Definition CopyStrategy : Strategy := "copy".
Definition PatchStrategy : Strategy := "patch".

Record Kind : Type := mkKind {
  Group : string;
  Version : string;
  Resource : string;
  Kind_AdditionalProperties : GoMap
}.
(** [Kind.String()] and [KindFromString]. *)
Definition Kind_String (k : Kind) : string :=
  Join [Group k; Version k; Resource k] "/".
Definition KindFromString (kind : string) : option Kind :=
  match Split slash kind with
  | [g; v; r] => Some (mkKind g v r None)
  | _ => None
  end.

Record KindName : Type := mkKindName {
  kn_Kind : option Kind;
  kn_Name : string;
  kn_Namespace : string;
  kn_ResourceVersion : Z
}.
(** [KindName.String()]. *)
Definition KindName_String (c : KindName) : string :=
  let kind := match kn_Kind c with None => "" | Some k => Kind_String k end in
  Join [kind; kn_Namespace c; kn_Name c] "/".

(** [ToResourceVersion]: 0 when the text is not an [int]. *)
Definition ToResourceVersion (version : string) : Z :=
  match Atoi version with Some v => v | None => 0 end.

(** What [FromUnstructured] reads from an object, by its accessors. *)
Record ObjectMeta : Type := mkObjectMeta {
  GetAPIVersion : string;
  GetKind : string;
  GetName : string;
  GetNamespace : string;
  GetResourceVersion : string
}.
Definition FromUnstructured (u : option ObjectMeta) : KindName :=
  match u with
  | None => mkKindName None "" "" 0
  | Some u =>
      match Split slash (ToLower (GetAPIVersion u)) with
      | [] => mkKindName None "" "" 0
      | s0 :: ss =>
          let s1 := match ss with [] => "v1" | s1 :: _ => s1 end in
          mkKindName
            (Some (mkKind s0 s1 (ToLower (GetKind u)) None))
            (ToLower (GetName u)) (ToLower (GetNamespace u))
            (ToResourceVersion (GetResourceVersion u))
      end
  end.

(** Instants are nanoseconds since a fixed epoch. *)
Record ClientIdentifier : Type := mkClientIdentifier {
  Account : string;
  Cluster : string;
  ConnectionId : string;
  ConnectionTime : Z;
  HelmVersion : string;
  SyncVersion : string;
  GitVersion : string;
  CloudProvider : string;
  ClusterUID : string;
  ResourceGroup : string
}.
(** A literal [ClientIdentifier{Account: a, Cluster: c}]. *)
Definition mkIdentifier (account cluster : string) : ClientIdentifier :=
  mkClientIdentifier account cluster "" 0 "" "" "" "" "" "".
Definition ClientIdentifier_String (c : ClientIdentifier) : string :=
  Join [Account c; Cluster c] "/".
Definition ConnectionString (c : ClientIdentifier) : string :=
  Join [Account c; Cluster c; ConnectionId c] "/".

#[export] Instance ClientIdentifier_eq_dec : EqDecision ClientIdentifier.
Proof. solve_decision. Defined.

(** ** Messages *)
Record Generic : Type := mkGeneric {
  g_Depth : Z;
  g_Event : option Event;
  g_Kind : option Kind;
  g_MsgId : string;
  g_AdditionalProperties : GoMap
}.
Record GetObject : Type := mkGetObject {
  go_ResourceVersion : Z;
  go_BaseObject : string;
  go_Depth : Z;
  go_Event : option Event;
  go_Kind : option Kind;
  go_MsgId : string;
  go_Name : string;
  go_Namespace : string;
  go_AdditionalProperties : GoMap
}.
Record NewChecksum : Type := mkNewChecksum {
  nc_ResourceVersion : Z;
  nc_Checksum : string;
  nc_Depth : Z;
  nc_Event : option Event;
  nc_Kind : option Kind;
  nc_MsgId : string;
  nc_Name : string;
  nc_Namespace : string;
  nc_AdditionalProperties : GoMap
}.
Record ObjectDeleted : Type := mkObjectDeleted {
  od_ResourceVersion : Z;
  od_Depth : Z;
  od_Event : option Event;
  od_Kind : option Kind;
  od_MsgId : string;
  od_Name : string;
  od_Namespace : string;
  od_AdditionalProperties : GoMap
}.
Record PatchObject : Type := mkPatchObject {
  pa_Checksum : string;
  pa_ResourceVersion : Z;
  pa_Depth : Z;
  pa_Event : option Event;
  pa_Kind : option Kind;
  pa_MsgId : string;
  pa_Name : string;
  pa_Namespace : string;
  pa_Patch : string;
  pa_AdditionalProperties : GoMap
}.
Record PutObject : Type := mkPutObject {
  pu_Checksum : string;
  pu_ResourceVersion : Z;
  pu_Depth : Z;
  pu_Event : option Event;
  pu_Kind : option Kind;
  pu_MsgId : string;
  pu_Name : string;
  pu_Namespace : string;
  pu_Object : string;
  pu_AdditionalProperties : GoMap
}.
Record BatchItems : Type := mkBatchItems {
  bi_PutObject : GoSlice PutObject;
  bi_NewChecksum : GoSlice NewChecksum;
  bi_ObjectDeleted : GoSlice ObjectDeleted;
  bi_GetObject : GoSlice GetObject;
  bi_PatchObject : GoSlice PatchObject;
  bi_AdditionalProperties : GoMap
}.
Record Batch : Type := mkBatch {
  b_Depth : Z;
  b_Event : option Event;
  b_MsgId : string;
  b_Kind : option Kind;
  b_BatchType : string;
  b_Items : option BatchItems;
  b_AdditionalProperties : GoMap
}.

(** [BatchItems.Length()]. *)
Definition BatchItems_Length (items : BatchItems) : nat :=
  (length (elems (bi_GetObject items)) + length (elems (bi_NewChecksum items))
   + length (elems (bi_ObjectDeleted items)) + length (elems (bi_PatchObject items))
   + length (elems (bi_PutObject items)))%nat.

(** ** Codecs of the messages *)
Definition enc_event : option Event → json := enc_ptr enc_int.
Definition dec_event : option Event → json → option (option Event) := dec_ptr dec_uint 0.

Definition enc_Kind (m : Kind) : json :=
  JObj [("Group", JStr (Group m));
        ("Version", JStr (Version m));
        ("Resource", JStr (Resource m));
        ("AdditionalProperties", enc_map (Kind_AdditionalProperties m))].
Definition dec_Kind (prev : Kind) (ms : list (string * json)) : option Kind :=
  x0 ← field "Group" dec_string (Group prev) ms;
  x1 ← field "Version" dec_string (Version prev) ms;
  x2 ← field "Resource" dec_string (Resource prev) ms;
  x3 ← field "AdditionalProperties" dec_map (Kind_AdditionalProperties prev) ms;
  Some (mkKind x0 x1 x2 x3).
#[export] Instance Wire_Kind : Wire Kind := {
  enc := enc_Kind;
  dec := dec_struct dec_Kind;
  zero := mkKind "" "" "" None
}.
#[export] Instance WireOk_Kind : WireOk Kind := λ m,
  text_ok (Group m) ∧
  text_ok (Version m) ∧
  text_ok (Resource m) ∧
  Kind_AdditionalProperties m = None.

Definition enc_Generic (m : Generic) : json :=
  JObj [("Depth", enc_int (g_Depth m));
        ("Event", enc_event (g_Event m));
        ("Kind", enc_ptr enc (g_Kind m));
        ("MsgId", JStr (g_MsgId m));
        ("AdditionalProperties", enc_map (g_AdditionalProperties m))].
Definition dec_Generic (prev : Generic) (ms : list (string * json)) : option Generic :=
  x0 ← field "Depth" dec_int (g_Depth prev) ms;
  x1 ← field "Event" dec_event (g_Event prev) ms;
  x2 ← field "Kind" (dec_ptr dec zero) (g_Kind prev) ms;
  x3 ← field "MsgId" dec_string (g_MsgId prev) ms;
  x4 ← field "AdditionalProperties" dec_map (g_AdditionalProperties prev) ms;
  Some (mkGeneric x0 x1 x2 x3 x4).
#[export] Instance Wire_Generic : Wire Generic := {
  enc := enc_Generic;
  dec := dec_struct dec_Generic;
  zero := mkGeneric 0 None None "" None
}.
#[export] Instance WireOk_Generic : WireOk Generic := λ m,
  in_int (g_Depth m) ∧
  opt_ok uint_ok (g_Event m) ∧
  opt_ok wire_ok (g_Kind m) ∧
  text_ok (g_MsgId m) ∧
  g_AdditionalProperties m = None.

Definition enc_GetObject (m : GetObject) : json :=
  JObj [("ResourceVersion", enc_int (go_ResourceVersion m));
        ("BaseObject", JStr (go_BaseObject m));
        ("Depth", enc_int (go_Depth m));
        ("Event", enc_event (go_Event m));
        ("Kind", enc_ptr enc (go_Kind m));
        ("MsgId", JStr (go_MsgId m));
        ("Name", JStr (go_Name m));
        ("Namespace", JStr (go_Namespace m));
        ("AdditionalProperties", enc_map (go_AdditionalProperties m))].
Definition dec_GetObject (prev : GetObject) (ms : list (string * json)) : option GetObject :=
  x0 ← field "ResourceVersion" dec_int (go_ResourceVersion prev) ms;
  x1 ← field "BaseObject" dec_string (go_BaseObject prev) ms;
  x2 ← field "Depth" dec_int (go_Depth prev) ms;
  x3 ← field "Event" dec_event (go_Event prev) ms;
  x4 ← field "Kind" (dec_ptr dec zero) (go_Kind prev) ms;
  x5 ← field "MsgId" dec_string (go_MsgId prev) ms;
  x6 ← field "Name" dec_string (go_Name prev) ms;
  x7 ← field "Namespace" dec_string (go_Namespace prev) ms;
  x8 ← field "AdditionalProperties" dec_map (go_AdditionalProperties prev) ms;
  Some (mkGetObject x0 x1 x2 x3 x4 x5 x6 x7 x8).
#[export] Instance Wire_GetObject : Wire GetObject := {
  enc := enc_GetObject;
  dec := dec_struct dec_GetObject;
  zero := mkGetObject 0 "" 0 None None "" "" "" None
}.
#[export] Instance WireOk_GetObject : WireOk GetObject := λ m,
  in_int (go_ResourceVersion m) ∧
  text_ok (go_BaseObject m) ∧
  in_int (go_Depth m) ∧
  opt_ok uint_ok (go_Event m) ∧
  opt_ok wire_ok (go_Kind m) ∧
  text_ok (go_MsgId m) ∧
  text_ok (go_Name m) ∧
  text_ok (go_Namespace m) ∧
  go_AdditionalProperties m = None.

Definition enc_NewChecksum (m : NewChecksum) : json :=
  JObj [("ResourceVersion", enc_int (nc_ResourceVersion m));
        ("Checksum", JStr (nc_Checksum m));
        ("Depth", enc_int (nc_Depth m));
        ("Event", enc_event (nc_Event m));
        ("Kind", enc_ptr enc (nc_Kind m));
        ("MsgId", JStr (nc_MsgId m));
        ("Name", JStr (nc_Name m));
        ("Namespace", JStr (nc_Namespace m));
        ("AdditionalProperties", enc_map (nc_AdditionalProperties m))].
Definition dec_NewChecksum (prev : NewChecksum) (ms : list (string * json)) : option NewChecksum :=
  x0 ← field "ResourceVersion" dec_int (nc_ResourceVersion prev) ms;
  x1 ← field "Checksum" dec_string (nc_Checksum prev) ms;
  x2 ← field "Depth" dec_int (nc_Depth prev) ms;
  x3 ← field "Event" dec_event (nc_Event prev) ms;
  x4 ← field "Kind" (dec_ptr dec zero) (nc_Kind prev) ms;
  x5 ← field "MsgId" dec_string (nc_MsgId prev) ms;
  x6 ← field "Name" dec_string (nc_Name prev) ms;
  x7 ← field "Namespace" dec_string (nc_Namespace prev) ms;
  x8 ← field "AdditionalProperties" dec_map (nc_AdditionalProperties prev) ms;
  Some (mkNewChecksum x0 x1 x2 x3 x4 x5 x6 x7 x8).
#[export] Instance Wire_NewChecksum : Wire NewChecksum := {
  enc := enc_NewChecksum;
  dec := dec_struct dec_NewChecksum;
  zero := mkNewChecksum 0 "" 0 None None "" "" "" None
}.
#[export] Instance WireOk_NewChecksum : WireOk NewChecksum := λ m,
  in_int (nc_ResourceVersion m) ∧
  text_ok (nc_Checksum m) ∧
  in_int (nc_Depth m) ∧
  opt_ok uint_ok (nc_Event m) ∧
  opt_ok wire_ok (nc_Kind m) ∧
  text_ok (nc_MsgId m) ∧
  text_ok (nc_Name m) ∧
  text_ok (nc_Namespace m) ∧
  nc_AdditionalProperties m = None.

Definition enc_ObjectDeleted (m : ObjectDeleted) : json :=
  JObj [("ResourceVersion", enc_int (od_ResourceVersion m));
        ("Depth", enc_int (od_Depth m));
        ("Event", enc_event (od_Event m));
        ("Kind", enc_ptr enc (od_Kind m));
        ("MsgId", JStr (od_MsgId m));
        ("Name", JStr (od_Name m));
        ("Namespace", JStr (od_Namespace m));
        ("AdditionalProperties", enc_map (od_AdditionalProperties m))].
Definition dec_ObjectDeleted (prev : ObjectDeleted) (ms : list (string * json)) : option ObjectDeleted :=
  x0 ← field "ResourceVersion" dec_int (od_ResourceVersion prev) ms;
  x1 ← field "Depth" dec_int (od_Depth prev) ms;
  x2 ← field "Event" dec_event (od_Event prev) ms;
  x3 ← field "Kind" (dec_ptr dec zero) (od_Kind prev) ms;
  x4 ← field "MsgId" dec_string (od_MsgId prev) ms;
  x5 ← field "Name" dec_string (od_Name prev) ms;
  x6 ← field "Namespace" dec_string (od_Namespace prev) ms;
  x7 ← field "AdditionalProperties" dec_map (od_AdditionalProperties prev) ms;
  Some (mkObjectDeleted x0 x1 x2 x3 x4 x5 x6 x7).
#[export] Instance Wire_ObjectDeleted : Wire ObjectDeleted := {
  enc := enc_ObjectDeleted;
  dec := dec_struct dec_ObjectDeleted;
  zero := mkObjectDeleted 0 0 None None "" "" "" None
}.
#[export] Instance WireOk_ObjectDeleted : WireOk ObjectDeleted := λ m,
  in_int (od_ResourceVersion m) ∧
  in_int (od_Depth m) ∧
  opt_ok uint_ok (od_Event m) ∧
  opt_ok wire_ok (od_Kind m) ∧
  text_ok (od_MsgId m) ∧
  text_ok (od_Name m) ∧
  text_ok (od_Namespace m) ∧
  od_AdditionalProperties m = None.

Definition enc_PatchObject (m : PatchObject) : json :=
  JObj [("Checksum", JStr (pa_Checksum m));
        ("ResourceVersion", enc_int (pa_ResourceVersion m));
        ("Depth", enc_int (pa_Depth m));
        ("Event", enc_event (pa_Event m));
        ("Kind", enc_ptr enc (pa_Kind m));
        ("MsgId", JStr (pa_MsgId m));
        ("Name", JStr (pa_Name m));
        ("Namespace", JStr (pa_Namespace m));
        ("Patch", JStr (pa_Patch m));
        ("AdditionalProperties", enc_map (pa_AdditionalProperties m))].
Definition dec_PatchObject (prev : PatchObject) (ms : list (string * json)) : option PatchObject :=
  x0 ← field "Checksum" dec_string (pa_Checksum prev) ms;
  x1 ← field "ResourceVersion" dec_int (pa_ResourceVersion prev) ms;
  x2 ← field "Depth" dec_int (pa_Depth prev) ms;
  x3 ← field "Event" dec_event (pa_Event prev) ms;
  x4 ← field "Kind" (dec_ptr dec zero) (pa_Kind prev) ms;
  x5 ← field "MsgId" dec_string (pa_MsgId prev) ms;
  x6 ← field "Name" dec_string (pa_Name prev) ms;
  x7 ← field "Namespace" dec_string (pa_Namespace prev) ms;
  x8 ← field "Patch" dec_string (pa_Patch prev) ms;
  x9 ← field "AdditionalProperties" dec_map (pa_AdditionalProperties prev) ms;
  Some (mkPatchObject x0 x1 x2 x3 x4 x5 x6 x7 x8 x9).
#[export] Instance Wire_PatchObject : Wire PatchObject := {
  enc := enc_PatchObject;
  dec := dec_struct dec_PatchObject;
  zero := mkPatchObject "" 0 0 None None "" "" "" "" None
}.
#[export] Instance WireOk_PatchObject : WireOk PatchObject := λ m,
  text_ok (pa_Checksum m) ∧
  in_int (pa_ResourceVersion m) ∧
  in_int (pa_Depth m) ∧
  opt_ok uint_ok (pa_Event m) ∧
  opt_ok wire_ok (pa_Kind m) ∧
  text_ok (pa_MsgId m) ∧
  text_ok (pa_Name m) ∧
  text_ok (pa_Namespace m) ∧
  text_ok (pa_Patch m) ∧
  pa_AdditionalProperties m = None.

Definition enc_PutObject (m : PutObject) : json :=
  JObj [("Checksum", JStr (pu_Checksum m));
        ("ResourceVersion", enc_int (pu_ResourceVersion m));
        ("Depth", enc_int (pu_Depth m));
        ("Event", enc_event (pu_Event m));
        ("Kind", enc_ptr enc (pu_Kind m));
        ("MsgId", JStr (pu_MsgId m));
        ("Name", JStr (pu_Name m));
        ("Namespace", JStr (pu_Namespace m));
        ("Object", JStr (pu_Object m));
        ("AdditionalProperties", enc_map (pu_AdditionalProperties m))].
Definition dec_PutObject (prev : PutObject) (ms : list (string * json)) : option PutObject :=
  x0 ← field "Checksum" dec_string (pu_Checksum prev) ms;
  x1 ← field "ResourceVersion" dec_int (pu_ResourceVersion prev) ms;
  x2 ← field "Depth" dec_int (pu_Depth prev) ms;
  x3 ← field "Event" dec_event (pu_Event prev) ms;
  x4 ← field "Kind" (dec_ptr dec zero) (pu_Kind prev) ms;
  x5 ← field "MsgId" dec_string (pu_MsgId prev) ms;
  x6 ← field "Name" dec_string (pu_Name prev) ms;
  x7 ← field "Namespace" dec_string (pu_Namespace prev) ms;
  x8 ← field "Object" dec_string (pu_Object prev) ms;
  x9 ← field "AdditionalProperties" dec_map (pu_AdditionalProperties prev) ms;
  Some (mkPutObject x0 x1 x2 x3 x4 x5 x6 x7 x8 x9).
#[export] Instance Wire_PutObject : Wire PutObject := {
  enc := enc_PutObject;
  dec := dec_struct dec_PutObject;
  zero := mkPutObject "" 0 0 None None "" "" "" "" None
}.
#[export] Instance WireOk_PutObject : WireOk PutObject := λ m,
  text_ok (pu_Checksum m) ∧
  in_int (pu_ResourceVersion m) ∧
  in_int (pu_Depth m) ∧
  opt_ok uint_ok (pu_Event m) ∧
  opt_ok wire_ok (pu_Kind m) ∧
  text_ok (pu_MsgId m) ∧
  text_ok (pu_Name m) ∧
  text_ok (pu_Namespace m) ∧
  text_ok (pu_Object m) ∧
  pu_AdditionalProperties m = None.

Definition enc_BatchItems (m : BatchItems) : json :=
  JObj [("PutObject", enc_slice enc (bi_PutObject m));
        ("NewChecksum", enc_slice enc (bi_NewChecksum m));
        ("ObjectDeleted", enc_slice enc (bi_ObjectDeleted m));
        ("GetObject", enc_slice enc (bi_GetObject m));
        ("PatchObject", enc_slice enc (bi_PatchObject m));
        ("AdditionalProperties", enc_map (bi_AdditionalProperties m))].
Definition dec_BatchItems (prev : BatchItems) (ms : list (string * json)) : option BatchItems :=
  x0 ← field "PutObject" (dec_slice dec zero) (bi_PutObject prev) ms;
  x1 ← field "NewChecksum" (dec_slice dec zero) (bi_NewChecksum prev) ms;
  x2 ← field "ObjectDeleted" (dec_slice dec zero) (bi_ObjectDeleted prev) ms;
  x3 ← field "GetObject" (dec_slice dec zero) (bi_GetObject prev) ms;
  x4 ← field "PatchObject" (dec_slice dec zero) (bi_PatchObject prev) ms;
  x5 ← field "AdditionalProperties" dec_map (bi_AdditionalProperties prev) ms;
  Some (mkBatchItems x0 x1 x2 x3 x4 x5).
#[export] Instance Wire_BatchItems : Wire BatchItems := {
  enc := enc_BatchItems;
  dec := dec_struct dec_BatchItems;
  zero := mkBatchItems None None None None None None
}.
#[export] Instance WireOk_BatchItems : WireOk BatchItems := λ m,
  opt_ok (Forall wire_ok) (bi_PutObject m) ∧
  opt_ok (Forall wire_ok) (bi_NewChecksum m) ∧
  opt_ok (Forall wire_ok) (bi_ObjectDeleted m) ∧
  opt_ok (Forall wire_ok) (bi_GetObject m) ∧
  opt_ok (Forall wire_ok) (bi_PatchObject m) ∧
  bi_AdditionalProperties m = None.

Definition enc_Batch (m : Batch) : json :=
  JObj [("Depth", enc_int (b_Depth m));
        ("Event", enc_event (b_Event m));
        ("MsgId", JStr (b_MsgId m));
        ("Kind", enc_ptr enc (b_Kind m));
        ("BatchType", JStr (b_BatchType m));
        ("Items", enc_ptr enc (b_Items m));
        ("AdditionalProperties", enc_map (b_AdditionalProperties m))].
Definition dec_Batch (prev : Batch) (ms : list (string * json)) : option Batch :=
  x0 ← field "Depth" dec_int (b_Depth prev) ms;
  x1 ← field "Event" dec_event (b_Event prev) ms;
  x2 ← field "MsgId" dec_string (b_MsgId prev) ms;
  x3 ← field "Kind" (dec_ptr dec zero) (b_Kind prev) ms;
  x4 ← field "BatchType" dec_string (b_BatchType prev) ms;
  x5 ← field "Items" (dec_ptr dec zero) (b_Items prev) ms;
  x6 ← field "AdditionalProperties" dec_map (b_AdditionalProperties prev) ms;
  Some (mkBatch x0 x1 x2 x3 x4 x5 x6).
#[export] Instance Wire_Batch : Wire Batch := {
  enc := enc_Batch;
  dec := dec_struct dec_Batch;
  zero := mkBatch 0 None "" None "" None None
}.
#[export] Instance WireOk_Batch : WireOk Batch := λ m,
  in_int (b_Depth m) ∧
  opt_ok uint_ok (b_Event m) ∧
  text_ok (b_MsgId m) ∧
  opt_ok wire_ok (b_Kind m) ∧
  text_ok (b_BatchType m) ∧
  opt_ok wire_ok (b_Items m) ∧
  b_AdditionalProperties m = None.

(** ** The codecs satisfy the laws *)
Lemma field_hit {A} name (decode : A → json → option A) prev k v ms :
  String.eqb (ToLower k) (ToLower name) = true →
  field name decode prev ((k, v) :: ms) =
    match decode prev v with Some a => field name decode a ms | None => None end.
Proof. intros H. cbn. by rewrite H. Qed.
Lemma field_miss {A} name (decode : A → json → option A) prev k v ms :
  String.eqb (ToLower k) (ToLower name) = false →
  field name decode prev ((k, v) :: ms) = field name decode prev ms.
Proof. intros H. cbn. by rewrite H. Qed.
Lemma field_end {A} name (decode : A → json → option A) prev :
  field name decode prev [] = Some prev.
Proof. reflexivity. Qed.

Lemma dec_int_enc p z : in_int z → dec_int p (enc_int z) = Some z.
Proof. apply Atoi_Itoa. Qed.

Lemma parse_digits_Itoa z : 0 ≤ z → parse_digits (Itoa z) = Some z.
Proof.
  intros Hz. unfold parse_digits, Itoa.
  destruct (Zto_int_uint z) as [(u & Hu & Hnil & _)|(u & _ & _ & ?)]; [|lia].
  rewrite Hu. cbn -[NilZero.uint_of_string NilZero.string_of_uint].
  rewrite uint_of_string_of_uint by done. cbn. f_equal. by apply Zof_to_pos.
Qed.

Lemma dec_event_enc p e : opt_ok uint_ok e → dec_event p (enc_event e) = Some e.
Proof.
  destruct e as [z|]; [|done]. cbn -[Itoa parse_digits]. intros [H0 H1].
  rewrite parse_digits_Itoa by done. cbn.
  assert ((z <? 2 ^ 64) = true) as -> by (by apply Z.ltb_lt). done.
Qed.

Lemma enc_event_int e : int_nums (enc_event e) ∧ jsanitize (enc_event e) = enc_event e.
Proof. destruct e; cbn; [split; [by eexists|done]|done]. Qed.

Section WireOpt.
Context {A : Type} `{WireLaws A}.

Lemma dec_ptr_enc (a : option A) :
  opt_ok wire_ok a → dec_ptr dec zero None (enc_ptr enc a) = Some a.
Proof.
  destruct a as [a|]; [|done]. cbn. intros Ha.
  pose proof (enc_not_null a). pose proof (dec_enc a Ha) as Hd. unfold dec_ptr.
  destruct (enc a); [done|..]; cbn; rewrite Hd; done.
Qed.

Lemma enc_ptr_ok (a : option A) :
  opt_ok wire_ok a →
  int_nums (enc_ptr enc a) ∧ jsanitize (enc_ptr enc a) = enc_ptr enc a.
Proof. destruct a; cbn; [|done]. eauto using enc_int_nums, enc_sanitized. Qed.

Lemma dec_slice_enc (s : GoSlice A) :
  opt_ok (Forall wire_ok) s → dec_slice dec zero None (enc_slice enc s) = Some s.
Proof.
  destruct s as [l|]; [|done]. cbn. intros HF.
  assert (mapM (dec zero) (map enc l) = Some l) as ->; [|done].
  induction HF as [|x l Hx HF IH]; [done|]. cbn. rewrite dec_enc by done. cbn.
  by rewrite IH.
Qed.

Lemma enc_slice_ok (s : GoSlice A) :
  opt_ok (Forall wire_ok) s →
  int_nums (enc_slice enc s) ∧ jsanitize (enc_slice enc s) = enc_slice enc s.
Proof.
  destruct s as [l|]; cbn; [|done]. intros HF.
  induction HF as [|x l Hx HF IH]; cbn; [done|]. destruct IH as [IH1 IH2].
  split; [split; [by apply enc_int_nums|done]|].
  rewrite enc_sanitized by done. injection IH2 as ->. done.
Qed.

(** What is sent is what is read. *)
Lemma Unmarshal_Marshal (a : A) : wire_ok a → Unmarshal (Marshal a) = Some a.
Proof.
  intros Ha. unfold Unmarshal, Marshal.
  rewrite parse_print by (by apply enc_int_nums).
  rewrite enc_sanitized by done. by apply dec_enc.
Qed.
End WireOpt.

Lemma enc_int_ok z : int_nums (enc_int z) ∧ jsanitize (enc_int z) = enc_int z.
Proof. cbn. split; [by eexists|done]. Qed.

(** Closed field names sanitize to themselves; [wire_fields] runs a decoder over the
    members of a literal object. *)
Ltac sanitize_names :=
  repeat match goal with
  | |- context [sanitize (String ?c ?s)] =>
      let r := eval vm_compute in (sanitize (String c s)) in
      change (sanitize (String c s)) with r
  end.
Ltac wire_field :=
  first [ rewrite field_miss by (vm_compute; reflexivity)
        | rewrite field_hit by (vm_compute; reflexivity)
        | rewrite field_end ];
  rewrite ?dec_int_enc, ?dec_event_enc, ?dec_ptr_enc, ?dec_slice_enc by assumption;
  cbn [dec_string dec_map enc_map mbind option_bind].
Ltac wire_fields := repeat wire_field.
Ltac wire_leaf :=
  match goal with
  | |- int_nums (enc_int _) => apply enc_int_ok
  | |- int_nums (enc_event _) => apply enc_event_int
  | |- int_nums (enc_ptr _ _) => by apply enc_ptr_ok
  | |- int_nums (enc_slice _ _) => by apply enc_slice_ok
  | |- True => exact I
  | |- ?G => idtac "leaf" G; fail 2
  end.
Ltac wire_san :=
  cbn [jsanitize map fst snd enc_map]; sanitize_names;
  repeat match goal with
  | H : text_ok ?s |- context [sanitize ?s] => rewrite H
  | |- context [jsanitize (enc_int ?z)] => rewrite (proj2 (enc_int_ok z))
  | |- context [jsanitize (enc_event ?z)] => rewrite (proj2 (enc_event_int z))
  | H : opt_ok wire_ok ?z |- context [jsanitize (enc_ptr _ ?z)] =>
      rewrite (proj2 (enc_ptr_ok z H))
  | H : opt_ok (Forall wire_ok) ?z |- context [jsanitize (enc_slice _ ?z)] =>
      rewrite (proj2 (enc_slice_ok z H))
  end.
(** The laws of a struct: open the value and its well-formedness, then run. *)
Tactic Notation "wire_struct" constr(ok) constr(encf) constr(decf) :=
  let m := fresh "m" in let Hok := fresh "Hok" in
  split;
  [ intros m Hok; change (int_nums (encf m))
  | intros m Hok; change (jsanitize (encf m) = encf m)
  | intros m Hok;
    let z := eval hnf in (zero : ltac:(let T := type of m in exact T)) in
    change (dec_struct decf z (encf m) = Some m)
  | intros []; discriminate ];
  destruct m; unfold wire_ok, ok in Hok; cbn in Hok; destruct_and!; subst;
  unfold encf, dec_struct, decf;
  cbn -[field jsanitize int_nums enc_int enc_event enc_ptr enc_slice enc_map dec zero
        dec_ptr dec_slice dec_event dec_int dec_string dec_map enc];
  [ cbn -[enc_int enc_event enc_ptr enc_slice enc];
    repeat (match goal with |- _ ∧ _ => split end); wire_leaf
  | wire_san; reflexivity
  | wire_fields; reflexivity ].

#[export] Instance WireLaws_Kind : WireLaws Kind.
Proof. wire_struct WireOk_Kind enc_Kind dec_Kind. Qed.
#[export] Instance WireLaws_Generic : WireLaws Generic.
Proof. wire_struct WireOk_Generic enc_Generic dec_Generic. Qed.
#[export] Instance WireLaws_GetObject : WireLaws GetObject.
Proof. wire_struct WireOk_GetObject enc_GetObject dec_GetObject. Qed.
#[export] Instance WireLaws_NewChecksum : WireLaws NewChecksum.
Proof. wire_struct WireOk_NewChecksum enc_NewChecksum dec_NewChecksum. Qed.
#[export] Instance WireLaws_ObjectDeleted : WireLaws ObjectDeleted.
Proof. wire_struct WireOk_ObjectDeleted enc_ObjectDeleted dec_ObjectDeleted. Qed.
#[export] Instance WireLaws_PatchObject : WireLaws PatchObject.
Proof. wire_struct WireOk_PatchObject enc_PatchObject dec_PatchObject. Qed.
#[export] Instance WireLaws_PutObject : WireLaws PutObject.
Proof. wire_struct WireOk_PutObject enc_PutObject dec_PutObject. Qed.
#[export] Instance WireLaws_BatchItems : WireLaws BatchItems.
Proof. wire_struct WireOk_BatchItems enc_BatchItems dec_BatchItems. Qed.
#[export] Instance WireLaws_Batch : WireLaws Batch.
Proof. wire_struct WireOk_Batch enc_Batch dec_Batch. Qed.

(** ** Every message can be read as a [Generic] first *)
Class Message (A : Type) : Type := header : A → Generic.
Class MessageLaws (A : Type) `{Wire A, WireOk A, Message A} : Prop :=
  dec_header : ∀ a, wire_ok a → dec (zero : Generic) (enc a) = Some (header a).

Tactic Notation "message_struct" constr(ok) constr(encf) :=
  let m := fresh "m" in let Hok := fresh "Hok" in
  intros m Hok;
  let z := eval hnf in (zero : Generic) in
  change (dec_struct dec_Generic z (encf m) = Some (header m));
  destruct m; unfold wire_ok, ok in Hok; cbn in Hok; destruct_and!; subst;
  unfold encf, dec_struct, dec_Generic;
  cbn -[field enc_int enc_event enc_ptr enc_slice enc_map dec zero
        dec_ptr dec_slice dec_event dec_int dec_string dec_map enc];
  wire_fields; reflexivity.

#[export] Instance Message_GetObject : Message GetObject := λ m,
  mkGeneric (go_Depth m) (go_Event m) (go_Kind m) (go_MsgId m) (go_AdditionalProperties m).
#[export] Instance MessageLaws_GetObject : MessageLaws GetObject.
Proof. message_struct WireOk_GetObject enc_GetObject. Qed.

#[export] Instance Message_NewChecksum : Message NewChecksum := λ m,
  mkGeneric (nc_Depth m) (nc_Event m) (nc_Kind m) (nc_MsgId m) (nc_AdditionalProperties m).
#[export] Instance MessageLaws_NewChecksum : MessageLaws NewChecksum.
Proof. message_struct WireOk_NewChecksum enc_NewChecksum. Qed.

#[export] Instance Message_ObjectDeleted : Message ObjectDeleted := λ m,
  mkGeneric (od_Depth m) (od_Event m) (od_Kind m) (od_MsgId m) (od_AdditionalProperties m).
#[export] Instance MessageLaws_ObjectDeleted : MessageLaws ObjectDeleted.
Proof. message_struct WireOk_ObjectDeleted enc_ObjectDeleted. Qed.

#[export] Instance Message_PatchObject : Message PatchObject := λ m,
  mkGeneric (pa_Depth m) (pa_Event m) (pa_Kind m) (pa_MsgId m) (pa_AdditionalProperties m).
#[export] Instance MessageLaws_PatchObject : MessageLaws PatchObject.
Proof. message_struct WireOk_PatchObject enc_PatchObject. Qed.

#[export] Instance Message_PutObject : Message PutObject := λ m,
  mkGeneric (pu_Depth m) (pu_Event m) (pu_Kind m) (pu_MsgId m) (pu_AdditionalProperties m).
#[export] Instance MessageLaws_PutObject : MessageLaws PutObject.
Proof. message_struct WireOk_PutObject enc_PutObject. Qed.

#[export] Instance Message_Batch : Message Batch := λ m,
  mkGeneric (b_Depth m) (b_Event m) (b_Kind m) (b_MsgId m) (b_AdditionalProperties m).
#[export] Instance MessageLaws_Batch : MessageLaws Batch.
Proof. message_struct WireOk_Batch enc_Batch. Qed.

Lemma Unmarshal_header {A} `{WireLaws A, !Message A, !MessageLaws A} (a : A) :
  wire_ok a → Unmarshal (Marshal a) = Some (header a).
Proof.
  intros Ha. unfold Unmarshal, Marshal.
  rewrite parse_print by (by apply enc_int_nums).
  rewrite enc_sanitized by done. by apply dec_header.
Qed.

(** ** Identifiers of the objects of a cluster *)
Definition lower (s : string) : Prop := ToLower s = s.
Lemma Split_lower sep s : lower s → Forall lower (Split sep s).
Proof.
  unfold lower. induction s as [|c s IH]; cbn [ToLower smap Split]; [by repeat constructor|].
  intros [= Hc Hs]. specialize (IH Hs). destruct (Ascii.eqb c sep); [by constructor|].
  destruct (Split sep s) as [|p ps]; [by repeat constructor; cbn; rewrite Hc|].
  apply Forall_cons in IH as [Hp Hps]. constructor; [|done]. cbn. by rewrite Hc, Hp.
Qed.
Lemma Atoi_in_int s z : Atoi s = Some z → in_int z.
Proof.
  unfold Atoi. intros (v & _ & Hv)%bind_Some. destruct (in_intb v) eqn:Hi; [|done].
  injection Hv as <-. by apply in_intb_spec.
Qed.

(** C39. Every object of a cluster, whatever its metadata, has an identifier in canonical
    form: a kind, all of it in lower case, whose group and version have no slash, a name and a
    namespace in lower case and a version that is a machine integer; and when the kind's name
    has no slash either, the text of the kind reads back as the kind. *)
Theorem FromUnstructured_canonical (u : ObjectMeta) :
  let id := FromUnstructured (Some u) in
  ∃ k, kn_Kind id = Some k ∧ lower (Group k) ∧ lower (Version k) ∧ lower (Resource k) ∧
    lower (kn_Name id) ∧ lower (kn_Namespace id) ∧ in_int (kn_ResourceVersion id) ∧
    no_sep slash (Group k) = true ∧ no_sep slash (Version k) = true ∧
    (no_sep slash (ToLower (GetKind u)) = true → KindFromString (Kind_String k) = Some k).
Proof.
  unfold FromUnstructured. cbv zeta. set (av := ToLower (GetAPIVersion u)).
  pose proof (Split_no_sep_all slash av) as Hsep.
  pose proof (Split_lower slash av (ToLower_idemp _)) as Hlow. pose proof (Split_nonempty slash av) as Hne.
  destruct (Split slash av) as [|s0 ss]; [done|]. eexists. split; [reflexivity|]. cbn [Group Version Resource kn_Name kn_Namespace kn_ResourceVersion].
  apply Forall_cons in Hsep as [H0 Hss]. apply Forall_cons in Hlow as [L0 Lss].
  set (s1 := match ss with [] => "v1"%string | s1 :: _ => s1 end).
  assert (no_sep slash s1 = true ∧ lower s1) as [H1 L1].
  { subst s1. destruct ss as [|s1 ss]; [by split|]. by apply Forall_cons in Hss as [? _], Lss as [? _]. }
  assert (in_int (ToResourceVersion (GetResourceVersion u))) as Hv.
  { unfold ToResourceVersion. destruct (Atoi _) as [v|] eqn:Hv; [by eapply Atoi_in_int|by vm_compute]. }
  do 8 (split; [first [done|apply ToLower_idemp]|]).
  intros Hr. unfold KindFromString, Kind_String. cbn [Group Version Resource].
  assert (Split slash (GoStd.Join [s0; s1; ToLower (GetKind u)] (chr slash)) = [s0; s1; ToLower (GetKind u)]) as Hj
    by (apply Split_Join; [done|by repeat constructor]).
  change (chr slash) with "/"%string in Hj. by rewrite Hj.
Qed.
