(* ===== verification/Utils.v ===== *)
(** * Utils: contexts and comparisons of [utils/utils.go].

    A [context.Context] is the list of its [WithValue] bindings, the latest first.
    Message ids come from [uuid.NewString], a parameter that draws from the world. *)

From S2P Require Export Domain.

(** ** Contexts *)

(** The keys of [domain/context.go]. *)
Inductive ContextKey : Type :=
| ContextKeyClientIdentifier
| ContextKeyDepth
| ContextKeyMsgId
| ContextKeyAccessKey.
#[export] Instance ContextKey_eq_dec : EqDecision ContextKey.
Proof. solve_decision. Defined.

(** The dynamic types stored in a context. *)
Inductive ctxval : Type :=
| VIdentifier (id : ClientIdentifier)
| VInt (z : Z)
| VString (s : string).

Abbreviation Ctx := (list (ContextKey * ctxval)).

(** [context.Background()], [context.WithValue] and [ctx.Value]. *)
Definition Background : Ctx := [].
Definition WithValue (parent : Ctx) (k : ContextKey) (v : ctxval) : Ctx := (k, v) :: parent.
Fixpoint Value (ctx : Ctx) (k : ContextKey) : option ctxval :=
  match ctx with
  | [] => None
  | (k', v) :: ctx' => if decide (k = k') then Some v else Value ctx' k
  end.

Definition ContextFromGeneric (parent : Ctx) (generic : Generic) : Ctx :=
  let ctx := WithValue parent ContextKeyDepth (VInt (g_Depth generic)) in
  WithValue ctx ContextKeyMsgId (VString (g_MsgId generic)).

Definition ContextFromIdentifiers (parent : Ctx) (id : ClientIdentifier) : Ctx :=
  WithValue parent ContextKeyClientIdentifier
    (VIdentifier (mkIdentifier (Account id) (Cluster id))).

(** [v, _ := ctx.Value(k).(string)]: the zero value when the assertion fails. *)
Definition AccessKeyFromContext (ctx : Ctx) : string :=
  match Value ctx ContextKeyAccessKey with Some (VString s) => s | _ => "" end.

Section ContextReaders.
Context {W : Type} (NewMsgId : M W string).

(** [ctx.Value(k).(T)]: a type assertion that panics when it fails. *)
Definition ClientIdentifierFromContext (ctx : Ctx) : M W ClientIdentifier :=
  match Value ctx ContextKeyClientIdentifier with
  | Some (VIdentifier id) => mret id
  | _ => panic "interface conversion"
  end.

Definition DeptMsgIdFromContext (ctx : Ctx) : M W (Z * string) :=
  msgId ← match Value ctx ContextKeyMsgId with
          | None => id ← NewMsgId; mret (VString id)
          | Some v => mret v
          end;
  match default (VInt 0) (Value ctx ContextKeyDepth), msgId with
  | VInt depth, VString s => mret (depth, s)
  | _, _ => panic "interface conversion"
  end.
End ContextReaders.

(** ** Comparisons *)
Definition StringValueBigger (s1 s2 : string) : bool :=
  match Atoi s1 with
  | None => false
  | Some i1 => match Atoi s2 with None => false | Some i2 => i2 <? i1 end
  end.

Section Versions.
(** [semver.Compare]. *)
Variable Compare : string → string → Z.
Definition GreaterOrEqualVersion (a b : string) : bool := 0 <=? Compare a b.
Definition minimumSupportedVersion : string := "v0.0.57".
Definition IsBatchMessageSupported (version : string) : bool :=
  if String.eqb version "" then false
  else GreaterOrEqualVersion version minimumSupportedVersion.
End Versions.

(** ** Lemmas *)
Lemma Value_WithValue_eq ctx k v : Value (WithValue ctx k v) k = Some v.
Proof. cbn. by rewrite decide_True. Qed.
Lemma Value_WithValue_ne ctx k k' v :
  k' ≠ k → Value (WithValue ctx k v) k' = Value ctx k'.
Proof. intros H. cbn. by rewrite decide_False. Qed.

Lemma Value_identifier_Generic ctx g :
  Value (ContextFromGeneric ctx g) ContextKeyClientIdentifier
  = Value ctx ContextKeyClientIdentifier.
Proof. reflexivity. Qed.
Lemma Value_depth_Generic ctx g :
  Value (ContextFromGeneric ctx g) ContextKeyDepth = Some (VInt (g_Depth g)).
Proof. reflexivity. Qed.
Lemma Value_msgid_Generic ctx g :
  Value (ContextFromGeneric ctx g) ContextKeyMsgId = Some (VString (g_MsgId g)).
Proof. reflexivity. Qed.

(** A context that carries an identifier, and the identifier. *)
Definition carries (ctx : Ctx) (id : ClientIdentifier) : Prop :=
  Value ctx ContextKeyClientIdentifier = Some (VIdentifier id).

Lemma ClientIdentifier_run {W} ctx id (w : W) :
  carries ctx id → ClientIdentifierFromContext ctx w = (Ret id, w).
Proof. intros H. unfold ClientIdentifierFromContext. by rewrite H. Qed.

Lemma carries_Generic ctx g id : carries ctx id → carries (ContextFromGeneric ctx g) id.
Proof. done. Qed.

Lemma DeptMsgId_Generic {W} (new : M W string) ctx g w :
  DeptMsgIdFromContext new (ContextFromGeneric ctx g) w = (Ret (g_Depth g, g_MsgId g), w).
Proof. reflexivity. Qed.
Lemma DeptMsgId_set {W} (new : M W string) ctx d s w :
  Value ctx ContextKeyDepth = Some (VInt d) →
  Value ctx ContextKeyMsgId = Some (VString s) →
  DeptMsgIdFromContext new ctx w = (Ret (d, s), w).
Proof. intros Hd Hs. unfold DeptMsgIdFromContext. rewrite Hd, Hs. reflexivity. Qed.

Lemma StringValueBigger_spec s1 s2 :
  StringValueBigger s1 s2 = true ↔
  ∃ i1 i2, Atoi s1 = Some i1 ∧ Atoi s2 = Some i2 ∧ i2 < i1.
Proof.
  unfold StringValueBigger.
  destruct (Atoi s1) as [i1|]; [|naive_solver].
  destruct (Atoi s2) as [i2|]; [|naive_solver].
  rewrite Z.ltb_lt. naive_solver.
Qed.

#[export] Hint Resolve carries_Generic : core.
