(* ===== verification/Interface.v ===== *)
(** * Interface: [domain.Callbacks] and [adapters.Adapter].

    The core and its adapters know each other through two interfaces only: an
    adapter answers through its [Callbacks], functions over the world [W] of the
    core; the core drives an [Adapter], operations over a world [X] that holds the
    state of the adapter. *)

From S2P Require Export Utils.

(** [domain.Callbacks]; a nil function panics when it is called. *)
Record Callbacks (W : Type) : Type := mkCallbacks {
  cb_DeleteObject : Ctx → KindName → M W unit;
  cb_GetObject : Ctx → KindName → string → M W unit;
  cb_PatchObject : Ctx → KindName → string → string → M W unit;
  cb_PutObject : Ctx → KindName → string → string → M W unit;
  cb_VerifyObject : Ctx → KindName → string → M W unit;
  cb_Batch : Ctx → Kind → BatchType → BatchItems → M W unit
}.
Arguments mkCallbacks {W} _ _ _ _ _ _.
Arguments cb_DeleteObject {W} _ _ _.
Arguments cb_GetObject {W} _ _ _ _.
Arguments cb_PatchObject {W} _ _ _ _ _.
Arguments cb_PutObject {W} _ _ _ _ _.
Arguments cb_VerifyObject {W} _ _ _ _.
Arguments cb_Batch {W} _ _ _ _ _.

(** The literal [domain.Callbacks{}]. *)
Definition nil_func {W A} : M W A := panic "call of a nil function".
Definition nil_Callbacks {W} : Callbacks W :=
  mkCallbacks (λ _ _, nil_func) (λ _ _ _, nil_func) (λ _ _ _ _, nil_func)
    (λ _ _ _ _, nil_func) (λ _ _ _, nil_func) (λ _ _ _ _, nil_func).

(** [adapters.Adapter] over the world [X], with callbacks over [W]. *)
Record Adapter (W X : Type) : Type := mkAdapter {
  ad_Start : Ctx → M X unit;
  ad_Stop : Ctx → M X unit;
  ad_IsRelated : Ctx → ClientIdentifier → M X bool;
  ad_RegisterCallbacks : Ctx → Callbacks W → M X unit;
  ad_Callbacks : Ctx → M X (Callbacks W);
  ad_DeleteObject : Ctx → KindName → M X unit;
  ad_GetObject : Ctx → KindName → string → M X unit;
  ad_PatchObject : Ctx → KindName → string → string → M X unit;
  ad_PutObject : Ctx → KindName → string → string → M X unit;
  ad_VerifyObject : Ctx → KindName → string → M X unit;
  ad_Batch : Ctx → Kind → BatchType → BatchItems → M X unit
}.
Arguments mkAdapter {W X} _ _ _ _ _ _ _ _ _ _ _.
Arguments ad_Start {W X} _ _.
Arguments ad_Stop {W X} _ _.
Arguments ad_IsRelated {W X} _ _ _.
Arguments ad_RegisterCallbacks {W X} _ _ _.
Arguments ad_Callbacks {W X} _ _.
Arguments ad_DeleteObject {W X} _ _ _.
Arguments ad_GetObject {W X} _ _ _ _.
Arguments ad_PatchObject {W X} _ _ _ _ _.
Arguments ad_PutObject {W X} _ _ _ _ _.
Arguments ad_VerifyObject {W X} _ _ _ _.
Arguments ad_Batch {W X} _ _ _ _ _.
