(* ===== verification/Fixtures.v ===== *)
(** * Fixtures: concrete parameters, with which the theorems are instantiated.

    Stand-ins for what the code does not define: a pool that keeps what it is given, a
    message id, an adapter that records its calls and one that always fails. *)

From S2P Require Export Interface.

(** A pool that keeps what it is given. *)
Definition queue_Invoke (data : string) : M (list string) unit :=
  modifyW (λ sent, sent ++ [data]).
Definition sample_MsgId {W} : M W string := mret "0b7c".

Definition sample_kind : Kind := mkKind "apps" "v1" "deployments" None.
Definition sample_id : KindName := mkKindName (Some sample_kind) "nginx" "default" 7.
Definition sample_client : ClientIdentifier := mkIdentifier "acme" "prod".
Definition sample_ctx : Ctx := ContextFromIdentifiers Background sample_client.
(** A context inside the handling of a message of the given depth. *)
Definition sample_ctx_at (depth : Z) : Ctx :=
  ContextFromGeneric sample_ctx (mkGeneric depth (Some EventNewChecksum) None "0b7c" None).

Definition record (what : string) (id : KindName) : M (list string) unit :=
  modifyW (λ l, l ++ [(what ++ " " ++ KindName_String id)%string]).
Definition recorder {W} : Adapter W (list string) := mkAdapter
  (λ _, mret tt) (λ _, mret tt) (λ _ _, mret true) (λ _ _, mret tt) (λ _, mret nil_Callbacks)
  (λ _ id, record "delete" id) (λ _ id _, record "get" id) (λ _ id _ _, record "patch" id)
  (λ _ id _ _, record "put" id) (λ _ id _, record "verify" id)
  (λ _ k _ _, record "batch" (mkKindName (Some k) "" "" 0)).
Definition broken {W} : Adapter W (list string) := mkAdapter
  (λ _, throw (Errorf "down")) (λ _, throw (Errorf "down")) (λ _ _, mret false)
  (λ _ _, mret tt) (λ _, mret nil_Callbacks)
  (λ _ _, throw (Errorf "down")) (λ _ _ _, throw (Errorf "down"))
  (λ _ _ _ _, throw (Errorf "down")) (λ _ _ _ _, throw (Errorf "down"))
  (λ _ _ _, throw (Errorf "down")) (λ _ _ _ _, throw (Errorf "down")).

(** A network: how many times it still refuses a connection, and what was received.  A
    connection is alive or not; the first one is dead. *)
Definition net_write (alive : bool) (data : string) : M (nat * list string) unit :=
  if alive then modifyW (λ n, (n.1, n.2 ++ [data])) else throw (Errorf "broken pipe").
Definition net_Close (alive : bool) : M (nat * list string) unit := mret tt.
Definition net_newConn : M (nat * list string) bool := λ n,
  match n.1 with
  | O => (Ret true, n)
  | S k => (Throw (Errorf "connection refused"), (k, n.2))
  end.
(** The reading side of a connection: a queue of frames, then an end of file. *)
Definition net_read (alive : bool) : M (nat * list string) string := λ n,
  match n.2 with
  | [] => (Throw (Errorf "EOF"), n)
  | d :: ds => (Ret d, (n.1, ds))
  end.
