(* ===== verification/Synchronizer.v ===== *)
(** * Synchronizer: the core of [core/synchronizer.go].

    [Outgoing] is the sending side: the callbacks given to the adapters, over a world
    [W] in which the outgoing pool takes data.  [Incoming] is the receiving side: the
    worker of the incoming pool, over a world [X] that holds the adapters, together
    with the context variable the worker's closure captures.  [Connection] is the
    worker of the outgoing pool, [Listen] the loop that reads the connection.

    [json.Marshal] cannot fail on the messages (their fields are strings, integers
    and JSON values), so the [marshal ...] error returns are not reachable and have
    no counterpart. *)

From S2P Require Export Fixtures.

Definition maxMessageDepth : Z := 8.

(** ** Sending *)
Section Outgoing.
Context {W : Type}.
(** [uuid.NewString] and [outPool.Invoke] (ants). *)
Variable NewMsgId : M W string.
Variable outPool_Invoke : string → M W unit.
Variable isClient : bool.

Definition sendGetObject (ctx : Ctx) (id : KindName) (baseObject : string) : M W unit :=
  dm ← DeptMsgIdFromContext NewMsgId ctx;
  let msg := mkGetObject 0 baseObject (wrap_int (dm.1 + 1)) (Some EventGetObject)
               (kn_Kind id) dm.2 (kn_Name id) (kn_Namespace id) None in
  wrapE "invoke outPool on get object message" (outPool_Invoke (Marshal msg)) ;;
  _ ← ClientIdentifierFromContext ctx;
  _ ← deref (go_Kind msg);
  mret tt.

Definition sendNewChecksum (ctx : Ctx) (id : KindName) (checksum : string) : M W unit :=
  dm ← DeptMsgIdFromContext NewMsgId ctx;
  let msg := mkNewChecksum 0 checksum (wrap_int (dm.1 + 1)) (Some EventNewChecksum)
               (kn_Kind id) dm.2 (kn_Name id) (kn_Namespace id) None in
  wrapE "invoke outPool on checksum message" (outPool_Invoke (Marshal msg)) ;;
  match nc_Kind msg with
  | None => throw (Errorf ("invalid resource kind. name: " ++ nc_Name msg))
  | Some _ => _ ← ClientIdentifierFromContext ctx; mret tt
  end.

Definition sendObjectDeleted (ctx : Ctx) (id : KindName) : M W unit :=
  dm ← DeptMsgIdFromContext NewMsgId ctx;
  let msg := mkObjectDeleted 0 (wrap_int (dm.1 + 1)) (Some EventObjectDeleted)
               (kn_Kind id) dm.2 (kn_Name id) (kn_Namespace id) None in
  wrapE "invoke outPool on delete message" (outPool_Invoke (Marshal msg)) ;;
  _ ← ClientIdentifierFromContext ctx;
  _ ← deref (od_Kind msg);
  mret tt.

Definition sendPatchObject (ctx : Ctx) (id : KindName) (checksum patch : string) : M W unit :=
  dm ← DeptMsgIdFromContext NewMsgId ctx;
  let msg := mkPatchObject checksum 0 (wrap_int (dm.1 + 1)) (Some EventPatchObject)
               (kn_Kind id) dm.2 (kn_Name id) (kn_Namespace id) patch None in
  wrapE "invoke outPool on patch message" (outPool_Invoke (Marshal msg)) ;;
  _ ← ClientIdentifierFromContext ctx;
  _ ← deref (pa_Kind msg);
  mret tt.

Definition sendPutObject (ctx : Ctx) (id : KindName) (checksum object : string) : M W unit :=
  dm ← DeptMsgIdFromContext NewMsgId ctx;
  let msg := mkPutObject checksum 0 (wrap_int (dm.1 + 1)) (Some EventPutObject)
               (kn_Kind id) dm.2 (kn_Name id) (kn_Namespace id) object None in
  wrapE "invoke outPool on put object message" (outPool_Invoke (Marshal msg)) ;;
  _ ← ClientIdentifierFromContext ctx;
  _ ← deref (pu_Kind msg);
  mret tt.

Definition sendBatch (ctx : Ctx) (kind : Kind) (batchType : BatchType)
    (items : BatchItems) : M W unit :=
  dm ← DeptMsgIdFromContext NewMsgId ctx;
  let msg := mkBatch (wrap_int (dm.1 + 1)) (Some EventBatch) dm.2 (Some kind)
               batchType (Some items) None in
  wrapE "invoke outPool on batch message" (outPool_Invoke (Marshal msg)) ;;
  _ ← ClientIdentifierFromContext ctx;
  mret tt.

(** One turn of the ping loop; an error is logged and the loop goes on. *)
Definition sendPing_turn : M W unit :=
  msgId ← NewMsgId;
  _ ← attempt (outPool_Invoke (Marshal (mkGeneric 0 (Some EventPing) None msgId None)));
  mret tt.

Definition DeleteObjectCallback (ctx : Ctx) (id : KindName) : M W unit :=
  wrapE "send delete" (sendObjectDeleted ctx id).
Definition BatchCallback (ctx : Ctx) (kind : Kind) (batchType : BatchType)
    (items : BatchItems) : M W unit :=
  wrapE "send batch" (sendBatch ctx kind batchType items).
Definition GetObjectCallback (ctx : Ctx) (id : KindName) (baseObject : string) : M W unit :=
  wrapE "send get object" (sendGetObject ctx id (if isClient then "" else baseObject)).
Definition PatchObjectCallback (ctx : Ctx) (id : KindName) (checksum patch : string) : M W unit :=
  wrapE "send patch" (sendPatchObject ctx id checksum patch).
Definition PutObjectCallback (ctx : Ctx) (id : KindName) (checksum object : string) : M W unit :=
  wrapE "send put object" (sendPutObject ctx id checksum object).
Definition VerifyObjectCallback (ctx : Ctx) (id : KindName) (checksum : string) : M W unit :=
  wrapE "send checksum" (sendNewChecksum ctx id checksum).

(** The callbacks that [newSynchronizer] registers with every adapter. *)
Definition callbacks : Callbacks W :=
  mkCallbacks DeleteObjectCallback GetObjectCallback PatchObjectCallback
    PutObjectCallback VerifyObjectCallback BatchCallback.

(** [NewPool] is [ants.NewPoolWithFunc], of which only the error is seen here. *)
Definition newSynchronizer {X} (NewPool : M X unit) (mainCtx : Ctx) (adapters : list (Adapter W X)) : M X unit :=
  wrapE "unable to create outgoing message pool" NewPool ;;
  mfor (λ adapter, ad_RegisterCallbacks adapter mainCtx callbacks) adapters.
End Outgoing.

(** The websocket frames a side reads and writes: those of a client are masked. *)
Inductive FrameReader : Type := ReadServerBinary | ReadClientBinary.
Inductive FrameWriter : Type := WriteClientBinary | WriteServerBinary.
(** [Synchronizer], but for the pools; [newConn] is nil on the server. *)
Record Synchronizer (W X N Conn : Type) : Type := mkSynchronizer {
  s_adapters : list (Adapter W X);
  s_isClient : bool;
  s_initialConn : Conn;
  s_newConn : option (M N Conn);
  s_readDataFunc : FrameReader;
  s_writeDataFunc : FrameWriter
}.
Arguments mkSynchronizer {W X N Conn} _ _ _ _ _ _.

Section Constructors.
Context {W X N Conn : Type}.
Variable NewMsgId : M W string.
Variable outPool_Invoke : string → M W unit.
Variable NewPool : M X unit.
Definition NewSynchronizerClient (mainCtx : Ctx) (adapters : list (Adapter W X)) (conn : Conn)
    (newConn : M N Conn) : M X (Synchronizer W X N Conn) :=
  newSynchronizer NewMsgId outPool_Invoke true NewPool mainCtx adapters ;;
  mret (mkSynchronizer adapters true conn (Some newConn) ReadServerBinary WriteClientBinary).
Definition NewSynchronizerServer (mainCtx : Ctx) (adapters : list (Adapter W X)) (conn : Conn) :
    M X (Synchronizer W X N Conn) :=
  newSynchronizer NewMsgId outPool_Invoke false NewPool mainCtx adapters ;;
  mret (mkSynchronizer adapters false conn None ReadClientBinary WriteServerBinary).
End Constructors.

(** ** Receiving *)

(** How a turn of the incoming worker ends: what it logs. *)
Inductive turn : Type :=
| ConnectionClosed
| CannotUnmarshalGeneric
| DepthTooHigh
| CannotUnmarshal
| HandlerError (e : gerror)
| Done.

Section Incoming.
Context {W X : Type}.
Variable adapters : list (Adapter W X).

Definition handleSyncBatch (ctx : Ctx) (kind : Kind) (batchType : BatchType)
    (items : BatchItems) : M X unit :=
  mfor (λ a, wrapE "batch" (ad_Batch a ctx kind batchType items)) adapters.
Definition handleSyncGetObject (ctx : Ctx) (id : KindName) (baseObject : string) : M X unit :=
  mfor (λ a, wrapE "get object" (ad_GetObject a ctx id baseObject)) adapters.
Definition handleSyncNewChecksum (ctx : Ctx) (id : KindName) (newChecksum : string) : M X unit :=
  mfor (λ a, wrapE "verify object" (ad_VerifyObject a ctx id newChecksum)) adapters.
Definition handleSyncObjectDeleted (ctx : Ctx) (id : KindName) : M X unit :=
  mfor (λ a, wrapE "delete object" (ad_DeleteObject a ctx id)) adapters.
Definition handleSyncPatchObject (ctx : Ctx) (id : KindName) (checksum patch : string) : M X unit :=
  mfor (λ a, wrapE "patch object" (ad_PatchObject a ctx id checksum patch)) adapters.
Definition handleSyncPutObject (ctx : Ctx) (id : KindName) (checksum object : string) : M X unit :=
  mfor (λ a, wrapE "put object" (ad_PutObject a ctx id checksum object)) adapters.

(** The tail of every case of the switch: log the error of the handler, or fall out. *)
Definition handled (event : option Event) (m : M X unit) : M X turn :=
  r ← attempt m;
  match r with
  | inl _ => mret Done
  | inr e => _ ← deref event; mret (HandlerError e)
  end.
(** [err = json.Unmarshal(data, &msg)]: the error is logged with [generic.Kind.String()]. *)
Definition decoded {A} `{Wire A} (generic : Generic) (data : string)
    (k : A → M X turn) : M X turn :=
  match Unmarshal data with
  | None => _ ← deref (g_Kind generic); mret CannotUnmarshal
  | Some msg => k msg
  end.

Definition onBatch (ctx : Ctx) (generic : Generic) (data : string) : M X turn :=
  decoded generic data (λ msg : Batch,
    kind ← deref (b_Kind msg);
    items ← deref (b_Items msg);
    handled (b_Event msg) (handleSyncBatch ctx kind (b_BatchType msg) items)).
Definition onGetObject (ctx : Ctx) (generic : Generic) (data : string) : M X turn :=
  decoded generic data (λ msg : GetObject,
    let id := mkKindName (go_Kind msg) (go_Name msg) (go_Namespace msg) (go_ResourceVersion msg) in
    handled (go_Event msg) (handleSyncGetObject ctx id (go_BaseObject msg))).
Definition onNewChecksum (ctx : Ctx) (generic : Generic) (data : string) : M X turn :=
  decoded generic data (λ msg : NewChecksum,
    let id := mkKindName (nc_Kind msg) (nc_Name msg) (nc_Namespace msg) (nc_ResourceVersion msg) in
    handled (nc_Event msg) (handleSyncNewChecksum ctx id (nc_Checksum msg))).
Definition onObjectDeleted (ctx : Ctx) (generic : Generic) (data : string) : M X turn :=
  decoded generic data (λ msg : ObjectDeleted,
    let id := mkKindName (od_Kind msg) (od_Name msg) (od_Namespace msg) (od_ResourceVersion msg) in
    handled (od_Event msg) (handleSyncObjectDeleted ctx id)).
Definition onPatchObject (ctx : Ctx) (generic : Generic) (data : string) : M X turn :=
  decoded generic data (λ msg : PatchObject,
    let id := mkKindName (pa_Kind msg) (pa_Name msg) (pa_Namespace msg) (pa_ResourceVersion msg) in
    handled (pa_Event msg) (handleSyncPatchObject ctx id (pa_Checksum msg) (pa_Patch msg))).
Definition onPutObject (ctx : Ctx) (generic : Generic) (data : string) : M X turn :=
  decoded generic data (λ msg : PutObject,
    let id := mkKindName (pu_Kind msg) (pu_Name msg) (pu_Namespace msg) (pu_ResourceVersion msg) in
    handled (pu_Event msg) (handleSyncPutObject ctx id (pu_Checksum msg) (pu_Object msg))).

(** [switch *generic.Event]; events without a case (ping among them) do nothing. *)
Definition dispatch (event : Event) (ctx : Ctx) (generic : Generic) (data : string) : M X turn :=
  if event =? EventBatch then onBatch ctx generic data
  else if event =? EventGetObject then onGetObject ctx generic data
  else if event =? EventNewChecksum then onNewChecksum ctx generic data
  else if event =? EventObjectDeleted then onObjectDeleted ctx generic data
  else if event =? EventPatchObject then onPatchObject ctx generic data
  else if event =? EventPutObject then onPutObject ctx generic data
  else mret Done.

(** The worker of the incoming pool.  Its state is the captured variable [ctx],
    which every accepted message overwrites, and the world of the adapters. *)
Definition inWorker (data : string) : M (Ctx * X) turn :=
  if String.eqb data "" then mret ConnectionClosed
  else match Unmarshal (A := Generic) data with
  | None => mret CannotUnmarshalGeneric
  | Some generic =>
      _ ← deref (g_Event generic);
      if maxMessageDepth <? g_Depth generic then mret DepthTooHigh
      else
        s ← getW;
        let ctx := ContextFromGeneric s.1 generic in
        modifyW (λ s, (ctx, s.2)) ;;
        event ← deref (g_Event generic);
        liftR (dispatch event ctx generic data)
  end.

Definition stopAdapters (ctx : Ctx) : M X unit :=
  (fix go (idx : Z) (l : list (Adapter W X)) : M X unit :=
     match l with
     | [] => mret tt
     | a :: l' => wrapE ("stop adapter[" ++ Itoa idx ++ "]") (ad_Stop a ctx) ;; go (idx + 1) l'
     end) 0 adapters.

Definition startAdapters (ctx : Ctx) : M X unit :=
  mfor (λ a, wrapE "start adapter" (ad_Start a ctx)) adapters.
End Incoming.

(** ** The connection *)

(** [errors.As(err, &permanent)]: the permanent error in a chain of wrapped errors. *)
Fixpoint as_permanent (e : gerror) : option gerror :=
  match e with
  | Permanent c => Some c
  | Wrapf _ c => as_permanent c
  | Joined l =>
      (fix go (l : list gerror) : option gerror :=
         match l with
         | [] => None
         | e :: l' => match as_permanent e with Some c => Some c | None => go l' end
         end) l
  | _ => None
  end.

(** [backoff.RetryNotify] with the policy of [utils.NewBackOff(true)], whose
    [MaxElapsedTime] is 0: it calls the operation again until it succeeds or returns a
    permanent error.  [n] attempts decide the call when one of them is the last. *)
Fixpoint attempts {W} (n : nat) (op : M W unit) (w : W) : option (outcome unit * W) :=
  match n with
  | O => None
  | S n' =>
      match op w with
      | (Throw e, w') =>
          match as_permanent e with
          | Some c => Some (Throw c, w')
          | None => attempts n' op w'
          end
      | r => Some r
      end
  end.
(** The documented behaviour, of the library's [RetryNotify] read as a relation. *)
Definition retries_forever {W} (RetryNotify : M W unit → W → outcome unit * W → Prop) : Prop :=
  ∀ op w r, RetryNotify op w r ↔ ∃ n, attempts n op w = Some r.

Section Connection.
Context {N Conn : Type}.
Variable writeDataFunc : Conn → string → M N unit.
Variable readDataFunc : Conn → M N string.
Variable Close : Conn → M N unit.
Variable newConn : M N Conn.
Variable inPool_Invoke : string → M N unit.
Variable RetryNotify : M (Conn * N) unit → Conn * N → outcome unit * (Conn * N) → Prop.
Variable Stop : M (Conn * N) unit.
Variable isClient : bool.

(** The state is [*s.Conn] and the network. *)
Definition s_Conn : M (Conn * N) Conn := s ← getW; mret s.1.
Definition set_Conn (c : Conn) : M (Conn * N) unit := modifyW (λ s, (c, s.2)).

(** The operation that [sendData] retries. *)
Definition send_attempt (data : string) : M (Conn * N) unit :=
  conn ← s_Conn;
  r ← attempt (liftR (writeDataFunc conn data));
  match r with
  | inl _ => mret tt
  | inr err =>
      _ ← attempt (liftR (Close conn));
      if isClient then
        conn' ← wrapE "refreshing outgoing connection" (liftR newConn);
        set_Conn conn' ;;
        liftR (writeDataFunc conn' data)
      else throw (Permanent (Wrapf "cannot send message" err))
  end.

(** [sendData]: giving up stops the synchronizer, whose error is only logged. *)
Definition sendData (data : string) (w : Conn * N) (r : outcome unit * (Conn * N)) : Prop :=
  ∃ o w1, RetryNotify (send_attempt data) w (o, w1) ∧
    r = match o with
        | Ret _ => (Ret tt, w1)
        | Throw _ => (_ ← attempt Stop; mret tt) w1
        | Panic s => (Panic s, w1)
        end.

(** The operation that the reading loop retries. *)
Definition read_attempt : M (Conn * N) unit :=
  conn ← s_Conn;
  r ← attempt (liftR (readDataFunc conn));
  match r with
  | inl data => wrapE "invoke inPool" (liftR (inPool_Invoke data))
  | inr err =>
      _ ← attempt (liftR (Close conn));
      if isClient then throw (Wrapf "cannot read data" err)
      else throw (Permanent (Wrapf "cannot read data" err))
  end.

(** The loop of [listenForSyncEvents], which only an error or a panic leaves. *)
Inductive listen : Conn * N → outcome unit * (Conn * N) → Prop :=
| listen_turn w w1 r :
    RetryNotify read_attempt w (Ret tt, w1) → listen w1 r → listen w r
| listen_giveup w w1 e :
    RetryNotify read_attempt w (Throw e, w1) →
    listen w (Throw (Wrapf "giving up process incoming messages" e), w1)
| listen_panic w w1 s :
    RetryNotify read_attempt w (Panic s, w1) → listen w (Panic s, w1).

(** [listenForSyncEvents]: a pool, then the loop.  The worker of the pool is [inWorker]. *)
Definition listenForSyncEvents (NewPool : M (Conn * N) unit) (ctx : Ctx) (w : Conn * N)
    (r : outcome unit * (Conn * N)) : Prop :=
  match (_ ← ClientIdentifierFromContext ctx;
         wrapE "unable to create incoming message pool" NewPool) w with
  | (Ret _, w1) => listen w1 r
  | (Throw e, w1) => r = (Throw e, w1)
  | (Panic s, w1) => r = (Panic s, w1)
  end.
End Connection.

(** [Stop]: release the pools that exist, then stop the adapters. *)
Section Stop.
Context {W X : Type}.
Variable adapters : list (Adapter W X).
Variables outPool_Release inPool_Release : option (M X unit).
Definition Stop (ctx : Ctx) : M X unit :=
  _ ← ClientIdentifierFromContext ctx;
  default (mret tt) outPool_Release ;;
  default (mret tt) inPool_Release ;;
  stopAdapters adapters ctx.
End Stop.

(** [Start], around the loop of [listenForSyncEvents]. *)
Section Start.
Context {W X : Type}.
Variable adapters : list (Adapter W X).
(** [spawnPing] starts the goroutine of [sendPing]; [loop] is [listenForSyncEvents]. *)
Definition Start (isClient : bool) (spawnPing loop : M X unit) (ctx : Ctx) : M X unit :=
  _ ← ClientIdentifierFromContext ctx;
  (if isClient then spawnPing else mret tt) ;;
  startAdapters adapters ctx ;;
  wrapE "listen for sync events" loop.
End Start.

(** ** Lemmas *)

Lemma mfor_throw {W A} (f : A → M W unit) l1 a l2 w w1 e w2 :
  mfor f l1 w = (Ret tt, w1) → f a w1 = (Throw e, w2) →
  mfor f (l1 ++ a :: l2) w = (Throw e, w2).
Proof. intros H1 H2. rewrite mfor_app, bind_run, H1. cbn. by rewrite bind_run, H2. Qed.

(** A decided number of attempts is decided the same way by more. *)
Lemma attempts_mono {W} n m (op : M W unit) w r :
  attempts n op w = Some r → (n ≤ m)%nat → attempts m op w = Some r.
Proof.
  revert m w. induction n as [|n IH]; intros m w; [done|]. destruct m as [|m]; [lia|].
  cbn. destruct (op w) as [[a|e|s] w']; auto.
  destruct (as_permanent e); auto. intros. apply IH; [done|lia].
Qed.

(** The last attempt gave the result. *)
Lemma attempts_last {W} n (op : M W unit) w r :
  attempts n op w = Some r →
  ∃ w1, match op w1 with
        | (Throw e, w2) => ∃ c, as_permanent e = Some c ∧ r = (Throw c, w2)
        | r' => r = r'
        end.
Proof.
  revert w. induction n as [|n IH]; intros w; [done|]. cbn.
  destruct (op w) as [[a|e|s] w'] eqn:E.
  - intros [= <-]. exists w. by rewrite E.
  - destruct (as_permanent e) as [c|] eqn:Ep; [|apply IH].
    intros [= <-]. exists w. rewrite E. eauto.
  - intros [= <-]. exists w. by rewrite E.
Qed.

(** An operation that never fails permanently is retried until it succeeds. *)
Definition never_permanent {W A} (m : M W A) : Prop :=
  ∀ w e w', m w = (Throw e, w') → as_permanent e = None.

Lemma attempts_persistent {W} n (op : M W unit) w o w' :
  never_permanent op → attempts n op w = Some (o, w') →
  ∃ w1, op w1 = (o, w') ∧ ∀ e, o ≠ Throw e.
Proof.
  intros Hp Ha. destruct (attempts_last _ _ _ _ Ha) as (w1 & H1). exists w1.
  destruct (op w1) as [[a|e|s] w2] eqn:E.
  - injection H1 as -> ->. done.
  - destruct H1 as (c & Hc & _). by rewrite (Hp _ _ _ E) in Hc.
  - injection H1 as -> ->. done.
Qed.

Lemma never_permanent_wrapE {W A} l (m : M W A) : never_permanent m → never_permanent (wrapE l m).
Proof.
  intros H w e w'. rewrite wrapE_run. destruct (m w) as [[a|e0|s] w0] eqn:E; try done.
  intros [= <- <-]. cbn. eauto.
Qed.
Lemma never_permanent_liftR {W X A} (m : M X A) :
  never_permanent m → never_permanent (liftR (W := W) m).
Proof.
  intros H [w x] e w'. cbn. destruct (m x) as [o x'] eqn:E. intros [= -> <-]. eauto.
Qed.
Lemma never_permanent_bind {W A B} (m : M W A) (f : A → M W B) :
  never_permanent m → (∀ a, never_permanent (f a)) → never_permanent (m ≫= f).
Proof.
  intros Hm Hf w e w'. rewrite bind_run. destruct (m w) as [[a|e0|s] w0] eqn:E.
  - apply Hf.
  - intros [= <- <-]. eauto.
  - done.
Qed.
Lemma never_permanent_attempt {W A} (m : M W A) : never_permanent (attempt m).
Proof. intros w e w'. rewrite attempt_run. by destruct (m w) as [[]]. Qed.
Create HintDb permanent.
#[export] Hint Resolve never_permanent_wrapE never_permanent_liftR never_permanent_bind
  never_permanent_attempt : permanent.

Section ConnectionLemmas.
Context {N Conn : Type} (write : Conn → string → M N unit) (read : Conn → M N string)
  (Close : Conn → M N unit) (newConn : M N Conn) (Invoke : string → M N unit).

Lemma client_send_persistent data :
  (∀ c, never_permanent (write c data)) → never_permanent newConn →
  never_permanent (send_attempt write Close newConn true data).
Proof.
  intros Hw Hn. unfold send_attempt. apply never_permanent_bind; [done|]. intros conn.
  apply never_permanent_bind; [auto with permanent|]. intros [?|err]; [done|].
  apply never_permanent_bind; [auto with permanent|]. intros _.
  apply never_permanent_bind; [auto with permanent|]. intros conn'.
  apply never_permanent_bind; [done|]. auto with permanent.
Qed.

Lemma client_read_persistent :
  (∀ c, never_permanent (read c)) → (∀ data, never_permanent (Invoke data)) →
  never_permanent (read_attempt read Close Invoke true).
Proof.
  intros Hr Hi. unfold read_attempt. apply never_permanent_bind; [done|].
  intros conn [c n] e w'. rewrite bind_run, attempt_run. cbn.
  destruct (read conn n) as [[data|err|s] n1] eqn:Er; [| |done].
  - by apply never_permanent_wrapE, never_permanent_liftR.
  - rewrite bind_run, attempt_run. cbn. destruct (Close conn n1) as [[?|?|?] n2]; try done;
      intros [= <- <-]; exact (Hr _ _ _ _ Er).
Qed.

(** A successful attempt has written the data on the connection it leaves. *)
Lemma send_attempt_wrote isClient data w w' :
  send_attempt write Close newConn isClient data w = (Ret tt, w') →
  ∃ n0, write w'.1 data n0 = (Ret tt, w'.2).
Proof.
  destruct w as [c n]. unfold send_attempt, s_Conn, set_Conn. go_compute.
  destruct (write c data n) as [[[]|e|s] n1] eqn:Ew; [|..|done].
  - intros [= <-]. by exists n.
  - destruct (Close c n1) as [[?|?|?] n2], isClient; try done;
      destruct (newConn n2) as [[c'|?|?] n3]; try done;
      destruct (write c' data n3) as [[[]|?|?] n4] eqn:Ew'; try done;
      intros [= <-]; by exists n3.
Qed.
End ConnectionLemmas.

(** A well-formed header that is shallow enough reaches the switch. *)
Lemma inWorker_accept {W X} (adapters : list (Adapter W X)) data g e rctx x :
  data ≠ "" → Unmarshal data = Some g → g_Event g = Some e → g_Depth g ≤ maxMessageDepth →
  inWorker adapters data (rctx, x) =
    let rctx' := ContextFromGeneric rctx g in
    let '(o, x') := dispatch adapters e rctx' g data x in (o, (rctx', x')).
Proof.
  intros Hne Hu He Hd. unfold inWorker.
  destruct (String.eqb_spec data ""); [done|]. rewrite Hu, He, deref_bind_Some.
  assert (maxMessageDepth <? g_Depth g = false) as -> by (by apply Z.ltb_ge).
  reflexivity.
Qed.

Lemma inWorker_deep {W X} (adapters : list (Adapter W X)) data g e s :
  data ≠ "" → Unmarshal data = Some g → g_Event g = Some e → maxMessageDepth < g_Depth g →
  inWorker adapters data s = (Ret DepthTooHigh, s).
Proof.
  intros Hne Hu He Hd. unfold inWorker.
  destruct (String.eqb_spec data ""); [done|]. rewrite Hu, He, deref_bind_Some.
  by assert (maxMessageDepth <? g_Depth g = true) as -> by (by apply Z.ltb_lt).
Qed.

(** ** Properties *)

(** C38. Only an accepted message has an effect: whatever bytes arrive, if the worker
    changes the adapters or its context, the bytes are a JSON message with an event and
    a depth of at most 8, and the new context is the old one with its depth and id. *)
Theorem only_accepted_data_acts {W X} (adapters : list (Adapter W X)) data rctx x o s' :
  inWorker adapters data (rctx, x) = (o, s') → s' ≠ (rctx, x) →
  ∃ g e, Unmarshal data = Some g ∧ g_Event g = Some e ∧ g_Depth g ≤ maxMessageDepth ∧
         s'.1 = ContextFromGeneric rctx g.
Proof.
  intros Hin Hs.
  destruct (Unmarshal (A := Generic) data) as [g|] eqn:Hu;
    [|unfold inWorker in Hin; rewrite Hu in Hin; destruct (String.eqb data "");
      injection Hin as <- <-; done].
  destruct (String.eqb_spec data "") as [->|Hne];
    [injection Hin as <- <-; done|].
  destruct (g_Event g) as [e|] eqn:He.
  - destruct (Z.ltb_spec maxMessageDepth (g_Depth g)) as [Hlt|Hle].
    + rewrite (inWorker_deep _ _ _ _ _ Hne Hu He Hlt) in Hin. injection Hin as <- <-. done.
    + rewrite (inWorker_accept _ _ _ _ _ _ Hne Hu He Hle) in Hin. exists g, e.
      split_and!; [done..|]. cbv zeta in Hin.
      destruct (dispatch _ _ _ _ _ _) as [o' x']. by injection Hin as <- <-.
  - unfold inWorker in Hin. rewrite Hu, He in Hin.
    destruct (String.eqb data ""); [injection Hin as <- <-; done|].
    rewrite deref_bind_None in Hin. injection Hin as <- <-. done.
Qed.

Lemma only_accepted_data_acts_witness :
  ∃ g e, Unmarshal (Marshal (mkGeneric 2 (Some EventPing) None "m" None)) = Some g ∧
    g_Event g = Some e ∧ g_Depth g ≤ maxMessageDepth ∧
    ContextFromGeneric sample_ctx g = ContextFromGeneric sample_ctx g.
Proof.
  destruct (only_accepted_data_acts [recorder (W := unit)]
    (Marshal (mkGeneric 2 (Some EventPing) None "m" None)) sample_ctx []
    (Ret Done) (ContextFromGeneric sample_ctx (mkGeneric 2 (Some EventPing) None "m" None), [])) as (g & e & H1 & H2 & H3 & _);
    [by vm_compute|discriminate|eauto 6].
Defined.

(** A message that is too deep is dropped: the worker logs it and neither calls an
    adapter nor touches its context. *)
Theorem deep_message_dropped {W X} (adapters : list (Adapter W X)) data g e s :
  data ≠ "" → Unmarshal data = Some g → g_Event g = Some e → maxMessageDepth < g_Depth g →
  inWorker adapters data s = (Ret DepthTooHigh, s).
Proof.
  apply inWorker_deep.
Qed.

Lemma deep_message_dropped_witness :
  inWorker [recorder (W := unit)] (Marshal (mkGeneric 9 (Some EventGetObject) None "m" None))
    (sample_ctx, []) = (Ret DepthTooHigh, (sample_ctx, [])).
Proof.
  apply (deep_message_dropped _ _ (mkGeneric 9 (Some EventGetObject) None "m" None)
    EventGetObject); [by vm_compute|by vm_compute|reflexivity|reflexivity].
Defined.

(** A message without an event makes the worker panic, whatever its depth. *)
Theorem missing_event_panics {W X} (adapters : list (Adapter W X)) data g s :
  data ≠ "" → Unmarshal data = Some g → g_Event g = None →
  inWorker adapters data s = (Panic "nil pointer dereference", s).
Proof.
  intros Hne Hu He. unfold inWorker.
  destruct (String.eqb_spec data ""); [done|]. by rewrite Hu, He.
Qed.

Lemma missing_event_panics_witness :
  inWorker [recorder (W := unit)] "{}" (sample_ctx, [])
    = (Panic "nil pointer dereference", (sample_ctx, [])).
Proof.
  apply (missing_event_panics _ _ (mkGeneric 0 None None "" None));
    [discriminate|by vm_compute|reflexivity].
Defined.

(** The context of the worker after a sequence of messages that were all accepted. *)
Definition worker_context (rctx : Ctx) (gs : list Generic) : Ctx :=
  foldl ContextFromGeneric rctx gs.
Definition work {W X} (adapters : list (Adapter W X)) (ds : list string) : M (Ctx * X) unit :=
  mfor (λ d, _ ← inWorker adapters d; mret tt) ds.

(** The captured context grows by two bindings with every accepted message and is
    never reset: after [n] messages the worker's context is [2 n] bindings longer. *)
Theorem worker_context_grows {W X} (adapters : list (Adapter W X)) ds gs rctx x s' :
  Forall2 (λ d g, d ≠ "" ∧ Unmarshal d = Some g ∧ is_Some (g_Event g) ∧
                  g_Depth g ≤ maxMessageDepth) ds gs →
  work adapters ds (rctx, x) = (Ret tt, s') →
  s'.1 = worker_context rctx gs ∧ length s'.1 = (length rctx + 2 * length ds)%nat.
Proof.
  intros HF. revert rctx x. induction HF as [|d g ds gs (Hne & Hu & [e He] & Hd) HF IH];
    intros rctx x; [intros [= <-]; cbn; split; [done|lia]|].
  unfold work. cbn [mfor]. rewrite !bind_run. intros Hw.
  rewrite (inWorker_accept _ _ _ _ _ _ Hne Hu He Hd) in Hw. cbv zeta in Hw.
  destruct (dispatch _ _ _ _ _ _) as [[t|?|?] x']; [|done..]. rewrite ret_run in Hw.
  apply IH in Hw as [H1 H2]. split; [done|]. rewrite H2. cbn. lia.
Qed.

Lemma worker_context_grows_witness :
  let ping := Marshal (mkGeneric 0 (Some EventPing) None "p" None) in
  ∃ s', work [recorder (W := unit)] [ping; ping] (sample_ctx, []) = (Ret tt, s') ∧
        length s'.1 = (length sample_ctx + 4)%nat.
Proof.
  set (g := mkGeneric 0 (Some EventPing) None "p" None).
  eexists. split; [by vm_compute|].
  eapply (worker_context_grows [recorder (W := unit)] [Marshal g; Marshal g] [g; g] sample_ctx []);
    [|by vm_compute].
  repeat constructor; try (by vm_compute); by eexists.
Defined.

(** The server writes a message once: when that fails it closes the connection and
    stops; it never retries and never reconnects. *)
Theorem server_sends_once {N Conn} (write : Conn → string → M N unit) Close newConn RetryNotify
    Stop data (c : Conn) (n : N) r :
  retries_forever RetryNotify →
  sendData write Close newConn RetryNotify Stop false data (c, n) r ↔
  r = match write c data n with
      | (Ret _, n1) => (Ret tt, (c, n1))
      | (Throw _, n1) =>
          match Close c n1 with
          | (Panic s, n2) => (Panic s, (c, n2))
          | (_, n2) => (_ ← attempt Stop; mret tt) (c, n2)
          end
      | (Panic s, n1) => (Panic s, (c, n1))
      end.
Proof.
  intros HR. unfold sendData.
  assert (∀ o w1, RetryNotify (send_attempt write Close newConn false data) (c, n) (o, w1) ↔
    attempts 1 (send_attempt write Close newConn false data) (c, n) = Some (o, w1)) as H1.
  { intros o w1. rewrite (HR _ _ _). split; [|by eexists].
    intros [k Hk]. destruct k as [|k]; [done|]. revert Hk. cbn.
    unfold send_attempt, s_Conn. go_compute.
    destruct (write c data n) as [[?|?|?] n1]; try done.
    by destruct (Close c n1) as [[?|?|?] n2]. }
  setoid_rewrite H1. clear H1. unfold attempts, send_attempt, s_Conn. go_compute.
  destruct (write c data n) as [[[]|e|s] n1]; [|destruct (Close c n1) as [[?|?|?] n2]|];
    cbn; (split; [by intros (o & w1 & [= <- <-] & ->)|intros ->; eauto]).
Qed.

(** The library's loop as the relation its documentation describes. *)
Definition sample_RetryNotify {W} (op : M W unit) (w : W) (r : outcome unit * W) : Prop :=
  ∃ n, attempts n op w = Some r.
Lemma sample_retries {W} : retries_forever (sample_RetryNotify (W := W)).
Proof. done. Qed.

Lemma server_sends_once_witness :
  sendData net_write net_Close net_newConn sample_RetryNotify (throw (Errorf "stopped")) false
    "data" (false, (0%nat, [])) (Ret tt, (false, (0%nat, []))).
Proof. by apply (server_sends_once _ _ _ _ _ _ _ _ _ sample_retries). Defined.

(** The client does not give up: with errors of the network that are not permanent,
    [sendData] returns only once the message was written on the connection that is then
    current, and never stops the synchronizer. *)
Theorem client_sends_until_written {N Conn} (write : Conn → string → M N unit) Close newConn
    RetryNotify Stop data w o w' :
  retries_forever RetryNotify →
  (∀ c, never_permanent (write c data)) → never_permanent newConn →
  sendData write Close newConn RetryNotify Stop true data w (o, w') →
  (o = Ret tt ∧ ∃ n0, write w'.1 data n0 = (Ret tt, w'.2)) ∨ ∃ s, o = Panic s.
Proof.
  intros HR Hw Hn (o1 & w1 & HRN & Hr). apply HR in HRN as [k Hk].
  apply attempts_persistent in Hk as (w0 & Hop & Hnt); [|by apply client_send_persistent].
  destruct o1 as [[]|e|s]; [|by destruct (Hnt e)|].
  - injection Hr as -> ->. left. split; [done|]. by eapply send_attempt_wrote.
  - injection Hr as -> ->. eauto.
Qed.

Lemma client_sends_until_written_witness :
  (Ret tt : outcome unit) = Ret tt ∧
    (∃ n0, net_write true "data" n0 = (Ret tt, (0%nat, ["data"]))) ∨
  ∃ s, (Ret tt : outcome unit) = Panic s.
Proof.
  apply (client_sends_until_written net_write net_Close net_newConn sample_RetryNotify
    (throw (Errorf "stopped")) "data" (false, (2%nat, [])) (Ret tt) (true, (0%nat, ["data"]))
    sample_retries).
  - intros [] w e w'; [done|]. by intros [= <- _].
  - intros [[|k] l] e w'; [done|]. by intros [= <- _].
  - exists (Ret tt), (true, (0%nat, ["data"])). split; [by exists 3%nat|done].
Defined.

(** The client delivers once the network is back: however many times [k] it is
    refused a connection, [sendData] succeeds and the other side has the message, once. *)
Theorem client_delivers_after_outage k sent data Stop :
  sendData net_write net_Close net_newConn sample_RetryNotify Stop true data
    (false, (k, sent)) (Ret tt, (true, (0%nat, sent ++ [data]))).
Proof.
  exists (Ret tt), (true, (0%nat, sent ++ [data])). split; [|done]. exists (S k).
  induction k as [|k IH]; [done|]. exact IH.
Qed.

(** The client keeps listening: its loop never ends with an error as long as those
    of reading and of the pool are not permanent. *)
Theorem client_listens_forever {N Conn} (read : Conn → M N string) Close Invoke RetryNotify
    w o w' :
  retries_forever RetryNotify →
  (∀ c : Conn, never_permanent (read c)) → (∀ data, never_permanent (Invoke data)) →
  listen read Close Invoke RetryNotify true w (o, w') → ∃ s, o = Panic s.
Proof.
  intros HR Hr Hi Hl. remember (o, w') as r eqn:Er. revert o w' Er.
  induction Hl as [w w1 r _ _ IH|w w1 e HRN|w w1 s HRN]; intros o w' Er; [eauto| |].
  - apply HR in HRN as [k Hk].
    apply attempts_persistent in Hk as (w0 & _ & Hnt); [|by apply client_read_persistent].
    by destruct (Hnt e).
  - injection Er as <- <-. eauto.
Qed.

Lemma client_listens_forever_witness :
  ∃ s, (Panic "nil conn" : outcome unit) = Panic s.
Proof.
  apply (client_listens_forever (N := nat) (λ _ : bool, panic "nil conn") (λ _, mret tt)
    (λ _, mret tt) sample_RetryNotify (true, 0%nat) (Panic "nil conn") (true, 0%nat)
    sample_retries); [done|done|].
  apply listen_panic. by exists 1%nat.
Defined.
