(* ===== verification/Delivery.v ===== *)
(** * Delivery: what the two sides of the core promise together.

    [SyncEvent] is the abstract vocabulary of the protocol.  An event is [call]ed on
    the callbacks of the sending side and [deliver]ed to an adapter of the receiving
    side; between the two it is a message on the wire, [message_of]. *)

From S2P Require Export Synchronizer.

#[global] Arguments Marshal : simpl never.
#[global] Arguments Unmarshal : simpl never.
#[global] Opaque Marshal Unmarshal.

Inductive SyncEvent : Type :=
| SyncDelete (id : KindName)
| SyncGet (id : KindName) (baseObject : string)
| SyncPatch (id : KindName) (checksum patch : string)
| SyncPut (id : KindName) (checksum object : string)
| SyncVerify (id : KindName) (checksum : string)
| SyncBatch (kind : Kind) (batchType : BatchType) (items : BatchItems).

(** The sending side: the callback the event names. *)
Definition call {W} (cb : Callbacks W) (ctx : Ctx) (ev : SyncEvent) : M W unit :=
  match ev with
  | SyncDelete id => cb_DeleteObject cb ctx id
  | SyncGet id base => cb_GetObject cb ctx id base
  | SyncPatch id checksum patch => cb_PatchObject cb ctx id checksum patch
  | SyncPut id checksum object => cb_PutObject cb ctx id checksum object
  | SyncVerify id checksum => cb_VerifyObject cb ctx id checksum
  | SyncBatch kind bt items => cb_Batch cb ctx kind bt items
  end.

(** The receiving side: the operation of an adapter, with the label its error gets. *)
Definition deliver {W X} (a : Adapter W X) (ctx : Ctx) (ev : SyncEvent) : M X unit :=
  match ev with
  | SyncDelete id => wrapE "delete object" (ad_DeleteObject a ctx id)
  | SyncGet id base => wrapE "get object" (ad_GetObject a ctx id base)
  | SyncPatch id checksum patch => wrapE "patch object" (ad_PatchObject a ctx id checksum patch)
  | SyncPut id checksum object => wrapE "put object" (ad_PutObject a ctx id checksum object)
  | SyncVerify id checksum => wrapE "verify object" (ad_VerifyObject a ctx id checksum)
  | SyncBatch kind bt items => wrapE "batch" (ad_Batch a ctx kind bt items)
  end.

(** The event as the other side sees it: the resource version does not travel, nor
    the base object of a request that a client sends. *)
Definition unversioned (id : KindName) : KindName :=
  mkKindName (kn_Kind id) (kn_Name id) (kn_Namespace id) 0.
Definition as_received (isClient : bool) (ev : SyncEvent) : SyncEvent :=
  match ev with
  | SyncDelete id => SyncDelete (unversioned id)
  | SyncGet id base => SyncGet (unversioned id) (if isClient then "" else base)
  | SyncPatch id checksum patch => SyncPatch (unversioned id) checksum patch
  | SyncPut id checksum object => SyncPut (unversioned id) checksum object
  | SyncVerify id checksum => SyncVerify (unversioned id) checksum
  | SyncBatch kind bt items => SyncBatch kind bt items
  end.

(** The handler of the core: the loop over all its adapters. *)
Definition handle {W X} (adapters : list (Adapter W X)) (ctx : Ctx) (ev : SyncEvent) : M X unit :=
  match ev with
  | SyncDelete id => handleSyncObjectDeleted adapters ctx id
  | SyncGet id base => handleSyncGetObject adapters ctx id base
  | SyncPatch id checksum patch => handleSyncPatchObject adapters ctx id checksum patch
  | SyncPut id checksum object => handleSyncPutObject adapters ctx id checksum object
  | SyncVerify id checksum => handleSyncNewChecksum adapters ctx id checksum
  | SyncBatch kind bt items => handleSyncBatch adapters ctx kind bt items
  end.

(** Events whose text the wire carries unchanged (valid UTF-8, a kind). *)
Definition id_ok (id : KindName) : Prop :=
  (∃ k, kn_Kind id = Some k ∧ wire_ok k) ∧ text_ok (kn_Name id) ∧ text_ok (kn_Namespace id).
Definition sendable (ev : SyncEvent) : Prop :=
  match ev with
  | SyncDelete id => id_ok id
  | SyncGet id base => id_ok id ∧ text_ok base
  | SyncPatch id checksum patch => id_ok id ∧ text_ok checksum ∧ text_ok patch
  | SyncPut id checksum object => id_ok id ∧ text_ok checksum ∧ text_ok object
  | SyncVerify id checksum => id_ok id ∧ text_ok checksum
  | SyncBatch kind bt items => wire_ok kind ∧ text_ok bt ∧ wire_ok items
  end.

(** The message of an event, at a depth and with a message id. *)
Definition event_number (ev : SyncEvent) : Event :=
  match ev with
  | SyncDelete _ => EventObjectDeleted
  | SyncGet _ _ => EventGetObject
  | SyncPatch _ _ _ => EventPatchObject
  | SyncPut _ _ _ => EventPutObject
  | SyncVerify _ _ => EventNewChecksum
  | SyncBatch _ _ _ => EventBatch
  end.
Definition event_kind (ev : SyncEvent) : option Kind :=
  match ev with
  | SyncDelete id | SyncGet id _ | SyncPatch id _ _ | SyncPut id _ _ | SyncVerify id _ =>
      kn_Kind id
  | SyncBatch kind _ _ => Some kind
  end.
Definition message_header (ev : SyncEvent) (depth : Z) (msgId : string) : Generic :=
  mkGeneric depth (Some (event_number ev)) (event_kind ev) msgId None.
Definition message_of (isClient : bool) (ev : SyncEvent) (depth : Z) (msgId : string) : string :=
  let e := Some (event_number ev) in
  match ev with
  | SyncDelete id =>
      Marshal (mkObjectDeleted 0 depth e (kn_Kind id) msgId (kn_Name id) (kn_Namespace id) None)
  | SyncGet id base =>
      Marshal (mkGetObject 0 (if isClient then "" else base) depth e (kn_Kind id) msgId
                 (kn_Name id) (kn_Namespace id) None)
  | SyncPatch id checksum patch =>
      Marshal (mkPatchObject checksum 0 depth e (kn_Kind id) msgId (kn_Name id)
                 (kn_Namespace id) patch None)
  | SyncPut id checksum object =>
      Marshal (mkPutObject checksum 0 depth e (kn_Kind id) msgId (kn_Name id)
                 (kn_Namespace id) object None)
  | SyncVerify id checksum =>
      Marshal (mkNewChecksum 0 checksum depth e (kn_Kind id) msgId (kn_Name id)
                 (kn_Namespace id) None)
  | SyncBatch kind bt items => Marshal (mkBatch depth e msgId (Some kind) bt (Some items) None)
  end.

(** The labels an error of the pool gets on its way to the adapter. *)
Definition send_labels (ev : SyncEvent) : string * string :=
  match ev with
  | SyncDelete _ => ("send delete", "invoke outPool on delete message")
  | SyncGet _ _ => ("send get object", "invoke outPool on get object message")
  | SyncPatch _ _ _ => ("send patch", "invoke outPool on patch message")
  | SyncPut _ _ _ => ("send put object", "invoke outPool on put object message")
  | SyncVerify _ _ => ("send checksum", "invoke outPool on checksum message")
  | SyncBatch _ _ _ => ("send batch", "invoke outPool on batch message")
  end%string.

(** What the worker makes of the result of the adapters. *)
Definition turn_of {X} (ctx : Ctx) (r : outcome unit * X) : outcome turn * (Ctx * X) :=
  match r with
  | (Ret _, x) => (Ret Done, (ctx, x))
  | (Throw e, x) => (Ret (HandlerError e), (ctx, x))
  | (Panic s, x) => (Panic s, (ctx, x))
  end.

(** ** The sending side *)
Lemma text_ok_nil : text_ok "".
Proof. reflexivity. Qed.
#[local] Hint Resolve text_ok_nil : core.

Section Sending.
Context {W : Type} (NewMsgId : M W string) (Invoke : string → M W unit) (isClient : bool).

Lemma call_run ctx cid depth msgId ev w :
  carries ctx cid →
  DeptMsgIdFromContext NewMsgId ctx w = (Ret (depth, msgId), w) →
  event_kind ev ≠ None →
  call (callbacks NewMsgId Invoke isClient) ctx ev w =
    wrapE (send_labels ev).1 (wrapE (send_labels ev).2
      (Invoke (message_of isClient ev (wrap_int (depth + 1)) msgId))) w.
Proof.
  intros Hcid Hd Hk. pose proof (ClientIdentifier_run (W := W) ctx cid) as Hrun.
  destruct ev as [id|id b|id c p|id c o|id c|k bt items];
    cbn [event_kind] in Hk;
    cbn [call callbacks cb_DeleteObject cb_GetObject cb_PatchObject cb_PutObject
         cb_VerifyObject cb_Batch send_labels fst snd message_of event_number];
    unfold DeleteObjectCallback, GetObjectCallback, PatchObjectCallback, PutObjectCallback,
      VerifyObjectCallback, BatchCallback, sendObjectDeleted, sendGetObject, sendPatchObject,
      sendPutObject, sendNewChecksum, sendBatch;
    cbn [od_Kind go_Kind pa_Kind pu_Kind nc_Kind];
    rewrite !wrapE_run, bind_run, Hd; cbn [fst snd]; rewrite !bind_run, !wrapE_run;
    (match goal with |- context [Invoke ?m w] => destruct (Invoke m w) as [[[]|e|s] w'] end);
    try reflexivity;
    try (destruct (kn_Kind id) as [k|]; [|done]);
    rewrite bind_run, Hrun by done; reflexivity.
Qed.
End Sending.

(** ** The receiving side *)
Lemma text_ok_client (isClient : bool) b : text_ok b → text_ok (if isClient then "" else b).
Proof. by destruct isClient. Qed.
#[local] Hint Resolve text_ok_client : core.

Section Receiving.
Context {W X : Type} (adapters : list (Adapter W X)).

Lemma handled_run e (m : M X unit) ctx x :
  (match handled (Some e) m x with (o, x') => (o, (ctx, x')) end) = turn_of ctx (m x).
Proof. unfold handled. go_run. by destruct (m x) as [[[]|?|?] x']. Qed.

Lemma Marshal_nonempty {A} `{WireLaws A} (a : A) : wire_ok a → Marshal a ≠ "".
Proof.
  intros Ha Hm. pose proof (Unmarshal_Marshal a Ha) as Hu. rewrite Hm in Hu. discriminate.
Qed.

(** A message decodes to itself, and its header to [message_header]. *)
Lemma inWorker_message {A} `{WireLaws A, !Message A, !MessageLaws A} (a : A) e rctx x :
  wire_ok a → g_Event (header a) = Some e → g_Depth (header a) ≤ maxMessageDepth →
  inWorker adapters (Marshal a) (rctx, x) =
    let rctx' := ContextFromGeneric rctx (header a) in
    match dispatch adapters e rctx' (header a) (Marshal a) x with (o, x') => (o, (rctx', x')) end.
Proof.
  intros Ha He Hd. apply inWorker_accept; [by apply Marshal_nonempty| |done..].
  by apply Unmarshal_header.
Qed.

Lemma event_number_ok ev : uint_ok (event_number ev).
Proof. unfold uint_ok. by destruct ev. Qed.

(** The message is well formed, is decoded twice, and its case of the switch calls
    the adapters. *)
Ltac receive_message :=
  match goal with
  | |- context [Marshal ?m] =>
      let Hok := fresh "Hok" in
      assert (wire_ok m) as Hok
        by (hnf; repeat match goal with |- _ ∧ _ => split end;
            first [ assumption | reflexivity | by apply text_ok_client
                  | apply event_number_ok | by apply in_intb_spec ]);
      erewrite (inWorker_message m _ _ _ Hok); [|reflexivity|assumption];
      cbv zeta; unfold dispatch; cbn [Z.eqb Pos.eqb EventBatch EventGetObject
        EventNewChecksum EventObjectDeleted EventPatchObject EventPutObject event_number];
      unfold onBatch, onGetObject, onNewChecksum, onObjectDeleted, onPatchObject,
        onPutObject, decoded;
      rewrite (Unmarshal_Marshal m Hok); apply handled_run
  end.

Lemma receive_run isClient ev depth msgId rctx x :
  sendable ev → in_int depth → depth ≤ maxMessageDepth → text_ok msgId →
  let rctx' := ContextFromGeneric rctx (message_header ev depth msgId) in
  inWorker adapters (message_of isClient ev depth msgId) (rctx, x) =
    turn_of rctx' (mfor (λ a, deliver a rctx' (as_received isClient ev)) adapters x).
Proof.
  intros Hev Hin Hd Hm.
  destruct ev as [id|id b|id c p|id c o|id c|k bt items];
    [destruct Hev as ((k & Hk & Hkok) & Hn & Hns)
    |destruct Hev as (((k & Hk & Hkok) & Hn & Hns) & Hb)
    |destruct Hev as (((k & Hk & Hkok) & Hn & Hns) & Hc & Hp)
    |destruct Hev as (((k & Hk & Hkok) & Hn & Hns) & Hc & Ho)
    |destruct Hev as (((k & Hk & Hkok) & Hn & Hns) & Hc)
    |destruct Hev as (Hk & Hbt & Hi)];
    try (destruct id; cbn in Hk; subst); unfold message_of; receive_message.
Qed.
End Receiving.

(** ** Hops

    An adapter answers a message through the callbacks, with the context it was
    given.  [hop data data'] says that [data'] is sent from the context in which the
    worker of some side handled the accepted message [data]. *)
Definition accepted (data : string) (g : Generic) : Prop :=
  data ≠ "" ∧ Unmarshal data = Some g ∧ g_Event g ≠ None ∧ g_Depth g ≤ maxMessageDepth.

Inductive hop (new : M (list string) string) (data data' : string) : Prop :=
| hop_intro rctx cid g isClient ev sent :
    accepted data g → text_ok (g_MsgId g) → in_int (g_Depth g) →
    carries rctx cid → sendable ev →
    call (callbacks new queue_Invoke isClient) (ContextFromGeneric rctx g) ev sent
      = (Ret tt, sent ++ [data']) →
    hop new data data'.

(** A chain of messages, each sent while the one before it was handled. *)
Inductive hops (new : M (list string) string) : nat → string → string → Prop :=
| hops_refl data : hops new 0 data data
| hops_step n data data' data'' :
    hop new data data' → hops new n data' data'' → hops new (S n) data data''.

Lemma Unmarshal_message isClient ev depth msgId :
  sendable ev → in_int depth → text_ok msgId →
  Unmarshal (message_of isClient ev depth msgId) = Some (message_header ev depth msgId).
Proof.
  intros Hev Hin Hm.
  assert (∀ A `{WireLaws A, !Message A, !MessageLaws A} (a : A) g,
             wire_ok a → header a = g → Unmarshal (Marshal a) = Some g) as Hu.
  { intros. subst. by apply Unmarshal_header. }
  destruct ev as [id|id b|id c p|id c o|id c|k bt items];
    [destruct Hev as ((k & Hk & Hkok) & Hn & Hns)
    |destruct Hev as (((k & Hk & Hkok) & Hn & Hns) & Hb)
    |destruct Hev as (((k & Hk & Hkok) & Hn & Hns) & Hc & Hp)
    |destruct Hev as (((k & Hk & Hkok) & Hn & Hns) & Hc & Ho)
    |destruct Hev as (((k & Hk & Hkok) & Hn & Hns) & Hc)
    |destruct Hev as (Hk & Hbt & Hi)];
    try (destruct id; cbn in Hk; subst); (eapply Hu; [exact _..| |reflexivity]);
    hnf; repeat match goal with |- _ ∧ _ => split end;
    first [ assumption | reflexivity | by apply text_ok_client | apply event_number_ok
          | by apply in_intb_spec ].
Qed.

Lemma sendable_kind ev : sendable ev → event_kind ev ≠ None.
Proof. destruct ev; cbn; unfold id_ok; naive_solver. Qed.

(** A hop keeps the message id and goes one level deeper. *)
Lemma hop_header new data data' g :
  hop new data data' → Unmarshal data = Some g →
  g_Depth g ≤ maxMessageDepth ∧
  ∃ g', Unmarshal data' = Some g' ∧ g_Depth g' = g_Depth g + 1 ∧ g_MsgId g' = g_MsgId g.
Proof.
  intros [rctx cid g0 isClient ev sent (Hne & Hu & He & Hd) Hm Hin Hc Hs Hcall] Hg.
  rewrite Hu in Hg. injection Hg as ->. split; [done|].
  rewrite (call_run _ _ _ _ cid (g_Depth g) (g_MsgId g)) in Hcall
    by (auto using sendable_kind, DeptMsgId_Generic).
  rewrite !wrapE_run in Hcall. unfold queue_Invoke, modifyW in Hcall.
  injection Hcall as Hcall. apply app_inv_head in Hcall. injection Hcall as <-.
  assert (in_int (g_Depth g + 1)) as Hin'.
  { unfold in_int, int_min, int_max, maxMessageDepth in *. lia. }
  rewrite (wrap_int_id _ Hin').
  eexists. rewrite Unmarshal_message by done. done.
Qed.

(** ** Properties *)

Lemma handle_loop {W X} (adapters : list (Adapter W X)) ctx ev :
  handle adapters ctx ev = mfor (λ a, deliver a ctx ev) adapters.
Proof. by destruct ev. Qed.

(** C1. End to end: what an adapter announces through a callback, from a context at
    depth [d] below the limit, is one message for the pool, whatever the kind of event;
    the worker of the other side that takes this message runs the corresponding
    operation of every one of its adapters, in order and until one fails, with the same
    kind, name, namespace and payload (the resource version reset to 0), in a context
    that carries the depth and the message id; and it logs the error of the adapter. *)
Theorem event_delivered {W1 W2 X} (new : M W1 string) (Invoke : string → M W1 unit)
    (isClient : bool) (adapters : list (Adapter W2 X)) ctx cid d msgId ev w :
  carries ctx cid →
  DeptMsgIdFromContext new ctx w = (Ret (d, msgId), w) →
  sendable ev → text_ok msgId → int_min ≤ d < maxMessageDepth →
  ∃ data,
    call (callbacks new Invoke isClient) ctx ev w =
      wrapE (send_labels ev).1 (wrapE (send_labels ev).2 (Invoke data)) w ∧
    ∀ rctx x,
      let rctx' := ContextFromGeneric rctx (message_header ev (d + 1) msgId) in
      inWorker adapters data (rctx, x) =
        turn_of rctx' (handle adapters rctx' (as_received isClient ev) x).
Proof.
  intros Hc Hd Hs Hm Hlim.
  assert (in_int (d + 1)) as Hin.
  { unfold in_int, int_min, int_max, maxMessageDepth in *. lia. }
  exists (message_of isClient ev (d + 1) msgId). split.
  - rewrite <- (wrap_int_id _ Hin). eapply call_run; eauto using sendable_kind.
  - intros rctx x. cbv zeta. rewrite handle_loop. apply receive_run; auto. lia.
Qed.

Lemma event_delivered_witness :
  ∃ data,
    call (callbacks sample_MsgId queue_Invoke false) (sample_ctx_at 3)
      (SyncPut sample_id "c0" "{}") [] = (Ret tt, [data]) ∧
    (inWorker [recorder (W := unit); recorder] data (sample_ctx, [])).1 = Ret Done ∧
    (inWorker [recorder (W := unit); recorder] data (sample_ctx, [])).2.2
      = ["put apps/v1/deployments/default/nginx"; "put apps/v1/deployments/default/nginx"].
Proof.
  destruct (event_delivered sample_MsgId queue_Invoke false [recorder (W := unit); recorder]
    (sample_ctx_at 3) sample_client 3 "0b7c" (SyncPut sample_id "c0" "{}") [])
    as (data & Hcall & Hin);
    [reflexivity|reflexivity| |reflexivity|split; [discriminate|reflexivity]|].
  - repeat split; try reflexivity. exists sample_kind. repeat split.
  - exists data. rewrite Hcall, Hin. repeat split.
Defined.

(** The adapters handle an event in order and the first error ends it: after
    adapters [l1] that succeed, the error of [a] is returned and no adapter of [l2] runs. *)
Theorem first_failure_stops {W X} (l1 : list (Adapter W X)) a l2 ctx ev x x1 e x2 :
  handle l1 ctx ev x = (Ret tt, x1) → deliver a ctx ev x1 = (Throw e, x2) →
  handle (l1 ++ a :: l2) ctx ev x = (Throw e, x2).
Proof. rewrite !handle_loop. apply (mfor_throw (λ a, deliver a ctx ev)). Qed.

Lemma first_failure_stops_witness :
  handle [recorder (W := unit); broken; recorder] sample_ctx (SyncPut sample_id "c" "o") []
    = (Throw (Wrapf "put object" (Errorf "down")), ["put apps/v1/deployments/default/nginx"]).
Proof.
  by apply (first_failure_stops (W := unit) [recorder] broken [recorder] _ _ _
    ["put apps/v1/deployments/default/nginx"]).
Defined.


(** Every message of a conversation carries the message id of the first one. *)
Theorem conversation_msgid new n data data' g :
  hops new n data data' → Unmarshal data = Some g →
  ∃ g', Unmarshal data' = Some g' ∧ g_MsgId g' = g_MsgId g ∧
        g_Depth g' = g_Depth g + Z.of_nat n.
Proof.
  intros Hn. revert g. induction Hn as [|n data data1 data2 Hhop Hn IH]; intros g Hu.
  - exists g. split_and!; [done|done|lia].
  - destruct (hop_header _ _ _ _ Hhop Hu) as (_ & g1 & Hu1 & Hd1 & Hm1).
    destruct (IH _ Hu1) as (g' & Hu' & Hm' & Hd'). exists g'.
    split_and!; [done|congruence|lia].
Qed.

(** A conversation of one hop: a checksum at depth 8 is answered by a request at 9. *)
Lemma sample_hops :
  hops sample_MsgId 1 (message_of true (SyncVerify sample_id "c0") 8 "0b7c")
    (message_of false (SyncGet sample_id "") 9 "0b7c").
Proof.
  assert (sendable (SyncVerify sample_id "c0") ∧ sendable (SyncGet sample_id "")) as [H1 H2].
  { split; (split; [split|]); try reflexivity; try (exists sample_kind; repeat split); by split. }
  eapply hops_step; [|apply hops_refl].
  apply (hop_intro _ _ _ sample_ctx sample_client
           (message_header (SyncVerify sample_id "c0") 8 "0b7c") false (SyncGet sample_id "") []);
    [|reflexivity|by apply in_intb_spec|reflexivity|done|reflexivity].
  split; [by vm_compute|]. split; [|split; [done|reflexivity]].
  apply Unmarshal_message; [done|by apply in_intb_spec|reflexivity].
Qed.
Lemma sample_header :
  Unmarshal (message_of true (SyncVerify sample_id "c0") 8 "0b7c")
    = Some (message_header (SyncVerify sample_id "c0") 8 "0b7c").
Proof. by vm_compute. Qed.

Lemma conversation_msgid_witness :
  ∃ g', Unmarshal (message_of false (SyncGet sample_id "") 9 "0b7c") = Some g' ∧
        g_MsgId g' = "0b7c" ∧ g_Depth g' = 8 + 1.
Proof. exact (conversation_msgid _ _ _ _ _ sample_hops sample_header). Defined.
