(* ===== verification/Libraries.v ===== *)
(** * Libraries: the third-party code several components call, as parameters.

    Nothing here is a definition of that code: each class lists functions of a library
    the program imports and, next to it, the documented behaviour that theorems assume.
    A function returning [(T, error)] returns [T + gerror]. *)

From S2P Require Export Fixtures.

(** [json-patch] and [storage/pkg/utils]: documents are byte strings. *)
Class MergePatches : Type := {
  CreateMergePatch : string → string → string + gerror;
  MergePatch : string → string → string + gerror;
  CanonicalHash : string → string + gerror
}.
(** A merge patch converts the original document into one that hashes as the modified. *)
Definition patches_convert `{MergePatches} (original modified : string) : Prop :=
  ∃ p merged h, CreateMergePatch original modified = inl p ∧ MergePatch original p = inl merged ∧
    CanonicalHash merged = inl h ∧ CanonicalHash modified = inl h.

(** [multierr.Append] on error values: nil only when both are. *)
Class MultiErr : Type := Append : option gerror → option gerror → option gerror.
Class MultiErrLaws `{MultiErr} : Prop :=
  Append_nil : ∀ a b, Append a b = None ↔ a = None ∧ b = None.

(** The result of a library call, in the monad of its caller. *)
Definition try {W A} (r : A + gerror) : M W A :=
  match r with inl a => mret a | inr e => throw e end.

(** [for _, x := range l { err = multierr.Append(err, f(x)) }]. *)
Fixpoint appendErrs `{MultiErr} {W A} (f : A → M W unit) (l : list A) (err : option gerror) :
    M W (option gerror) :=
  match l with
  | [] => mret err
  | x :: l' => e ← errval (f x); appendErrs f l' (Append err e)
  end.

Lemma try_inl_run {W A} (a : A) (w : W) : try (inl a) w = (Ret a, w).
Proof. reflexivity. Qed.
Lemma try_inr_run {W A} e (w : W) : try (A := A) (inr e) w = (Throw e, w).
Proof. reflexivity. Qed.
#[export] Hint Rewrite @try_inl_run @try_inr_run : go.

Section AppendErrs.
Context `{MultiErrLaws} {W : Type}.

(** Every element is visited; the error is nil exactly when no visit failed. *)
Lemma appendErrs_app {A} (f : A → M W unit) l1 l2 err w :
  appendErrs f (l1 ++ l2) err w = (e ← appendErrs f l1 err; appendErrs f l2 e) w.
Proof.
  revert err w. induction l1 as [|x l1 IH]; intros err w; [done|].
  cbn. rewrite !bind_run. destruct (errval (f x) w) as [[e|e|s] w']; [|done..].
  rewrite IH. by rewrite bind_run.
Qed.

Lemma appendErrs_map {A B} (g : A → B) (f : B → M W unit) (f' : A → M W unit) l err w :
  (∀ x, f' x = f (g x)) → appendErrs f (g <$> l) err w = appendErrs f' l err w.
Proof.
  intros Hf. revert err w. induction l as [|x l IH]; intros err w; [done|].
  cbn. rewrite !bind_run, Hf. destruct (errval (f (g x)) w) as [[e|e|s] w']; [|done..]. apply IH.
Qed.

(** One loop over two lists, seen from the code that runs two loops. *)
Lemma appendErrs_next {A B} (f : A → M W unit) (g : B → A) (f' : B → M W unit) l1 l2 err w
    (k1 k2 : option gerror → M W unit) :
  (∀ x, f' x = f (g x)) → (∀ e w', (appendErrs f l2 e ≫= k1) w' = k2 e w') →
  (appendErrs f ((g <$> l1) ++ l2) err ≫= k1) w = (appendErrs f' l1 err ≫= k2) w.
Proof.
  intros Hf Hk. rewrite !bind_run, appendErrs_app, bind_run, (appendErrs_map g f f') by done.
  destruct (appendErrs f' l1 err w) as [[e|e|s] w']; [|done..].
  by rewrite <- Hk, bind_run.
Qed.

Lemma appendErrs_clean {A} (f : A → M W unit) l w w' :
  mfor f l w = (Ret tt, w') → appendErrs f l None w = (Ret None, w').
Proof.
  revert w. induction l as [|x l IH]; intros w; cbn; [by intros [= <-]|].
  rewrite !bind_run, errval_run. destruct (f x w) as [[[]|e|s] w1]; [|done..].
  intros Hl. assert (Append None None = None) as -> by (by apply Append_nil). by apply IH.
Qed.

(** An error once seen is not forgotten. *)
Lemma appendErrs_keeps {A} (f : A → M W unit) l e w o w' :
  appendErrs f l (Some e) w = (Ret o, w') → o ≠ None.
Proof.
  revert e w. induction l as [|x l IH]; intros e w; cbn; [by intros [= <- _]|].
  rewrite bind_run, errval_run. destruct (f x w) as [[[]|e1|s] w1]; [| |done];
    destruct (Append (Some e) _) as [e2|] eqn:Ea; try apply IH;
    by apply Append_nil in Ea as [? _].
Qed.

Lemma appendErrs_clean_iff {A} (f : A → M W unit) l w o w' :
  appendErrs f l None w = (Ret o, w') → o = None ↔ mfor f l w = (Ret tt, w').
Proof.
  revert w. induction l as [|x l IH]; intros w; cbn; [intros [= <- <-]; done|].
  rewrite !bind_run, errval_run. destruct (f x w) as [[[]|e|s] w1]; [| |done].
  - assert (Append None None = None) as -> by (by apply Append_nil). apply IH.
  - destruct (Append None (Some e)) as [e2|] eqn:Ea; [|by apply Append_nil in Ea as [_ ?]].
    intros Hl. apply appendErrs_keeps in Hl. split; [done|by intros].
Qed.
End AppendErrs.

(** ** Instances for witnesses *)
(** Documents whose patch is the whole new document and that hash to themselves. *)
Definition sample_patches : MergePatches :=
  {| CreateMergePatch := λ _ m, inl m; MergePatch := λ _ p, inl p; CanonicalHash := λ d, inl d |}.
Definition sample_multierr : MultiErr := λ a b,
  match a, b with
  | None, b => b
  | a, None => a
  | Some a, Some b => Some (Joined [a; b])
  end.
Lemma sample_multierr_laws : @MultiErrLaws sample_multierr.
Proof. intros [a|] [b|]; cbn; naive_solver. Qed.
