(* ===== verification/Mock.v ===== *)
(** * Mock: the reference adapter of [adapters/mock.go].

    The program's own specification of an adapter: a map of objects, and on the client
    side the shadow objects against which patches are computed.  [go_mock] is the
    adapter for the core; [Test*] are the local changes its tests make. *)

From S2P Require Export Libraries Synchronizer.

Record MockAdapter (W : Type) : Type := mkMockAdapter {
  m_callbacks : Callbacks W;
  checkResourceVersion : bool;
  patchStrategy : bool;
  Resources : gmap string string;
  shadowObjects : gmap string string
}.
Arguments mkMockAdapter {W} _ _ _ _ _.
Arguments m_callbacks {W} _.
Arguments checkResourceVersion {W} _.
Arguments patchStrategy {W} _.
Arguments Resources {W} _.
Arguments shadowObjects {W} _.

Section Mock.
Context {W : Type} `{MergePatches, MultiErr}.
(** [armometadata.ExtractMetadataFromJsonBytes], of which the version is read. *)
Variable ExtractResourceVersion : string → option string.
Local Abbreviation X := (MockAdapter W * W)%type.

Definition NewMockAdapter (isClient : bool) : MockAdapter W :=
  mkMockAdapter nil_Callbacks (negb isClient) isClient ∅ ∅.

Definition m_get : M X (MockAdapter W) := s ← getW; mret s.1.
Definition with_Resources (f : gmap string string → gmap string string)
    (m : MockAdapter W) : MockAdapter W :=
  mkMockAdapter (m_callbacks m) (checkResourceVersion m) (patchStrategy m)
    (f (Resources m)) (shadowObjects m).
Definition with_shadowObjects (f : gmap string string → gmap string string)
    (m : MockAdapter W) : MockAdapter W :=
  mkMockAdapter (m_callbacks m) (checkResourceVersion m) (patchStrategy m)
    (Resources m) (f (shadowObjects m)).
Definition set_Resources (f : gmap string string → gmap string string) : M X unit :=
  modifyW (λ s, (with_Resources f s.1, s.2)).
Definition set_shadowObjects (f : gmap string string → gmap string string) : M X unit :=
  modifyW (λ s, (with_shadowObjects f s.1, s.2)).

Definition m_IsRelated (ctx : Ctx) (id : ClientIdentifier) : M X bool := mret true.
Definition m_Stop (ctx : Ctx) : M X unit := mret tt.
Definition m_Start (ctx : Ctx) : M X unit := mret tt.
Definition m_RegisterCallbacks (ctx : Ctx) (cb : Callbacks W) : M X unit :=
  modifyW (λ s, (mkMockAdapter cb (checkResourceVersion s.1)
    (patchStrategy s.1) (Resources s.1) (shadowObjects s.1), s.2)).
Definition m_Callbacks (ctx : Ctx) : M X (Callbacks W) := m ← m_get; mret (m_callbacks m).

Definition m_DeleteObject (ctx : Ctx) (id : KindName) : M X unit :=
  set_Resources (delete (KindName_String id)).

(** The patch from the shadow object to the new one, with the checksum of its result. *)
Definition calculatePatch (oldObject object : string) : M X (string * string) :=
  patch ← wrapE "create merge patch" (try (CreateMergePatch oldObject object));
  mergeResult ← wrapE "verifying patch" (try (MergePatch oldObject patch));
  checksum ← wrapE "calculate checksum" (try (CanonicalHash mergeResult));
  mret (patch, checksum).

Definition m_GetObject (ctx : Ctx) (id : KindName) (baseObject : string) : M X unit :=
  m ← m_get;
  match Resources m !! KindName_String id with
  | None => throw (Errorf "object not found")
  | Some object =>
      if patchStrategy m then
        (if String.eqb baseObject "" then mret tt
         else set_shadowObjects <[KindName_String id := baseObject]>) ;;
        m' ← m_get;
        match shadowObjects m' !! KindName_String id with
        | Some oldObject =>
            pc ← calculatePatch oldObject object;
            liftR (cb_PatchObject (m_callbacks m) ctx id pc.2 pc.1)
        | None => liftR (cb_PutObject (m_callbacks m) ctx id "" object)
        end
      else liftR (cb_PutObject (m_callbacks m) ctx id "" object)
  end.

Definition saveIfNewer (id : KindName) (newObject : string) : M X unit :=
  m ← m_get;
  let older :=
    if checkResourceVersion m then
      match ExtractResourceVersion newObject, Resources m !! KindName_String id with
      | Some new, Some oldObject =>
          match ExtractResourceVersion oldObject with
          | Some old => negb (StringValueBigger new old)
          | None => false
          end
      | _, _ => false
      end
    else false in
  if older then mret tt else set_Resources <[KindName_String id := newObject]>.

(** [patchObject]: the base object to ask from, with the error. *)
Definition m_patchObject (id : KindName) (checksum patch : string) :
    M X (string * option gerror) :=
  m ← m_get;
  match Resources m !! KindName_String id with
  | None => mret ("", Some (Errorf "object not found"))
  | Some object =>
      match MergePatch object patch with
      | inr e => mret (object, Some (Wrapf "apply patch" e))
      | inl modified =>
          match CanonicalHash modified with
          | inr e => mret (object, Some (Wrapf "calculate checksum" e))
          | inl newChecksum =>
              if String.eqb newChecksum checksum then
                saveIfNewer id modified ;;
                set_shadowObjects <[KindName_String id := modified]> ;;
                mret ("", None)
              else mret (object, Some (Errorf
                ("checksum mismatch: " ++ newChecksum ++ " != " ++ checksum)))
          end
      end
  end.
Definition m_PatchObject (ctx : Ctx) (id : KindName) (checksum patch : string) : M X unit :=
  r ← m_patchObject id checksum patch;
  match r with
  | (baseObject, Some _) =>
      m ← m_get; liftR (cb_GetObject (m_callbacks m) ctx id baseObject)
  | (_, None) => mret tt
  end.

Definition m_PutObject (ctx : Ctx) (id : KindName) (checksum object : string) : M X unit :=
  saveIfNewer id object.

Definition m_verifyObject (id : KindName) (newChecksum : string) :
    M X (string * option gerror) :=
  m ← m_get;
  match Resources m !! KindName_String id with
  | None => mret ("", Some (Errorf "object not found"))
  | Some object =>
      match CanonicalHash object with
      | inr e => mret ("", Some (Wrapf "calculate checksum" e))
      | inl checksum =>
          if String.eqb checksum newChecksum then mret (object, None)
          else mret (object, Some (Errorf
            ("checksum mismatch: " ++ newChecksum ++ " != " ++ checksum)))
      end
  end.
Definition m_VerifyObject (ctx : Ctx) (id : KindName) (newChecksum : string) : M X unit :=
  r ← m_verifyObject id newChecksum;
  match r with
  | (baseObject, Some _) =>
      m ← m_get; liftR (cb_GetObject (m_callbacks m) ctx id baseObject)
  | (_, None) => mret tt
  end.

Definition m_Batch (ctx : Ctx) (kind : Kind) (_ : BatchType) (items : BatchItems) : M X unit :=
  let id name ns rv := mkKindName (Some kind) name ns rv in
  err ← appendErrs (λ item, m_GetObject ctx
          (id (go_Name item) (go_Namespace item) (go_ResourceVersion item)) (go_BaseObject item))
        (elems (bi_GetObject items)) None;
  err ← appendErrs (λ item, m_VerifyObject ctx
          (id (nc_Name item) (nc_Namespace item) (nc_ResourceVersion item)) (nc_Checksum item))
        (elems (bi_NewChecksum items)) err;
  err ← appendErrs (λ item, m_DeleteObject ctx
          (id (od_Name item) (od_Namespace item) (od_ResourceVersion item)))
        (elems (bi_ObjectDeleted items)) err;
  err ← appendErrs (λ item, m_PatchObject ctx
          (id (pa_Name item) (pa_Namespace item) (pa_ResourceVersion item))
          (pa_Checksum item) (pa_Patch item))
        (elems (bi_PatchObject items)) err;
  err ← appendErrs (λ item, m_PutObject ctx
          (id (pu_Name item) (pu_Namespace item) (pu_ResourceVersion item))
          (pu_Checksum item) (pu_Object item))
        (elems (bi_PutObject items)) err;
  return_err err.

(** The adapter, for the core. *)
Definition go_mock : Adapter W X :=
  mkAdapter m_Start m_Stop m_IsRelated m_RegisterCallbacks m_Callbacks m_DeleteObject
    m_GetObject m_PatchObject m_PutObject m_VerifyObject m_Batch.

(** [utils.ContextFromGeneric(ctx, domain.Generic{})]: depth 0, an empty message id. *)
Definition freshContext (ctx : Ctx) : Ctx := ContextFromGeneric ctx (zero : Generic).

Definition TestCallDeleteObject (ctx : Ctx) (id : KindName) : M X unit :=
  let ctx := freshContext ctx in
  set_Resources (delete (KindName_String id)) ;;
  m ← m_get;
  wrapE "send delete" (liftR (cb_DeleteObject (m_callbacks m) ctx id)) ;;
  if patchStrategy m then set_shadowObjects (delete (KindName_String id)) else mret tt.

Definition TestCallPutOrPatch (ctx : Ctx) (id : KindName) (baseObject newObject : string) :
    M X unit :=
  let ctx := freshContext ctx in
  set_Resources <[KindName_String id := newObject]> ;;
  m ← m_get;
  if patchStrategy m then
    (if String.eqb baseObject "" then mret tt
     else set_shadowObjects <[KindName_String id := baseObject]>) ;;
    m' ← m_get;
    match shadowObjects m' !! KindName_String id with
    | Some oldObject =>
        pc ← calculatePatch oldObject newObject;
        wrapE "send patch object" (liftR (cb_PatchObject (m_callbacks m) ctx id pc.2 pc.1))
    | None =>
        wrapE "send put object" (liftR (cb_PutObject (m_callbacks m) ctx id "" newObject))
    end ;;
    set_shadowObjects <[KindName_String id := newObject]>
  else wrapE "send put object" (liftR (cb_PutObject (m_callbacks m) ctx id "" newObject)).

Definition TestCallVerifyObject (ctx : Ctx) (id : KindName) (object : string) : M X unit :=
  let ctx := freshContext ctx in
  set_Resources <[KindName_String id := object]> ;;
  checksum ← wrapE "calculate checksum" (try (CanonicalHash object));
  m ← m_get;
  wrapE "send checksum" (liftR (cb_VerifyObject (m_callbacks m) ctx id checksum)).
End Mock.

(** ** The operations, on each of their branches *)
Section MockLemmas.
Context {W : Type} `{MergePatches, MultiErr} (ERV : string → option string).
Implicit Types (m : MockAdapter W) (w : W) (id : KindName).

Lemma verify_missing ctx id checksum m w :
  Resources m !! KindName_String id = None →
  m_VerifyObject ctx id checksum (m, w) = liftR (cb_GetObject (m_callbacks m) ctx id "") (m, w).
Proof. intros Hr. unfold m_VerifyObject, m_verifyObject, m_get. go_compute. by rewrite Hr. Qed.

Lemma verify_same ctx id checksum m w object :
  Resources m !! KindName_String id = Some object → CanonicalHash object = inl checksum →
  m_VerifyObject ctx id checksum (m, w) = (Ret tt, (m, w)).
Proof.
  intros Hr Hh. unfold m_VerifyObject, m_verifyObject, m_get. go_compute.
  by rewrite Hr, Hh, String.eqb_refl.
Qed.

Lemma verify_differs ctx id checksum m w object h :
  Resources m !! KindName_String id = Some object → CanonicalHash object = inl h →
  h ≠ checksum →
  m_VerifyObject ctx id checksum (m, w)
    = liftR (cb_GetObject (m_callbacks m) ctx id object) (m, w).
Proof.
  intros Hr Hh Hne. unfold m_VerifyObject, m_verifyObject, m_get. go_compute.
  rewrite Hr, Hh. by apply String.eqb_neq in Hne as ->.
Qed.

Lemma get_put ctx id m w object :
  Resources m !! KindName_String id = Some object →
  shadowObjects m !! KindName_String id = None →
  m_GetObject ctx id "" (m, w)
    = liftR (cb_PutObject (m_callbacks m) ctx id "" object) (m, w).
Proof.
  intros Hr Hs. unfold m_GetObject, m_get. go_compute. rewrite Hr.
  destruct (patchStrategy m); [|done]. cbn [String.eqb]. by rewrite Hs.
Qed.

(** A base object becomes the shadow object, against which the patch is computed. *)
Lemma get_patch ctx id base m w object patch merged h :
  Resources m !! KindName_String id = Some object → patchStrategy m = true → base ≠ "" →
  CreateMergePatch base object = inl patch → MergePatch base patch = inl merged →
  CanonicalHash merged = inl h →
  m_GetObject ctx id base (m, w)
    = liftR (cb_PatchObject (m_callbacks m) ctx id h patch)
        (with_shadowObjects <[KindName_String id := base]> m, w).
Proof.
  intros Hr Hp Hb Hc Hm Hh. unfold m_GetObject, m_get. go_compute. rewrite Hr, Hp.
  apply String.eqb_neq in Hb as ->. unfold set_shadowObjects, calculatePatch. go_compute.
  cbn [with_shadowObjects shadowObjects m_callbacks].
  rewrite lookup_insert_eq, Hc. cbn [try]. go_compute. rewrite Hm. cbn [try]. go_compute.
  by rewrite Hh.
Qed.

(** Without a base object, the patch is against the shadow object. *)
Lemma get_patch_shadow ctx id m w object base patch merged h :
  Resources m !! KindName_String id = Some object → patchStrategy m = true →
  shadowObjects m !! KindName_String id = Some base →
  CreateMergePatch base object = inl patch → MergePatch base patch = inl merged →
  CanonicalHash merged = inl h →
  m_GetObject ctx id "" (m, w)
    = liftR (cb_PatchObject (m_callbacks m) ctx id h patch) (m, w).
Proof.
  intros Hr Hp Hb Hc Hm Hh. unfold m_GetObject, m_get. go_compute. rewrite Hr, Hp.
  cbn [String.eqb]. rewrite Hb. unfold calculatePatch. go_compute.
  rewrite Hc. cbn [try]. go_compute. rewrite Hm. cbn [try]. go_compute. by rewrite Hh.
Qed.

Lemma save_unknown id object m w :
  Resources m !! KindName_String id = None →
  saveIfNewer ERV id object (m, w)
    = (Ret tt, (with_Resources <[KindName_String id := object]> m, w)).
Proof.
  intros Hr. unfold saveIfNewer, set_Resources, m_get. go_compute. rewrite Hr.
  by destruct (checkResourceVersion m), (ERV object).
Qed.

(** A known object is kept when both versions are known and the new one is not larger. *)
Definition refused (old new : string) : bool :=
  match ERV new, ERV old with
  | Some vn, Some vo => negb (StringValueBigger vn vo)
  | _, _ => false
  end.
Lemma save_known id object m w old :
  Resources m !! KindName_String id = Some old →
  saveIfNewer ERV id object (m, w) =
    (Ret tt, (if checkResourceVersion m && refused old object then m
              else with_Resources <[KindName_String id := object]> m, w)).
Proof.
  intros Hr. unfold saveIfNewer, set_Resources, m_get, refused. go_compute. rewrite Hr.
  destruct (checkResourceVersion m); [|done]. cbn [andb].
  destruct (ERV object) as [vn|]; [|done]. destruct (ERV old) as [vo|]; [|done].
  by destruct (negb (StringValueBigger vn vo)).
Qed.

Lemma patch_missing ctx id checksum patch m w :
  Resources m !! KindName_String id = None →
  m_PatchObject ERV ctx id checksum patch (m, w)
    = liftR (cb_GetObject (m_callbacks m) ctx id "") (m, w).
Proof. intros Hr. unfold m_PatchObject, m_patchObject, m_get. go_compute. by rewrite Hr. Qed.

Lemma patch_applies ctx id patch m w base merged h :
  Resources m !! KindName_String id = Some base → MergePatch base patch = inl merged →
  CanonicalHash merged = inl h →
  m_PatchObject ERV ctx id h patch (m, w) =
    (Ret tt, (with_shadowObjects <[KindName_String id := merged]>
       (if checkResourceVersion m && refused base merged then m
        else with_Resources <[KindName_String id := merged]> m), w)).
Proof.
  intros Hr Hm Hh. unfold m_PatchObject, m_patchObject, m_get, set_shadowObjects. go_compute.
  rewrite Hr, Hm, Hh, String.eqb_refl. by rewrite (save_known _ _ _ _ base).
Qed.
End MockLemmas.
