(* ===== verification/Convergence.v ===== *)
(** * Convergence: two reference adapters over the core.

    A client and a server, each a mock adapter driven by the worker of its synchronizer
    and answering through its callbacks into an outgoing queue.  [converse] carries the
    messages between them until nothing is sent, and the theorems say what the server
    holds then. *)

From S2P Require Export Mock Delivery.

(** One side: the context of its worker, its adapter, and what it sends. *)
Abbreviation party := (Ctx * (MockAdapter (list string) * list string))%type.

Section Converse.
Context `{MergePatches, MultiErr}.
Variable ExtractResourceVersion : string → option string.

(** One message reaches [there]; its answer, if any, reaches [here], and so on. *)
Fixpoint converse (n : nat) (data : string) (there here : party) : option (party * party) :=
  match n with
  | O => None
  | S n' =>
      match inWorker [go_mock ExtractResourceVersion] data there with
      | (Ret _, (ctx, (m, []))) => Some ((ctx, (m, [])), here)
      | (Ret _, (ctx, (m, [answer]))) =>
          match converse n' answer here (ctx, (m, [])) with
          | Some (here', there') => Some (there', here')
          | None => None
          end
      | _ => None
      end
  end.
(** The messages of the exchange in their order, each with what its worker made of it. *)
Fixpoint transcript (n : nat) (data : string) (there here : party) : list (string * outcome turn) :=
  match n with
  | O => []
  | S n' =>
      let '(o, (ctx, (m, sent))) := inWorker [go_mock ExtractResourceVersion] data there in
      (data, o) :: match o, sent with
                   | Ret _, [answer] => transcript n' answer here (ctx, (m, []))
                   | _, _ => []
                   end
  end.
End Converse.

(** The objects a party holds, and its shadow objects. *)
Definition p_Resources (p : party) : gmap string string := Resources p.2.1.
Definition p_shadow (p : party) : gmap string string := shadowObjects p.2.1.

(** A party connected as a client or as a server, with nothing left to send. *)
Definition connected (isClient : bool) (p : party) : Prop :=
  (∃ cid, carries p.1 cid) ∧ p.2.2 = [] ∧
  m_callbacks p.2.1 = callbacks sample_MsgId queue_Invoke isClient ∧
  patchStrategy p.2.1 = isClient ∧ checkResourceVersion p.2.1 = negb isClient.

Section Steps.
Context `{MergePatches, MultiErr}.
Variable ERV : string → option string.
Local Abbreviation mock := (go_mock ERV).

(** Sending from the handling of a message queues one message, a level deeper. *)
Lemma queue_run isClient rctx cid g ev (m : MockAdapter (list string)) sent :
  carries rctx cid → sendable ev → in_int (g_Depth g + 1) →
  liftR (call (callbacks sample_MsgId queue_Invoke isClient) (ContextFromGeneric rctx g) ev)
      (m, sent)
    = (Ret tt, (m, sent ++ [message_of isClient ev (g_Depth g + 1) (g_MsgId g)])).
Proof.
  intros Hc Hs Hin. unfold liftR.
  rewrite (call_run _ _ _ _ cid (g_Depth g) (g_MsgId g));
    [|done|apply DeptMsgId_Generic|by apply sendable_kind].
  by rewrite wrap_int_id.
Qed.

(** One adapter hears one message. *)
Lemma hear_run isClient ev depth msgId rctx x :
  sendable ev → in_int depth → depth ≤ maxMessageDepth → text_ok msgId →
  let rctx' := ContextFromGeneric rctx (message_header ev depth msgId) in
  inWorker [mock] (message_of isClient ev depth msgId) (rctx, x) =
    turn_of rctx' (deliver (W := list string) mock rctx' (as_received isClient ev) x).
Proof.
  intros Hs Hin Hd Hm rctx'. rewrite receive_run by done. f_equal. unfold rctx'. cbn [mfor].
  rewrite bind_run. by destruct (deliver (go_mock ERV (W := list string)) _ _ x) as [[[]|?|?] x'].
Qed.
End Steps.


(** What the exchange about one object needs: the texts travel unchanged, and a base
    the server differs in can be patched into the new object, which is not older. *)
Definition reconcilable `{MergePatches} (ERV : string → option string) (c s : party)
    (key obj h : string) : Prop :=
  match p_Resources s !! key with
  | None => p_shadow c !! key = None
  | Some base =>
      text_ok base ∧ base ≠ "" ∧ ∃ hb, CanonicalHash base = inl hb ∧
        (hb ≠ h → ∃ p merged, CreateMergePatch base obj = inl p ∧ text_ok p ∧
           MergePatch base p = inl merged ∧ CanonicalHash merged = inl h ∧
           refused ERV base merged = false)
  end.

Section Verify.
Context `{MergePatches, MultiErr}.
Variable ERV : string → option string.
Variables (id : KindName) (obj h : string).
Hypothesis id_sendable : id_ok id.
Hypothesis obj_text : text_ok obj.
Hypothesis h_text : text_ok h.
Local Abbreviation key := (KindName_String id).

(** The events of the exchange; none carries a message id. *)
Local Abbreviation ev_verify := (SyncVerify id h).
Local Abbreviation ev_get base := (SyncGet (unversioned id) base).
Local Abbreviation ev_put := (SyncPut (unversioned id) "" obj).
Local Abbreviation ev_patch p := (SyncPatch (unversioned id) h p).

(** How a party hears an event of the exchange. *)
Lemma hear_exchange isClient ev depth (p : party) :
  sendable ev → 0 ≤ depth ≤ maxMessageDepth →
  inWorker [go_mock ERV] (message_of isClient ev depth "") p =
    turn_of (ContextFromGeneric p.1 (message_header ev depth ""))
      (deliver (go_mock ERV) (ContextFromGeneric p.1 (message_header ev depth ""))
         (as_received isClient ev) p.2).
Proof.
  intros Hs Hd. destruct p as [rctx x]. apply hear_run; [done| |lia|done].
  unfold in_int, int_min, int_max, maxMessageDepth in *. lia.
Qed.

(** Step 1: the server asks with its base object, if it differs or has none. *)
Lemma server_asks s base :
  connected false s → text_ok base →
  (p_Resources s !! key = None ∧ base = "" ∨
   ∃ hb, p_Resources s !! key = Some base ∧ CanonicalHash base = inl hb ∧ hb ≠ h) →
  inWorker [go_mock ERV] (message_of true ev_verify 1 "") s =
    (Ret Done, (ContextFromGeneric s.1 (message_header ev_verify 1 ""),
       (s.2.1, [message_of false (ev_get base) 2 ""]))).
Proof.
  destruct s as [rctx [m sent]]. intros ([cid Hc] & Hsent & Hcb & _) Hb Hcase.
  cbn in Hc, Hsent, Hcb. subst sent.
  rewrite hear_exchange by (done || (unfold maxMessageDepth; lia)). cbn [fst snd].
  cbn [as_received deliver go_mock ad_VerifyObject].
  rewrite wrapE_run.
  assert (∀ ctx, m_VerifyObject ctx (unversioned id) h (m, []) =
    liftR (call (callbacks sample_MsgId queue_Invoke false) ctx (ev_get base)) (m, [])) as ->.
  { intros ctx. rewrite <- Hcb. destruct Hcase as [[Hr ->]|(hb & Hr & Hh & Hne)].
    - by apply verify_missing.
    - by apply verify_differs with hb. }
  rewrite (queue_run _ _ cid) by (done || by apply in_intb_spec). done.
Qed.

Lemma server_agrees s base :
  connected false s → p_Resources s !! key = Some base → CanonicalHash base = inl h →
  inWorker [go_mock ERV] (message_of true ev_verify 1 "") s =
    (Ret Done, (ContextFromGeneric s.1 (message_header ev_verify 1 ""), (s.2.1, []))).
Proof.
  destruct s as [rctx [m sent]]. intros (_ & Hsent & _) Hr Hh. cbn in Hsent. subst sent.
  rewrite hear_exchange by (done || (unfold maxMessageDepth; lia)). cbn [fst snd].
  cbn [as_received deliver go_mock ad_VerifyObject]. rewrite wrapE_run.
  by rewrite (verify_same _ _ _ _ _ base).
Qed.

(** Step 2: the client answers with a patch of the base, or with the object. *)
Lemma client_puts c :
  connected true c → p_Resources c !! key = Some obj → p_shadow c !! key = None →
  inWorker [go_mock ERV] (message_of false (ev_get "") 2 "") c =
    (Ret Done, (ContextFromGeneric c.1 (message_header (ev_get "") 2 ""),
       (c.2.1, [message_of true ev_put 3 ""]))).
Proof.
  destruct c as [rctx [m sent]]. intros ([cid Hc] & Hsent & Hcb & _) Hr Hsh.
  cbn in Hc, Hsent, Hcb. subst sent.
  rewrite hear_exchange by (done || (unfold maxMessageDepth; lia)). cbn [fst snd].
  cbn [as_received deliver go_mock ad_GetObject]. rewrite wrapE_run.
  rewrite (get_put _ _ _ _ obj) by done. rewrite Hcb.
  pose proof (queue_run true rctx cid (message_header (ev_get "") 2 "") ev_put m []) as Hq.
  cbn [call] in Hq. unfold unversioned in *. cbn in Hq |- *. rewrite Hq by
    (done || by apply in_intb_spec). done.
Qed.

Lemma client_patches c base p merged :
  connected true c → p_Resources c !! key = Some obj → text_ok base → base ≠ "" →
  CreateMergePatch base obj = inl p → text_ok p → MergePatch base p = inl merged →
  CanonicalHash merged = inl h →
  inWorker [go_mock ERV] (message_of false (ev_get base) 2 "") c =
    (Ret Done, (ContextFromGeneric c.1 (message_header (ev_get base) 2 ""),
       (with_shadowObjects <[key := base]> c.2.1, [message_of true (ev_patch p) 3 ""]))).
Proof.
  destruct c as [rctx [m sent]]. intros ([cid Hc] & Hsent & Hcb & Hps & _) Hr Hbt Hb Hp Hpt Hm Hh.
  cbn in Hc, Hsent, Hcb, Hps. subst sent.
  rewrite hear_exchange by (done || (unfold maxMessageDepth; lia)). cbn [fst snd].
  cbn [as_received deliver go_mock ad_GetObject]. rewrite wrapE_run.
  rewrite (get_patch _ _ _ _ _ obj p merged h) by done. rewrite Hcb.
  pose proof (queue_run true rctx cid (message_header (ev_get base) 2 "") (ev_patch p)
    (with_shadowObjects <[key := base]> m) []) as Hq.
  cbn [call] in Hq. unfold unversioned in *. cbn in Hq |- *. rewrite Hq by
    (done || by apply in_intb_spec). done.
Qed.

(** Step 3: the server stores what it gets. *)
Lemma server_puts s :
  connected false s → p_Resources s !! key = None →
  inWorker [go_mock ERV] (message_of true ev_put 3 "") s =
    (Ret Done, (ContextFromGeneric s.1 (message_header ev_put 3 ""),
       (with_Resources <[key := obj]> s.2.1, []))).
Proof.
  destruct s as [rctx [m sent]]. intros (_ & Hsent & _) Hr. cbn in Hsent. subst sent.
  rewrite hear_exchange by (done || (unfold maxMessageDepth; lia)). cbn [fst snd].
  cbn [as_received deliver go_mock ad_PutObject]. unfold m_PutObject. rewrite wrapE_run.
  by rewrite save_unknown.
Qed.

Lemma server_patches s base p merged :
  connected false s → p_Resources s !! key = Some base → text_ok p →
  MergePatch base p = inl merged → CanonicalHash merged = inl h →
  refused ERV base merged = false →
  inWorker [go_mock ERV] (message_of true (ev_patch p) 3 "") s =
    (Ret Done, (ContextFromGeneric s.1 (message_header (ev_patch p) 3 ""),
       (with_shadowObjects <[key := merged]> (with_Resources <[key := merged]> s.2.1), []))).
Proof.
  destruct s as [rctx [m sent]]. intros (_ & Hsent & _) Hr Hp Hm Hh Hf.
  cbn in Hsent. subst sent.
  rewrite hear_exchange by (done || (unfold maxMessageDepth; lia)). cbn [fst snd].
  cbn [as_received deliver go_mock ad_PatchObject]. rewrite wrapE_run.
  rewrite (patch_applies _ _ _ _ _ _ base merged) by done. by rewrite Hf, andb_false_r.
Qed.

(** A server without the object answers a patch by asking for the object again. *)
Lemma server_asks_again s p d :
  connected false s → p_Resources s !! key = None → text_ok p → 0 ≤ d ≤ maxMessageDepth →
  inWorker [go_mock ERV] (message_of true (ev_patch p) d "") s =
    (Ret Done, (ContextFromGeneric s.1 (message_header (ev_patch p) d ""),
       (s.2.1, [message_of false (ev_get "") (d + 1) ""]))).
Proof.
  destruct s as [rctx [m sent]]. intros ([cid Hc] & Hsent & Hcb & _) Hr Hp Hd.
  cbn in Hc, Hsent, Hcb. subst sent. rewrite hear_exchange by done. cbn [fst snd].
  cbn [as_received deliver go_mock ad_PatchObject]. rewrite wrapE_run.
  rewrite patch_missing by done. rewrite Hcb.
  pose proof (queue_run false rctx cid (message_header (ev_patch p) d "") (ev_get "") m []) as Hq.
  cbn [call] in Hq. unfold unversioned in *. cbn in Hq |- *. rewrite Hq; [done..|].
  unfold in_int, int_min, int_max, maxMessageDepth in *. lia.
Qed.

(** A client with a shadow object answers an empty request with a patch. *)
Lemma client_patches_again c base p merged d :
  connected true c → p_Resources c !! key = Some obj → p_shadow c !! key = Some base →
  CreateMergePatch base obj = inl p → text_ok p → MergePatch base p = inl merged →
  CanonicalHash merged = inl h → 0 ≤ d ≤ maxMessageDepth →
  inWorker [go_mock ERV] (message_of false (ev_get "") d "") c =
    (Ret Done, (ContextFromGeneric c.1 (message_header (ev_get "") d ""),
       (c.2.1, [message_of true (ev_patch p) (d + 1) ""]))).
Proof.
  destruct c as [rctx [m sent]]. intros ([cid Hc] & Hsent & Hcb & Hps & _) Hr Hsh Hp Hpt Hm Hh Hd.
  cbn in Hc, Hsent, Hcb, Hps. subst sent. rewrite hear_exchange by done. cbn [fst snd].
  cbn [as_received deliver go_mock ad_GetObject]. rewrite wrapE_run.
  rewrite (get_patch_shadow _ _ _ _ obj base p merged h) by done. rewrite Hcb.
  pose proof (queue_run true rctx cid (message_header (ev_get "") d "") (ev_patch p) m []) as Hq.
  cbn [call] in Hq. unfold unversioned in *. cbn in Hq |- *. rewrite Hq; [done..|].
  unfold in_int, int_min, int_max, maxMessageDepth in *. lia.
Qed.

(** A message beyond the limit is dropped by whoever hears it. *)
Lemma too_deep (ctx : Ctx) p (x : MockAdapter (list string) * list string) :
  text_ok p →
  inWorker [go_mock ERV] (message_of true (ev_patch p) 9 "") (ctx, x)
    = (Ret DepthTooHigh, (ctx, x)).
Proof.
  intros Hp. assert (sendable (ev_patch p)) as Hs by done.
  eapply inWorker_deep; [|apply Unmarshal_message; [exact Hs|by apply in_intb_spec|done]
    |reflexivity|reflexivity].
  intros He. pose proof (Unmarshal_message true (ev_patch p) 9 "" Hs) as Hu.
  rewrite He in Hu. specialize (Hu ltac:(by apply in_intb_spec) eq_refl). discriminate.
Qed.

(** The parties stay connected: hearing only extends the context. *)
Lemma connected_hear isClient p g :
  connected isClient p → connected isClient (ContextFromGeneric p.1 g, (p.2.1, [])).
Proof. intros ([cid Hc] & _ & Hrest). split; [by exists cid|done]. Qed.
End Verify.

Section Announce.
Context `{MergePatches, MultiErr}.
Variables (id : KindName) (obj h : string) (c : party).
Hypothesis id_sendable : id_ok id.
Hypothesis h_text : text_ok h.
Hypothesis obj_hash : CanonicalHash obj = inl h.
Hypothesis c_connected : connected true c.
Local Abbreviation key := (KindName_String id).

(** The client once it announced [obj]: it holds the object and has sent a checksum. *)
Definition announced : party := (c.1, (with_Resources <[key := obj]> c.2.1, [])).
Lemma announced_connected : connected true announced.
Proof. destruct c_connected as ([cid Hc] & _ & Hrest). split; [by exists cid|done]. Qed.
Lemma announced_holds : p_Resources announced !! key = Some obj.
Proof. apply lookup_insert_eq. Qed.

Lemma announce :
  TestCallVerifyObject c.1 id obj c.2
    = (Ret tt, (announced.2.1, [message_of true (SyncVerify id h) 1 ""])).
Proof.
  unfold announced.
  destruct c as [rctx [m sent]]. destruct c_connected as ([cid Hc] & Hsent & Hcb & _).
  cbn in Hc, Hsent, Hcb. subst sent.
  transitivity (wrapE "send checksum" (liftR (call (callbacks sample_MsgId queue_Invoke true)
    (ContextFromGeneric rctx (zero : Generic)) (SyncVerify id h)))
    (with_Resources <[key := obj]> m, [])).
  - rewrite <- Hcb. unfold TestCallVerifyObject, set_Resources, m_get. go_compute.
    by rewrite obj_hash.
  - by rewrite wrapE_run, (queue_run _ _ cid) by (done || by apply in_intb_spec).
Qed.
End Announce.

(** The exchange after the announcement, step by step. *)
Section Exchange.
Context `{MergePatches, MultiErr}.
Variable ERV : string → option string.
Variables (id : KindName) (obj h : string).
Hypothesis id_sendable : id_ok id.
Hypothesis obj_text : text_ok obj.
Hypothesis h_text : text_ok h.
Local Abbreviation key := (KindName_String id).
Local Abbreviation verify := (message_of true (SyncVerify id h) 1 "").

Lemma converse_end n data there here t ctx (m : MockAdapter (list string)) :
  inWorker [go_mock ERV] data there = (Ret t, (ctx, (m, []))) →
  converse ERV (S n) data there here = Some ((ctx, (m, [])), here).
Proof. intros E. cbn [converse]. by rewrite E. Qed.

Lemma converse_step n data there here t ctx (m : MockAdapter (list string)) answer r :
  inWorker [go_mock ERV] data there = (Ret t, (ctx, (m, [answer]))) →
  converse ERV n answer here (ctx, (m, [])) = Some r →
  converse ERV (S n) data there here = Some (r.2, r.1).
Proof. intros E Hr. cbn [converse]. rewrite E, Hr. by destruct r. Qed.

Lemma exchange_converges (s c : party) :
  connected false s → connected true c → p_Resources c !! key = Some obj →
  CanonicalHash obj = inl h → reconcilable ERV c s key obj h →
  ∃ s' c', converse ERV 3 verify s c = Some (s', c') ∧
    (∃ o, p_Resources s' !! key = Some o ∧ CanonicalHash o = inl h) ∧
    (∀ k, k ≠ key → p_Resources s' !! k = p_Resources s !! k).
Proof.
  intros Hs Hc Hr Hh Hrec. unfold reconcilable in Hrec.
  destruct (p_Resources s !! key) as [base|] eqn:Hbase.
  - destruct Hrec as (Hbt & Hbne & hb & Hhb & Hp). destruct (decide (hb = h)) as [->|Hne].
    + eexists _, _. split; [eapply converse_end, server_agrees; eauto|].
      split; [by exists base|done].
    + destruct (Hp Hne) as (p & merged & Hcp & Hpt & Hm & Hhm & Hrf).
      eexists _, _. split.
      { eapply converse_step; [eapply server_asks with (base := base); [done..|right; by exists hb]|].
        eapply converse_step; [by apply client_patches with (obj := obj) (h := h) (p := p) (merged := merged)|].
        eapply converse_end, (server_patches _ _ _ id_sendable h_text _ base p merged);
          auto using connected_hear. }
      split; [exists merged; split; [apply lookup_insert_eq|done]|].
      intros k Hk. by apply lookup_insert_ne.
  - eexists _, _. split.
    { eapply converse_step; [eapply server_asks with (base := ""); [done..|by left]|].
      eapply converse_step; [by apply client_puts with (obj := obj)|].
      eapply converse_end, server_puts; auto using connected_hear. }
    split; [exists obj; split; [apply lookup_insert_eq|done]|].
    intros k Hk. by apply lookup_insert_ne.
Qed.

(** The same with what is said. *)
Definition talks n data there here r l : Prop :=
  converse ERV n data there here = Some r ∧ transcript ERV n data there here = l.
Lemma talks_end n data there here t ctx (m : MockAdapter (list string)) :
  inWorker [go_mock ERV] data there = (Ret t, (ctx, (m, []))) →
  talks (S n) data there here ((ctx, (m, [])), here) [(data, Ret t)].
Proof. intros E. split; [by eapply converse_end|]. cbn [transcript]. by rewrite E. Qed.
Lemma talks_step n data there here t ctx (m : MockAdapter (list string)) answer r l :
  inWorker [go_mock ERV] data there = (Ret t, (ctx, (m, [answer]))) →
  talks n answer here (ctx, (m, [])) r l →
  talks (S n) data there here (r.2, r.1) ((data, Ret t) :: l).
Proof. intros E [Hr Hl]. split; [by eapply converse_step|]. cbn [transcript]. by rewrite E, Hl. Qed.

(** What is said about an object that the server lost and for which the client has a shadow:
    requests without a base and patches, until one is too deep. *)
Definition stale_talk (p : string) : list (string * outcome turn) :=
  let get d := (message_of false (SyncGet (unversioned id) "") d "", Ret Done) in
  let patch d t := (message_of true (SyncPatch (unversioned id) h p) d "", Ret t) in
  [(verify, Ret Done); get 2; patch 3 Done; get 4; patch 5 Done; get 6; patch 7 Done; get 8; patch 9 DepthTooHigh].
Lemma stale_exchange (s c : party) base p merged :
  connected false s → connected true c → p_Resources s !! key = None →
  p_Resources c !! key = Some obj → p_shadow c !! key = Some base →
  CreateMergePatch base obj = inl p → text_ok p → MergePatch base p = inl merged →
  CanonicalHash merged = inl h →
  ∃ s' c', talks 9 verify s c (s', c') (stale_talk p) ∧ p_Resources s' = p_Resources s.
Proof.
  intros Hs Hc Hsr Hcr Hsh Hcp Hpt Hm Hh.
  eexists _, _. split.
  { eapply talks_step; [eapply server_asks with (base := ""); [done..|by left]|].
    do 3 (
      eapply talks_step; [apply client_patches_again with (obj := obj) (h := h) (base := base) (p := p) (merged := merged);
        auto using connected_hear; done|];
      eapply talks_step; [apply server_asks_again; auto using connected_hear; done|]).
    eapply talks_step; [apply client_patches_again with (obj := obj) (h := h) (base := base) (p := p) (merged := merged);
        auto using connected_hear; done|].
    eapply talks_end. by apply too_deep. }
  done.
Qed.
End Exchange.

(** ** Properties *)

(** C2. Anti-entropy: a client that announces the checksum of an object brings the server
    to an object with that checksum, within three messages, whether the server lacked the
    object, held an older one (patched), or was up to date; the server's other objects are
    not touched, and the exchange ends with nothing left to send.  The two must be
    [reconcilable]: the client keeps no shadow of an object that the server lacks, its patch
    applies to what the server holds, and the server does not refuse the result.  Without the
    first, [stale_shadow_never_converges] shows an exchange that fails. *)
Theorem verification_converges `{MergePatches, MultiErr} ERV id obj h (s c : party) :
  id_ok id → text_ok obj → text_ok h → CanonicalHash obj = inl h →
  connected false s → connected true c →
  reconcilable ERV c s (KindName_String id) obj h →
  ∃ data s' c',
    TestCallVerifyObject c.1 id obj c.2 = (Ret tt, ((announced id obj c).2.1, [data])) ∧
    converse ERV 3 data s (announced id obj c) = Some (s', c') ∧
    (∃ o, p_Resources s' !! KindName_String id = Some o ∧ CanonicalHash o = inl h) ∧
    (∀ k, k ≠ KindName_String id → p_Resources s' !! k = p_Resources s !! k).
Proof.
  intros Hid Hobj Hh Hhash Hs Hc Hrec.
  destruct (exchange_converges ERV id obj h Hid Hobj Hh s (announced id obj c))
    as (s' & c' & Hconv & Hholds & Hrest);
    [done|by apply announced_connected|apply announced_holds|done|done|].
  eexists _, s', c'. split; [exact (announce id obj h c Hid Hh Hhash Hc)|]. done.
Qed.

(** C40. A stale shadow object defeats anti-entropy: when the server lost an object for
    which the client holds a shadow object, the client answers every request of the server with
    a patch that the server cannot apply, and the server answers every patch with a request:
    the exchange is these nine messages, of which the depth limit drops the last, and the
    server still lacks the object. *)
Theorem stale_shadow_never_converges `{MergePatches, MultiErr} ERV id obj h base p merged
    (s c : party) :
  id_ok id → text_ok obj → text_ok h → CanonicalHash obj = inl h →
  connected false s → connected true c →
  p_Resources s !! KindName_String id = None → p_shadow c !! KindName_String id = Some base →
  CreateMergePatch base obj = inl p → text_ok p → MergePatch base p = inl merged →
  CanonicalHash merged = inl h →
  ∃ data s' c',
    TestCallVerifyObject c.1 id obj c.2 = (Ret tt, ((announced id obj c).2.1, [data])) ∧
    converse ERV 9 data s (announced id obj c) = Some (s', c') ∧
    transcript ERV 9 data s (announced id obj c) = stale_talk id h p ∧
    p_Resources s' !! KindName_String id = None.
Proof.
  intros Hid Hobj Hh Hhash Hs Hc Hsr Hsh Hp Hpt Hm Hhm.
  destruct (stale_exchange ERV id obj h Hid Hh s (announced id obj c) base p merged)
    as (s' & c' & [Hconv Htalk] & Hr);
    [done|by apply announced_connected|done|apply announced_holds|done..|].
  eexists _, s', c'. split; [exact (announce id obj h c Hid Hh Hhash Hc)|]. by rewrite Hr.
Qed.

(** ** Witnesses *)
Definition sample_party (isClient : bool) (res shadow : gmap string string) : party :=
  (sample_ctx, (mkMockAdapter (callbacks sample_MsgId queue_Invoke isClient)
     (negb isClient) isClient res shadow, [])).
Lemma sample_party_connected isClient res shadow :
  connected isClient (sample_party isClient res shadow).
Proof. split; [by exists sample_client|done]. Qed.
Lemma sample_id_ok : id_ok sample_id.
Proof. split; [exists sample_kind; by repeat split|done]. Qed.

(** The server holds [v1], the client announces [v2]. *)
Lemma verification_converges_witness :
  let s := sample_party false {[ KindName_String sample_id := "v1" ]} ∅ in
  let c := sample_party true ∅ ∅ in
  ∃ data s' c',
    @converse sample_patches sample_multierr (λ _, None) 3 data s (announced sample_id "v2" c)
      = Some (s', c') ∧
    ∃ o, p_Resources s' !! KindName_String sample_id = Some o ∧
         @CanonicalHash sample_patches o = inl "v2".
Proof.
  intros s c.
  destruct (@verification_converges sample_patches sample_multierr (λ _, None) sample_id "v2" "v2"
    s c sample_id_ok eq_refl eq_refl eq_refl (sample_party_connected false _ _)
    (sample_party_connected true _ _)) as (data & s' & c' & _ & Hconv & Hholds & _).
  - unfold reconcilable. change (p_Resources s) with
      ({[ KindName_String sample_id := "v1" ]} : gmap string string).
    rewrite lookup_singleton_eq. split; [done|]. split; [done|]. exists "v1". split; [done|].
    intros _. by exists "v2", "v2".
  - eauto.
Defined.

Lemma stale_shadow_never_converges_witness :
  let s := sample_party false ∅ ∅ in
  let c := sample_party true ∅ {[ KindName_String sample_id := "v1" ]} in
  ∃ data s' c',
    @converse sample_patches sample_multierr (λ _, None) 9 data s (announced sample_id "v2" c)
      = Some (s', c') ∧
    last (@transcript sample_patches sample_multierr (λ _, None) 9 data s (announced sample_id "v2" c)).*2
      = Some (Ret DepthTooHigh) ∧
    p_Resources s' !! KindName_String sample_id = None.
Proof.
  intros s c.
  destruct (@stale_shadow_never_converges sample_patches sample_multierr (λ _, None) sample_id
    "v2" "v2" "v1" "v2" "v2" s c sample_id_ok eq_refl eq_refl eq_refl
    (sample_party_connected false _ _) (sample_party_connected true _ _) eq_refl
    (lookup_singleton_eq _ _) eq_refl eq_refl eq_refl eq_refl)
    as (data & s' & c' & _ & Hconv & Htalk & Hr).
  exists data, s', c'. split; [exact Hconv|]. split; [by rewrite Htalk|exact Hr].
Defined.
