(* ===== verification/Config.v ===== *)
(** * Config: the settings of [config/config.go] and their validation. *)

From S2P Require Export Libraries.

Record ConfigResource : Type := mkConfigResource {
  r_Group : string;
  r_Version : string;
  r_Resource : string;
  r_Strategy : Strategy
}.
Definition Resource_String (r : ConfigResource) : string :=
  Join [r_Group r; r_Version r; r_Resource r] "/".

Record InCluster : Type := mkInCluster {
  ServerUrl : string;
  ic_Namespace : string;
  ClusterName : string;
  ExcludeNamespaces : list string;
  IncludeNamespaces : list string;
  ic_Account : string;
  AccessKey : string;
  ic_Resources : list ConfigResource
}.
Record HTTPEndpoint : Type := mkHTTPEndpoint {
  ServerPort : string;
  he_Resources : list ConfigResource
}.
Record AuthenticationServerConfig : Type := mkAuthenticationServerConfig {
  Url : string;
  HeaderToQueryParamMapping : gmap string string;
  HeaderToHeaderMapping : gmap string string
}.
Record KafkaConfig : Type := mkKafkaConfig {
  BootstrapServers : list string;
  k_ProducerTopic : string;
  k_ConsumerTopic : string;
  RequireTopicsExist : bool;
  GroupIDPrefix : string;
  CompressionType : string;
  MaxMessageBytes : Z;
  SecurityProtocol : string;
  SASLMechanism : string;
  SASLUsername : string;
  SASLPassword : string;
  TLSCaCertPath : string
}.
Record PrometheusConfig : Type := mkPrometheusConfig { Enabled : bool; prom_Port : Z }.
Record ReconciliationTaskConfig : Type := mkReconciliationTaskConfig {
  CronSchedule : string;
  rt_TaskIntervalSeconds : Z;
  IntervalFromConnectionSeconds : Z;
  SendBatch : bool
}.
Record KeepAliveTaskConfig : Type := mkKeepAliveTaskConfig { ka_TaskIntervalSeconds : Z }.
Record FeaturesProviderConfig : Type := mkFeaturesProviderConfig {
  FeatureFlagName : string;
  RefreshIntervalSeconds : Z
}.

Record MessageQueueConfig : Type := mkMessageQueueConfig {
  mq_Type : string;
  mq_KafkaConfig : option KafkaConfig
}.
(** The settings of the Pulsar library that the server itself reads. *)
Record PulsarSettings : Type := mkPulsarSettings { ps_Tenant : string; ps_Namespace : string }.

Record Backend : Type := mkBackend {
  Port : Z;
  AuthenticationServer : option AuthenticationServerConfig;
  Subscription : string;
  PulsarConfig : option PulsarSettings;
  ProducerTopic : string;
  ConsumerTopic : string;
  ConsumerWorkers : Z;
  Prometheus : option PrometheusConfig;
  ReconciliationTask : option ReconciliationTaskConfig;
  KeepAliveTask : option KeepAliveTaskConfig;
  SkipAlertsFrom : list string;
  FeaturesProviderSettings : option FeaturesProviderConfig;
  MessageQueue : option MessageQueueConfig
}.

Record Config : Type := mkConfig {
  cfg_Backend : Backend;
  cfg_InCluster : InCluster;
  cfg_HTTPEndpoint : HTTPEndpoint
}.

(** [ValidateConfig]: the first missing setting is reported. *)
Definition missing {W A} (b : bool) (msg : string) (k : M W A) : M W A :=
  if b then throw (Errorf msg) else k.
Definition InCluster_ValidateConfig {W} (c : InCluster) : M W unit :=
  missing (String.eqb (AccessKey c) "") "access key is missing"
  (missing (String.eqb (ic_Account c) "") "account is missing"
  (missing (String.eqb (ClusterName c) "") "cluster name is missing"
  (missing (String.eqb (ServerUrl c) "") "server url is missing"
  (missing (Nat.eqb (length (ic_Resources c)) 0) "resources are missing" (mret tt))))).
Definition HTTPEndpoint_ValidateConfig {W} (c : HTTPEndpoint) : M W unit :=
  missing (String.eqb (ServerPort c) "") "server port is missing"
  (missing (Nat.eqb (length (he_Resources c)) 0) "resources are missing" (mret tt)).

(** A cluster configuration is accepted exactly when none of its five required
    settings is missing. *)
Theorem InCluster_valid_iff (c : InCluster) :
  (InCluster_ValidateConfig (W := unit) c tt).1 = Ret tt ↔
  AccessKey c ≠ "" ∧ ic_Account c ≠ "" ∧ ClusterName c ≠ "" ∧ ServerUrl c ≠ "" ∧ ic_Resources c ≠ [].
Proof.
  unfold InCluster_ValidateConfig, missing.
  destruct (String.eqb_spec (AccessKey c) ""), (String.eqb_spec (ic_Account c) ""),
    (String.eqb_spec (ClusterName c) ""), (String.eqb_spec (ServerUrl c) ""),
    (ic_Resources c); cbn; naive_solver.
Qed.
