(* ===== verification/K8s.v ===== *)
(** * K8s: Kubernetes objects and the cluster API, as the adapters use them.

    An object is either an [*unstructured.Unstructured], whose content is a
    [map[string]any], or a typed object of the storage client.  What the Kubernetes
    libraries compute from objects is a parameter ([KubeLib]); the cluster itself is a
    record of operations over an environment [E], of which [NoOpDynamicClient] is the
    one the program defines.  [MaskEnvironmentVariables] and [mergeMetadata] are the
    program's own functions on objects. *)

From S2P Require Export Config.

(** A [map[string]any]: the first binding of a key counts. *)
Abbreviation jmap := (list (string * json)).
Fixpoint jget (m : jmap) (k : string) : option json :=
  match m with
  | [] => None
  | (k', v) :: m' => if String.eqb k k' then Some v else jget m' k
  end.
Fixpoint jset (m : jmap) (k : string) (v : json) : jmap :=
  match m with
  | [] => [(k, v)]
  | (k', v') :: m' => if String.eqb k k' then (k, v) :: m' else (k', v') :: jset m' k v
  end.
(** [m[k].(map[string]any)]. *)
Definition jget_map (m : jmap) (k : string) : option jmap :=
  match jget m k with Some (JObj ms) => Some ms | _ => None end.

Record GroupVersionResource : Type := mkGVR {
  gvr_Group : string;
  gvr_Version : string;
  gvr_Resource : string
}.

(** Functions of the Kubernetes and storage libraries. *)
Class KubeLib : Type := {
  Typed : Type;
  ObjList : Type;
  ListOptions : Type;
  NoListOptions : ListOptions;
  (* accessors of metav1.Object *)
  Meta : jmap + Typed → ObjectMeta;
  Annotations : jmap + Typed → gmap string string;
  Labels : jmap + Typed → gmap string string;
  OwnerReferences : jmap + Typed → list string;
  (* the type name of a typed object, and setting its group, version and kind *)
  TypeName : Typed → string;
  SetGroupVersionKind : string → string → string → Typed → Typed;
  (* unstructured.UnstructuredList *)
  UnstructuredList : list jmap → ObjList;
  (* storageutils *)
  RemoveManagedFields : jmap + Typed → jmap + Typed;
  RemoveSpecificFields : jmap → list (list string) → jmap + gerror;
  (* encoding *)
  MarshalObj : jmap + Typed → string + gerror;
  UnmarshalJSON : string → jmap + gerror;
  (* unstructured.NestedSlice, SetNestedSlice, SetNestedField *)
  NestedSlice : jmap → list string → option (list json);
  SetNestedSlice : jmap → list json → list string → jmap + gerror;
  SetNestedField : jmap → json → list string → jmap + gerror;
  (* workloadinterface.PodSpec *)
  PodSpec : string → list string;
  (* k8sErrors *)
  IsAlreadyExists : gerror → bool;
  IsForbidden : gerror → bool
}.
Definition Obj `{KubeLib} : Type := (jmap + Typed)%type.

(** [dynamic.Interface], for the operations used, over the environment [E]. *)
Record Dynamic `{KubeLib} (E : Type) : Type := mkDynamic {
  d_Create : GroupVersionResource → string → jmap → M E jmap;
  d_Update : GroupVersionResource → string → jmap → M E jmap;
  d_Delete : GroupVersionResource → string → string → M E unit;
  d_Get : GroupVersionResource → string → string → M E jmap;
  d_List : GroupVersionResource → string → ListOptions → M E ObjList
}.
Arguments mkDynamic {_ E} _ _ _ _ _.
Arguments d_Create {_ E} _ _ _ _.
Arguments d_Update {_ E} _ _ _ _.
Arguments d_Delete {_ E} _ _ _ _.
Arguments d_Get {_ E} _ _ _ _.
Arguments d_List {_ E} _ _ _ _.

(** The typed clients of [spdxv1beta1.SpdxV1beta1Interface]. *)
Record TypedResource `{KubeLib} (E : Type) : Type := mkTypedResource {
  tr_Get : string → string → M E Typed;
  tr_List : string → ListOptions → M E ObjList
}.
Arguments mkTypedResource {_ E} _ _.
Arguments tr_Get {_ E} _ _ _.
Arguments tr_List {_ E} _ _ _.
Record StorageClient `{KubeLib} (E : Type) : Type := mkStorageClient {
  ApplicationProfiles : TypedResource E;
  NetworkNeighborhoods : TypedResource E;
  SBOMSyfts : TypedResource E;
  SeccompProfiles : TypedResource E;
  VulnerabilityManifests : TypedResource E
}.
Arguments mkStorageClient {_ E} _ _ _ _ _.
Arguments ApplicationProfiles {_ E} _.
Arguments NetworkNeighborhoods {_ E} _.
Arguments SBOMSyfts {_ E} _.
Arguments SeccompProfiles {_ E} _.
Arguments VulnerabilityManifests {_ E} _.

Section Objects.
Context `{KubeLib}.

(** [NoOpDynamicClient]: every operation succeeds and does nothing. *)
Definition NoOpDynamicClient {E} : Dynamic E := mkDynamic
  (λ _ _ obj, mret obj) (λ _ _ obj, mret obj) (λ _ _ _, mret tt)
  (λ _ _ _, mret []) (λ _ _ _, mret (UnstructuredList [[]])).

Definition maskedValue : string := "XXXXXX".

(** The environment variable [env[j]], masked if it has a value. *)
Definition maskEnvVar (envVar : json) : json + gerror :=
  match envVar with
  | JObj ms =>
      match jget ms "value" with
      | Some _ =>
          match SetNestedField ms (JStr maskedValue) ["value"] with
          | inl ms' => inl (JObj ms')
          | inr e => inr (Wrapf "error setting nested field" e)
          end
      | None => inl envVar
      end
  | _ => inl envVar
  end.

(** [for i := range l { l[i] = f(l[i]) }], up to the first error. *)
Fixpoint mapErr {A B} (f : A → B + gerror) (l : list A) : list B + gerror :=
  match l with
  | [] => inl []
  | x :: l' =>
      match f x with
      | inr e => inr e
      | inl y => match mapErr f l' with inl ys => inl (y :: ys) | inr e => inr e end
      end
  end.

(** One round of [maskContainers]: the variables of [containers[i]]. *)
Definition maskContainer (container : json) : json + gerror :=
  match container with
  | JObj ms =>
      match NestedSlice ms ["env"] with
      | None => inl container
      | Some env =>
          match mapErr maskEnvVar env with
          | inr e => inr e
          | inl env' =>
              match SetNestedSlice ms env' ["env"] with
              | inl ms' => inl (JObj ms')
              | inr e => inr (Wrapf "error setting nested slice" e)
              end
          end
      end
  | _ => inl container
  end.

Definition containerTypes : list string := ["containers"; "initContainers"; "ephemeralContainers"].

(** One round of the loop over the kinds of containers. *)
Definition maskContainerType (podSpecPath : list string) (un : jmap) (containerType : string) :
    jmap + gerror :=
  match NestedSlice un (podSpecPath ++ [containerType]) with
  | None => inl un
  | Some containers =>
      match mapErr maskContainer containers with
      | inr e => inr (Wrapf "error masking containers" e)
      | inl containers' =>
          match SetNestedSlice un containers' (podSpecPath ++ [containerType]) with
          | inl un' => inl un'
          | inr e => inr (Wrapf "error setting nested slice" e)
          end
      end
  end.
Definition MaskEnvironmentVariables (un : jmap) : jmap + gerror :=
  let podSpecPath := PodSpec (GetKind (Meta (inl un))) in
  (fix go (types : list string) (un : jmap) : jmap + gerror :=
     match types with
     | [] => inl un
     | t :: types' =>
         match maskContainerType podSpecPath un t with
         | inl un' => go types' un'
         | inr e => inr e
         end
     end) containerTypes un.

(** [mergeMetadata]: the existing annotations and labels gain the new ones. *)
Definition addMissing (existingValues newValues : jmap) : jmap :=
  foldl (λ m kv, match jget m kv.1 with Some _ => m | None => jset m kv.1 kv.2 end)
    existingValues newValues.
Definition mergeField (new : jmap) (existing : jmap) (field : string) : jmap :=
  match jget_map existing field with
  | Some existingValues =>
      match jget_map new field with
      | Some newValues => jset existing field (JObj (addMissing existingValues newValues))
      | None => existing
      end
  | None => jset existing field (default JNull (jget new field))
  end.
Definition mergeMetadata (existing new : jmap) : jmap :=
  foldl (mergeField new) existing ["annotations"; "labels"].
End Objects.

(** ** Lemmas *)
Lemma jget_jset_eq m k v : jget (jset m k v) k = Some v.
Proof.
  induction m as [|[k' v'] m IH]; cbn; [by rewrite String.eqb_refl|].
  destruct (String.eqb k k') eqn:E; cbn; [by rewrite String.eqb_refl|]. by rewrite E.
Qed.
Lemma jget_jset_ne m k k' v : k' ≠ k → jget (jset m k v) k' = jget m k'.
Proof.
  intros Hne. induction m as [|[k0 v0] m IH]; cbn.
  - by apply String.eqb_neq in Hne as ->.
  - destruct (String.eqb_spec k k0) as [->|Hk]; cbn.
    + by apply String.eqb_neq in Hne as ->.
    + by rewrite IH.
Qed.

(** Existing values win; missing ones come from the new map, first binding first. *)
Lemma jget_addMissing new existing k :
  jget (addMissing existing new) k =
    match jget existing k with Some v => Some v | None => jget new k end.
Proof.
  unfold addMissing. revert existing. induction new as [|[k' v'] new IH]; intros existing; cbn.
  - by destruct (jget existing k).
  - rewrite IH. destruct (jget existing k') as [w|] eqn:Ek.
    + destruct (String.eqb_spec k k') as [->|]; [by rewrite Ek|done].
    + destruct (String.eqb_spec k k') as [->|Hne].
      * by rewrite jget_jset_eq, Ek.
      * by rewrite jget_jset_ne.
Qed.

Lemma mapErr_Forall {A B} (P : B → Prop) (f : A → B + gerror) l l' :
  (∀ x y, f x = inl y → P y) → mapErr f l = inl l' → Forall P l'.
Proof.
  intros Hf. revert l'. induction l as [|x l IH]; intros l'; cbn; [by intros [= <-]|].
  destruct (f x) as [y|] eqn:E; [|done]. destruct (mapErr f l) as [ys|]; [|done].
  intros [= <-]. constructor; eauto.
Qed.

Lemma mergeField_other new existing field k :
  k ≠ field → jget (mergeField new existing field) k = jget existing k.
Proof.
  intros Hk. unfold mergeField. destruct (jget_map existing field); [|by apply jget_jset_ne].
  destruct (jget_map new field); [by apply jget_jset_ne|done].
Qed.

Lemma mergeField_same new existing field ev nv :
  jget_map existing field = Some ev → jget_map new field = Some nv →
  jget_map (mergeField new existing field) field = Some (addMissing ev nv).
Proof.
  intros He Hn. unfold mergeField. rewrite He, Hn. unfold jget_map. by rewrite jget_jset_eq.
Qed.

(** ** The documented behaviour of the nested accessors *)
Class KubeLaws `{KubeLib} : Prop := {
  NestedSlice_set : ∀ m l p m', SetNestedSlice m l p = inl m' → NestedSlice m' p = Some l;
  NestedSlice_sibling : ∀ m l p a b m',
    SetNestedSlice m l (p ++ [a]) = inl m' → b ≠ a →
    NestedSlice m' (p ++ [b]) = NestedSlice m (p ++ [b]);
  SetNestedField_top : ∀ m v k m', SetNestedField m v [k] = inl m' → m' = jset m k v
}.

(** A container whose environment shows no value but the mask. *)
Definition maskedVar (envVar : json) : Prop :=
  ∀ ms v, envVar = JObj ms → jget ms "value" = Some v → v = JStr maskedValue.
Definition maskedContainer `{KubeLib} (container : json) : Prop :=
  ∀ ms env, container = JObj ms → NestedSlice ms ["env"] = Some env → Forall maskedVar env.
Definition maskedType `{KubeLib} (path : list string) (un : jmap) (t : string) : Prop :=
  ∀ cs, NestedSlice un (path ++ [t]) = Some cs → Forall maskedContainer cs.

Section Mask.
Context `{KubeLaws}.

Lemma maskEnvVar_masked x y : maskEnvVar x = inl y → maskedVar y.
Proof.
  intros Hx ms v -> Hv. destruct x as [|b|lit|s|l|ms0]; cbn in Hx; try done.
  destruct (jget ms0 "value") eqn:Eg; [|injection Hx as <-; by rewrite Eg in Hv].
  destruct (SetNestedField ms0 _ _) as [ms'|] eqn:Es; [|done]. injection Hx as <-.
  apply SetNestedField_top in Es as ->. rewrite jget_jset_eq in Hv. by injection Hv.
Qed.

Lemma maskContainer_masked x y : maskContainer x = inl y → maskedContainer y.
Proof.
  intros Hx ms env -> He. destruct x as [|b|lit|s|l|ms0]; cbn in Hx; try done.
  destruct (NestedSlice ms0 ["env"]) as [env0|] eqn:En;
    [|injection Hx as <-; by rewrite En in He].
  destruct (mapErr maskEnvVar env0) as [env1|] eqn:Em; [|done].
  destruct (SetNestedSlice ms0 env1 ["env"]) as [ms'|] eqn:Es; [|done]. injection Hx as <-.
  apply NestedSlice_set in Es. rewrite Es in He. injection He as <-.
  by eapply mapErr_Forall, Em; apply maskEnvVar_masked.
Qed.

Lemma maskContainerType_masked path un t un' :
  maskContainerType path un t = inl un' →
  maskedType path un' t ∧
  ∀ t', t' ≠ t → NestedSlice un' (path ++ [t']) = NestedSlice un (path ++ [t']).
Proof.
  unfold maskContainerType, maskedType. intros Hm.
  destruct (NestedSlice un (path ++ [t])) as [cs|] eqn:En.
  - destruct (mapErr maskContainer cs) as [cs'|] eqn:Ec; [|done].
    destruct (SetNestedSlice un cs' (path ++ [t])) as [un1|] eqn:Es; [|done].
    injection Hm as <-. split.
    + intros cs1. rewrite (NestedSlice_set _ _ _ _ Es). intros [= <-].
      by eapply mapErr_Forall, Ec; apply maskContainer_masked.
    + intros t' Hne. by apply (NestedSlice_sibling _ _ _ _ _ _ Es).
  - injection Hm as <-. split; [by rewrite En|done].
Qed.
End Mask.

(** ** Properties *)

(** C21. Secrets do not leave the cluster: in an object that [MaskEnvironmentVariables]
    returns, every environment variable of every container of the pod specification,
    init and ephemeral ones included, that has a value has the value [XXXXXX]. *)
Theorem environment_masked `{KubeLaws} un un' t :
  MaskEnvironmentVariables un = inl un' → t ∈ containerTypes →
  maskedType (PodSpec (GetKind (Meta (inl un)))) un' t.
Proof.
  unfold MaskEnvironmentVariables. set (path := PodSpec _). intros Hm Ht.
  cbn [containerTypes] in Hm.
  destruct (maskContainerType path un "containers") as [un1|] eqn:E1; [|done].
  destruct (maskContainerType path un1 "initContainers") as [un2|] eqn:E2; [|done].
  destruct (maskContainerType path un2 "ephemeralContainers") as [un3|] eqn:E3; [|done].
  injection Hm as <-.
  apply maskContainerType_masked in E1 as [H1 _], E2 as [H2 S2], E3 as [H3 S3].
  unfold maskedType in *. apply list_elem_of_In in Ht.
  destruct Ht as [<-|[<-|[<-|[]]]]; [|by rewrite S3|done].
  rewrite S3, S2 by done. done.
Qed.

(** Merging metadata only adds: for annotations and for labels, a key of the existing
    object keeps its value, a key only the new object has is added, and no other member of
    the metadata changes. *)
Theorem mergeMetadata_spec existing new field ev nv k :
  field ∈ ["annotations"; "labels"] →
  jget_map existing field = Some ev → jget_map new field = Some nv →
  ∃ mv, jget_map (mergeMetadata existing new) field = Some mv ∧
    jget mv k = match jget ev k with Some v => Some v | None => jget nv k end ∧
    ∀ f, f ∉ ["annotations"; "labels"] → jget (mergeMetadata existing new) f = jget existing f.
Proof.
  intros Hf He Hn. exists (addMissing ev nv).
  split; [|split; [apply jget_addMissing|]].
  - unfold mergeMetadata. cbn [foldl]. apply list_elem_of_In in Hf.
    destruct Hf as [<-|[<-|[]]].
    + unfold jget_map. rewrite mergeField_other by done. by apply mergeField_same.
    + apply mergeField_same; [|done]. unfold jget_map. by rewrite mergeField_other.
  - intros f Hnf. unfold mergeMetadata. cbn [foldl].
    by rewrite !mergeField_other by set_solver.
Qed.

(** ** Witnesses *)
(** Nested accessors on maps, as the library documents them. *)
Fixpoint nested_get (m : jmap) (p : list string) : option json :=
  match p with
  | [] => None
  | [k] => jget m k
  | k :: p' => match jget m k with Some (JObj m') => nested_get m' p' | _ => None end
  end.
Fixpoint nested_set (m : jmap) (v : json) (p : list string) : jmap + gerror :=
  match p with
  | [] => inr (Errorf "no path")
  | [k] => inl (jset m k v)
  | k :: p' =>
      match default (JObj []) (jget m k) with
      | JObj m' => match nested_set m' v p' with
                   | inl m'' => inl (jset m k (JObj m''))
                   | inr e => inr e
                   end
      | _ => inr (Errorf "not a map")
      end
  end.
Definition sample_kube : KubeLib := {|
  Typed := Empty_set;
  ObjList := list jmap;
  ListOptions := unit;
  NoListOptions := tt;
  Meta := λ o, match o with
    | inl m => mkObjectMeta "v1"
        match jget m "kind" with Some (JStr s) => s | _ => "" end
        match nested_get m ["metadata"; "name"] with Some (JStr s) => s | _ => "" end
        match nested_get m ["metadata"; "namespace"] with Some (JStr s) => s | _ => "" end
        match nested_get m ["metadata"; "resourceVersion"] with Some (JStr s) => s | _ => "" end
    | inr t => match t with end
    end;
  Annotations := λ _, ∅;
  Labels := λ _, ∅;
  OwnerReferences := λ _, [];
  TypeName := λ t, match t with end;
  SetGroupVersionKind := λ _ _ _ t, t;
  UnstructuredList := id;
  RemoveManagedFields := id;
  RemoveSpecificFields := λ m _, inl m;
  MarshalObj := λ o, match o with inl m => inl (print (JObj m)) | inr t => match t with end end;
  UnmarshalJSON := λ s, match parse s with Some (JObj m) => inl m | _ => inr (Errorf "unmarshal") end;
  NestedSlice := λ m p, match nested_get m p with Some (JArr l) => Some l | _ => None end;
  SetNestedSlice := λ m l p, nested_set m (JArr l) p;
  SetNestedField := nested_set;
  PodSpec := λ kind, if String.eqb kind "Pod" then ["spec"] else ["spec"; "template"; "spec"];
  IsAlreadyExists := λ e, match e with ApiStatus r => String.eqb r "AlreadyExists" | _ => false end;
  IsForbidden := λ e, match e with ApiStatus r => String.eqb r "Forbidden" | _ => false end
|}.

Lemma nested_set_cons m v k p :
  p ≠ [] → nested_set m v (k :: p) =
    match default (JObj []) (jget m k) with
    | JObj m' => match nested_set m' v p with
                 | inl m'' => inl (jset m k (JObj m''))
                 | inr e => inr e
                 end
    | _ => inr (Errorf "not a map")
    end.
Proof. by destruct p. Qed.
Lemma nested_get_cons m k p :
  p ≠ [] → nested_get m (k :: p) =
    match jget m k with Some (JObj m') => nested_get m' p | _ => None end.
Proof. by destruct p. Qed.
Lemma nested_get_nil p : nested_get [] p = None.
Proof. by destruct p as [|k [|]]. Qed.

Lemma nested_get_set m v p m' : nested_set m v p = inl m' → nested_get m' p = Some v.
Proof.
  revert m m'. induction p as [|k p IH]; intros m m'; [done|].
  destruct (decide (p = [])) as [->|Hp]; [intros [= <-]; apply jget_jset_eq|].
  rewrite nested_set_cons, nested_get_cons by done.
  destruct (default (JObj []) (jget m k)) as [| | | | |m0]; try done.
  destruct (nested_set m0 v p) as [m1|] eqn:E; [|done]. intros [= <-].
  rewrite jget_jset_eq. by eapply IH.
Qed.
Lemma nested_get_sibling m v p a b m' :
  nested_set m v (p ++ [a]) = inl m' → b ≠ a →
  nested_get m' (p ++ [b]) = nested_get m (p ++ [b]).
Proof.
  intros Hs Hne. revert m m' Hs. induction p as [|k p IH]; intros m m'.
  - intros [= <-]. by apply jget_jset_ne.
  - cbn [app]. assert (∀ x, p ++ [x] ≠ []) as Hn by (intros x; by destruct p).
    rewrite nested_set_cons, !nested_get_cons by done.
    destruct (default (JObj []) (jget m k)) as [| | | | |m0] eqn:Ed; try done.
    destruct (nested_set m0 v (p ++ [a])) as [m1|] eqn:E; [|done]. intros [= <-].
    rewrite jget_jset_eq, (IH m0 m1) by done.
    destruct (jget m k) as [[]|]; cbn in Ed; try done; injection Ed as <-; [done|].
    by apply nested_get_nil.
Qed.
Lemma sample_kube_laws : @KubeLaws sample_kube.
Proof.
  split; cbn.
  - intros m l p m' Hs. by rewrite (nested_get_set _ _ _ _ Hs).
  - intros m l p a b m' Hs Hne. by rewrite (nested_get_sibling _ _ _ _ _ _ Hs Hne).
  - by intros m v k m' [= <-].
Qed.

(** A pod with one variable in a container and one in an init container. *)
Definition sample_pod : jmap :=
  let env := JArr [JObj [("name", JStr "TOKEN"); ("value", JStr "hunter2")]] in
  let containers := JArr [JObj [("name", JStr "main"); ("env", env)]] in
  [("kind", JStr "Pod");
   ("spec", JObj [("containers", containers); ("initContainers", containers)])].
Definition sample_masked : jmap :=
  match @MaskEnvironmentVariables sample_kube sample_pod with inl m => m | inr _ => [] end.
Lemma environment_masked_witness :
  @maskedType sample_kube ["spec"] sample_masked "initContainers" ∧
  sample_masked ≠ sample_pod.
Proof.
  split; [|by vm_compute].
  apply (@environment_masked sample_kube sample_kube_laws sample_pod sample_masked);
    [by vm_compute|set_solver].
Defined.

Lemma mergeMetadata_spec_witness :
  ∃ mv, jget_map (mergeMetadata [("labels", JObj [("app", JStr "a")])]
      [("labels", JObj [("app", JStr "b"); ("tier", JStr "web")])]) "labels" = Some mv ∧
    jget mv "app" = Some (JStr "a").
Proof.
  destruct (mergeMetadata_spec [("labels", JObj [("app", JStr "a")])]
    [("labels", JObj [("app", JStr "b"); ("tier", JStr "web")])] "labels"
    [("app", JStr "a")] [("app", JStr "b"); ("tier", JStr "web")] "app")
    as (mv & H1 & H2 & _); [set_solver|reflexivity|reflexivity|].
  exists mv. split; [exact H1|exact H2].
Defined.
