(* ===== verification/InClusterClient.v ===== *)
(** * InClusterClient: [adapters/incluster/v1/client.go].

    The client of one kind of resource: it answers the core from the objects of the
    cluster, and turns watch events into callbacks.  Its world is the client, of which
    [ShadowObjects] and the callbacks change, and an environment [E] that holds both the
    cluster and the core.  The watch loop ([watchRetry]) feeds [onEvent] from a channel
    and is not modelled. *)

From S2P Require Export K8s.

(** [regexp.MustCompile(`\{"metadata":\{"resourceVersion":"(\d+)"\}\}`).Match]: the
    expression has no anchors, so a match anywhere counts. *)
Definition quoted (s : string) : string := String dq (s ++ String dq "").
Definition emptyPatch_head : string :=
  "{" ++ quoted "metadata" ++ ":{" ++ quoted "resourceVersion" ++ ":" ++ String dq "".
Definition emptyPatch_tail : string := String dq "}}".
Fixpoint digits_then_tail (seen : bool) (s : string) : bool :=
  match s with
  | EmptyString => false
  | String c s' =>
      (seen && HasPrefix s emptyPatch_tail) || (is_digit c && digits_then_tail true s')
  end.
Fixpoint emptyPatch_Match (s : string) : bool :=
  (HasPrefix s emptyPatch_head
     && digits_then_tail false (sdrop (String.length emptyPatch_head) s))
  || match s with EmptyString => false | String _ s' => emptyPatch_Match s' end.

Definition kubescapeCustomResourceGroup : string := "spdx.softwarecomposition.kubescape.io".
Definition sbomFieldsToRemove : list (list string) :=
  [["spec"; "syft"; "descriptor"]; ["spec"; "syft"; "files"];
   ["spec"; "syft"; "artifactRelationships"]].
Definition fieldsToRemove : list (string * list (list string)) :=
  [("default", []); ("/v1/nodes", [["status"; "conditions"]]);
   ("spdx.softwarecomposition.kubescape.io/v1beta1/sbomsyfts", sbomFieldsToRemove);
   ("spdx.softwarecomposition.kubescape.io/v1beta1/sbomsyftfiltereds", sbomFieldsToRemove)].
(** The lookup [fieldsToRemove[k]], with its fallback to the default entry. *)
Definition fieldsFor (kind : string) : list (list string) :=
  match find (λ kv, String.eqb (kv.1) kind) fieldsToRemove with
  | Some kv => kv.2
  | None => []
  end.

(** [helpersv1.SyncChecksumMetadataKey] names the annotation of a known checksum. *)
Class ClientLib : Type := {
  SyncChecksumMetadataKey : string;
  (* mapset.Set.ToSlice: the elements, in some order *)
  ToSlice : gset string → list string
}.

(** The event types of [watch.Event]; other types are ignored. *)
Inductive EventType : Type := Added | Modified | Deleted | OtherEvent.

Record Client `{KubeLib} (E : Type) : Type := mkClient {
  dynamicClient : Dynamic E;
  storageClient : option (StorageClient E);
  c_account : string;
  c_cluster : string;
  c_excludeNamespaces : list string;
  c_includeNamespaces : list string;
  c_operatorNamespace : string;
  c_kind : Kind;
  c_callbacks : Callbacks E;
  c_res : GroupVersionResource;
  ShadowObjects : gmap string string;
  c_Strategy : Strategy
}.
Arguments mkClient {_ E} _ _ _ _ _ _ _ _ _ _ _ _.
Arguments dynamicClient {_ E} _.
Arguments storageClient {_ E} _.
Arguments c_account {_ E} _.
Arguments c_cluster {_ E} _.
Arguments c_excludeNamespaces {_ E} _.
Arguments c_includeNamespaces {_ E} _.
Arguments c_operatorNamespace {_ E} _.
Arguments c_kind {_ E} _.
Arguments c_callbacks {_ E} _.
Arguments c_res {_ E} _.
Arguments ShadowObjects {_ E} _.
Arguments c_Strategy {_ E} _.

(** [NewClient]; the deprecated event multiplier is only logged. *)
Definition NewClient `{KubeLib} {E} (dyn : Dynamic E) (storage : option (StorageClient E))
    (cfg : InCluster) (r : ConfigResource) : Client E :=
  let res := mkGVR (r_Group r) (r_Version r) (r_Resource r) in
  mkClient dyn storage (ic_Account cfg) (ClusterName cfg) (ExcludeNamespaces cfg)
    (IncludeNamespaces cfg) (ic_Namespace cfg)
    (mkKind (gvr_Group res) (gvr_Version res) (gvr_Resource res) None)
    nil_Callbacks res ∅ (r_Strategy r).

Definition with_callbacks `{KubeLib} {E} (cb : Callbacks E) (c : Client E) : Client E :=
  mkClient (dynamicClient c) (storageClient c) (c_account c) (c_cluster c)
    (c_excludeNamespaces c) (c_includeNamespaces c) (c_operatorNamespace c) (c_kind c) cb
    (c_res c) (ShadowObjects c) (c_Strategy c).
Definition with_Shadow `{KubeLib} {E} (f : gmap string string → gmap string string)
    (c : Client E) : Client E :=
  mkClient (dynamicClient c) (storageClient c) (c_account c) (c_cluster c)
    (c_excludeNamespaces c) (c_includeNamespaces c) (c_operatorNamespace c) (c_kind c)
    (c_callbacks c) (c_res c) (f (ShadowObjects c)) (c_Strategy c).

(** [pager.New(list).EachListItem]: the pages of the lister, item by item, by a closure
    that owns the variables [S]. *)
Definition Pager `{KubeLib} (E : Type) : Type := ∀ S : Type,
  (ListOptions → M (Client E * E) ObjList) → (Obj → M (S * (Client E * E)) unit) →
  M (S * (Client E * E)) unit.

Section Filters.
Context `{KubeLib} {E : Type}.

(** [slices.Contains]. *)
Definition contains (l : list string) (s : string) : bool := existsb (String.eqb s) l.

Definition skipNamespace (c : Client E) (ns : string) : bool :=
  if Nat.ltb 0 (length (c_includeNamespaces c)) then
    negb (contains (c_includeNamespaces c) ns)
  else if Nat.ltb 0 (length (c_excludeNamespaces c)) then
    contains (c_excludeNamespaces c) ns
  else false.

Definition hasParent (workload : option Obj) : bool :=
  match workload with
  | None => false
  | Some w =>
      let kind := GetKind (Meta w) in
      if negb (contains ["Pod"; "Job"; "ReplicaSet"] kind) then false
      else match OwnerReferences w with
      | apiVersion :: _ => contains ["apps/v1"; "batch/v1"; "batch/v1beta1"] apiVersion
      | [] =>
          if String.eqb kind "Pod" then
            match Labels w !! "pod-template-hash" with
            | Some podHash => negb (String.eqb podHash "")
            | None => false
            end
          else false
      end
  end.

Definition isFiltered (c : Client E) (workload : option Obj) : bool :=
  match workload with
  | None => false
  | Some w =>
      let namespace := GetNamespace (Meta w) in
      if String.eqb namespace "" then hasParent workload
      else if String.eqb namespace (c_operatorNamespace c) then false
      else if skipNamespace c namespace then true
      else hasParent workload
  end.
End Filters.

Definition stripSuffix (name : string) : string :=
  match LastIndex name "-" with
  | Some lastHyphen =>
      if HasPrefix (sdrop lastHyphen name) "-" then stake lastHyphen name else name
  | None => name
  end.

Section Client.
Context `{KubeLib, MergePatches, MultiErr, ClientLib} {E : Type}.
Local Abbreviation X := (Client E * E)%type.
Variable EachListItem : Pager E.
(** [retry.RetryOnConflict(retry.DefaultRetry, f)]; the closure owns the object [obj]. *)
Variable RetryOnConflict : M (jmap * X) unit → M (jmap * X) unit.

Definition c_get : M X (Client E) := s ← getW; mret s.1.
Definition set_Shadow (f : gmap string string → gmap string string) : M X unit :=
  modifyW (λ s, (with_Shadow f s.1, s.2)).

Definition c_IsRelated (ctx : Ctx) (id : ClientIdentifier) : M X bool :=
  c ← c_get; mret (String.eqb (c_account c) (Account id) && String.eqb (c_cluster c) (Cluster id)).
Definition c_Stop (ctx : Ctx) : M X unit := mret tt.
Definition c_RegisterCallbacks (ctx : Ctx) (cb : Callbacks E) : M X unit :=
  modifyW (λ s, (with_callbacks cb s.1, s.2)).
Definition c_Callbacks (ctx : Ctx) : M X (Callbacks E) := c ← c_get; mret (c_callbacks c).

(** The typed client for the resource, when the storage client has one. *)
Definition typedClient (c : Client E) : option (TypedResource E) :=
  match storageClient c with
  | None => None
  | Some s =>
      if String.eqb (gvr_Group (c_res c)) "spdx.softwarecomposition.kubescape.io" then
        let r := gvr_Resource (c_res c) in
        if String.eqb r "applicationprofiles" then Some (ApplicationProfiles s)
        else if String.eqb r "networkneighborhoods" then Some (NetworkNeighborhoods s)
        else if String.eqb r "sbomsyfts" then Some (SBOMSyfts s)
        else if String.eqb r "seccompprofiles" then Some (SeccompProfiles s)
        else if String.eqb r "vulnerabilitymanifests" then Some (VulnerabilityManifests s)
        else None
      else None
  end.
Definition chooseLister (opts : ListOptions) : M X ObjList :=
  c ← c_get;
  match typedClient c with
  | Some t => liftR (tr_List t "" opts)
  | None => liftR (d_List (dynamicClient c) (c_res c) "" opts)
  end.
Definition getResource (namespace name : string) : M X Obj :=
  c ← c_get;
  match typedClient c with
  | Some t => o ← liftR (tr_Get t namespace name); mret (inr o)
  | None => o ← liftR (d_Get (dynamicClient c) (c_res c) namespace name); mret (inl o)
  end.

(** [filterAndMarshal]: the bytes, and the object as the function leaves it. *)
Definition filterAndMarshal (d : Obj) : M X (string * Obj) :=
  c ← c_get;
  d' ← match RemoveManagedFields d with
       | inl un =>
           un ← wrapE "remove specific fields"
                  (try (RemoveSpecificFields un (fieldsFor (Kind_String (c_kind c)))));
           un ← wrapE "mask environment variables" (try (MaskEnvironmentVariables un));
           mret (inl un)
       | inr t =>
           mret (inr (SetGroupVersionKind (Group (c_kind c)) (Version (c_kind c)) (TypeName t) t))
       end;
  data ← try (MarshalObj d');
  mret (data, d').

Definition getObjectFromMeta (d : Obj) : M X (string * Obj) :=
  c ← c_get;
  if String.eqb (gvr_Group (c_res c)) kubescapeCustomResourceGroup then
    obj ← wrapE "get resource" (getResource (GetNamespace (Meta d)) (GetName (Meta d)));
    r ← filterAndMarshal obj;
    mret (r.1, d)
  else filterAndMarshal d.

Definition getChecksum (d : Obj) : M X string :=
  match Annotations d !! SyncChecksumMetadataKey with
  | Some checksum => mret checksum
  | None =>
      r ← wrapE "get object" (getObjectFromMeta d);
      wrapE "calculate checksum" (try (CanonicalHash r.1))
  end.

Definition callPutOrPatch (ctx : Ctx) (id : KindName) (checksum baseObject newObject : string) :
    M X unit :=
  c ← c_get;
  if String.eqb (c_Strategy c) PatchStrategy then
    (if String.eqb baseObject "" then mret tt
     else set_Shadow <[KindName_String id := baseObject]>) ;;
    c' ← c_get;
    match ShadowObjects c' !! KindName_String id with
    | Some oldObject =>
        patch ← wrapE "create merge patch" (try (CreateMergePatch oldObject newObject));
        if emptyPatch_Match patch then mret tt
        else
          mergeResult ← wrapE "verifying patch" (try (MergePatch oldObject patch));
          checksum ← wrapE "calculate checksum" (try (CanonicalHash mergeResult));
          wrapE "send patch object" (liftR (cb_PatchObject (c_callbacks c) ctx id checksum patch)) ;;
          set_Shadow <[KindName_String id := newObject]>
    | None =>
        wrapE "send put object" (liftR (cb_PutObject (c_callbacks c) ctx id checksum newObject)) ;;
        set_Shadow <[KindName_String id := newObject]>
    end
  else wrapE "send put object" (liftR (cb_PutObject (c_callbacks c) ctx id checksum newObject)).

Definition callVerifyObject (ctx : Ctx) (id : KindName) (object : string) : M X unit :=
  checksum ← wrapE "calculate checksum" (try (CanonicalHash object));
  c ← c_get;
  wrapE "send checksum" (liftR (cb_VerifyObject (c_callbacks c) ctx id checksum)).

Definition c_DeleteObject (ctx : Ctx) (id : KindName) : M X unit :=
  c ← c_get;
  (if String.eqb (c_Strategy c) PatchStrategy
   then set_Shadow (delete (KindName_String id)) else mret tt) ;;
  liftR (d_Delete (dynamicClient c) (c_res c) (kn_Namespace id) (kn_Name id)).

(** An error of [getChecksum] is only logged; the checksum is empty then. *)
Definition c_GetObject (ctx : Ctx) (id : KindName) (baseObject : string) : M X unit :=
  obj ← wrapE "get resource" (getResource (kn_Namespace id) (kn_Name id));
  r ← wrapE "marshal resource" (filterAndMarshal obj);
  checksum ← attempt (getChecksum r.2);
  callPutOrPatch ctx id match checksum with inl s => s | inr _ => "" end baseObject r.1.

(** One try of the update: [obj] gets the metadata of the latest version. *)
Definition updateLatest (id : KindName) : M (jmap * X) unit :=
  s ← getW;
  let '(obj, (c, _)) := s in
  result ← liftR (liftR (d_Get (dynamicClient c) (c_res c) (kn_Namespace id)
                           (GetName (Meta (inl obj)))));
  match jget_map result "metadata", jget_map obj "metadata" with
  | Some existing, Some new =>
      obj' ← wrapE "set nested field"
               (try (SetNestedField obj (JObj (mergeMetadata existing new)) ["metadata"]));
      modifyW (λ s, (obj', s.2)) ;;
      _ ← liftR (liftR (d_Update (dynamicClient c) (c_res c) (kn_Namespace id) obj'));
      mret tt
  | _, _ => panic "interface conversion"
  end.

Definition c_PutObject (ctx : Ctx) (id : KindName) (checksum object : string) : M X unit :=
  obj ← wrapE "unmarshal object" (try (UnmarshalJSON object));
  c ← c_get;
  r ← attempt (liftR (d_Create (dynamicClient c) (c_res c) (kn_Namespace id) obj));
  match r with
  | inl _ => mret tt
  | inr err =>
      if IsAlreadyExists err || IsForbidden err then
        (λ x, match RetryOnConflict (updateLatest id) (obj, x) with (o, (_, x')) => (o, x') end)
      else throw (Wrapf "apply resource" err)
  end.

(** [patchObject]: the base object to ask from, with the error. *)
Definition c_patchObject (ctx : Ctx) (id : KindName) (checksum patch : string) :
    M X (string * option gerror) :=
  c ← c_get;
  if negb (String.eqb (c_Strategy c) PatchStrategy) then
    kind ← deref (kn_Kind id);
    mret ("", Some (Errorf ("patch strategy not enabled for resource " ++ Kind_String kind)))
  else
    robj ← attempt (getResource (kn_Namespace id) (kn_Name id));
    match robj with
    | inr e => mret ("", Some (Wrapf "get resource" e))
    | inl obj =>
        rm ← attempt (filterAndMarshal obj);
        match rm with
        | inr e => mret ("", Some (Wrapf "marshal resource" e))
        | inl (object, _) =>
            match MergePatch object patch with
            | inr e => mret (object, Some (Wrapf "apply patch" e))
            | inl modified =>
                match CanonicalHash modified with
                | inr e => mret (object, Some (Wrapf "calculate checksum" e))
                | inl newChecksum =>
                    if String.eqb newChecksum checksum then
                      set_Shadow <[KindName_String id := modified]> ;;
                      err ← errval (c_PutObject ctx id checksum modified);
                      mret (object, err)
                    else mret (object, Some (Errorf
                      ("checksum mismatch: " ++ newChecksum ++ " != " ++ checksum)))
                end
            end
        end
    end.
Definition c_PatchObject (ctx : Ctx) (id : KindName) (checksum patch : string) : M X unit :=
  r ← c_patchObject ctx id checksum patch;
  match r with
  | (baseObject, Some _) =>
      c ← c_get; liftR (cb_GetObject (c_callbacks c) ctx id baseObject)
  | (_, None) => mret tt
  end.

Definition c_verifyObject (id : KindName) (newChecksum : string) : M X (string * option gerror) :=
  robj ← attempt (getResource (kn_Namespace id) (kn_Name id));
  match robj with
  | inr e => mret ("", Some (Wrapf "get resource" e))
  | inl obj =>
      rm ← attempt (filterAndMarshal obj);
      match rm with
      | inr e => mret ("", Some (Wrapf "marshal resource" e))
      | inl (object, _) =>
          match CanonicalHash object with
          | inr e => mret (object, Some (Wrapf "calculate checksum" e))
          | inl checksum =>
              if String.eqb checksum newChecksum then mret (object, None)
              else mret (object, Some (Errorf
                ("checksum mismatch: " ++ newChecksum ++ " != " ++ checksum)))
          end
      end
  end.
Definition c_VerifyObject (ctx : Ctx) (id : KindName) (newChecksum : string) : M X unit :=
  r ← c_verifyObject id newChecksum;
  match r with
  | (baseObject, Some _) =>
      c ← c_get; liftR (cb_GetObject (c_callbacks c) ctx id baseObject)
  | (_, None) => mret tt
  end.

(** *** Batches *)

(** [fmt.Sprintf("%s/%s", namespace, name)]. *)
Definition slash_key (namespace name : string) : string := namespace ++ "/" ++ name.

(** [clientItems], filled by the closure of the pager; its keys are [clientItemsSet]. *)
Definition collectItem (item : Obj) : M (gmap string Obj * X) unit :=
  modifyW (λ s, (<[slash_key (GetNamespace (Meta item)) (GetName (Meta item)) := item]> s.1, s.2)).
Definition listClientItems : M X (gmap string Obj) := λ x,
  match wrapE "reconciliation: list resources"
          (EachListItem _ chooseLister collectItem) (∅, x) with
  | (Ret _, (items, x')) => (Ret items, x')
  | (Throw e, (_, x')) => (Throw e, x')
  | (Panic s, (_, x')) => (Panic s, x')
  end.
(** [serverItems]: a later checksum of the same resource wins. *)
Definition serverItems (items : list NewChecksum) : gmap string NewChecksum :=
  foldl (λ m item, <[slash_key (nc_Namespace item) (nc_Name item) := item]> m) ∅ items.

(** A resource that should not be on the server. *)
Definition reconcileDeleted (ctx : Ctx) (server : gmap string NewChecksum)
    (err : option gerror) (k : string) : M X (option gerror) :=
  c ← c_get;
  let item := default (zero : NewChecksum) (server !! k) in
  let id := mkKindName (Some (c_kind c)) (nc_Name item) (nc_Namespace item) (nc_ResourceVersion item) in
  _ ← deref (nc_Kind item);
  e ← errval (liftR (cb_DeleteObject (c_callbacks c) ctx id));
  mret (Append err e).

(** A resource both sides have. *)
Definition reconcileCommon (ctx : Ctx) (server : gmap string NewChecksum) (resource : Obj)
    (err : option gerror) (k : string) : M X (option gerror) :=
  c ← c_get;
  let item := default (zero : NewChecksum) (server !! k) in
  let currentVersion := ToResourceVersion (GetResourceVersion (Meta resource)) in
  _ ← deref (nc_Kind item);
  if currentVersion =? nc_ResourceVersion item then mret err
  else
    r ← attempt (getObjectFromMeta resource);
    match r with
    | inr e => mret (Append err (Some (Wrapf "marshal resource" e)))
    | inl (newObject, resource') =>
        let id := mkKindName (Some (c_kind c)) (nc_Name item) (nc_Namespace item)
                    (nc_ResourceVersion item) in
        rc ← attempt (getChecksum resource');
        match rc with
        | inr e => mret (Append err (Some (Wrapf "get checksum" e)))
        | inl checksum =>
            e ← errval (liftR (cb_PutObject (c_callbacks c) ctx id checksum newObject));
            mret (Append err e)
        end
    end.

(** A resource that the server does not have. *)
Definition reconcileMissing (ctx : Ctx) (item : Obj) (err : option gerror) : M X (option gerror) :=
  c ← c_get;
  if isFiltered c (Some item) then mret err
  else
    let id := mkKindName (Some (c_kind c)) (GetName (Meta item)) (GetNamespace (Meta item))
                (ToResourceVersion (GetResourceVersion (Meta item))) in
    r ← attempt (filterAndMarshal item);
    match r with
    | inr e => mret (Append err (Some (Wrapf "marshal resource" e)))
    | inl (newObject, _) =>
        set_Shadow (delete (KindName_String id)) ;;
        e ← errval (callVerifyObject ctx id newObject);
        mret (Append err e)
    end.

(** [reconcileBatchProcessingFunc]; the accumulated error is not returned. *)
Definition reconcileBatchProcessingFunc (ctx : Ctx) (items : BatchItems) : M X unit :=
  c ← c_get;
  match elems (bi_NewChecksum items) with
  | [] => throw (Errorf ("reconciliation batch (" ++ gvr_Resource (c_res c)
            ++ ") was empty - expected at least one NewChecksum message"))
  | checksums =>
      client ← listClientItems;
      let server := serverItems checksums in
      err ← mfold (reconcileDeleted ctx server) None
              (ToSlice (dom server ∖ dom client));
      err ← mfold (λ err k, match client !! k with
                           | Some resource => reconcileCommon ctx server resource err k
                           | None => panic "nil pointer dereference"
                           end) err (ToSlice (dom server ∩ dom client));
      err ← mfold (λ err k, match client !! k with
                           | Some item => reconcileMissing ctx item err
                           | None => panic "nil pointer dereference"
                           end) err (ToSlice (dom client ∖ dom server));
      mret tt
  end.

Definition defaultBatchProcessingFunc (ctx : Ctx) (items : BatchItems) : M X unit :=
  c ← c_get;
  let id name ns rv := mkKindName (Some (c_kind c)) name ns rv in
  err ← appendErrs (λ item, c_GetObject ctx
          (id (go_Name item) (go_Namespace item) (go_ResourceVersion item)) (go_BaseObject item))
        (elems (bi_GetObject items)) None;
  err ← appendErrs (λ item, c_VerifyObject ctx
          (id (nc_Name item) (nc_Namespace item) (nc_ResourceVersion item)) (nc_Checksum item))
        (elems (bi_NewChecksum items)) err;
  err ← appendErrs (λ item, c_DeleteObject ctx
          (id (od_Name item) (od_Namespace item) (od_ResourceVersion item)))
        (elems (bi_ObjectDeleted items)) err;
  err ← appendErrs (λ item, c_PatchObject ctx
          (id (pa_Name item) (pa_Namespace item) (pa_ResourceVersion item))
          (pa_Checksum item) (pa_Patch item))
        (elems (bi_PatchObject items)) err;
  err ← appendErrs (λ item, c_PutObject ctx
          (id (pu_Name item) (pu_Namespace item) (pu_ResourceVersion item))
          (pu_Checksum item) (pu_Object item))
        (elems (bi_PutObject items)) err;
  return_err err.

(** [batchProcessingFunc] of [NewClient], and [Batch]. *)
Definition c_Batch (ctx : Ctx) (_ : Kind) (batchType : BatchType) (items : BatchItems) : M X unit :=
  if String.eqb batchType DefaultBatch then defaultBatchProcessingFunc ctx items
  else if String.eqb batchType ReconciliationBatch then reconcileBatchProcessingFunc ctx items
  else throw (Errorf ("batch type " ++ batchType ++ " not supported")).

(** *** Cluster events *)

(** One existing object of the storage; the closure keeps the last resource version. *)
Definition existingObject (ctx : Ctx) (d : Obj) : M (string * X) unit :=
  modifyW (λ s, (GetResourceVersion (Meta d), s.2)) ;;
  c ← liftR c_get;
  let id := mkKindName (Some (c_kind c)) (GetName (Meta d)) (GetNamespace (Meta d))
              (ToResourceVersion (GetResourceVersion (Meta d))) in
  r ← attempt (liftR (getChecksum d));
  match r with
  | inr _ => mret tt
  | inl checksum =>
      _ ← attempt (liftR (liftR (cb_VerifyObject (c_callbacks c) ctx id checksum)));
      mret tt
  end.
Definition getExistingStorageObjects (ctx : Ctx) : M X string := λ x,
  match wrapE "list resources" (EachListItem _ chooseLister (existingObject ctx)) ("", x) with
  | (Ret _, (resourceVersion, x')) => (Ret resourceVersion, x')
  | (Throw e, (_, x')) => (Throw e, x')
  | (Panic s, (_, x')) => (Panic s, x')
  end.

(** One event of the queue in [Start]; [None] is an object without metadata. *)
Definition onEvent (ctx : Ctx) (type : EventType) (object : option Obj) : M X unit :=
  c ← c_get;
  match object with
  | None => mret tt
  | Some d =>
      if isFiltered c (Some d) then mret tt
      else
        let id := mkKindName (Some (c_kind c)) (GetName (Meta d)) (GetNamespace (Meta d))
                    (ToResourceVersion (GetResourceVersion (Meta d))) in
        match type with
        | Added =>
            r ← attempt (getChecksum d);
            match r with
            | inr _ => mret tt
            | inl checksum =>
                _ ← attempt (liftR (cb_VerifyObject (c_callbacks c) ctx id checksum));
                mret tt
            end
        | Deleted =>
            _ ← attempt (liftR (cb_DeleteObject (c_callbacks c) ctx id));
            if String.eqb (c_Strategy c) PatchStrategy
            then set_Shadow (delete (KindName_String id)) else mret tt
        | Modified =>
            r ← attempt (getObjectFromMeta d);
            match r with
            | inr _ => mret tt
            | inl (newObject, d') =>
                checksum ← attempt (getChecksum d');
                _ ← attempt (callPutOrPatch ctx id
                      match checksum with inl s => s | inr _ => "" end "" newObject);
                mret tt
            end
        | OtherEvent => mret tt
        end
  end.

(** The client as an adapter; its event loop [Start] runs [onEvent] for every event. *)
Definition go_client (start : Ctx → M X unit) : Adapter E X :=
  mkAdapter start c_Stop c_IsRelated c_RegisterCallbacks c_Callbacks c_DeleteObject
    c_GetObject c_PatchObject c_PutObject c_VerifyObject c_Batch.
End Client.
