(* ===== verification/InClusterAdapter.v ===== *)
(** * InClusterAdapter: [adapters/incluster/v1/adapter.go].

    One client per kind of resource.  The clients live in the map of the adapter, so an
    operation runs on the entry of the map.  [Start] also spawns, for every client, the
    goroutine that runs its event loop; the goroutines are not part of the model. *)

From S2P Require Export InClusterClient.

Record InClusterAdapter `{KubeLib} (E : Type) : Type := mkInClusterAdapter {
  a_callbacks : Callbacks E;
  a_cfg : InCluster;
  a_clients : gmap string (Client E);
  a_dynamicClient : Dynamic E;
  a_storageClient : option (StorageClient E)
}.
Arguments mkInClusterAdapter {_ E} _ _ _ _ _.
Arguments a_callbacks {_ E} _.
Arguments a_cfg {_ E} _.
Arguments a_clients {_ E} _.
Arguments a_dynamicClient {_ E} _.
Arguments a_storageClient {_ E} _.

Definition NewInClusterAdapter `{KubeLib} {E} (cfg : InCluster) (dyn : Dynamic E)
    (storage : option (StorageClient E)) : InClusterAdapter E :=
  mkInClusterAdapter nil_Callbacks cfg ∅ dyn storage.

Definition with_clients `{KubeLib} {E} (f : gmap string (Client E) → gmap string (Client E))
    (a : InClusterAdapter E) : InClusterAdapter E :=
  mkInClusterAdapter (a_callbacks a) (a_cfg a) (f (a_clients a)) (a_dynamicClient a)
    (a_storageClient a).

Section InClusterAdapter.
Context `{KubeLib, MergePatches, MultiErr, ClientLib} {E : Type}.
Local Abbreviation X := (Client E * E)%type.
Local Abbreviation Y := (InClusterAdapter E * E)%type.
Variable EachListItem : Pager E.
Variable RetryOnConflict : M (jmap * X) unit → M (jmap * X) unit.

Definition a_get : M Y (InClusterAdapter E) := s ← getW; mret s.1.

(** An operation of the client that the map holds under [key]. *)
Definition on_client {A} (key : string) (m : M X A) : M Y A := λ '(a, e),
  match a_clients a !! key with
  | None => (Panic "nil pointer dereference", (a, e))
  | Some c => let '(o, (c', e')) := m (c, e) in (o, (with_clients <[key := c']> a, e'))
  end.

(** [GetClientByKind]: the key of the client, which is created if there is none. *)
Definition GetClientByKind (kind : Kind) : M Y string :=
  a ← a_get;
  let key := Kind_String kind in
  match a_clients a !! key with
  | Some _ => mret key
  | None =>
      let client := NewClient NoOpDynamicClient None (a_cfg a)
        (mkConfigResource (Group kind) (Version kind) (Resource kind) "copy") in
      modifyW (λ s, (with_clients <[key := client]> s.1, s.2)) ;;
      mret key
  end.

Definition GetClient (id : KindName) : M Y string :=
  match kn_Kind id with
  | None => throw (Errorf ("invalid resource kind. resource name: " ++ kn_Name id))
  | Some kind => GetClientByKind kind
  end.
(** The error of [GetClient], under a label that shows the nil kind. *)
Definition with_client (id : KindName) (m : M X unit) : M Y unit :=
  key ← wrapE "failed to get client for resource <nil>" (GetClient id);
  on_client key m.

Definition a_DeleteObject (ctx : Ctx) (id : KindName) : M Y unit :=
  with_client id (c_DeleteObject ctx id).
Definition a_GetObject (ctx : Ctx) (id : KindName) (baseObject : string) : M Y unit :=
  with_client id (c_GetObject ctx id baseObject).
Definition a_PatchObject (ctx : Ctx) (id : KindName) (checksum patch : string) : M Y unit :=
  with_client id (c_PatchObject RetryOnConflict ctx id checksum patch).
Definition a_PutObject (ctx : Ctx) (id : KindName) (checksum object : string) : M Y unit :=
  with_client id (c_PutObject RetryOnConflict ctx id checksum object).
Definition a_VerifyObject (ctx : Ctx) (id : KindName) (checksum : string) : M Y unit :=
  with_client id (c_VerifyObject ctx id checksum).
Definition a_Batch (ctx : Ctx) (kind : Kind) (batchType : BatchType) (items : BatchItems) :
    M Y unit :=
  key ← GetClientByKind kind;
  on_client key (c_Batch EachListItem RetryOnConflict ctx kind batchType items).

Definition a_RegisterCallbacks (ctx : Ctx) (cb : Callbacks E) : M Y unit :=
  modifyW (λ s, (mkInClusterAdapter cb (a_cfg s.1) (a_clients s.1) (a_dynamicClient s.1)
                   (a_storageClient s.1), s.2)).
Definition a_Callbacks (ctx : Ctx) : M Y (Callbacks E) := a ← a_get; mret (a_callbacks a).

(** [Start]: a client per configured resource, with the registered callbacks. *)
Definition a_Start (ctx : Ctx) : M Y unit :=
  a ← a_get;
  mfor (λ r, modifyW (λ s,
    (with_clients <[Resource_String r :=
       with_callbacks (a_callbacks s.1)
         (NewClient (a_dynamicClient s.1) (a_storageClient s.1) (a_cfg s.1) r)]> s.1, s.2)))
    (ic_Resources (a_cfg a)).
Definition a_Stop (ctx : Ctx) : M Y unit := mret tt.
Definition a_IsRelated (ctx : Ctx) (id : ClientIdentifier) : M Y bool :=
  a ← a_get;
  mret (String.eqb (ic_Account (a_cfg a)) (Account id)
        && String.eqb (ClusterName (a_cfg a)) (Cluster id)).

Definition go_incluster : Adapter E Y :=
  mkAdapter a_Start a_Stop a_IsRelated a_RegisterCallbacks a_Callbacks a_DeleteObject
    a_GetObject a_PatchObject a_PutObject a_VerifyObject a_Batch.
End InClusterAdapter.

Section AdapterLemmas.
Context `{KubeLib, MergePatches, MultiErr, ClientLib} {E : Type}.
Implicit Types (a : InClusterAdapter E) (e : E).

(** The client that serves a kind: the one of the map, or a new one that does nothing. *)
Definition discarding (cfg : InCluster) (kind : Kind) : Client E :=
  NewClient NoOpDynamicClient None cfg
    (mkConfigResource (Group kind) (Version kind) (Resource kind) "copy").
Definition client_of (a : InClusterAdapter E) (kind : Kind) : Client E :=
  default (discarding (a_cfg a) kind) (a_clients a !! Kind_String kind).

Lemma with_client_run id kind (m : M (Client E * E) unit) a e :
  kn_Kind id = Some kind →
  with_client id m (a, e) =
    let '(o, (c, e')) := m (client_of a kind, e) in
    (o, (with_clients <[Kind_String kind := c]> a, e')).
Proof.
  intros Hk. unfold with_client, GetClient, GetClientByKind, on_client, client_of, a_get.
  rewrite Hk. go_compute. destruct (a_clients a !! Kind_String kind) as [c|] eqn:Ec.
  - rewrite Ec. unfold default, from_option, Datatypes.id. by destruct (m (c, e)) as [o [c' e']].
  - unfold with_clients at 1. cbn [a_clients]. rewrite lookup_insert_eq.
    unfold default, from_option, Datatypes.id.
    unfold discarding. destruct (m (_, e)) as [o [c' e']]. unfold with_clients.
    cbn [a_clients a_callbacks a_cfg a_dynamicClient a_storageClient].
    by rewrite insert_insert_eq.
Qed.

(** The client that [Start] makes for a resource. *)
Definition configured (a : InClusterAdapter E) (r : ConfigResource) : Client E :=
  with_callbacks (a_callbacks a)
    (NewClient (a_dynamicClient a) (a_storageClient a) (a_cfg a) r).
Definition insert_configured (a : InClusterAdapter E) (cs : gmap string (Client E))
    (r : ConfigResource) : gmap string (Client E) :=
  <[Resource_String r := configured a r]> cs.

Lemma start_run ctx a e :
  a_Start ctx (a, e) =
    (Ret tt, (with_clients (λ cs, foldl (insert_configured a) cs (ic_Resources (a_cfg a))) a, e)).
Proof.
  unfold a_Start, a_get. rewrite bind_run. cbn.
  assert (∀ l cs, mfor (λ r, modifyW (λ s : InClusterAdapter E * E,
      (with_clients <[Resource_String r :=
         with_callbacks (a_callbacks s.1)
           (NewClient (a_dynamicClient s.1) (a_storageClient s.1) (a_cfg s.1) r)]> s.1, s.2))) l
      (with_clients (λ _, cs) a, e)
    = (Ret tt, (with_clients (λ _, foldl (insert_configured a) cs l) a, e))) as Hl.
  { intros l. induction l as [|r l IH]; intros cs; [done|]. cbn. apply IH. }
  specialize (Hl (ic_Resources (a_cfg a)) (a_clients a)). by destruct a.
Qed.

Lemma insert_configured_lookup a l cs r :
  NoDup (Resource_String <$> l) → r ∈ l →
  foldl (insert_configured a) cs l !! Resource_String r = Some (configured a r).
Proof.
  induction l as [|r0 l IH] using rev_ind; [by intros _ ?%not_elem_of_nil|].
  rewrite fmap_app, NoDup_app, foldl_snoc. intros (Hnd & Hdisj & _) [Hr|Hr]%elem_of_app;
    unfold insert_configured at 1.
  - rewrite lookup_insert_ne; [by apply IH|]. intros He.
    apply (Hdisj (Resource_String r)); [by apply list_elem_of_fmap_2|].
    rewrite <- He. cbn. left.
  - apply list_elem_of_singleton in Hr as ->. apply lookup_insert_eq.
Qed.
End AdapterLemmas.

(** ** Properties *)

(** Starting the adapter gives every configured resource a client that talks to the
    cluster and answers through the registered callbacks. *)
Theorem start_serves_configured `{KubeLib} {E} ctx (a : InClusterAdapter E) e r :
  NoDup (Resource_String <$> ic_Resources (a_cfg a)) → r ∈ ic_Resources (a_cfg a) →
  ∃ a', a_Start ctx (a, e) = (Ret tt, (a', e)) ∧
    a_clients a' !! Resource_String r =
      Some (with_callbacks (a_callbacks a)
              (NewClient (a_dynamicClient a) (a_storageClient a) (a_cfg a) r)).
Proof.
  intros Hnd Hr. eexists. split; [apply start_run|]. by apply insert_configured_lookup.
Qed.

Lemma client_of_unknown `{KubeLib} {E} (a : InClusterAdapter E) kind :
  a_clients a !! Kind_String kind = None → client_of a kind = discarding (a_cfg a) kind.
Proof. intros Hn. unfold client_of. by rewrite Hn. Qed.

(** Deletions and objects of a kind that is not configured are discarded: nothing
    happens in the cluster or in the core (an object that is no JSON is an error). *)
Theorem unknown_kind_discarded `{KubeLib, MergePatches, MultiErr, ClientLib} {E} retry ctx
    (a : InClusterAdapter E) e id kind checksum object :
  kn_Kind id = Some kind → a_clients a !! Kind_String kind = None →
  (a_DeleteObject ctx id (a, e)).1 = Ret tt ∧ (a_DeleteObject ctx id (a, e)).2.2 = e ∧
  (a_PutObject retry ctx id checksum object (a, e)).2.2 = e ∧
  (∀ un, UnmarshalJSON object = inl un →
     (a_PutObject retry ctx id checksum object (a, e)).1 = Ret tt).
Proof.
  intros Hk Hn. unfold a_DeleteObject, a_PutObject.
  rewrite !(with_client_run _ kind), !client_of_unknown by done.
  split; [done|]. split; [done|].
  unfold c_PutObject, c_get. go_compute.
  destruct (UnmarshalJSON object) as [un|err]; cbn; [done|by split].
Qed.

(** A patch of a kind that is not configured is not discarded: the client made for
    the kind has no callbacks, and asking for the object calls a nil function. *)
Theorem unknown_kind_patch_panics `{KubeLib, MergePatches, MultiErr, ClientLib} {E} retry ctx
    (a : InClusterAdapter E) e id kind checksum patch :
  kn_Kind id = Some kind → a_clients a !! Kind_String kind = None →
  (a_PatchObject retry ctx id checksum patch (a, e)).1 = Panic "call of a nil function".
Proof.
  intros Hk Hn. unfold a_PatchObject.
  rewrite (with_client_run _ kind), client_of_unknown by done.
  unfold c_PatchObject, c_patchObject, c_get. go_compute. cbn. by rewrite Hk.
Qed.

(** ** Witnesses *)
Definition sample_clientlib : ClientLib :=
  {| SyncChecksumMetadataKey := "sync-checksum"; ToSlice := elements |}.
Definition sample_resource : ConfigResource := mkConfigResource "apps" "v1" "deployments" "patch".
Definition sample_cfg : InCluster :=
  mkInCluster "wss://server" "kubescape" "prod" [] [] "acme" "key" [sample_resource].
Definition sample_adapter : @InClusterAdapter sample_kube unit :=
  @NewInClusterAdapter sample_kube unit sample_cfg (@NoOpDynamicClient sample_kube unit) None.
Definition unknown_kind : Kind := mkKind "" "v1" "secrets" None.
Definition unknown_id : KindName := mkKindName (Some unknown_kind) "s" "default" 0.
Definition no_retry {W} (m : M W unit) : M W unit := m.

Lemma start_serves_configured_witness :
  ∃ a', @a_Start sample_kube unit sample_ctx (sample_adapter, tt) = (Ret tt, (a', tt)) ∧
    is_Some (a_clients a' !! "apps/v1/deployments").
Proof.
  destruct (@start_serves_configured sample_kube unit sample_ctx sample_adapter tt sample_resource)
    as (a' & H1 & H2); [apply NoDup_singleton|by left|].
  exists a'. split; [exact H1|]. by eexists.
Defined.

Lemma unknown_kind_discarded_witness :
  (@a_DeleteObject sample_kube unit sample_ctx unknown_id (sample_adapter, tt)).1 = Ret tt.
Proof.
  exact (proj1 (@unknown_kind_discarded sample_kube sample_patches sample_multierr
    sample_clientlib unit no_retry sample_ctx sample_adapter tt unknown_id unknown_kind "" ""
    eq_refl eq_refl)).
Defined.

Lemma unknown_kind_patch_panics_witness :
  (@a_PatchObject sample_kube sample_patches unit no_retry sample_ctx unknown_id "c" "{}"
     (sample_adapter, tt)).1 = Panic "call of a nil function".
Proof.
  exact (@unknown_kind_patch_panics sample_kube sample_patches sample_multierr
    sample_clientlib unit no_retry sample_ctx sample_adapter tt unknown_id unknown_kind "c" "{}"
    eq_refl eq_refl).
Defined.
