(* ===== verification/Reconcile.v ===== *)
(** * Reconcile: what the in-cluster client announces.

    The environment here is the list of the events that the callbacks announce, so the
    theorems say which events the client sends: for a reconciliation batch, for watch
    events, and for requests of the server. *)

From S2P Require Export InClusterAdapter Mock Delivery.

(** Callbacks that keep the events they are given. *)
Definition emit (ev : SyncEvent) : M (list SyncEvent) unit := modifyW (λ l, l ++ [ev]).
Definition emitting : Callbacks (list SyncEvent) :=
  mkCallbacks (λ _ id, emit (SyncDelete id)) (λ _ id base, emit (SyncGet id base))
    (λ _ id ck p, emit (SyncPatch id ck p)) (λ _ id ck o, emit (SyncPut id ck o))
    (λ _ id ck, emit (SyncVerify id ck)) (λ _ k bt items, emit (SyncBatch k bt items)).

(** The resources of the cluster by key, as the pager leaves them. *)
Definition clientItems `{KubeLib} (objs : list Obj) : gmap string Obj :=
  foldl (λ m o, <[slash_key (GetNamespace (Meta o)) (GetName (Meta o)) := o]> m) ∅ objs.

Lemma clientItems_lookup `{KubeLib} objs k o :
  clientItems objs !! k = Some o →
  o ∈ objs ∧ k = slash_key (GetNamespace (Meta o)) (GetName (Meta o)).
Proof.
  unfold clientItems. induction objs as [|o' objs IH] using rev_ind; [done|].
  rewrite foldl_snoc. intros [[<- <-]|[_ Hl]]%lookup_insert_Some.
  - split; [|done]. apply elem_of_app. right. by left.
  - apply IH in Hl as [Ho ->]. split; [|done]. apply elem_of_app. by left.
Qed.

Lemma serverItems_lookup items k item :
  serverItems items !! k = Some item → item ∈ items.
Proof.
  unfold serverItems. induction items as [|i items IH] using rev_ind; [done|].
  rewrite foldl_snoc. intros [[<- <-]|[_ Hl]]%lookup_insert_Some.
  - apply elem_of_app. right. by left.
  - apply elem_of_app. left. by apply IH.
Qed.

Section Reconcile.
Context `{KubeLib, MergePatches, MultiErr, ClientLib}.
Local Abbreviation E := (list SyncEvent).
Local Abbreviation X := (Client E * E)%type.
Variable EachListItem : Pager E.
Variable c : Client E.
Hypothesis c_emits : c_callbacks c = emitting.
(** The cluster holds [objs]: the pager visits them in order. *)
Variable objs : list Obj.
Hypothesis pages : ∀ (f : Obj → M (gmap string Obj * X) unit) s e,
  EachListItem _ chooseLister f (s, (c, e)) = mfor f objs (s, (c, e)).
(** Every object can be prepared: [bytes] is what is marshalled, [sum] its checksum. *)
Variables bytes sum : Obj → string.
Definition prepares (d : Obj) : Prop := ∀ f e,
  (∃ d', getObjectFromMeta d (with_Shadow f c, e) = (Ret (bytes d, d'), (with_Shadow f c, e)) ∧
         getChecksum d' (with_Shadow f c, e) = (Ret (sum d), (with_Shadow f c, e))) ∧
  (∃ data d', filterAndMarshal d (with_Shadow f c, e) = (Ret (data, d'), (with_Shadow f c, e)) ∧
         CanonicalHash data = inl (sum d)).
Hypothesis objs_prepare : ∀ d, d ∈ objs → prepares d.
(** [ToSlice] enumerates a set. *)
Hypothesis ToSlice_elem : ∀ (s : gset string) k, k ∈ ToSlice s ↔ k ∈ s.

(** The identifiers in the events: of a server item, and of an object. *)
Definition server_id (item : NewChecksum) : KindName :=
  mkKindName (Some (c_kind c)) (nc_Name item) (nc_Namespace item) (nc_ResourceVersion item).
Definition object_id (o : Obj) : KindName :=
  mkKindName (Some (c_kind c)) (GetName (Meta o)) (GetNamespace (Meta o))
    (ToResourceVersion (GetResourceVersion (Meta o))).

(** The event that a difference between the two sides asks for. *)
Inductive due (server : gmap string NewChecksum) (client : gmap string Obj) :
    string → SyncEvent → Prop :=
| due_delete k item : server !! k = Some item → client !! k = None →
    due server client k (SyncDelete (server_id item))
| due_put k item (o : Obj) : server !! k = Some item → client !! k = Some o →
    ToResourceVersion (GetResourceVersion (Meta o)) ≠ nc_ResourceVersion item →
    due server client k (SyncPut (server_id item) (sum o) (bytes o))
| due_verify k (o : Obj) : server !! k = None → client !! k = Some o →
    isFiltered c (Some o) = false →
    due server client k (SyncVerify (object_id o) (sum o)).

(** A loop each round of which announces the events due for its key. *)
Lemma phase (f : option gerror → string → M X (option gerror)) (P : string → SyncEvent → Prop) l :
  (∀ k acc sh e, k ∈ l → ∃ acc' sh' evs,
     f acc k (with_Shadow sh c, e) = (Ret acc', (with_Shadow sh' c, e ++ evs)) ∧
     ∀ ev, ev ∈ evs ↔ P k ev) →
  ∀ acc sh e, ∃ acc' sh' evs,
    mfold f acc l (with_Shadow sh c, e) = (Ret acc', (with_Shadow sh' c, e ++ evs)) ∧
    ∀ ev, ev ∈ evs ↔ ∃ k, k ∈ l ∧ P k ev.
Proof.
  induction l as [|k l IH]; intros Hf acc sh e.
  - exists acc, sh, []. rewrite (right_id_L [] (++)). split; [done|]. set_solver.
  - destruct (Hf k acc sh e) as (acc1 & sh1 & evs1 & E1 & Hev1); [by left|].
    destruct (IH ltac:(intros; apply Hf; by right) acc1 sh1 (e ++ evs1))
      as (acc2 & sh2 & evs2 & E2 & Hev2).
    exists acc2, sh2, (evs1 ++ evs2). cbn [mfold]. rewrite bind_run, E1, E2, (assoc_L (++)).
    split; [done|]. intros ev. rewrite elem_of_app, Hev1, Hev2.
    setoid_rewrite elem_of_cons. naive_solver.
Qed.

Lemma reconcileDeleted_run ctx server client k acc sh e item :
  server !! k = Some item → client !! k = None → nc_Kind item ≠ None →
  ∃ acc' sh' evs,
    reconcileDeleted ctx server acc k (with_Shadow sh c, e)
      = (Ret acc', (with_Shadow sh' c, e ++ evs)) ∧
    ∀ ev, ev ∈ evs ↔ due server client k ev.
Proof.
  intros Hs Hc Hk. unfold reconcileDeleted, c_get. rewrite Hs. cbn [default].
  destruct (nc_Kind item) eqn:Hkind; [|done].
  eexists _, sh, [SyncDelete (server_id item)]. split.
  - go_compute. unfold default, from_option, Datatypes.id. rewrite Hkind. cbn.
    rewrite c_emits. reflexivity.
  - intros ev. rewrite list_elem_of_singleton. split; [intros ->; by constructor|].
    inversion 1; congruence.
Qed.

Lemma reconcileCommon_run ctx server client k acc sh e item o :
  server !! k = Some item → client !! k = Some o → nc_Kind item ≠ None → prepares o →
  ∃ acc' sh' evs,
    reconcileCommon ctx server o acc k (with_Shadow sh c, e)
      = (Ret acc', (with_Shadow sh' c, e ++ evs)) ∧
    ∀ ev, ev ∈ evs ↔ due server client k ev.
Proof.
  intros Hs Hc Hk Hp. unfold reconcileCommon, c_get. rewrite Hs. cbn [default].
  destruct (nc_Kind item) eqn:Hkind; [|done].
  destruct (Z.eqb_spec (ToResourceVersion (GetResourceVersion (Meta o)))
    (nc_ResourceVersion item)) as [Heq|Hne].
  - exists acc, sh, []. rewrite (right_id_L [] (++)). split.
    + go_compute. unfold default, from_option, Datatypes.id. rewrite Hkind. cbn.
      by rewrite Heq, Z.eqb_refl.
    + intros ev. split; [by intros ?%not_elem_of_nil|]. inversion 1; congruence.
  - destruct (Hp sh e) as [(d' & Hget & Hck) _].
    eexists _, sh, [SyncPut (server_id item) (sum o) (bytes o)]. split.
    + go_compute. unfold default, from_option, Datatypes.id. rewrite Hkind.
      cbn [deref mret M_ret]. go_compute. apply Z.eqb_neq in Hne as ->.
      rewrite Hget, Hck. unfold errval. go_compute. cbn. rewrite c_emits. reflexivity.
    + intros ev. rewrite list_elem_of_singleton.
      split; [intros ->; by constructor|]. inversion 1; congruence.
Qed.

Lemma reconcileMissing_run ctx server client k acc sh e o :
  server !! k = None → client !! k = Some o → prepares o →
  ∃ acc' sh' evs,
    reconcileMissing ctx o acc (with_Shadow sh c, e)
      = (Ret acc', (with_Shadow sh' c, e ++ evs)) ∧
    ∀ ev, ev ∈ evs ↔ due server client k ev.
Proof.
  intros Hs Hc Hp. unfold reconcileMissing, c_get.
  change (isFiltered (with_Shadow sh c, e).1 (Some o)) with (isFiltered c (Some o)).
  destruct (isFiltered c (Some o)) eqn:Hf.
  - exists acc, sh, []. rewrite (right_id_L [] (++)). split.
    + go_compute. change (isFiltered (with_Shadow sh c) (Some o)) with (isFiltered c (Some o)).
      by rewrite Hf.
    + intros ev. split; [by intros ?%not_elem_of_nil|]. inversion 1; congruence.
  - destruct (Hp sh e) as [_ (data & d' & Hfm & Hh)].
    eexists _, (λ s, delete (KindName_String (object_id o)) (sh s)),
      [SyncVerify (object_id o) (sum o)]. split.
    + go_compute. change (isFiltered (with_Shadow sh c) (Some o)) with (isFiltered c (Some o)).
      rewrite Hf, Hfm. unfold set_Shadow, errval, callVerifyObject, c_get. go_compute.
      rewrite Hh. cbn [try]. go_compute. cbn. rewrite c_emits. reflexivity.
    + intros ev. rewrite list_elem_of_singleton.
      split; [intros ->; by constructor|]. inversion 1; congruence.
Qed.

Lemma listClientItems_run e : listClientItems EachListItem (c, e) = (Ret (clientItems objs), (c, e)).
Proof.
  unfold listClientItems. rewrite wrapE_run, pages.
  assert (∀ s, mfor collectItem objs (s, (c, e)) = (Ret tt, (foldl (λ m o,
    <[slash_key (GetNamespace (Meta o)) (GetName (Meta o)) := o]> m) s objs, (c, e)))) as ->;
    [|done].
  clear. induction objs as [|o l IH]; intros s; [done|]. cbn. apply IH.
Qed.

Lemma reconcile_events ctx items e :
  elems (bi_NewChecksum items) ≠ [] →
  (∀ item, item ∈ elems (bi_NewChecksum items) → nc_Kind item ≠ None) →
  ∃ sh evs,
    reconcileBatchProcessingFunc EachListItem ctx items (c, e)
      = (Ret tt, (with_Shadow sh c, e ++ evs)) ∧
    ∀ ev, ev ∈ evs ↔ ∃ k, due (serverItems (elems (bi_NewChecksum items))) (clientItems objs) k ev.
Proof.
  intros Hne Hkinds. unfold reconcileBatchProcessingFunc, c_get.
  destruct (elems (bi_NewChecksum items)) as [|i0 l] eqn:Hl; [done|].
  set (server := serverItems (i0 :: l)). set (client := clientItems objs).
  assert (∀ k item, server !! k = Some item → nc_Kind item ≠ None) as Hserver.
  { intros k item Hk. by eapply Hkinds, serverItems_lookup. }
  assert (∀ k o, client !! k = Some o → prepares o) as Hclient.
  { intros k o Hk. by eapply objs_prepare, clientItems_lookup. }
  assert ((c, e) = (with_Shadow id c, e)) as Hc0 by (by destruct c).
  destruct (phase (reconcileDeleted ctx server) (due server client)
    (ToSlice (dom server ∖ dom client))) with (acc := None : option gerror) (sh := id : gmap string string → _) (e := e)
    as (acc1 & sh1 & evs1 & E1 & Hev1).
  { intros k acc sh e' [Hs%elem_of_dom Hc]%ToSlice_elem%elem_of_difference.
    destruct Hs as [item Hs]. apply not_elem_of_dom in Hc.
    by apply (reconcileDeleted_run _ _ _ _ _ _ _ item); [..|eapply Hserver]. }
  destruct (phase (λ err k, match client !! k with
      | Some resource => reconcileCommon ctx server resource err k
      | None => panic "nil pointer dereference" end) (due server client)
    (ToSlice (dom server ∩ dom client))) with (acc := acc1) (sh := sh1) (e := e ++ evs1)
    as (acc2 & sh2 & evs2 & E2 & Hev2).
  { intros k acc sh e' [Hs%elem_of_dom Hc%elem_of_dom]%ToSlice_elem%elem_of_intersection.
    destruct Hs as [item Hs], Hc as [o Hc]. rewrite Hc.
    apply (reconcileCommon_run _ _ _ _ _ _ _ item); eauto. }
  destruct (phase (λ err k, match client !! k with
      | Some item => reconcileMissing ctx item err
      | None => panic "nil pointer dereference" end) (due server client)
    (ToSlice (dom client ∖ dom server))) with (acc := acc2) (sh := sh2) (e := (e ++ evs1) ++ evs2)
    as (acc3 & sh3 & evs3 & E3 & Hev3).
  { intros k acc sh e' [Hc%elem_of_dom Hs%not_elem_of_dom]%ToSlice_elem%elem_of_difference.
    destruct Hc as [o Hc]. rewrite Hc. apply reconcileMissing_run; eauto. }
  exists sh3, (evs1 ++ evs2 ++ evs3). split.
  - rewrite bind_run. cbn [getW mret]. go_compute. rewrite listClientItems_run.
    fold client. fold server. unfold panic in E2, E3. rewrite Hc0, E1, E2, E3. by rewrite !(assoc_L (++)).
  - intros ev. rewrite !elem_of_app, Hev1, Hev2, Hev3. setoid_rewrite ToSlice_elem. split.
    + intros [(k & _ & Hd)|[(k & _ & Hd)|(k & _ & Hd)]]; by exists k.
    + intros [k Hd]. inversion Hd; subst; [left|right; left|right; right];
        (exists k; split; [|done]); set_unfold; rewrite !elem_of_dom;
        repeat match goal with E : _ !! k = _ |- _ => rewrite E end; naive_solver.
Qed.
End Reconcile.

(** ** Properties *)

(** C9. Reconciliation announces exactly the differences: given the checksums of the
    server, the client deletes what it does not have, puts what it has in another version,
    asks to verify what the server lacks (unless filtered), and announces nothing else;
    this is as computed from the last checksum per name and from the objects the pager
    lists, all of which can be marshalled. *)
Theorem reconciliation_exact `{KubeLib, MergePatches, MultiErr, ClientLib}
    (EachListItem : Pager (list SyncEvent)) (c : Client (list SyncEvent)) objs bytes sum ctx items e :
  c_callbacks c = emitting →
  (∀ f s e, EachListItem (gmap string Obj) chooseLister f (s, (c, e)) = mfor f objs (s, (c, e))) →
  (∀ d, d ∈ objs → prepares c bytes sum d) →
  (∀ (s : gset string) k, k ∈ ToSlice s ↔ k ∈ s) →
  elems (bi_NewChecksum items) ≠ [] →
  (∀ item, item ∈ elems (bi_NewChecksum items) → nc_Kind item ≠ None) →
  ∃ sh evs,
    reconcileBatchProcessingFunc EachListItem ctx items (c, e)
      = (Ret tt, (with_Shadow sh c, e ++ evs)) ∧
    ∀ ev, ev ∈ evs ↔ ∃ k,
      due c bytes sum (serverItems (elems (bi_NewChecksum items))) (clientItems objs) k ev.
Proof. intros. by apply reconcile_events. Qed.

(** *** Errors *)
Definition never_throws {W A} (m : M W A) : Prop := ∀ w e w', m w ≠ (Throw e, w').
Lemma never_throws_ret {W A} (a : A) : never_throws (mret a : M W A).
Proof. done. Qed.
Lemma never_throws_panic {W A} s : never_throws (panic s : M W A).
Proof. done. Qed.
Lemma never_throws_attempt {W A} (m : M W A) : never_throws (attempt m).
Proof. intros w e w'. rewrite attempt_run. by destruct (m w) as [[]]. Qed.
Lemma never_throws_errval {W} (m : M W unit) : never_throws (errval m).
Proof. intros w e w'. rewrite errval_run. by destruct (m w) as [[]]. Qed.
Lemma never_throws_deref {W A} (p : option A) : never_throws (deref p : M W A).
Proof. by destruct p. Qed.
Lemma never_throws_bind {W A B} (m : M W A) (f : A → M W B) :
  never_throws m → (∀ a, never_throws (f a)) → never_throws (m ≫= f).
Proof.
  intros Hm Hf w e w'. rewrite bind_run. destruct (m w) as [[a|e0|s] w0] eqn:E; [|by edestruct Hm|done].
  apply Hf.
Qed.
Lemma never_throws_mfold {W S A} (f : S → A → M W S) l :
  (∀ s x, never_throws (f s x)) → ∀ s, never_throws (mfold f s l).
Proof.
  intros Hf. induction l as [|x l IH]; intros s; [done|]. by apply never_throws_bind.
Qed.
Create HintDb throws.
#[export] Hint Resolve never_throws_ret never_throws_panic never_throws_attempt
  never_throws_errval never_throws_deref : throws.
(** Splits a computation at its binds and its case distinctions. *)
Ltac no_throw :=
  repeat match goal with
  | |- never_throws (_ ≫= _) => apply never_throws_bind; [|intros ?]
  | |- never_throws (match ?x with _ => _ end) => destruct x
  | |- never_throws (let _ := _ in _) => cbv zeta
  end; auto with throws; try done.

Section NoErrors.
Context `{KubeLib, MergePatches, MultiErr, ClientLib} {E : Type}.
Lemma reconcileDeleted_never ctx server err k :
  never_throws (reconcileDeleted (E := E) ctx server err k).
Proof. unfold reconcileDeleted, c_get. no_throw. Qed.
Lemma reconcileCommon_never ctx server o err k :
  never_throws (reconcileCommon (E := E) ctx server o err k).
Proof. unfold reconcileCommon, c_get. no_throw. Qed.
Lemma reconcileMissing_never ctx o err :
  never_throws (reconcileMissing (E := E) ctx o err).
Proof. unfold reconcileMissing, c_get. no_throw. Qed.
End NoErrors.

(** Reconciliation reports no error of its rounds: once the resources of the cluster
    are listed, the batch succeeds (or panics) whatever marshalling and sending do. *)
Theorem reconciliation_hides_errors `{KubeLib, MergePatches, MultiErr, ClientLib} {E}
    (EachListItem : Pager E) ctx items x client x1 err :
  elems (bi_NewChecksum items) ≠ [] →
  listClientItems EachListItem x = (Ret client, x1) →
  (reconcileBatchProcessingFunc EachListItem ctx items x).1 ≠ Throw err.
Proof.
  intros Hne Hl. unfold reconcileBatchProcessingFunc, c_get.
  destruct (elems (bi_NewChecksum items)) as [|i0 l]; [done|].
  unfold panic. go_compute. rewrite Hl.
  destruct (mfold (reconcileDeleted _ _) _ _ x1) as [[e1|e1|s1] y1] eqn:E1; [| |done].
  - match goal with |- context [mfold ?f e1 ?l y1] =>
      destruct (mfold f e1 l y1) as [[e2|e2|s2] y2] eqn:E2; [| |done] end.
    + match goal with |- context [mfold ?f e2 ?l y2] =>
        destruct (mfold f e2 l y2) as [[e3|e3|s3] y3] eqn:E3; [done| |done] end.
      exfalso. revert E3. apply never_throws_mfold. intros ? k.
      destruct (client !! k); [apply reconcileMissing_never|done].
    + exfalso. revert E2. apply never_throws_mfold. intros ? k.
      destruct (client !! k); [apply reconcileCommon_never|done].
  - exfalso. revert E1. apply never_throws_mfold, reconcileDeleted_never.
Qed.

(** A filtered object is never announced: no event about it calls a callback or
    changes the client. *)
Theorem filtered_object_silent `{KubeLib, MergePatches, MultiErr, ClientLib} {E} ctx type d
    (c : Client E) e :
  isFiltered c (Some d) = true → onEvent ctx type (Some d) (c, e) = (Ret tt, (c, e)).
Proof. intros Hf. unfold onEvent, c_get. go_compute. by rewrite Hf. Qed.

(** Objects outside the included namespaces are filtered, objects of the operator's
    namespace never are, and an included object is filtered only for its parent. *)
Theorem isFiltered_namespaces `{KubeLib} {E} (c : Client E) (d : Obj) :
  let ns := GetNamespace (Meta d) in
  isFiltered c (Some d) =
    if bool_decide (ns = "") then hasParent (Some d)
    else if bool_decide (ns = c_operatorNamespace c) then false
    else if bool_decide (c_includeNamespaces c ≠ [])
         then bool_decide (ns ∉ c_includeNamespaces c) || hasParent (Some d)
         else bool_decide (ns ∈ c_excludeNamespaces c) || hasParent (Some d).
Proof.
  assert (∀ l s, contains l s = bool_decide (s ∈ l)) as Hc.
  { intros l s. unfold contains. induction l as [|x l IH]; [done|]. cbn. rewrite IH.
    destruct (String.eqb_spec s x) as [->|Hne]; cbn.
    - symmetry. apply bool_decide_eq_true. by left.
    - apply bool_decide_ext. rewrite elem_of_cons. naive_solver. }
  cbv zeta. unfold isFiltered, skipNamespace. rewrite !Hc.
  destruct (String.eqb_spec (GetNamespace (Meta d)) "") as [He|He];
    [by rewrite bool_decide_true|rewrite (bool_decide_false (_ = "")) by done].
  destruct (String.eqb_spec (GetNamespace (Meta d)) (c_operatorNamespace c)) as [Ho|Ho];
    [by rewrite bool_decide_true|rewrite (bool_decide_false (_ = c_operatorNamespace c)) by done].
  destruct (c_includeNamespaces c) as [|i inc]; cbn [length Nat.ltb Nat.leb].
  - rewrite (bool_decide_false ([] ≠ [])) by naive_solver.
    destruct (c_excludeNamespaces c) as [|x exc]; cbn [length Nat.ltb Nat.leb].
    + by rewrite bool_decide_false by (by intros ?%not_elem_of_nil).
    + by destruct (bool_decide _).
  - rewrite (bool_decide_true (i :: inc ≠ [])) by done.
    rewrite bool_decide_not. by destruct (bool_decide _).
Qed.

(** *** Patches *)
Lemma digits_then_tail_match ds rest :
  ds ≠ "" → Forall (λ c, is_digit c = true) (String.list_ascii_of_string ds) →
  digits_then_tail false (ds ++ emptyPatch_tail ++ rest)%string = true.
Proof.
  intros Hne Hd. destruct ds as [|c ds]; [done|]. cbn in Hd |- *.
  apply Forall_cons in Hd as [-> Hd]. cbn. clear Hne.
  induction ds as [|c' ds IH].
  - by destruct rest.
  - cbn in Hd |- *. apply Forall_cons in Hd as [-> Hd]. rewrite IH by done. by rewrite orb_true_r.
Qed.
Lemma emptyPatch_anywhere pre ds rest :
  ds ≠ "" → Forall (λ c, is_digit c = true) (String.list_ascii_of_string ds) →
  emptyPatch_Match (pre ++ emptyPatch_head ++ ds ++ emptyPatch_tail ++ rest)%string = true.
Proof.
  intros Hne Hd. induction pre as [|c pre IH].
  - cbn [String.append]. set (t := (ds ++ _)%string).
    assert (HasPrefix (emptyPatch_head ++ t) emptyPatch_head
      && digits_then_tail false (sdrop (String.length emptyPatch_head) (emptyPatch_head ++ t)) = true)%string
      as Hm by (rewrite HasPrefix_app, sdrop_app; by apply digits_then_tail_match).
    destruct (emptyPatch_head ++ t)%string as [|c s] eqn:E; [done|].
    cbn [emptyPatch_Match]. by rewrite Hm.
  - cbn [String.append emptyPatch_Match]. by rewrite IH, orb_true_r.
Qed.

(** The check for patches that only touch the resource version is not anchored: a
    patch is silently dropped, whatever else it changes, as soon as it contains such
    metadata anywhere (of a template, or in an embedded object). *)
Theorem patch_dropped_for_nested_metadata `{KubeLib, MergePatches, MultiErr, ClientLib} {E}
    ctx id checksum newObject old pre ds rest (c : Client E) e :
  c_Strategy c = PatchStrategy → ShadowObjects c !! KindName_String id = Some old →
  ds ≠ "" → Forall (λ a, is_digit a = true) (String.list_ascii_of_string ds) →
  CreateMergePatch old newObject = inl (pre ++ emptyPatch_head ++ ds ++ emptyPatch_tail ++ rest)%string →
  callPutOrPatch ctx id checksum "" newObject (c, e) = (Ret tt, (c, e)).
Proof.
  intros Hs Hsh Hne Hd Hp. unfold callPutOrPatch, c_get. go_compute. rewrite Hs, String.eqb_refl.
  cbn [String.eqb]. go_compute. rewrite Hsh, Hp. cbn [try]. go_compute.
  by rewrite emptyPatch_anywhere.
Qed.

(** Patches keep the server in step: when a server holds the shadow object of the
    client, the patch that the client announces for its new object makes the server
    (the reference adapter) hold an object with the checksum of the new one, and the
    client's shadow object becomes the new object. *)
Theorem patch_keeps_in_step `{KubeLib, MergePatches, MultiErr, ClientLib} {W} ERV ctx ctx' id
    checksum old new (c : Client (list SyncEvent)) e (m : MockAdapter W) w :
  c_callbacks c = emitting → c_Strategy c = PatchStrategy →
  ShadowObjects c !! KindName_String id = Some old →
  Resources m !! KindName_String id = Some old →
  (∃ p merged h, CreateMergePatch old new = inl p ∧ emptyPatch_Match p = false ∧
     MergePatch old p = inl merged ∧ CanonicalHash merged = inl h ∧ CanonicalHash new = inl h ∧
     refused ERV old merged = false) →
  ∃ ev m', callPutOrPatch ctx id checksum "" new (c, e)
      = (Ret tt, (with_Shadow <[KindName_String id := new]> c, e ++ [ev])) ∧
    deliver (go_mock ERV) ctx' ev (m, w) = (Ret tt, (m', w)) ∧
    ∃ o, Resources m' !! KindName_String id = Some o ∧ CanonicalHash o = CanonicalHash new.
Proof.
  intros Hcb Hs Hsh Hr (p & merged & h & Hp & Hne & Hm & Hh & Hhn & Href).
  exists (SyncPatch id h p), (with_shadowObjects <[KindName_String id := merged]>
    (with_Resources <[KindName_String id := merged]> m)). split_and!.
  - unfold callPutOrPatch, c_get. go_compute. rewrite Hs, String.eqb_refl. cbn [String.eqb]. go_compute.
    rewrite Hsh, Hp. cbn [try]. go_compute. rewrite Hne, Hm. cbn [try]. go_compute.
    rewrite Hh. cbn [try]. go_compute. by rewrite Hcb.
  - cbn [deliver go_mock ad_PatchObject]. rewrite wrapE_run.
    rewrite (patch_applies _ _ _ _ _ _ old merged h) by done. by rewrite Href, andb_false_r.
  - exists merged. split; [apply lookup_insert_eq|]. by rewrite Hh, Hhn.
Qed.

(** ** Witnesses *)
Definition sample_cluster_client (shadow : gmap string string) : @Client sample_kube (list SyncEvent) :=
  mkClient (@NoOpDynamicClient sample_kube _) None "acme" "prod" ["kube-system"] [] "kubescape"
    sample_kind emitting (mkGVR "apps" "v1" "deployments") shadow PatchStrategy.
Definition sample_object : @Obj sample_kube :=
  inl [("metadata", JObj [("name", JStr "a"); ("namespace", JStr "ns"); ("resourceVersion", JStr "5")])].
Definition sample_bytes (d : @Obj sample_kube) : string :=
  match @MarshalObj sample_kube d with inl s => s | inr _ => "" end.
Definition sample_pager (objs : list (@Obj sample_kube)) : @Pager sample_kube (list SyncEvent) :=
  λ S _ f, mfor f objs.
Definition sample_checksum (name : string) (rv : Z) : NewChecksum :=
  mkNewChecksum rv "c" 0 None (Some sample_kind) "" name "ns" None.
Definition sample_batch : BatchItems :=
  mkBatchItems None (Some [sample_checksum "a" 4; sample_checksum "b" 1]) None None None None.

Lemma reconciliation_exact_witness :
  ∃ sh evs,
    @reconcileBatchProcessingFunc sample_kube sample_patches sample_multierr sample_clientlib _
      (sample_pager [sample_object]) sample_ctx sample_batch (sample_cluster_client ∅, [])
      = (Ret tt, (with_Shadow sh (sample_cluster_client ∅), evs)) ∧
    SyncDelete (mkKindName (Some sample_kind) "b" "ns" 1) ∈ evs ∧
    SyncPut (mkKindName (Some sample_kind) "a" "ns" 4) (sample_bytes sample_object)
      (sample_bytes sample_object) ∈ evs.
Proof.
  destruct (@reconciliation_exact sample_kube sample_patches sample_multierr sample_clientlib
    (sample_pager [sample_object]) (sample_cluster_client ∅) [sample_object] sample_bytes
    sample_bytes sample_ctx sample_batch []) as (sh & evs & Hrun & Hev);
    [reflexivity|reflexivity| | |discriminate| |].
  - intros d Hd%list_elem_of_singleton f e. subst d. split; eexists; [|eexists]; by split.
  - intros s k. apply elem_of_elements.
  - intros item Hi. apply list_elem_of_In in Hi. by destruct Hi as [<-|[<-|[]]].
  - exists sh, evs. split; [exact Hrun|]. split; apply Hev.
    + exists "ns/b". refine (due_delete (sample_cluster_client ∅) _ _ _ _ _ (sample_checksum "b" 1) _ _);
        reflexivity.
    + exists "ns/a". refine (due_put (sample_cluster_client ∅) _ _ _ _ _ (sample_checksum "a" 4)
        sample_object _ _ _); [reflexivity|reflexivity|discriminate].
Defined.

Lemma reconciliation_hides_errors_witness :
  (@reconcileBatchProcessingFunc sample_kube sample_patches sample_multierr sample_clientlib _
      (sample_pager [sample_object]) sample_ctx sample_batch
      (with_callbacks (mkCallbacks (λ _ _, throw (Errorf "pool closed"))
         (λ _ _ _, throw (Errorf "pool closed")) (λ _ _ _ _, throw (Errorf "pool closed"))
         (λ _ _ _ _, throw (Errorf "pool closed")) (λ _ _ _, throw (Errorf "pool closed"))
         (λ _ _ _ _, throw (Errorf "pool closed"))) (sample_cluster_client ∅), [])).1
    ≠ Throw (Errorf "pool closed").
Proof.
  eapply (@reconciliation_hides_errors sample_kube sample_patches sample_multierr
    sample_clientlib); [discriminate|reflexivity].
Defined.

Definition sample_system_object : @Obj sample_kube :=
  inl [("metadata", JObj [("name", JStr "a"); ("namespace", JStr "kube-system")])].
Lemma filtered_object_silent_witness :
  @onEvent sample_kube sample_patches sample_clientlib _ sample_ctx Added
    (Some sample_system_object) (sample_cluster_client ∅, [])
  = (Ret tt, (sample_cluster_client ∅, [])).
Proof.
  by apply (@filtered_object_silent sample_kube sample_patches sample_multierr sample_clientlib).
Defined.

(** A deployment whose template is replaced together with its stamped metadata. *)
Lemma patch_dropped_for_nested_metadata_witness :
  let shadow := {[ KindName_String sample_id := "{}" ]} in
  @callPutOrPatch sample_kube sample_patches _ sample_ctx sample_id "c" ""
    ("{" ++ quoted "replicas" ++ ":3," ++ quoted "template" ++ ":" ++ emptyPatch_head ++ "17"
      ++ emptyPatch_tail ++ "}")%string
    (sample_cluster_client shadow, []) = (Ret tt, (sample_cluster_client shadow, [])).
Proof.
  intros shadow.
  apply (@patch_dropped_for_nested_metadata sample_kube sample_patches sample_multierr
    sample_clientlib _ sample_ctx sample_id "c" _ "{}"
    ("{" ++ quoted "replicas" ++ ":3," ++ quoted "template" ++ ":")%string "17" "}");
    [reflexivity|apply lookup_singleton_eq|discriminate|by repeat constructor|reflexivity].
Defined.

Lemma patch_keeps_in_step_witness :
  let m := @mkMockAdapter unit nil_Callbacks true false {[ KindName_String sample_id := "{}" ]} ∅ in
  ∃ ev m',
    @deliver unit _ (@go_mock unit sample_patches sample_multierr (λ _, None)) sample_ctx ev (m, tt)
      = (Ret tt, (m', tt)) ∧ is_Some (Resources m' !! KindName_String sample_id).
Proof.
  intros m.
  destruct (@patch_keeps_in_step sample_kube sample_patches sample_multierr sample_clientlib unit
    (λ _, None) sample_ctx sample_ctx sample_id "c" "{}" "[1]"
    (sample_cluster_client {[ KindName_String sample_id := "{}" ]}) [] m tt)
    as (ev & m' & _ & Hd & o & Ho & _);
    [reflexivity|reflexivity|apply lookup_singleton_eq|apply lookup_singleton_eq| |].
  - exists "[1]", "[1]", "[1]". by repeat split.
  - exists ev, m'. split; [exact Hd|by exists o].
Defined.
