(* ===== verification/Runs.v ===== *)
(** * Runs: sequences of events of a concurrent part.

    A part whose goroutines interleave is a partial function of an event and a state: [None]
    when the event cannot happen there.  A run is a sequence of events; what every event
    keeps holds in every state of every run. *)

From S2P Require Export Prelude.

Section Runs.
Context {S E : Type}.
Variable step : E → S → option S.

Fixpoint run (es : list E) (s : S) : option S :=
  match es with
  | [] => Some s
  | e :: es' => step e s ≫= run es'
  end.
Definition reachable (init s : S) : Prop := ∃ es, run es init = Some s.

Lemma run_cons e es s s1 : step e s = Some s1 → run (e :: es) s = run es s1.
Proof. intros He. cbn. by rewrite He. Qed.
Lemma run_app es es' s : run (es ++ es') s = run es s ≫= run es'.
Proof.
  revert s. induction es as [|e es IH]; intros s; [done|]. cbn. destruct (step e s); cbn; auto.
Qed.
(** What the events of a kind keep holds at the end of every run of such events. *)
Lemma run_invariant (kind : E → Prop) (I : S → Prop) es s s' :
  (∀ e s s', kind e → I s → step e s = Some s' → I s') →
  Forall kind es → I s → run es s = Some s' → I s'.
Proof.
  intros Hstep Hes. revert s. induction Hes as [|e es He Hes IH]; intros s Hs; cbn; [by intros [= <-]|].
  intros Hrun. apply bind_Some in Hrun as (s1 & Hs1 & Hrun). eauto.
Qed.
Lemma reachable_invariant (I : S → Prop) s s' :
  (∀ e s s', I s → step e s = Some s' → I s') → I s → reachable s s' → I s'.
Proof.
  intros Hstep Hs [es Hrun]. eapply (run_invariant (λ _, True) I); [|by apply Forall_true|exact Hs|exact Hrun].
  intros. by eapply Hstep.
Qed.

(** Some event is possible that counts. *)
Definition enabled (internal : E → Prop) (s : S) : Prop := ∃ e s', internal e ∧ step e s = Some s'.
(** Events that make a measure smaller cannot go on for ever. *)
Lemma run_bounded (internal : E → Prop) (I : S → Prop) (μ : S → nat) es s s' :
  (∀ e s s', internal e → I s → step e s = Some s' → I s') →
  (∀ e s s', I s → internal e → step e s = Some s' → (μ s' < μ s)%nat) →
  I s → Forall internal es → run es s = Some s' → (length es + μ s' ≤ μ s)%nat.
Proof.
  intros HI Hμ Hs Hes. revert s Hs. induction Hes as [|e es He Hes IH]; intros s Hs; cbn.
  - intros [= ->]. done.
  - intros Hrun. apply bind_Some in Hrun as (s1 & Hstep & Hrun).
    specialize (Hμ e s s1 Hs He Hstep). specialize (IH s1 (HI _ _ _ He Hs Hstep) Hrun). lia.
Qed.
(** The same for a measure in any order that is well founded. *)
Lemma no_endless_run {T} (R : T → T → Prop) (internal : E → Prop) (I : S → Prop) (μ : S → T) s :
  well_founded R →
  (∀ e s s', internal e → I s → step e s = Some s' → I s') →
  (∀ e s s', I s → internal e → step e s = Some s' → R (μ s') (μ s)) →
  I s → Acc (λ s' s, ∃ e, internal e ∧ step e s = Some s') s.
Proof.
  intros Hwf HI Hμ. remember (μ s) as t eqn:Ht. revert s Ht.
  induction (Hwf t) as [t _ IH]. intros s -> Hs. constructor. intros s' (e & He & Hstep).
  eapply IH; [by eapply Hμ|done|by eapply HI].
Qed.
(** And a run can always be continued until nothing more is possible. *)
Lemma run_until_finished (internal : E → Prop) (I Finished : S → Prop) s :
  (∀ e s s', internal e → I s → step e s = Some s' → I s') →
  Acc (λ s' s, ∃ e, internal e ∧ step e s = Some s') s →
  (∀ s, I s → Finished s ∨ enabled internal s) →
  I s → ∃ es s', Forall internal es ∧ run es s = Some s' ∧ Finished s'.
Proof.
  intros HI Hacc Hprog. induction Hacc as [s _ IH]. intros Hs.
  destruct (Hprog s Hs) as [Hf|(e & s1 & He & Hstep)].
  - exists [], s. by split_and!.
  - destruct (IH s1 (ex_intro _ e (conj He Hstep)) (HI _ _ _ He Hs Hstep)) as (es & s' & Hes & Hrun & Hf).
    exists (e :: es), s'. split_and!; [by constructor| |done]. cbn. by rewrite Hstep.
Qed.
Lemma run_to_the_end (internal : E → Prop) (I Finished : S → Prop) (μ : S → nat) s :
  (∀ e s s', internal e → I s → step e s = Some s' → I s') →
  (∀ e s s', I s → internal e → step e s = Some s' → (μ s' < μ s)%nat) →
  (∀ s, I s → Finished s ∨ enabled internal s) →
  I s → ∃ es s', Forall internal es ∧ run es s = Some s' ∧ Finished s'.
Proof.
  intros HI Hμ Hprog Hs. apply (run_until_finished internal I); [done| |done..].
  by apply (no_endless_run lt internal I μ s lt_wf).
Qed.
End Runs.
