(* ===== verification/Pools.v ===== *)
(** * Pools: the goroutines of one synchronizer, [core/synchronizer.go].

    A synchronizer has a pool of one worker for what goes out ([outPool]), one for what
    comes in ([inPool]) and the loop of [listenForSyncEvents] that reads the connection.
    The goroutines of its adapters and of [sendPing] give messages to [outPool], and so does
    the handler of an incoming message while it runs.  [side_step] is what one of them does
    next; every interleaving is a sequence of events.

    The pools are those of the library ants, of which [WorkerPool] has the operations and
    [WorkerPoolLaws] the documented behaviour: one function runs at a time, [Invoke] waits
    until the worker is free, a pool that was released refuses, and a panic of the function
    ends the function only. *)

From S2P Require Export Synchronizer Runs.

(** ** The pools *)
Class WorkerPool (P : Type) : Type := {
  NewPoolWithFunc : P;
  pool_Invoke : string → P → option (outcome unit * P);
  func_returns : P → P;
  Release : P → P;
  running : P → option string;
  IsClosed : P → bool
}.
Class WorkerPoolLaws (P : Type) `{!WorkerPool P} : Prop := {
  new_pool : running NewPoolWithFunc = None ∧ IsClosed NewPoolWithFunc = false;
  invoke_free data p : IsClosed p = false → running p = None →
    ∃ p', pool_Invoke data p = Some (Ret tt, p') ∧ running p' = Some data ∧ IsClosed p' = false;
  invoke_busy data p : IsClosed p = false → is_Some (running p) → pool_Invoke data p = None;
  invoke_closed data p : IsClosed p = true → ∃ e, pool_Invoke data p = Some (Throw e, p);
  returns_running p : running (func_returns p) = None;
  returns_closed p : IsClosed (func_returns p) = IsClosed p;
  release_running p : running (Release p) = running p;
  release_closed p : IsClosed (Release p) = true
}.

(** What an [Invoke] that did not wait did. *)
Lemma invoke_inv `{WorkerPoolLaws P} data p o p' :
  pool_Invoke data p = Some (o, p') →
  (IsClosed p = false ∧ running p = None ∧ o = Ret tt ∧ running p' = Some data ∧ IsClosed p' = false) ∨
  (IsClosed p = true ∧ (∃ e, o = Throw e) ∧ p' = p).
Proof.
  intros Hi. destruct (IsClosed p) eqn:Hc.
  - destruct (invoke_closed data p Hc) as (e & He). rewrite He in Hi. injection Hi as <- <-. eauto.
  - destruct (running p) as [d|] eqn:Hr.
    + rewrite (invoke_busy data p Hc) in Hi by by rewrite Hr. done.
    + destruct (invoke_free data p Hc Hr) as (q & Hq & Hrq & Hcq). rewrite Hq in Hi.
      injection Hi as <- <-. left. by split_and!.
Qed.

(** ** The goroutines *)

(** [handler data s]: what the worker of [inPool] makes of a message: its state afterwards
    and the messages that it gives to [outPool] meanwhile. *)
Abbreviation Handler S := (string → S → S * list string).

(** The worker of a synchronizer with these adapters, whose callbacks collect what they send.
    Whether the turn logs, fails or panics, the worker is free for the next message. *)
Definition in_handler {X} (adapters : list (Adapter (list string) (X * list string))) : Handler (Ctx * X) :=
  λ data s,
    match inWorker adapters data (s.1, (s.2, [])) with
    | (_, (ctx, (x, sent))) => ((ctx, x), sent)
    end.
(** Adapters over a world without the pool, which cannot send while they handle. *)
Definition silent_handler {W X} (adapters : list (Adapter W X)) : Handler (Ctx * X) :=
  λ data s, ((inWorker adapters data s).2, []).

(** The messages handled one after the other, with everything they sent. *)
Fixpoint handle_all {S} (handler : Handler S) (ds : list string) (s : S) : S * list string :=
  match ds with
  | [] => (s, [])
  | d :: ds' =>
      let r := handler d s in
      let r' := handle_all handler ds' r.1 in
      (r'.1, r.2 ++ r'.2)
  end.

(** One side of a connection.  [producers]: what the goroutines of the adapters and of
    [sendPing] have still to send, each in its order.  [replies]: what the handler that runs has
    still to send.  [held]: the message with which the reading loop waits for [inPool].  The
    last five record what happened: what was given to [outPool] and by whom (a goroutine, or
    the handler), what of it the pool took, and the messages written, read and handled. *)
Record Side (P S : Type) : Type := mkSide {
  producers : list (list string);
  outPool : P;
  inPool : P;
  replies : list string;
  held : option string;
  handler_state : S;
  offered : list (option nat * string);
  accepted_by_pool : list (option nat * string);
  written_messages : list string;
  read_messages : list string;
  handled_messages : list string
}.
Arguments mkSide {P S} _ _ _ _ _ _ _ _ _ _ _.
Arguments producers {P S} _.
Arguments outPool {P S} _.
Arguments inPool {P S} _.
Arguments replies {P S} _.
Arguments held {P S} _.
Arguments handler_state {P S} _.
Arguments offered {P S} _.
Arguments accepted_by_pool {P S} _.
Arguments written_messages {P S} _.
Arguments read_messages {P S} _.
Arguments handled_messages {P S} _.

Inductive SideEvent : Type :=
| Produces (g : nat)
| HandlerSends
| HandlerEnds
| WriteMessage
| ReadMessage
| GiveToInPool
| StopPools.

Section Side.
Context `{WorkerPool P} {S : Type}.
Variable handler : Handler S.
(** How many messages the connection holds in each direction. *)
Variable cap : nat.
Implicit Types s : Side P S.

Definition set_producers l s : Side P S :=
  mkSide l (outPool s) (inPool s) (replies s) (held s) (handler_state s) (offered s)
    (accepted_by_pool s) (written_messages s) (read_messages s) (handled_messages s).
Definition set_replies l s : Side P S :=
  mkSide (producers s) (outPool s) (inPool s) l (held s) (handler_state s) (offered s)
    (accepted_by_pool s) (written_messages s) (read_messages s) (handled_messages s).
Definition set_inPool p s : Side P S :=
  mkSide (producers s) (outPool s) p (replies s) (held s) (handler_state s) (offered s)
    (accepted_by_pool s) (written_messages s) (read_messages s) (handled_messages s).

(** [outPool.Invoke]; the error of a closed pool goes to the adapter and the message is lost. *)
Definition offer (who : option nat) (data : string) s : option (Side P S) :=
  match pool_Invoke data (outPool s) with
  | None => None
  | Some (r, p) =>
      Some (mkSide (producers s) p (inPool s) (replies s) (held s) (handler_state s)
              (offered s ++ [(who, data)])
              (match r with Ret _ => accepted_by_pool s ++ [(who, data)] | _ => accepted_by_pool s end)
              (written_messages s) (read_messages s) (handled_messages s))
  end.
(** [inPool.Invoke] in the reading loop; its error is retried by reading again. *)
Definition give_to_inPool s : option (Side P S) :=
  match held s with
  | None => None
  | Some data =>
      match pool_Invoke data (inPool s) with
      | None => None
      | Some (Ret _, p) =>
          let r := handler data (handler_state s) in
          Some (mkSide (producers s) (outPool s) p r.2 None r.1 (offered s) (accepted_by_pool s)
                  (written_messages s) (read_messages s) (handled_messages s ++ [data]))
      | Some (_, p) =>
          Some (mkSide (producers s) (outPool s) p (replies s) None (handler_state s) (offered s)
                  (accepted_by_pool s) (written_messages s) (read_messages s) (handled_messages s))
      end
  end.
(** The goroutines that do not touch the connection. *)
Definition inner_step (e : SideEvent) s : option (Side P S) :=
  match e with
  | Produces g =>
      match producers s !! g with
      | Some (data :: rest) => set_producers (<[g := rest]> (producers s)) <$> offer (Some g) data s
      | _ => None
      end
  | HandlerSends =>
      match running (inPool s), replies s with
      | Some _, data :: rest => set_replies rest <$> offer None data s
      | _, _ => None
      end
  | HandlerEnds =>
      match running (inPool s), replies s with
      | Some _, [] => Some (set_inPool (func_returns (inPool s)) s)
      | _, _ => None
      end
  | GiveToInPool => give_to_inPool s
  | StopPools =>
      Some (mkSide (producers s) (Release (outPool s)) (Release (inPool s)) (replies s) (held s)
              (handler_state s) (offered s) (accepted_by_pool s) (written_messages s) (read_messages s)
              (handled_messages s))
  | WriteMessage | ReadMessage => None
  end.
(** And those that do: the worker of [outPool] writes once there is room, the loop reads. *)
Definition side_step (e : SideEvent) s (out inn : list string) : option (Side P S * list string * list string) :=
  match e with
  | WriteMessage =>
      match running (outPool s) with
      | Some data =>
          if (length out <? cap)%nat then
            Some (mkSide (producers s) (func_returns (outPool s)) (inPool s) (replies s) (held s)
                    (handler_state s) (offered s) (accepted_by_pool s) (written_messages s ++ [data])
                    (read_messages s) (handled_messages s), out ++ [data], inn)
          else None
      | None => None
      end
  | ReadMessage =>
      match held s, inn with
      | None, data :: rest =>
          Some (mkSide (producers s) (outPool s) (inPool s) (replies s) (Some data) (handler_state s)
                  (offered s) (accepted_by_pool s) (written_messages s) (read_messages s ++ [data])
                  (handled_messages s), out, rest)
      | _, _ => None
      end
  | _ => (λ s', (s', out, inn)) <$> inner_step e s
  end.

Definition new_side (messages : list (list string)) (st : S) : Side P S :=
  mkSide messages NewPoolWithFunc NewPoolWithFunc [] None st [] [] [] [] [].
End Side.

(** ** What every event keeps *)

Definition option_list {A} (o : option A) : list A := match o with Some a => [a] | None => [] end.
(** What a goroutine, or the handler, offered or got into the pool, in its order. *)
Definition sent_by (who : option nat) (l : list (option nat * string)) : list string :=
  (filter (λ p, p.1 = who) l).*2.
#[global] Arguments sent_by : simpl never.

Lemma sent_by_app who l l' : sent_by who (l ++ l') = sent_by who l ++ sent_by who l'.
Proof. unfold sent_by. by rewrite filter_app, fmap_app. Qed.
Lemma sent_by_same who d : sent_by who [(who, d)] = [d].
Proof. unfold sent_by. by rewrite filter_cons_True. Qed.
Lemma sent_by_other who who' d : who' ≠ who → sent_by who [(who', d)] = [].
Proof. intros. unfold sent_by. by rewrite filter_cons_False. Qed.
Lemma handle_all_app {S} (handler : Handler S) ds ds' s :
  handle_all handler (ds ++ ds') s =
    let r := handle_all handler ds s in
    let r' := handle_all handler ds' r.1 in (r'.1, r.2 ++ r'.2).
Proof.
  revert s. induction ds as [|d ds IH]; intros s; cbn; [by destruct (handle_all _ ds' s)|].
  rewrite IH. cbn. by rewrite (assoc_L (++)).
Qed.
Lemma handle_all_snoc {S} (handler : Handler S) ds d s :
  handle_all handler (ds ++ [d]) s =
    ((handler d (handle_all handler ds s).1).1,
     (handle_all handler ds s).2 ++ (handler d (handle_all handler ds s).1).2).
Proof. rewrite handle_all_app. cbn. by rewrite app_nil_r. Qed.

(** What holds of a side that started with [messages] in the state [st]. *)
Record pools_ok {P S} `{WorkerPool P} (handler : Handler S) (messages : list (list string)) (st : S)
    (s : Side P S) : Prop := {
  ok_written : (accepted_by_pool s).*2 = written_messages s ++ option_list (running (outPool s));
  ok_accepted : accepted_by_pool s `sublist_of` offered s;
  ok_open : IsClosed (outPool s) = false → accepted_by_pool s = offered s;
  ok_producers : ∀ g, sent_by (Some g) (offered s) ++ default [] (producers s !! g) = default [] (messages !! g);
  ok_producers_length : length (producers s) = length messages;
  ok_replies : sent_by None (offered s) ++ replies s = (handle_all handler (handled_messages s) st).2;
  ok_state : handler_state s = (handle_all handler (handled_messages s) st).1;
  ok_idle : running (inPool s) = None → replies s = [];
  ok_read : handled_messages s ++ option_list (held s) `sublist_of` read_messages s;
  ok_read_open : IsClosed (inPool s) = false → handled_messages s ++ option_list (held s) = read_messages s
}.

Section SideLemmas.
Context `{WorkerPoolLaws P} {S : Type} (handler : Handler S) (cap : nat) (messages : list (list string)) (st : S).
Implicit Types s : Side P S.
Local Abbreviation ok := (pools_ok handler messages st).

Lemma new_side_ok : ok (new_side messages st).
Proof.
  destruct new_pool as [Hr Hc]. constructor; cbn; try rewrite Hr; try done; by intros; rewrite ?Hc.
Qed.

(** An offer changes the pool and what was offered to it, and nothing else. *)
Lemma offer_inv who data s s' :
  offer who data s = Some s' →
  offered s' = offered s ++ [(who, data)] ∧ producers s' = producers s ∧ inPool s' = inPool s ∧
  replies s' = replies s ∧ held s' = held s ∧ handler_state s' = handler_state s ∧
  written_messages s' = written_messages s ∧ read_messages s' = read_messages s ∧ handled_messages s' = handled_messages s ∧
  ((IsClosed (outPool s) = false ∧ running (outPool s) = None ∧ running (outPool s') = Some data ∧
    accepted_by_pool s' = accepted_by_pool s ++ [(who, data)]) ∨
   (IsClosed (outPool s) = true ∧ outPool s' = outPool s ∧ accepted_by_pool s' = accepted_by_pool s)).
Proof.
  unfold offer. destruct (pool_Invoke data (outPool s)) as [[r p]|] eqn:Hi; [|done]. intros [= <-]. cbn.
  apply invoke_inv in Hi as [(Hc & Hr & -> & Hr' & _)|(Hc & (e & ->) & ->)]; split_and!; auto.
Qed.

Lemma offer_ok who data s s' :
  offer who data s = Some s' → ok s →
  (accepted_by_pool s').*2 = written_messages s' ++ option_list (running (outPool s')) ∧
  accepted_by_pool s' `sublist_of` offered s' ∧
  (IsClosed (outPool s') = false → accepted_by_pool s' = offered s').
Proof.
  intros (Ho & _ & _ & _ & _ & _ & Hw & _ & _ & Hcase)%offer_inv [Hwr Hacc Hopen _ _ _ _ _ _ _].
  rewrite Ho, Hw. destruct Hcase as [(Hc & Hr & Hr' & Ha)|(Hc & Hp & Ha)].
  - rewrite Ha, Hr', fmap_app, Hwr, Hr. cbn. rewrite app_nil_r. split_and!; [done| |].
    + by apply sublist_app.
    + intros _. by rewrite Hopen.
  - rewrite Ha, Hp. split_and!; [done|by apply sublist_inserts_r|congruence].
Qed.

Lemma give_to_inPool_ok s s' : give_to_inPool handler s = Some s' → ok s → ok s'.
Proof.
  intros Hstep Hok.
  unfold give_to_inPool in Hstep. destruct (held s) as [d|] eqn:Hh; [|done].
  destruct (pool_Invoke d (inPool s)) as [[o p]|] eqn:Hi; [|done].
  destruct Hok as [Hw Ha Ho Hprod Hlen Hrep Hstate Hidle Hread Hropen].
  rewrite Hh in Hread, Hropen. cbn in Hread, Hropen.
  apply invoke_inv in Hi as [(Hc & Hr & -> & Hr' & Hc')|(Hc & (e & ->) & ->)]; injection Hstep as <-.
  - constructor; cbn; try done.
    + rewrite handle_all_snoc, <- Hrep, <- Hstate, (Hidle Hr), app_nil_r. done.
    + by rewrite handle_all_snoc, <- Hstate.
    + by rewrite Hr'.
    + by rewrite app_nil_r.
    + intros _. rewrite app_nil_r. by apply Hropen.
  - constructor; cbn; try done.
    + rewrite app_nil_r. etrans; [|exact Hread]. by apply sublist_inserts_r.
    + congruence.
Qed.

Lemma inner_step_ok e s s' : inner_step handler e s = Some s' → ok s → ok s'.
Proof.
  intros Hstep Hok. destruct e as [g| | | | | |]; cbn in Hstep.
  - destruct (producers s !! g) as [[|d rest]|] eqn:Hg; [done| |done].
    apply fmap_Some in Hstep as (s1 & Hof & ->).
    destruct (offer_ok _ _ _ _ Hof Hok) as (Hw & Ha & Ho).
    apply offer_inv in Hof as (Hoff & Hp & Hin & Hre & Hh & Hst & Hwr & Hrd & Hhd & _).
    destruct Hok as [_ _ _ Hprod Hlen Hrep Hstate Hidle Hread Hropen].
    constructor; cbn; rewrite ?Hin, ?Hre, ?Hh, ?Hst, ?Hrd, ?Hhd in *; try done.
    + intros g'. rewrite Hoff, sent_by_app. destruct (decide (g' = g)) as [->|Hne].
      * rewrite sent_by_same, list_lookup_insert_eq by by eapply lookup_lt_Some.
        rewrite <- Hprod, Hg. cbn. by rewrite <- (assoc_L (++)).
      * rewrite sent_by_other by congruence. rewrite list_lookup_insert_ne by done.
        by rewrite app_nil_r.
    + by rewrite length_insert.
    + rewrite Hoff, sent_by_app, sent_by_other by done. by rewrite app_nil_r.
  - destruct (running (inPool s)) as [w|] eqn:Hr; [|done]. destruct (replies s) as [|d rest] eqn:Hrp; [done|].
    apply fmap_Some in Hstep as (s1 & Hof & ->).
    destruct (offer_ok _ _ _ _ Hof Hok) as (Hw & Ha & Ho).
    apply offer_inv in Hof as (Hoff & Hp & Hin & Hre & Hh & Hst & Hwr & Hrd & Hhd & _).
    destruct Hok as [_ _ _ Hprod Hlen Hrep Hstate Hidle Hread Hropen].
    constructor; cbn; rewrite ?Hin, ?Hp, ?Hh, ?Hst, ?Hrd, ?Hhd in *; try done.
    + intros g'. rewrite Hoff, sent_by_app, sent_by_other by done. by rewrite app_nil_r.
    + rewrite Hoff, sent_by_app, sent_by_same, <- Hrep, Hrp. by rewrite <- (assoc_L (++)).
    + by rewrite Hr.
  - destruct (running (inPool s)) as [w|] eqn:Hr; [|done]. destruct (replies s) as [|d rest] eqn:Hrp; [|done].
    injection Hstep as <-. destruct Hok. constructor; cbn; try done.
    rewrite returns_closed. done.
  - done.
  - done.
  - by eapply give_to_inPool_ok.
  - injection Hstep as <-. destruct Hok. constructor; cbn; rewrite ?release_running, ?release_closed; done.
Qed.

(** The goroutines that do not touch the connection neither write nor read. *)
Lemma inner_step_wire e s s' :
  inner_step handler e s = Some s' → written_messages s' = written_messages s ∧ read_messages s' = read_messages s.
Proof.
  destruct e; cbn; try done.
  - destruct (producers s !! g) as [[|d rest]|]; try done.
    intros (side & (_ & _ & _ & _ & _ & _ & ? & ? & _)%offer_inv & ->)%fmap_Some. done.
  - destruct (running (inPool s)), (replies s); try done.
    intros (side & (_ & _ & _ & _ & _ & _ & ? & ? & _)%offer_inv & ->)%fmap_Some. done.
  - destruct (running (inPool s)), (replies s); try done. by intros [= <-].
  - unfold give_to_inPool. destruct (held s) as [d|]; [|done].
    destruct (pool_Invoke d (inPool s)) as [[[]]|]; try done; by intros [= <-].
  - by intros [= <-].
Qed.

(** One step keeps the invariant and moves messages over the connection in order. *)
Lemma side_step_ok e s out inn s' out' inn' :
  side_step handler cap e s out inn = Some (s', out', inn') → ok s →
  ok s' ∧ ∃ w r, written_messages s' = written_messages s ++ w ∧ out' = out ++ w ∧
                 read_messages s' = read_messages s ++ r ∧ inn = r ++ inn'.
Proof.
  intros Hstep Hok.
  assert ((λ s1, (s1, out, inn)) <$> inner_step handler e s = Some (s', out', inn') →
    ok s' ∧ ∃ w r, written_messages s' = written_messages s ++ w ∧ out' = out ++ w ∧
                 read_messages s' = read_messages s ++ r ∧ inn = r ++ inn') as Hplain.
  { intros (s1 & Hs1 & [= -> -> ->])%fmap_Some. split; [by eapply inner_step_ok|].
    destruct (inner_step_wire _ _ _ Hs1) as [-> ->]. exists [], []. by rewrite !app_nil_r. }
  destruct e; cbn [side_step] in Hstep; try (by apply Hplain); clear Hplain.
  - destruct (running (outPool s)) as [d|] eqn:Hr; [|done].
    destruct (length out <? cap)%nat; [|done]. injection Hstep as <- <- <-.
    destruct Hok as [Hw Ha Ho Hprod Hlen Hrep Hstate Hidle Hread Hropen]. split.
    + constructor; cbn; try done.
      * rewrite Hw, Hr, returns_running. cbn. by rewrite app_nil_r.
      * by rewrite returns_closed.
    + exists [d], []. cbn. by rewrite app_nil_r.
  - destruct (held s) as [|] eqn:Hh; [done|]. destruct inn as [|d rest]; [done|].
    injection Hstep as <- <- <-.
    destruct Hok as [Hw Ha Ho Hprod Hlen Hrep Hstate Hidle Hread Hropen]. rewrite Hh in Hread, Hropen.
    cbn in Hread, Hropen. rewrite app_nil_r in Hread, Hropen. split.
    + constructor; cbn; try done; [by apply sublist_app|]. intros Hc. by rewrite Hropen.
    + exists [], [d]. cbn. by rewrite !app_nil_r.
Qed.
End SideLemmas.
