(* ===== verification/Watch.v ===== *)
(** * Watch: how events of the cluster reach the client, [utils/cooldownqueue.go] and the
    watch loop of [adapters/incluster/v1/client.go].

    [watchRetry] reads the events of a watch, notes the version to resume from and puts them
    in a [CooldownQueue]; the queue keeps the last event of each object until its cooldown is
    over and then hands it to [Start], which calls [onEvent].  The cache of the queue and the
    API server are libraries: the cache keeps entries until it evicts them, at a moment of
    its own choice, and the server answers a watch with events until it closes the channel. *)

From S2P Require Import Synchronizer.
From S2P Require Export Reconcile Runs.

(** ** Events, [watch.Event] *)
(** [WStatus] is a [metav1.Status], which has a version but no metadata of an object;
    [WOther] stands for the objects that have neither, and for none. *)
Inductive WatchObject `{KubeLib} : Type :=
| WObject (o : Obj)
| WStatus (resourceVersion : string)
| WOther.
Inductive WatchType : Type := WAdded | WModified | WDeleted | WBookmark | WError.
Record WatchEvent `{KubeLib} : Type := mkWatchEvent { we_Type : WatchType; we_Object : WatchObject }.
Arguments mkWatchEvent {_} _ _.

(** What the event types of [watch] are to [onEvent]. *)
Definition onEvent_type (t : WatchType) : EventType :=
  match t with WAdded => Added | WModified => Modified | WDeleted => Deleted | _ => OtherEvent end.
(** [event.Object.(resourceVersionGetter)]. *)
Definition version_of `{KubeLib} (o : WatchObject) : option string :=
  match o with
  | WObject o => Some (GetResourceVersion (Meta o))
  | WStatus v => Some v
  | WOther => None
  end.
(** [schema.GroupVersionKind] of an object. *)
Class GVKLib `{KubeLib} : Type := { GroupVersionKind : Obj → string * string * string }.

(** ** The queue *)
Section Queue.
Context {kube : KubeLib} {gvk : GVKLib}.

(** [seen] is the content of [seenEvents]; [delivered] is what was sent on [innerChan]. *)
Record CooldownQueue : Type := mkCooldownQueue {
  closed : bool;
  seen : gmap string WatchEvent;
  delivered : list WatchEvent
}.
Definition NewCooldownQueue : CooldownQueue := mkCooldownQueue false ∅ [].

Definition event_key (o : Obj) : string :=
  let '(group, version, kind) := GroupVersionKind o in
  GoStd.Join [group; version; kind; GetNamespace (Meta o); GetName (Meta o)] "/".
Definition makeEventKey {W} (e : WatchEvent) : M W string :=
  match we_Object e with
  | WObject o => mret (event_key o)
  | _ => panic "interface conversion"
  end.
Definition Closed : M CooldownQueue bool := q ← getW; mret (closed q).
Definition Enqueue (e : WatchEvent) : M CooldownQueue unit :=
  q ← getW;
  if closed q then mret tt
  else key ← makeEventKey e; modifyW (λ q, mkCooldownQueue (closed q) (<[key := e]> (seen q)) (delivered q)).
Definition q_Stop : M CooldownQueue unit :=
  q ← getW;
  if closed q then panic "close of closed channel"
  else modifyW (λ q, mkCooldownQueue true (seen q) (delivered q)).
(** The callback of an eviction: a send on a closed channel is recovered from. *)
Definition on_eviction (value : WatchEvent) : M CooldownQueue unit :=
  q ← getW;
  if closed q then mret tt
  else modifyW (λ q, mkCooldownQueue (closed q) (seen q) (delivered q ++ [value])).
(** The cache evicts an entry whose cooldown is over. *)
Definition evict (key : string) : M CooldownQueue unit :=
  q ← getW;
  match seen q !! key with
  | None => mret tt
  | Some value =>
      modifyW (λ q, mkCooldownQueue (closed q) (delete key (seen q)) (delivered q)) ;;
      on_eviction value
  end.

Inductive QueueEvent : Type := QEnqueue (e : WatchEvent) | QEvict (key : string) | QStop.
Definition queue_op (e : QueueEvent) : M CooldownQueue unit :=
  match e with QEnqueue e => Enqueue e | QEvict key => evict key | QStop => q_Stop end.
(** A step that does not panic. *)
Definition queue_step (e : QueueEvent) (q : CooldownQueue) : option CooldownQueue :=
  match queue_op e q with (Ret tt, q') => Some q' | _ => None end.
Definition enqueued (es : list QueueEvent) : list WatchEvent :=
  omap (λ e, match e with QEnqueue e => Some e | _ => None end) es.

(** The events about the object with a key. *)
Definition has_key (key : string) (e : WatchEvent) : bool :=
  match we_Object e with WObject o => String.eqb (event_key o) key | _ => false end.
Definition about (key : string) : list WatchEvent → list WatchEvent := filter (λ e, has_key key e = true).
End Queue.
Arguments CooldownQueue {_}.

(** ** Coalescing *)
Section Coalescing.
Context {kube : KubeLib} {gvk : GVKLib}.

Lemma about_app key l l' : about key (l ++ l') = about key l ++ about key l'.
Proof. apply filter_app. Qed.
Lemma about_one key e : about key [e] = if has_key key e then [e] else [].
Proof. unfold about. rewrite filter_cons. by destruct (has_key key e). Qed.

(** What was enqueued about an object, against what the queue made of it. *)
Definition coalesced (l : list WatchEvent) (q : CooldownQueue) : Prop := ∀ key,
  match seen q !! key with
  | Some e => has_key key e = true ∧
      ∃ l', about key l = l' ++ [e] ∧ about key (delivered q) `sublist_of` l'
  | None => about key (delivered q) `sublist_of` about key l ∧
      last (about key (delivered q)) = last (about key l)
  end.

Lemma coalesced_enqueue l q e o :
  closed q = false → we_Object e = WObject o → coalesced l q →
  coalesced (l ++ [e]) (mkCooldownQueue (closed q) (<[event_key o := e]> (seen q)) (delivered q)).
Proof.
  intros Hq Ho Hc key. specialize (Hc key). cbn [seen delivered].
  assert (has_key key e = String.eqb (event_key o) key) as Hk by (unfold has_key; by rewrite Ho).
  rewrite about_app, about_one, Hk. destruct (String.eqb_spec (event_key o) key) as [->|Hne].
  - rewrite lookup_insert_eq. split; [done|]. exists (about key l). split; [done|].
    destruct (seen q !! key) as [e'|]; [|apply Hc].
    destruct Hc as (_ & l' & -> & Hsub). by apply sublist_inserts_r.
  - rewrite lookup_insert_ne by done. by rewrite (right_id_L [] (++)).
Qed.
Lemma coalesced_evict l q key e :
  closed q = false → seen q !! key = Some e → coalesced l q →
  coalesced l (mkCooldownQueue (closed q) (delete key (seen q)) (delivered q ++ [e])).
Proof.
  intros Hq He Hc key'. pose proof (Hc key) as Hkey. rewrite He in Hkey. destruct Hkey as (Hhas & l' & Hl & Hsub).
  specialize (Hc key'). cbn [seen delivered]. rewrite about_app, about_one.
  destruct (decide (key' = key)) as [->|Hne].
  - rewrite lookup_delete_eq, Hhas, Hl. split; [by apply sublist_app|]. by rewrite !last_snoc.
  - rewrite lookup_delete_ne by done.
    assert (has_key key' e = false) as ->; [|by rewrite (right_id_L [] (++))].
    unfold has_key in *. destruct (we_Object e); [|done..]. apply String.eqb_eq in Hhas as <-.
    by apply String.eqb_neq.
Qed.

Lemma queue_step_coalesced l q e q' :
  closed q = false → e ≠ QStop → coalesced l q → queue_step e q = Some q' →
  closed q' = false ∧ coalesced (l ++ enqueued [e]) q'.
Proof.
  intros Hq Hne Hc. unfold queue_step. destruct e as [e|key|]; [| |done]; cbn [queue_op enqueued omap list_omap].
  - unfold Enqueue, makeEventKey, getW, modifyW. go_run. rewrite Hq.
    destruct (we_Object e) as [o| |] eqn:Ho; go_run; try discriminate. intros [= <-].
    split; [done|]. by apply coalesced_enqueue.
  - rewrite (right_id_L [] (++)). unfold evict, on_eviction, getW, modifyW. go_run.
    destruct (seen q !! key) as [v|] eqn:Hv; go_run; [rewrite Hq; go_run|]; intros [= <-]; [|done].
    split; [done|]. cbn. rewrite <- Hq. by apply coalesced_evict.
Qed.

Lemma run_coalesced es l q q' :
  closed q = false → Forall (λ e, e ≠ QStop) es → coalesced l q → run queue_step es q = Some q' →
  closed q' = false ∧ coalesced (l ++ enqueued es) q'.
Proof.
  intros Hq Hes. revert l q Hq. induction Hes as [|e es He Hes IH]; intros l q Hq Hc.
  - intros [= <-]. change (enqueued []) with (@nil WatchEvent). by rewrite (right_id_L [] (++)).
  - cbn [run]. intros (q1 & Hstep & Hrun)%bind_Some.
    destruct (queue_step_coalesced l q e q1 Hq He Hc Hstep) as [Hq1 Hc1].
    destruct (IH _ _ Hq1 Hc1 Hrun) as [Hq' Hc']. split; [done|].
    assert (enqueued (e :: es) = enqueued [e] ++ enqueued es) as -> by (by destruct e).
    by rewrite (assoc_L (++)).
Qed.
(** Nothing happens to a queue that was stopped, not even a panic. *)
Lemma stopped_step e q : closed q = true → e ≠ QStop →
  ∃ q', queue_step e q = Some q' ∧ closed q' = true ∧ delivered q' = delivered q.
Proof.
  intros Hq He. unfold queue_step. destruct e as [e|key|]; [| |done]; cbn [queue_op].
  - unfold Enqueue, getW. go_run. rewrite Hq. by eexists.
  - unfold evict, on_eviction, getW, modifyW. go_run.
    destruct (seen q !! key); go_run; [rewrite Hq; go_run|]; by eexists.
Qed.
End Coalescing.

(** The cooldown queue only ever coalesces: whatever is enqueued and whenever entries
    are evicted, what is delivered about an object is a subsequence of what was enqueued
    about it, and once no event about it waits, the last one delivered is the last one
    enqueued.  A queue that was stopped takes and delivers nothing more, and no eviction
    that comes too late panics. *)
Theorem cooldown_queue {kube : KubeLib} {gvk : GVKLib} :
  (∀ es q key, Forall (λ e, e ≠ QStop) es → run queue_step es NewCooldownQueue = Some q →
     about key (delivered q) `sublist_of` about key (enqueued es) ∧
     (seen q !! key = None → last (about key (delivered q)) = last (about key (enqueued es)))) ∧
  (∀ es q, closed q = true → Forall (λ e, e ≠ QStop) es →
     ∃ q', run queue_step es q = Some q' ∧ delivered q' = delivered q).
Proof.
  split.
  - intros es q key Hes Hrun. destruct (run_coalesced es [] NewCooldownQueue q eq_refl Hes) as [_ Hc]; [|done|].
    { intros k. by cbn. }
    cbn in Hc. specialize (Hc key). destruct (seen q !! key) as [e|]; [|tauto].
    destruct Hc as (_ & l' & -> & Hsub). split; [by apply sublist_inserts_r|done].
  - intros es q Hq Hes. revert q Hq. induction Hes as [|e es He Hes IH]; intros q Hq; [by eexists|].
    destruct (stopped_step e q Hq He) as (q1 & Hstep & Hq1 & Hd). destruct (IH q1 Hq1) as (q' & Hrun & Hd').
    exists q'. rewrite (run_cons _ _ _ _ _ Hstep). split; [done|congruence].
Qed.

(** ** The watch *)
Section Watch.
Context {kube : KubeLib} {gvk : GVKLib} {E : Type}.
(** [k8sErrors.ReasonForError(err) == metav1.StatusReasonNotFound]. *)
Variable IsNotFound : gerror → bool.

(** The typed or dynamic client that [chooseWatcher] asks; the events that come before the
    channel of the watch is closed. *)
Record Watchers : Type := mkWatchers {
  dynamic_Watch : GroupVersionResource → string → M E (list WatchEvent);
  storage_Watch : option (string → string → M E (list WatchEvent))
}.
Variable watchers : Watchers.
Definition storage_resources : list string :=
  ["applicationprofiles"; "networkneighborhoods"; "sbomsyfts"; "seccompprofiles"; "vulnerabilitymanifests"].
Definition chooseWatcher (res : GroupVersionResource) (resourceVersion : string) : M E (list WatchEvent) :=
  match storage_Watch watchers with
  | Some storage =>
      if String.eqb (gvr_Group res) kubescapeCustomResourceGroup
         && bool_decide (gvr_Resource res ∈ storage_resources)
      then storage (gvr_Resource res) resourceVersion
      else dynamic_Watch watchers res resourceVersion
  | None => dynamic_Watch watchers res resourceVersion
  end.

(** What [watchRetry] owns: [watchOpts.ResourceVersion], [exitFatal], and the queue with the
    events that were enqueued. *)
Record WatchState : Type := mkWatchState {
  w_version : string;
  exitFatal : bool;
  w_queue : CooldownQueue;
  w_enqueued : list WatchEvent
}.
Local Abbreviation Y := (WatchState * E)%type.
Definition set_version (v : string) : M Y unit :=
  modifyW (λ '(s, e), (mkWatchState v (exitFatal s) (w_queue s) (w_enqueued s), e)).
Definition not_fatal : M Y unit :=
  modifyW (λ '(s, e), (mkWatchState (w_version s) false (w_queue s) (w_enqueued s), e)).
Definition queue_closed : M Y bool := s ← getW; mret (closed (w_queue s.1)).
Definition w_Enqueue (event : WatchEvent) : M Y unit := λ '(s, e),
  match Enqueue event (w_queue s) with
  | (Ret _, q) => (Ret tt, (mkWatchState (w_version s) (exitFatal s) q (w_enqueued s ++ [event]), e))
  | (Throw err, q) => (Throw err, (mkWatchState (w_version s) (exitFatal s) q (w_enqueued s), e))
  | (Panic m, q) => (Panic m, (mkWatchState (w_version s) (exitFatal s) q (w_enqueued s), e))
  end.

Definition errWatchClosed : gerror := Errorf "watch channel closed".
(** The loop over the channel of a watch; [[]] is the closed channel. *)
Fixpoint watch_channel (events : list WatchEvent) : M Y unit :=
  match events with
  | [] =>
      stopped ← queue_closed;
      if (stopped : bool) then throw (Permanent (Errorf "event queue closed")) else throw errWatchClosed
  | event :: rest =>
      match version_of (we_Object event) with Some v => set_version v | None => mret tt end ;;
      stopped ← queue_closed;
      if (stopped : bool) then throw (Permanent (Errorf "event queue closed"))
      else match we_Type event with
      | WError => throw (Errorf "watch error")
      | _ => w_Enqueue event ;; watch_channel rest
      end
  end.
(** One attempt of [watchRetry]. *)
Definition watch_attempt (res : GroupVersionResource) : M Y unit :=
  s ← (getW : M Y Y);
  r ← attempt (liftR (chooseWatcher res (w_version s.1)));
  match r with
  | inr err =>
      if IsNotFound err then not_fatal ;; throw (Permanent err) else throw (Wrapf "client resource" err)
  | inl events => watch_channel events
  end.
(** [watchRetry] makes attempts until one fails for good; then the process exits, unless the
    kind does not exist.  [n] attempts may not be enough to see the end. *)
Inductive WatchEnd : Type := StillWatching | WatchGivenUp | ProcessExits | WatchPanics.
Fixpoint watchRetry (n : nat) (res : GroupVersionResource) (y : Y) : WatchEnd * Y :=
  match n with
  | O => (StillWatching, y)
  | S n' =>
      match watch_attempt res y with
      | (Ret _, y') => (WatchGivenUp, y')
      | (Panic _, y') => (WatchPanics, y')
      | (Throw err, y') =>
          match as_permanent err with
          | Some _ => (if exitFatal y'.1 then ProcessExits else WatchGivenUp, y')
          | None => watchRetry n' res y'
          end
      end
  end.

(** ** Resuming *)
(** The events of the cluster, in order, each with a version, and the version they follow. *)
Variable log : list WatchEvent.
Variable v0 : string.
Definition log_event (e : WatchEvent) : Prop :=
  we_Type e ≠ WError ∧ ∃ o, we_Object e = WObject o.
Definition version_at (i : nat) : option string :=
  match i with
  | O => Some v0
  | S j => e ← log !! j; version_of (we_Object e)
  end.
(** The watch is at place [i] of the log: what came before is in the queue. *)
Definition at_place (i : nat) (y : Y) : Prop :=
  (i ≤ length log)%nat ∧ version_at i = Some (w_version y.1) ∧ w_enqueued y.1 = take i log ∧
  closed (w_queue y.1) = false ∧ exitFatal y.1 = true.

Lemma watch_event_run e rest y i o :
  log !! i = Some e → we_Type e ≠ WError → we_Object e = WObject o → at_place i y →
  ∃ y', watch_channel (e :: rest) y = watch_channel rest y' ∧ at_place (S i) y' ∧ y'.2 = y.2.
Proof using log v0.
  intros Hi Ht Ho (Hlen & Hv & Henq & Hcl & Hf). destruct y as [s x]. cbn [fst] in *.
  eexists. split.
  - cbn [watch_channel]. rewrite Ho. cbn [version_of]. unfold set_version, modifyW, queue_closed, getW. go_run.
    cbn [fst w_queue]. rewrite Hcl.
    assert (match we_Type e with
            | WError => throw (Errorf "watch error")
            | _ => _ ← w_Enqueue e; watch_channel rest
            end = (_ ← w_Enqueue e; watch_channel rest : M Y unit)) as -> by (by destruct (we_Type e)).
    rewrite bind_run. unfold w_Enqueue, Enqueue, makeEventKey, getW, modifyW. cbn [w_queue]. go_run.
    rewrite Hcl, Ho. go_run. reflexivity.
  - split; [|done]. split_and!; cbn; try done.
    + by apply lookup_lt_Some in Hi.
    + rewrite Hi. cbn. by rewrite Ho.
    + by rewrite Henq, (take_S_r _ _ _ Hi).
Qed.

Lemma watch_channel_run evs y i :
  Forall log_event log → evs `prefix_of` drop i log → at_place i y →
  ∃ y', watch_channel evs y = (Throw errWatchClosed, y') ∧ at_place (i + length evs) y' ∧ y'.2 = y.2.
Proof using log v0.
  intros Hlog. revert i y. induction evs as [|e evs IH]; intros i y Hpre Hat.
  - exists y. rewrite Nat.add_0_r. split; [|done]. cbn [watch_channel]. unfold queue_closed, getW. go_run.
    destruct Hat as (_ & _ & _ & -> & _). done.
  - destruct Hpre as [k Hk].
    assert (log !! i = Some e) as Hi.
    { assert (drop i log !! 0%nat = Some e) as H0 by by rewrite Hk.
      by rewrite lookup_drop, Nat.add_0_r in H0. }
    destruct (proj1 (Forall_forall _ _) Hlog e) as (Ht & o & Ho); [by eapply list_elem_of_lookup_2|].
    destruct (watch_event_run e evs y i o Hi Ht Ho Hat) as (y1 & Hrun & Hat1 & Hy1).
    destruct (IH (S i) y1) as (y' & Hrun' & Hat' & Hy').
    + exists k. rewrite (drop_S _ _ _ Hi) in Hk. by injection Hk.
    + exact Hat1.
    + exists y'. rewrite Hrun, Hrun'. cbn [length]. rewrite Nat.add_succ_r. split_and!; [done..|congruence].
Qed.
End Watch.
Arguments mkWatchers {_ _} _ _.

Section Resume.
Context {kube : KubeLib} {gvk : GVKLib} {E : Type}.
Variable IsNotFound : gerror → bool.
Variable watchers : Watchers (E := E).
Variable res : GroupVersionResource.
Variable log : list WatchEvent.
Variable v0 : string.

(** What is relied on of the API server: a watch from the version of a place of the log
    gives the events that follow, until its channel closes; a refusal is transient. *)
Definition honest_server : Prop := ∀ v e, match chooseWatcher watchers res v e with
  | (Ret evs, _) => ∀ i, (i ≤ length log)%nat → version_at log v0 i = Some v → evs `prefix_of` drop i log
  | (Throw err, _) => IsNotFound err = false ∧ as_permanent err = None
  | (Panic _, _) => False
  end.
(** A server that is never down and has an event ready when there is one. *)
Definition prompt_server : Prop := ∀ v e i, (i < length log)%nat → version_at log v0 i = Some v →
  ∃ evs e', chooseWatcher watchers res v e = (Ret evs, e') ∧ evs ≠ [].

Lemma watch_attempt_run y i :
  honest_server → Forall log_event log → at_place log v0 i y →
  ∃ err y' j, watch_attempt IsNotFound watchers res y = (Throw err, y') ∧ as_permanent err = None ∧
    (i ≤ j)%nat ∧ at_place log v0 j y' ∧ (prompt_server → (i < length log)%nat → (i < j)%nat).
Proof using Type.
  intros Hserver Hlog Hat. unfold watch_attempt, getW. go_run. unfold liftR.
  destruct y as [s x]. pose proof (Hserver (w_version s) x) as Hs. cbn [fst].
  destruct (chooseWatcher watchers res (w_version s) x) as [[evs|err|m] x'] eqn:Hrun; [| |done].
  - pose proof Hat as (Hlen & Hv & _). specialize (Hs i Hlen Hv).
    assert (at_place log v0 i (s, x')) as Hat' by exact Hat.
    destruct (watch_channel_run log v0 evs (s, x') i Hlog Hs Hat') as (y' & Hch & Hj & _).
    exists errWatchClosed, y', (i + length evs)%nat. split_and!; [exact Hch|done|lia|done|].
    intros Hprompt Hi. destruct (Hprompt (w_version s) x i Hi Hv) as (evs' & e' & Hrun' & Hne).
    rewrite Hrun in Hrun'. injection Hrun' as <- _. destruct evs; [done|cbn; lia].
  - destruct Hs as [Hnf Hperm]. rewrite Hnf. exists (Wrapf "client resource" err), (s, x'), i.
    split_and!; [done|done|lia|exact Hat|].
    intros Hprompt Hi. destruct Hat as (Hlen & Hv & _).
    destruct (Hprompt (w_version s) x i Hi Hv) as (evs' & e' & Hrun' & _). congruence.
Qed.

Lemma watchRetry_run n y i :
  honest_server → Forall log_event log → at_place log v0 i y →
  ∃ y' j, watchRetry IsNotFound watchers n res y = (StillWatching, y') ∧ at_place log v0 j y' ∧
    (prompt_server → (min (i + n) (length log) ≤ j)%nat).
Proof using Type.
  intros Hserver Hlog. revert y i. induction n as [|n IH]; intros y i Hat.
  - exists y, i. split_and!; [done|done|lia].
  - destruct (watch_attempt_run y i Hserver Hlog Hat) as (err & y1 & j & Hrun & Hperm & Hij & Hj & Hprog).
    destruct (IH y1 j Hj) as (y' & k & Hrun' & Hk & Hprog'). exists y', k. cbn [watchRetry].
    rewrite Hrun, Hperm. split_and!; [done|done|]. intros Hp. specialize (Hprog Hp). specialize (Hprog' Hp). lia.
Qed.
End Resume.

(** An error event comes with a status, and the version of the status, which is normally
    empty, becomes the one to resume from. *)
Lemma error_event_version {kube : KubeLib} {gvk : GVKLib} {E : Type} log v0 evs v (y : WatchState * E) i :
  Forall log_event log → evs `prefix_of` drop i log → at_place log v0 i y →
  ∃ y', watch_channel (evs ++ [mkWatchEvent WError (WStatus v)]) y = (Throw (Errorf "watch error"), y') ∧
    w_version y'.1 = v ∧ w_enqueued y'.1 = take (i + length evs) log.
Proof.
  intros Hlog. revert i y. induction evs as [|e evs IH]; intros i y Hpre Hat.
  - destruct y as [s x]. destruct Hat as (_ & _ & Henq & Hcl & _). cbn [app watch_channel we_Object version_of].
    unfold set_version, modifyW, queue_closed, getW. go_run. cbn [fst w_queue] in *. rewrite Hcl.
    eexists. split; [done|]. split; [done|]. cbn in *. by rewrite Nat.add_0_r.
  - destruct Hpre as [k Hk].
    assert (log !! i = Some e) as Hi.
    { assert (drop i log !! 0%nat = Some e) as H0 by by rewrite Hk.
      by rewrite lookup_drop, Nat.add_0_r in H0. }
    destruct (proj1 (Forall_forall _ _) Hlog e) as (Ht & o & Ho); [by eapply list_elem_of_lookup_2|].
    destruct (watch_event_run log v0 e (evs ++ [mkWatchEvent WError (WStatus v)]) y i o Hi Ht Ho Hat)
      as (y1 & Hrun & Hat1 & _).
    destruct (IH (S i) y1) as (y' & Hrun' & Hv & Hq); [|exact Hat1|
      exists y'; rewrite <- app_comm_cons, Hrun, Hrun'; split_and!; [done..|]; rewrite Hq; cbn [length]; f_equal; lia].
    exists k. rewrite (drop_S _ _ _ Hi) in Hk. by injection Hk.
Qed.

(** C16. The watch of a kind never loses an event and never takes one twice: however often the
    server closes the channel, refuses the watch or ends it early, without an error event, the
    events in the queue are a prefix of those of the cluster, in order, and the next watch
    resumes exactly after them; and with a server that answers, they all come.  Only an error
    event breaks this: what came before it is taken, but the next watch then resumes from the
    version of its status, which is normally empty. *)
Theorem watch_resumes {kube : KubeLib} {gvk : GVKLib} {E : Type} IsNotFound (watchers : Watchers (E := E))
    res log v0 n y (Hserver : honest_server IsNotFound watchers res log v0) (Hlog : Forall log_event log)
    (Hstart : at_place log v0 0 y) :
  ∃ y' j, watchRetry IsNotFound watchers n res y = (StillWatching, y') ∧
    w_enqueued y'.1 = take j log ∧ version_at log v0 j = Some (w_version y'.1) ∧
    (prompt_server watchers res log v0 → (length log ≤ n)%nat → w_enqueued y'.1 = log) ∧
    ∀ evs v, evs `prefix_of` drop j log →
      ∃ y'', watch_channel (evs ++ [mkWatchEvent WError (WStatus v)]) y' = (Throw (Errorf "watch error"), y'') ∧
        w_enqueued y''.1 = take (j + length evs) log ∧ w_version y''.1 = v.
Proof.
  destruct (watchRetry_run IsNotFound watchers res log v0 n y 0 Hserver Hlog Hstart) as (y' & j & Hrun & Hj & Hp).
  pose proof Hj as (Hlen & Hv & Henq & _). exists y', j. split_and!; [done..| |].
  - intros Hprompt Hn. rewrite Henq. apply take_ge. specialize (Hp Hprompt). lia.
  - intros evs v Hpre. destruct (error_event_version log v0 evs v y' j Hlog Hpre Hj) as (y'' & ? & ? & ?). by exists y''.
Qed.

(** ** [Start]: the events of the queue, one after the other *)
Section Start.
Context `{KubeLib, MergePatches, MultiErr, ClientLib} {E : Type}.
Local Abbreviation X := (Client E * E)%type.
Variable EachListItem : Pager E.
(** [backoff.RetryNotify] around a call that gives a version. *)
Variable Retry : M X string → M X string.

Definition process_event (ctx : Ctx) (event : WatchEvent) : M X unit :=
  match we_Object event with
  | WObject d => onEvent ctx (onEvent_type (we_Type event)) (Some d)
  | _ => mret tt
  end.
(** [watch] is [watchRetry] with its queue: the events that come out of it. *)
Definition c_Start (ctx : Ctx) (watch : string → list WatchEvent) : M X unit :=
  c ← c_get;
  version ← (if String.eqb (gvr_Group (c_res c)) kubescapeCustomResourceGroup
             then wrapE "giving up get existing storage objects" (Retry (getExistingStorageObjects EachListItem ctx))
             else mret "");
  mfor (process_event ctx) (watch version).
End Start.

(** Handling an event never ends the loop. *)
Section StartFacts.
Context `{KubeLib, MergePatches, MultiErr, ClientLib} {E : Type}.

Lemma never_throws_modifyW {W} (f : W → W) : never_throws (modifyW f).
Proof. intros w e w' Hrun. discriminate. Qed.
Lemma onEvent_never ctx t o : never_throws (onEvent (E := E) ctx t o).
Proof.
  unfold onEvent. apply never_throws_bind; [intros w e w' Hrun; discriminate|]. intros c.
  destruct o as [d|]; [|apply never_throws_ret]. destruct (isFiltered c (Some d)); [apply never_throws_ret|].
  destruct t; [| | |apply never_throws_ret]; apply never_throws_bind; try apply never_throws_attempt.
  - intros [sum|e]; [|apply never_throws_ret]. apply never_throws_bind; [apply never_throws_attempt|].
    intros _. apply never_throws_ret.
  - intros [[new d']|e]; [|apply never_throws_ret]. apply never_throws_bind; [apply never_throws_attempt|].
    intros sum. apply never_throws_bind; [apply never_throws_attempt|]. intros _. apply never_throws_ret.
  - intros _. destruct (String.eqb _ _); [apply never_throws_modifyW|apply never_throws_ret].
Qed.
Lemma never_throws_mfor {W A} (f : A → M W unit) l : (∀ a, never_throws (f a)) → never_throws (mfor f l).
Proof.
  intros Hf. induction l as [|a l IH]; [apply never_throws_ret|]. cbn. by apply never_throws_bind.
Qed.
Lemma process_event_never ctx event : never_throws (process_event (E := E) ctx event).
Proof. unfold process_event. destruct (we_Object event); [apply onEvent_never|apply never_throws_ret..]. Qed.
End StartFacts.

(** Once the existing objects of a kind were listed, nothing stops its event loop: no
    error of a callback, of the cluster or of an object ends it, so every event of the queue
    is processed; only a failure of the initial listing, which is retried, is an error. *)
Theorem event_loop_survives `{KubeLib, MergePatches, MultiErr, ClientLib} {E : Type} EachListItem Retry ctx
    watch (x : Client E * E) :
  match c_Start EachListItem Retry ctx watch x with
  | (Throw err, x') => ∃ e, Retry (getExistingStorageObjects EachListItem ctx) x = (Throw e, x') ∧
      err = Wrapf "giving up get existing storage objects" e
  | (Ret _, x') => ∃ version x1, mfor (process_event ctx) (watch version) x1 = (Ret tt, x')
  | (Panic _, _) => True
  end.
Proof.
  unfold c_Start, c_get, getW. go_run.
  assert (∀ v (x1 : Client E * E), match mfor (process_event ctx) (watch v) x1 with
    | (Ret _, x') => ∃ version x1, mfor (process_event ctx) (watch version) x1 = (Ret tt, x')
    | (Throw _, _) => False | (Panic _, _) => True end) as Hloop.
  { intros v x1. assert (never_throws (mfor (process_event (E := E) ctx) (watch v))) as Hnever.
    { apply never_throws_mfor. apply process_event_never. }
    destruct (mfor _ _ x1) as [[[]|err|s] x'] eqn:Hrun; [by exists v, x1|by apply Hnever in Hrun|done]. }
  destruct (String.eqb _ _).
  - rewrite wrapE_run. destruct (Retry _ x) as [[v|err|s] x1] eqn:Hr; [|by eexists|done].
    specialize (Hloop v x1). by destruct (mfor _ _ x1) as [[]].
  - go_run. specialize (Hloop "" x). by destruct (mfor _ _ x) as [[]].
Qed.

(** The goroutine that the adapter starts for a client: [Start] is called again until it
    succeeds or fails for good, and then the process exits.  [n] calls may not be enough. *)
Inductive ClientEnd : Type := ClientRuns | ClientReturns | GivesUpClient | ClientPanics.
Definition run_client `{KubeLib, MergePatches, MultiErr, ClientLib} {E : Type} EachListItem Retry (n : nat) ctx watch
    (x : Client E * E) : ClientEnd :=
  match attempts n (c_Start EachListItem Retry ctx watch) x with
  | None => ClientRuns
  | Some (Ret _, _) => ClientReturns
  | Some (Throw _, _) => GivesUpClient
  | Some (Panic _, _) => ClientPanics
  end.
(** A client is never given up: [Start] fails only when the initial listing does, and the
    listing gives no permanent error. *)
Theorem client_never_given_up `{KubeLib, MergePatches, MultiErr, ClientLib} {E : Type} EachListItem Retry n ctx
    watch (x : Client E * E) :
  (∀ x e x', Retry (getExistingStorageObjects EachListItem ctx) x = (Throw e, x') → as_permanent e = None) →
  run_client EachListItem Retry n ctx watch x ≠ GivesUpClient.
Proof.
  intros Hretry. unfold run_client. revert x. induction n as [|n IH]; intros x; [done|]. cbn [attempts].
  pose proof (event_loop_survives EachListItem Retry ctx watch x) as Hfails.
  destruct (c_Start EachListItem Retry ctx watch x) as [[a|err|why] x']; [done| |done].
  destruct Hfails as (e & He & ->). cbn [as_permanent]. rewrite (Hretry _ _ _ He). apply IH.
Qed.
Lemma client_never_given_up_witness :
  let listing : M (@Client sample_kube nat * nat) string := throw (Errorf "no list") in
  @run_client sample_kube sample_patches sample_multierr sample_clientlib nat (λ S _ _, throw (Errorf "no list"))
    (λ _, listing) 3 sample_ctx (λ _, [])
    (mkClient (@NoOpDynamicClient sample_kube _) None "acme" "prod" [] [] "kubescape" sample_kind nil_Callbacks
       (mkGVR kubescapeCustomResourceGroup "v1beta1" "sbomsyfts") ∅ "copy", 0%nat) ≠ GivesUpClient.
Proof.
  intros listing. apply (@client_never_given_up sample_kube sample_patches sample_multierr sample_clientlib).
  intros x e x' Hrun. by injection Hrun as <- _.
Defined.

(** ** The watch of a resource that does not exist, [no_op_dynamic_client.go]

    Its channel never carries an event; [Stop] closes it, once. *)
Record NoOpWatch : Type := mkNoOpWatch { eventChan_closed : bool }.
Definition NoOp_Watch {E} : M E NoOpWatch := mret (mkNoOpWatch false).
Definition NoOpWatch_Stop : M NoOpWatch unit :=
  w ← getW;
  if eventChan_closed w then panic "close of closed channel" else modifyW (λ _, mkNoOpWatch true).
(** A receive from [ResultChan]: blocked, or the channel is closed. *)
Definition NoOpWatch_receive `{KubeLib} (w : NoOpWatch) : option (option WatchEvent) :=
  if eventChan_closed w then Some None else None.
(** So a loop over it waits until the watch is stopped and then sees the end; stopping it again
    panics. *)
Lemma NoOpWatch_life `{KubeLib} {E} (e : E) :
  ∃ w, NoOp_Watch e = (Ret w, e) ∧ NoOpWatch_receive w = None ∧
  ∃ w', NoOpWatch_Stop w = (Ret tt, w') ∧ NoOpWatch_receive w' = Some None ∧
    NoOpWatch_Stop w' = (Panic "close of closed channel", w').
Proof. exists (mkNoOpWatch false). split_and!; [done|done|]. by exists (mkNoOpWatch true). Qed.

(** A server that refuses every other watch, and ends each after one event. *)
Definition sample_watched (name version : string) : @WatchEvent sample_kube :=
  @mkWatchEvent sample_kube WModified
    (@WObject sample_kube (inl [("metadata", JObj [("name", JStr name); ("resourceVersion", JStr version)])])).
Definition sample_log : list (@WatchEvent sample_kube) :=
  [sample_watched "a" "1"; sample_watched "b" "2"; sample_watched "a" "3"].
Definition sample_gvk : @GVKLib sample_kube :=
  {| GroupVersionKind _ := ("", "v1", "Pod") |}.
Definition sample_watch (v : string) : M nat (list (@WatchEvent sample_kube)) := λ e,
  if Nat.even e then (Throw (Errorf "refused"), S e)
  else (Ret (if String.eqb v "" then take 1 sample_log
             else if String.eqb v "1" then take 1 (drop 1 sample_log)
             else if String.eqb v "2" then take 1 (drop 2 sample_log) else []), S e).
Definition sample_watchers : @Watchers sample_kube nat :=
  @mkWatchers sample_kube nat (λ _ v, sample_watch v) None.
Definition sample_watch_start : @WatchState sample_kube * nat :=
  (@mkWatchState sample_kube "" true (@NewCooldownQueue sample_kube) [], 0%nat).

Lemma sample_honest : @honest_server sample_kube nat (λ _, false) sample_watchers (mkGVR "" "v1" "pods") sample_log "".
Proof.
  intros v e. unfold chooseWatcher, sample_watchers, sample_watch. cbn [storage_Watch dynamic_Watch].
  destruct (Nat.even e); [done|]. intros i Hi Hv.
  destruct i as [|[|[|[|i]]]]; [..|cbn in Hi; lia]; injection Hv as <-; cbn; by eexists.
Qed.

Lemma watch_resumes_witness :
  ∃ y', @watchRetry sample_kube sample_gvk nat (λ _, false) sample_watchers 6 (mkGVR "" "v1" "pods") sample_watch_start
      = (StillWatching, y') ∧ w_enqueued y'.1 = sample_log.
Proof.
  destruct (@watch_resumes sample_kube sample_gvk nat (λ _, false) sample_watchers (mkGVR "" "v1" "pods") sample_log ""
              6 sample_watch_start sample_honest) as (y' & j & Hrun & _).
  - repeat constructor; cbn; try discriminate; by eexists.
  - split_and!; try done; cbn; lia.
  - exists y'. split; [exact Hrun|].
    assert (w_enqueued (@watchRetry sample_kube sample_gvk nat (λ _, false) sample_watchers 6
              (mkGVR "" "v1" "pods") sample_watch_start).2.1 = sample_log) as Hall by reflexivity.
    rewrite Hrun in Hall. exact Hall.
Defined.
