(* ===== verification/Pipeline.v ===== *)
(** * Pipeline: from the events of the cluster to the calls of a client, through three
    goroutines, [adapters/incluster/v1/client.go] and [utils/cooldownqueue.go].

    [watchRetry] enqueues the events of the watch; the goroutine of the cache evicts entries
    and is held in its callback until [Start] takes the event from the channel; [Start]
    handles one event after the other.  Meanwhile calls of the server change the state of the
    client.  Every step of each of them is an event here, in any order. *)

From S2P Require Import Synchronizer.
From S2P Require Export Watch.

Section Pipeline.
Context `{KubeLib, !GVKLib, MergePatches, MultiErr, ClientLib} {E : Type}.
Local Abbreviation X := (Client E * E)%type.
(** The events of the cluster, as [watchRetry] gets them over all its watches. *)
Variable log : list WatchEvent.
Variable ctx : Ctx.

(** [Start] waits for an event, handles one, or has panicked. *)
Inductive LoopAt : Type := AtRange | Handling (event : WatchEvent) | LoopPanics (why : string).
(** [watched] events of the log were enqueued; [evicting] is what the callback of the cache
    holds; [history] is what happened to the client, in order. *)
Record Pipeline : Type := mkPipeline {
  watched : nat;
  queue : CooldownQueue;
  evicting : option WatchEvent;
  loop : LoopAt;
  history : list (WatchEvent + (X → X));
  client : X
}.

Inductive PipelineEvent : Type :=
| Watches
| Evicts (key : string)
| TakesEvent
| HandlesEvent
| ServerCalls (op : X → X).

(** The cache is a library: it takes an entry out in one step, and the callback that the
    program gave it, [on_eviction], gets what it took.  Between the two everything else may
    happen, other [Enqueue]s of the same key too. *)
Definition take_entry (key : string) (q : CooldownQueue) : CooldownQueue :=
  mkCooldownQueue (closed q) (delete key (seen q)) (delivered q).
Definition pipeline_step (e : PipelineEvent) (s : Pipeline) : option Pipeline :=
  match loop s with
  | LoopPanics _ => None
  | _ =>
  match e with
  | Watches =>
      event ← log !! watched s;
      match Enqueue event (queue s) with
      | (Ret _, q) => Some (mkPipeline (S (watched s)) q (evicting s) (loop s) (history s) (client s))
      | (Throw err, q) => None
      | (Panic why, q) => Some (mkPipeline (watched s) q (evicting s) (LoopPanics why) (history s) (client s))
      end
  | Evicts key =>
      match evicting s, seen (queue s) !! key with
      | None, Some value =>
          Some (mkPipeline (watched s) (take_entry key (queue s)) (Some value) (loop s) (history s) (client s))
      | _, _ => None
      end
  | TakesEvent =>
      match evicting s, loop s with
      | Some value, AtRange =>
          Some (mkPipeline (watched s) (on_eviction value (queue s)).2 None (Handling value) (history s) (client s))
      | _, _ => None
      end
  | HandlesEvent =>
      match loop s with
      | Handling event =>
          let '(o, x) := process_event ctx event (client s) in
          Some (mkPipeline (watched s) (queue s) (evicting s)
                  (match o with Panic why => LoopPanics why | _ => AtRange end) (history s ++ [inl event]) x)
      | _ => None
      end
  | ServerCalls op =>
      Some (mkPipeline (watched s) (queue s) (evicting s) (loop s) (history s ++ [inr op]) (op (client s)))
  end
  end.
(** What happened to the client, as one computation; the events among it. *)
Definition happens (h : WatchEvent + (X → X)) : M X unit :=
  match h with inl event => process_event ctx event | inr op => modifyW op end.
Definition handled (s : Pipeline) : list WatchEvent :=
  omap (λ h, match h with inl event => Some event | inr _ => None end) (history s).
Definition new_pipeline (x : X) : Pipeline := mkPipeline 0 NewCooldownQueue None AtRange [] x.
End Pipeline.

(** ** What every step keeps *)
(** The last event about an object splits a list. *)
Lemma last_about `{KubeLib, !GVKLib} key l event : last (about key l) = Some event →
  ∃ before after, l = before ++ event :: after ∧ about key after = [].
Proof.
  induction l as [|ev l IH] using rev_ind; [done|]. rewrite about_app, about_one.
  destruct (has_key key ev) eqn:Hk.
  - rewrite last_snoc. intros [= ->]. by exists l, [].
  - rewrite (right_id_L [] (++)). intros (before & after & -> & Ha)%IH.
    exists before, (after ++ [ev]). split; [by rewrite <- (assoc_L (++))|].
    by rewrite about_app, about_one, Hk, Ha.
Qed.

Section PipelineFacts.
Context `{KubeLib, !GVKLib, MergePatches, MultiErr, ClientLib} {E : Type}.
Local Abbreviation X := (Client E * E)%type.
Variables (log : list WatchEvent) (ctx : Ctx) (x0 : X).
Hypothesis log_events : Forall log_event log.
Implicit Types s : Pipeline (E := E).
Local Abbreviation step := (pipeline_step log ctx).

Definition in_callback s : list WatchEvent := from_option (λ e, [e]) [] (evicting s).
Definition in_hand s : list WatchEvent := match loop s with Handling event => [event] | _ => [] end.
(** The queue as if what its callback holds were delivered. *)
Definition as_delivered s : CooldownQueue :=
  mkCooldownQueue false (seen (queue s)) (delivered (queue s) ++ in_callback s).
Record pipeline_ok s : Prop := {
  pl_open : closed (queue s) = false;
  pl_watched : (watched s ≤ length log)%nat;
  pl_coalesced : coalesced (take (watched s) log) (as_delivered s);
  pl_delivered : delivered (queue s) = handled s ++ in_hand s;
  pl_client : match loop s with
              | LoopPanics why => (mfor (happens ctx) (history s) x0).1 = Panic why
              | _ => mfor (happens ctx) (history s) x0 = (Ret tt, client s)
              end
}.

Lemma handled_snoc (h : list (WatchEvent + (X → X))) a :
  omap (λ h, match h with inl event => Some event | inr _ => None end) (h ++ [a])
  = omap (λ h, match h with inl event => Some event | inr _ => None end) h
    ++ match a with inl event => [event] | inr _ => [] end.
Proof. rewrite omap_app. by destruct a. Qed.
Lemma enqueue_run event q o : closed q = false → we_Object event = WObject o →
  Enqueue event q = (Ret tt, mkCooldownQueue (closed q) (<[event_key o := event]> (seen q)) (delivered q)).
Proof. destruct q as [cl sn dl]. cbn. intros -> Ho. unfold Enqueue, makeEventKey. cbn. by rewrite Ho. Qed.
Lemma on_eviction_run value q : closed q = false →
  on_eviction value q = (Ret tt, mkCooldownQueue (closed q) (seen q) (delivered q ++ [value])).
Proof. destruct q as [cl sn dl]. cbn. by intros ->. Qed.
Lemma history_snoc (h : list (WatchEvent + (X → X))) a x :
  mfor (happens ctx) h x0 = (Ret tt, x) → mfor (happens ctx) (h ++ [a]) x0 = happens ctx a x.
Proof.
  intros Hh. rewrite mfor_app, bind_run, Hh. cbn [mfor]. rewrite bind_run. by destruct (happens ctx a x) as [[[]| |] ?].
Qed.

(** A step of a loop that has not panicked, with what it has seen so far. *)
Lemma watches_ok s s' : step Watches s = Some s' → pipeline_ok s → pipeline_ok s'.
Proof.
  intros Hstep [Hopen Hw Hco Hdel Hcl]. unfold pipeline_step in Hstep.
  destruct (log !! watched s) as [event|] eqn:Hlog; [|by destruct (loop s)].
  destruct (proj1 (Forall_forall _ _) log_events event) as (_ & o & Ho); [by eapply list_elem_of_lookup_2|].
  pose proof (enqueue_run event (queue s) o Hopen Ho) as Henq. cbn in Hstep. rewrite Henq in Hstep.
  destruct (loop s) as [|ev|why] eqn:Hloop; [| |done]; injection Hstep as <-; constructor; cbn; try done;
    rewrite ?Hloop; try done; try (by apply lookup_lt_Some in Hlog; lia);
    try (unfold in_hand in *; cbn; rewrite Hloop in *; exact Hdel);
    rewrite (take_S_r _ _ _ Hlog); exact (coalesced_enqueue _ (as_delivered s) event o eq_refl Ho Hco).
Qed.
Lemma evicts_ok key s s' : step (Evicts key) s = Some s' → pipeline_ok s → pipeline_ok s'.
Proof.
  intros Hstep [Hopen Hw Hco Hdel Hcl]. unfold pipeline_step in Hstep.
  destruct (evicting s) eqn:Hev; [by destruct (loop s)|].
  destruct (seen (queue s) !! key) as [value|] eqn:Hv; [|by destruct (loop s)].
  assert (coalesced (take (watched s) log) (mkCooldownQueue false (delete key (seen (queue s))) (delivered (queue s) ++ [value]))) as Hco'.
  { assert (delivered (queue s) = delivered (as_delivered s)) as ->
      by (unfold as_delivered, in_callback; rewrite Hev; cbn; by rewrite (right_id_L [] (++))).
    exact (coalesced_evict _ (as_delivered s) key value eq_refl Hv Hco). }
  destruct (loop s) as [|ev|why] eqn:Hloop; [| |done]; injection Hstep as <-; constructor; cbn; try done;
    unfold in_hand in *; cbn; rewrite Hloop in *; done.
Qed.
Lemma takes_ok s s' : step TakesEvent s = Some s' → pipeline_ok s → pipeline_ok s'.
Proof.
  intros Hstep [Hopen Hw Hco Hdel Hcl]. unfold pipeline_step in Hstep.
  destruct (evicting s) as [value|] eqn:Hev; [|by destruct (loop s)].
  rewrite (on_eviction_run value (queue s) Hopen) in Hstep.
  destruct (loop s) as [|ev|why] eqn:Hloop; [|done..]. injection Hstep as <-.
  unfold in_hand in Hdel. rewrite Hloop, (right_id_L [] (++)) in Hdel.
  constructor; cbn; try done; [|by rewrite Hdel].
  unfold as_delivered, in_callback in *. cbn. rewrite Hev in Hco. by rewrite (right_id_L [] (++)).
Qed.
Lemma handles_ok s s' : step HandlesEvent s = Some s' → pipeline_ok s → pipeline_ok s'.
Proof.
  intros Hstep [Hopen Hw Hco Hdel Hcl]. unfold pipeline_step in Hstep.
  destruct (loop s) as [|ev|why] eqn:Hloop; [done| |done].
  unfold in_hand in Hdel. rewrite Hloop in Hdel.
  destruct (process_event ctx ev (client s)) as [o x] eqn:Hp. injection Hstep as <-.
  assert (handled s ++ [ev] = omap (λ h, match h with inl event => Some event | inr _ => None end) (history s ++ [inl ev])) as Hh
    by (by rewrite handled_snoc).
  constructor; cbn; try done.
  - unfold handled, in_hand. cbn. rewrite <- Hh, Hdel. by destruct o; rewrite (right_id_L [] (++)).
  - pose proof (history_snoc _ (inl ev) _ Hcl) as Hc. cbn in Hc. rewrite Hp in Hc.
    destruct o as [[]|err|why]; rewrite Hc; [done| |done]. by apply process_event_never in Hp.
Qed.
Lemma pipeline_step_ok e s s' : step e s = Some s' → pipeline_ok s → pipeline_ok s'.
Proof.
  destruct e as [|key| | |op]; eauto using watches_ok, evicts_ok, takes_ok, handles_ok.
  intros Hstep [Hopen Hw Hco Hdel Hcl]. unfold pipeline_step in Hstep.
  destruct (loop s) as [|ev|why] eqn:Hloop; [| |done]; injection Hstep as <-; constructor; cbn; try done;
    try (unfold handled, in_hand in *; cbn; rewrite Hloop in *; by rewrite handled_snoc, (right_id_L [] (++)));
    rewrite ?Hloop; by rewrite (history_snoc _ (inr op) _ Hcl).
Qed.
Lemma new_pipeline_ok : pipeline_ok (new_pipeline x0).
Proof. constructor; cbn; try done; try lia. Qed.
Lemma run_pipeline_ok es s : run step es (new_pipeline x0) = Some s → pipeline_ok s.
Proof.
  intros Hrun. apply (reachable_invariant step pipeline_ok (new_pipeline x0));
    [intros; by eapply pipeline_step_ok|apply new_pipeline_ok|by exists es].
Qed.

(** ** How far it goes by itself *)
Definition by_itself (e : PipelineEvent (E := E)) : Prop := match e with ServerCalls _ => False | _ => True end.
Definition panicked s : Prop := ∃ why, loop s = LoopPanics why.
Definition all_handled s : Prop :=
  watched s = length log ∧ seen (queue s) = ∅ ∧ evicting s = None ∧ loop s = AtRange.
(** Every event is watched, evicted, taken and handled. *)
Definition steps_left s : nat :=
  4 * (length log - watched s) + 3 * size (seen (queue s)) + 2 * length (in_callback s) + length (in_hand s).

Lemma size_insert_le {A} key (a : A) (m : gmap string A) : (size (<[key := a]> m) ≤ S (size m))%nat.
Proof. rewrite map_size_insert. destruct (m !! key); cbn; lia. Qed.
Lemma size_delete_lt {A} key (a : A) (m : gmap string A) : m !! key = Some a → (size (delete key m) < size m)%nat.
Proof.
  intros Hm. rewrite map_size_delete, Hm.
  assert (size m ≠ 0)%nat; [|lia]. intros Hz%map_size_empty_inv. by rewrite Hz in Hm.
Qed.
Lemma loop_alive e s s' : step e s = Some s' → ¬ panicked s.
Proof. unfold pipeline_step. intros Hstep [why Hl]. by rewrite Hl in Hstep. Qed.
Lemma pipeline_step_measure e s s' :
  pipeline_ok s → by_itself e → step e s = Some s' → (steps_left s' < steps_left s)%nat.
Proof.
  intros [Hopen _ _ _ _] He Hstep. unfold pipeline_step in Hstep.
  unfold steps_left, in_callback, in_hand. destruct e as [|key| | |op]; [..|done].
  - destruct (log !! watched s) as [event|] eqn:Hlog; [|by destruct (loop s)].
    destruct (proj1 (Forall_forall _ _) log_events event) as (_ & o & Ho); [by eapply list_elem_of_lookup_2|].
    cbn in Hstep. rewrite (enqueue_run event _ o Hopen Ho) in Hstep. apply lookup_lt_Some in Hlog.
    pose proof (size_insert_le (event_key o) event (seen (queue s))).
    destruct (loop s) eqn:Hloop; try discriminate; injection Hstep as <-; cbn; rewrite ?Hloop; cbn; lia.
  - destruct (evicting s); [by destruct (loop s)|].
    destruct (seen (queue s) !! key) as [value|] eqn:Hv; [|by destruct (loop s)].
    pose proof (size_delete_lt _ _ _ Hv).
    destruct (loop s) eqn:Hloop; try discriminate; injection Hstep as <-; cbn; rewrite ?Hloop; cbn; lia.
  - destruct (evicting s) as [value|]; [|by destruct (loop s)].
    rewrite (on_eviction_run value _ Hopen) in Hstep.
    destruct (loop s); try discriminate. injection Hstep as <-. cbn. lia.
  - destruct (loop s) as [|ev|]; try discriminate.
    destruct (process_event ctx ev (client s)) as [[[]| |] x]; injection Hstep as <-; cbn; lia.
Qed.
Lemma pipeline_progress s : pipeline_ok s → (panicked s ∨ all_handled s) ∨ enabled step by_itself s.
Proof.
  intros [Hopen Hw _ _ _]. unfold enabled, pipeline_step.
  destruct (loop s) as [|ev|why] eqn:Hloop; [| |by left; left; eexists].
  2: { right. exists HandlesEvent. rewrite ?Hloop. destruct (process_event ctx ev (client s)) as [o x]. by eexists. }
  destruct (evicting s) as [value|] eqn:Hev.
  { right. exists TakesEvent. rewrite ?Hloop, ?Hev. by eexists. }
  destruct (map_choose_or_empty (seen (queue s))) as [(key & value & Hv)|Hempty].
  { right. exists (Evicts key). rewrite ?Hloop, ?Hev, ?Hv. by eexists. }
  destruct (log !! watched s) as [event|] eqn:Hlog.
  { destruct (proj1 (Forall_forall _ _) log_events event) as (_ & o & Ho); [by eapply list_elem_of_lookup_2|].
    right. exists Watches. rewrite ?Hloop, ?Hlog. cbn. rewrite (enqueue_run event _ o Hopen Ho). by eexists. }
  left. right. apply lookup_ge_None in Hlog. split_and!; [lia|done..].
Qed.
Lemma all_handled_ends s : all_handled s → ¬ enabled step by_itself s.
Proof.
  intros (Hw & Hseen & Hev & Hl) (e & s' & He & Hstep). unfold pipeline_step in Hstep. rewrite Hl in Hstep.
  destruct e; try done; [|by rewrite Hev, Hseen, lookup_empty in Hstep|by rewrite Hev in Hstep].
  by rewrite Hw, lookup_ge_None_2 in Hstep.
Qed.
(** What was handled of an object, against what happened to it. *)
Lemma handled_so_far s key : pipeline_ok s → about key (handled s) `sublist_of` about key (take (watched s) log).
Proof.
  intros [_ _ Hco Hdel _]. specialize (Hco key). unfold as_delivered in Hco. cbn in Hco.
  assert (about key (handled s) `sublist_of` about key (delivered (queue s) ++ in_callback s)) as Hsub.
  { rewrite Hdel, !about_app. by do 2 apply sublist_inserts_r. }
  destruct (seen (queue s) !! key); [destruct Hco as (_ & l' & -> & Hl); apply sublist_inserts_r|destruct Hco as [Hl _]];
    by etrans.
Qed.
Lemma handled_in_log s event d :
  pipeline_ok s → event ∈ handled s → we_Object event = WObject d → event ∈ log.
Proof.
  intros Hok Hev Hd. assert (event ∈ about (event_key d) (handled s)) as Hin.
  { apply list_elem_of_filter. split; [|done]. unfold has_key. rewrite Hd. apply String.eqb_refl. }
  eapply elem_of_sublist in Hin; [|by apply handled_so_far].
  apply list_elem_of_filter in Hin as [_ Hin]. apply elem_of_take in Hin as (i & Hi & _). by eapply list_elem_of_lookup_2.
Qed.
Lemma handled_all s key : pipeline_ok s → all_handled s → last (about key (handled s)) = last (about key log).
Proof.
  intros [_ _ Hco Hdel _] (Hw & Hseen & Hev & Hloop). specialize (Hco key).
  unfold as_delivered, in_callback, in_hand in *. cbn in Hco. rewrite Hloop, (right_id_L [] (++)) in Hdel.
  rewrite Hseen, lookup_empty, Hev, Hw, firstn_all, Hdel in Hco. cbn in Hco. rewrite (right_id_L [] (++)) in Hco.
  by destruct Hco.
Qed.
End PipelineFacts.

(** C5. From the cluster to the client: in whatever order watch, cache and event loop take
    their steps, and whatever the server asks for meanwhile, what is handled about an object
    is a subsequence of what happened to it, and the client is where it would be had it
    handled those events, and answered those calls, one after the other.  Once the cluster
    is quiet this ends by itself, and unless handling an event panicked, the last event
    handled about every object is the last that happened to it. *)
Theorem cluster_events_handled `{KubeLib, !GVKLib, MergePatches, MultiErr, ClientLib} {E} log ctx
    (x0 : Client E * E) es s
    (step := pipeline_step log ctx)
    (caught_up := λ s, panicked s ∨ ∀ key, last (about key (handled s)) = last (about key log)) :
  Forall log_event log → run step es (new_pipeline x0) = Some s →
  (∀ key, about key (handled s) `sublist_of` about key (take (watched s) log)) ∧
  (¬ panicked s → mfor (happens ctx) (history s) x0 = (Ret tt, client s)) ∧
  Acc (λ s' s, ∃ e, by_itself e ∧ step e s = Some s') s ∧
  (¬ enabled step by_itself s → caught_up s) ∧
  ∃ es' s', Forall by_itself es' ∧ run step es' s = Some s' ∧ caught_up s'.
Proof.
  intros Hlog Hrun. set (ok := pipeline_ok log ctx x0).
  assert (∀ e s s', ok s → step e s = Some s' → ok s') as Hstep by (intros; by eapply pipeline_step_ok).
  assert (ok s) as Hok by by eapply run_pipeline_ok.
  assert (∀ s, ok s → panicked s ∨ all_handled log s → caught_up s) as Hdone.
  { intros s1 Hs1 [Hp|Ha]; [by left|]. right. intros key. by eapply handled_all. }
  split_and!.
  - intros key. by eapply handled_so_far.
  - intros Hp. destruct Hok as [_ _ _ _ Hcl]. unfold panicked in Hp. destruct (loop s); [done..|].
    exfalso. by eauto.
  - apply (no_endless_run step lt by_itself ok (steps_left log) s lt_wf); [by eauto| |done].
    intros. by eapply pipeline_step_measure.
  - intros Hstuck. apply Hdone; [done|]. destruct (pipeline_progress log ctx x0 Hlog s Hok) as [?|?]; [done|by destruct Hstuck].
  - destruct (run_to_the_end step by_itself ok (λ s, panicked s ∨ all_handled log s) (steps_left log) s)
      as (es' & s' & Hes & Hrun' & Hend); [by eauto|intros; by eapply pipeline_step_measure| |done|].
    { intros s1 Hs1. by eapply pipeline_progress. }
    exists es', s'. split_and!; [done..|]. apply Hdone; [|done].
    eapply (reachable_invariant step ok); [exact Hstep|exact Hok|by exists es'].
Qed.

(** ** What the server is told *)
Section Announced.
Context `{KubeLib, !GVKLib, MergePatches, MultiErr, ClientLib}.
Local Abbreviation X := (Client (list SyncEvent) * list SyncEvent)%type.
Variable c : Client (list SyncEvent).
(** The bytes and the checksum of every object can be computed. *)
Variables bytes sum : Obj → string.
Definition prepared (d : Obj) : Prop := ∀ e,
  getChecksum d (c, e) = (Ret (sum d), (c, e)) ∧
  ∃ d', getObjectFromMeta d (c, e) = (Ret (bytes d, d'), (c, e)) ∧ getChecksum d' (c, e) = (Ret (sum d), (c, e)).
Definition announces (event : WatchEvent) : list SyncEvent :=
  match we_Object event with
  | WObject d =>
      if isFiltered c (Some d) then []
      else match onEvent_type (we_Type event) with
           | Added => [SyncVerify (object_id c d) (sum d)]
           | Modified => [SyncPut (object_id c d) (sum d) (bytes d)]
           | Deleted => [SyncDelete (object_id c d)]
           | OtherEvent => []
           end
  | _ => []
  end.

Lemma process_event_announces ctx event e :
  c_callbacks c = emitting → c_Strategy c ≠ PatchStrategy →
  (∀ d, we_Object event = WObject d → prepared d) →
  process_event ctx event (c, e) = (Ret tt, (c, e ++ announces event)).
Proof.
  intros Hcb Hstr Hprep. apply String.eqb_neq in Hstr.
  unfold process_event, announces. destruct (we_Object event) as [d|v|]; [|by rewrite (right_id_L [] (++))..].
  destruct (Hprep d eq_refl e) as (Hsum & d' & Hbytes & Hsum').
  unfold onEvent, c_get, getW. go_run. cbn [fst].
  destruct (isFiltered c (Some d)); [by rewrite (right_id_L [] (++))|].
  destruct (onEvent_type (we_Type event)); go_run.
  - rewrite Hsum. go_run. by rewrite Hcb.
  - rewrite Hbytes. go_run. rewrite Hsum'. go_run. unfold callPutOrPatch, c_get, getW. go_run. cbn [fst].
    rewrite Hstr. go_run. by rewrite Hcb.
  - by rewrite Hcb, Hstr.
  - by rewrite (right_id_L [] (++)).
Qed.
Lemma handled_announced ctx l e :
  c_callbacks c = emitting → c_Strategy c ≠ PatchStrategy →
  (∀ event d, event ∈ l → we_Object event = WObject d → prepared d) →
  mfor (process_event ctx) l (c, e) = (Ret tt, (c, e ++ concat (announces <$> l))).
Proof.
  intros Hcb Hstr. revert e. induction l as [|event l IH]; intros e Hprep; cbn; [by rewrite (right_id_L [] (++))|].
  rewrite bind_run, process_event_announces; [|done..|by intros d; apply Hprep; left].
  rewrite IH; [by rewrite (assoc_L (++))|]. intros ev d Hev. apply Hprep. by right.
Qed.
End Announced.

(** Without calls of the server only events happen to the client. *)
Section Quiet.
Context `{KubeLib, !GVKLib, MergePatches, MultiErr, ClientLib} {E : Type}.
Lemma history_step log ctx e (s s' : Pipeline (E := E)) : by_itself e → pipeline_step log ctx e s = Some s' →
  history s' = history s ∨ ∃ event, history s' = history s ++ [inl event].
Proof.
  intros He Hstep. unfold pipeline_step in Hstep.
  destruct e as [|key| | |op]; [..|done].
  - destruct (log !! watched s) as [ev|]; [|by destruct (loop s)]. cbn in Hstep.
    destruct (loop s), (Enqueue ev (queue s)) as [[]]; simplify_eq; by left.
  - destruct (loop s), (evicting s), (seen (queue s) !! key); simplify_eq; by left.
  - destruct (loop s), (evicting s); simplify_eq; by left.
  - destruct (loop s) as [|ev|]; [done| |done]. destruct (process_event ctx ev (client s)) as [o x].
    injection Hstep as <-. right. by exists ev.
Qed.
Lemma only_events log ctx es (s : Pipeline (E := E)) x :
  Forall by_itself es → run (pipeline_step log ctx) es (new_pipeline x) = Some s → history s = inl <$> handled s.
Proof.
  intros Hes. apply (run_invariant (pipeline_step log ctx) by_itself (λ s, history s = inl <$> handled s)); [|done..].
  intros e s1 s2 He H4 Hstep. unfold handled in *.
  destruct (history_step _ _ _ _ _ He Hstep) as [->|[event ->]]; [done|].
  by rewrite handled_snoc, fmap_app, <- H4.
Qed.
End Quiet.

(** Without shadow objects, a client has announced at every moment what it has handled. *)
Lemma announced_so_far `{KubeLib, !GVKLib, MergePatches, MultiErr, ClientLib} log ctx
    (c : Client (list SyncEvent)) bytes sum told es s :
  c_callbacks c = emitting → c_Strategy c ≠ PatchStrategy → Forall log_event log →
  (∀ event d, event ∈ log → we_Object event = WObject d → prepared c bytes sum d) →
  Forall by_itself es → run (pipeline_step log ctx) es (new_pipeline (c, told)) = Some s →
  pipeline_ok log ctx (c, told) s ∧ ¬ panicked s ∧ client s = (c, told ++ concat (announces c bytes sum <$> handled s)).
Proof.
  intros Hcb Hstr Hlog Hprep Hes Hrun.
  assert (pipeline_ok log ctx (c, told) s) as Hok by by eapply run_pipeline_ok.
  assert (mfor (happens ctx) (history s) (c, told) = (Ret tt, (c, told ++ concat (announces c bytes sum <$> handled s))))
    as Hall.
  { rewrite (only_events _ _ _ _ _ Hes Hrun), mfor_map. cbn.
    apply (handled_announced c bytes sum ctx); [done..|].
    intros event d Hev Hd. apply (Hprep event d); [|done].
    by eapply handled_in_log. }
  pose proof Hok as [_ _ _ _ Hcl]. rewrite Hall in Hcl. unfold panicked.
  destruct (loop s); [..|done]; (split; [done|]); (split; [by intros [why Hl]|by injection Hcl]).
Qed.

(** What the server is told of a quiet cluster, without shadow objects: the messages of a
    client that can go on no further are those of the events it handled, in their order, and
    about every object the last of them tells what happened to it last; after it only
    other objects are spoken of. *)
Theorem quiet_cluster_announced `{KubeLib, !GVKLib, MergePatches, MultiErr, ClientLib} log ctx
    (c : Client (list SyncEvent)) bytes sum told es s :
  c_callbacks c = emitting → c_Strategy c ≠ PatchStrategy → Forall log_event log →
  (∀ event d, event ∈ log → we_Object event = WObject d → prepared c bytes sum d) →
  Forall by_itself es → run (pipeline_step log ctx) es (new_pipeline (c, told)) = Some s →
  ¬ enabled (pipeline_step log ctx) by_itself s →
  client s = (c, told ++ concat (announces c bytes sum <$> handled s)) ∧
  ∀ key event, last (about key log) = Some event →
    ∃ before after, handled s = before ++ event :: after ∧ about key after = [].
Proof.
  intros Hcb Hstr Hlog Hprep Hes Hrun Hend.
  destruct (announced_so_far log ctx c bytes sum told es s) as (Hok & Hp & Hcl); [done..|]. split; [done|].
  destruct (pipeline_progress log ctx _ Hlog s Hok) as [[?|Hdone]|?]; [done| |done].
  intros key event Hlast. rewrite <- (handled_all log ctx (c, told) s key Hok Hdone) in Hlast.
  apply last_about; done.
Qed.

(** Three events of two objects: the two of one object are coalesced. *)
Definition sample_copy_client : @Client sample_kube (list SyncEvent) :=
  mkClient (@NoOpDynamicClient sample_kube _) None "acme" "prod" ["kube-system"] [] "kubescape"
    sample_kind emitting (mkGVR "apps" "v1" "deployments") ∅ "copy".
Definition sample_key (name : string) : string := @event_key sample_kube sample_gvk
  (inl [("metadata", JObj [("name", JStr name)])]).
Definition sample_steps : list (@PipelineEvent sample_kube (list SyncEvent)) :=
  [Watches; Watches; Watches; Evicts (sample_key "a"); TakesEvent; Evicts (sample_key "b"); HandlesEvent;
   TakesEvent; HandlesEvent].
Local Abbreviation sample_run := (run (@pipeline_step sample_kube sample_gvk sample_patches sample_clientlib _ sample_log sample_ctx)
  sample_steps (new_pipeline (sample_copy_client, []))).
Lemma sample_log_events : Forall (@log_event sample_kube) sample_log.
Proof.
  repeat apply Forall_cons_2; [..|apply Forall_nil_2]; (split; [discriminate|eexists; reflexivity]).
Qed.
Example sample_pipeline_runs :
  (λ s, (watched s, size (seen (queue s)), match evicting s with None => true | _ => false end,
         match loop s with AtRange => true | _ => false end)) <$> sample_run = Some (3, 0, true, true)%nat ∧
  (λ s, (λ e, version_of (we_Object e)) <$> handled s) <$> sample_run = Some [Some "3"; Some "2"].
Proof. split; vm_compute; reflexivity. Qed.
Lemma sample_end : ∃ s, sample_run = Some s ∧ all_handled sample_log s ∧
  (λ e, version_of (we_Object e)) <$> handled s = [Some "3"; Some "2"].
Proof.
  destruct sample_pipeline_runs as [(s & Hrun & Hs)%fmap_Some (s2 & Hrun2 & Hh)%fmap_Some].
  exists s. split; [exact Hrun|]. rewrite Hrun in Hrun2. injection Hrun2 as <-.
  injection Hs as Hw Hsize Hev Hl. split; [|by symmetry]. split_and!.
  - by symmetry.
  - by apply map_size_empty_inv.
  - by destruct (evicting s).
  - by destruct (loop s).
Qed.

Lemma cluster_events_handled_witness :
  ∃ s, sample_run = Some s ∧ (λ e, version_of (we_Object e)) <$> handled s = [Some "3"; Some "2"] ∧
    last (@about sample_kube sample_gvk (sample_key "a") (handled s)) = Some (sample_watched "a" "3").
Proof.
  destruct sample_end as (s & Hrun & Hall & Hh). exists s. split; [exact Hrun|]. split; [exact Hh|].
  destruct (@cluster_events_handled sample_kube sample_gvk sample_patches sample_multierr sample_clientlib _ sample_log
    sample_ctx (sample_copy_client, []) sample_steps s) as (_ & _ & _ & Hend & _).
  - exact sample_log_events.
  - exact Hrun.
  - destruct (Hend (all_handled_ends _ _ s Hall)) as [[why Hp]|Hlast]; [|by rewrite Hlast].
    destruct Hall as (_ & _ & _ & Hl). by rewrite Hl in Hp.
Defined.
Lemma quiet_cluster_announced_witness :
  ∃ s, sample_run = Some s ∧
    (client s).2 = concat (announces sample_copy_client sample_bytes sample_bytes <$> handled s) ∧
    ∃ before after, handled s = before ++ sample_watched "a" "3" :: after ∧ @about sample_kube sample_gvk (sample_key "a") after = [].
Proof.
  destruct sample_end as (s & Hrun & Hall & _). exists s. split; [exact Hrun|].
  destruct (@quiet_cluster_announced sample_kube sample_gvk sample_patches sample_multierr sample_clientlib sample_log
    sample_ctx sample_copy_client sample_bytes sample_bytes [] sample_steps s) as [Hc Hlast].
  - reflexivity.
  - discriminate.
  - exact sample_log_events.
  - intros event d Hin Hd e. unfold sample_log in Hin.
    repeat (apply elem_of_cons in Hin as [->|Hin]; [injection Hd as <-; split; [reflexivity|eexists; by split]|]).
    exfalso. exact (not_elem_of_nil event Hin).
  - repeat constructor.
  - exact Hrun.
  - by apply all_handled_ends.
  - rewrite Hc. split; [done|]. by apply Hlast.
Defined.
