(* ===== verification/Mirror.v ===== *)
(** * Mirror: what a server holds of a cluster that has become quiet.

    The messages of an in-cluster client without shadow objects (Pipeline), handled by the
    reference adapter (Mock) on the other side, in the order in which a connection carries
    them (Duplex) and with what survives the journey of each (Delivery). *)

From S2P Require Export Pipeline.

(** ** Names *)
Lemma append_cancel (a s t : string) : (a ++ s = a ++ t)%string → s = t.
Proof. induction a as [|x a IH]; cbn; [done|]. intros [= H]. by apply IH. Qed.
Lemma slash_parts a b a' b' : no_sep slash a = true → no_sep slash a' = true →
  (a ++ "/" ++ b = a' ++ "/" ++ b')%string → a = a' ∧ b = b'.
Proof.
  revert a'. induction a as [|x a IH]; intros [|x' a'] Ha Ha' Heq; cbn in *.
  - injection Heq as ->. done.
  - injection Heq as <- _. discriminate.
  - injection Heq as -> _. discriminate.
  - injection Heq as -> Heq. apply andb_true_iff in Ha as [_ Ha], Ha' as [_ Ha'].
    destruct (IH a' Ha Ha' Heq) as [-> ->]. done.
Qed.

(** Objects of one kind with the same identifier are the same object to the queue. *)
Lemma same_string_same_key `{KubeLib, !GVKLib} (c : Client (list SyncEvent)) d d' :
  no_sep slash (GetNamespace (Meta d)) = true → no_sep slash (GetNamespace (Meta d')) = true →
  GroupVersionKind d = GroupVersionKind d' →
  KindName_String (object_id c d) = KindName_String (object_id c d') → event_key d = event_key d'.
Proof.
  intros Hd Hd' Hgvk Hs. apply append_cancel, (append_cancel "/") in Hs.
  apply slash_parts in Hs as [Hns Hname]; [|done..]. cbn in Hns, Hname.
  unfold event_key. by rewrite Hgvk, Hns, Hname.
Qed.
Lemma unversioned_string id : KindName_String (unversioned id) = KindName_String id.
Proof. done. Qed.
#[local] Opaque KindName_String.

(** ** The reference adapter, message by message *)
Section Serve.
Context {W : Type} `{MergePatches, MultiErr} (ERV : string → option string) (ctx : Ctx).
Local Abbreviation X := (MockAdapter W * W)%type.

(** The messages of a client, one after the other; the worker logs the error of one and goes
    on with the next. *)
Definition serve (evs : list SyncEvent) (st : X) : X :=
  foldl (λ st ev, (deliver (go_mock ERV) ctx (as_received true ev) st).2) st evs.

(** What is kept of an object that is put over another. *)
Definition saved (m : MockAdapter W) (k object : string) : string :=
  match Resources m !! k with
  | Some old => if checkResourceVersion m && refused ERV old object then old else object
  | None => object
  end.
Definition served (ev : SyncEvent) (m : MockAdapter W) (k : string) : option string :=
  match ev with
  | SyncPut id _ object => if decide (k = KindName_String id) then Some (saved m k object) else Resources m !! k
  | SyncDelete id => if decide (k = KindName_String id) then None else Resources m !! k
  | _ => Resources m !! k
  end.
Definition plain (ev : SyncEvent) : Prop :=
  match ev with SyncPut _ _ _ | SyncDelete _ | SyncVerify _ _ => True | _ => False end.

Lemma liftR_mock {A} (g : M W A) (m : MockAdapter W) w : (liftR g (m, w)).2.1 = m.
Proof. unfold liftR. by destruct (g w). Qed.
Lemma deliver_served ev (st : X) : plain ev →
  let st' := (deliver (go_mock ERV) ctx (as_received true ev) st).2 in
  checkResourceVersion st'.1 = checkResourceVersion st.1 ∧ ∀ k, Resources st'.1 !! k = served ev st.1 k.
Proof.
  destruct st as [m w]. destruct ev as [id|id base|id ck p|id ck o|id ck|kd bt items]; try done; intros _; cbv zeta;
    cbn [as_received deliver go_mock ad_DeleteObject ad_PutObject ad_VerifyObject].
  - rewrite wrapE_run. cbn. rewrite unversioned_string. split; [done|]. intros k.
    destruct (decide (k = KindName_String id)) as [->|Hne]; [apply lookup_delete_eq|by apply lookup_delete_ne].
  - rewrite wrapE_run. change (m_PutObject ERV ctx (unversioned id) ck o (m, w)) with (saveIfNewer ERV (unversioned id) o (m, w)).
    unfold served, saved. destruct (Resources m !! KindName_String id) as [old|] eqn:Hold.
    + rewrite (save_known ERV (unversioned id) o m w old Hold), unversioned_string. cbn [fst snd].
      destruct (checkResourceVersion m && refused ERV old o) eqn:Href; cbn; (split; [done|]); intros k;
        (destruct (decide (k = KindName_String id)) as [->|Hne]; [rewrite ?Hold, ?Href|]); try done;
        [apply lookup_insert_eq|by apply lookup_insert_ne].
    + rewrite (save_unknown ERV (unversioned id) o m w Hold), unversioned_string. cbn. split; [done|]. intros k.
      destruct (decide (k = KindName_String id)) as [->|Hne]; [rewrite Hold; apply lookup_insert_eq|by apply lookup_insert_ne].
  - rewrite wrapE_run. unfold m_VerifyObject, m_verifyObject, m_get. go_compute.
    destruct (Resources m !! _) as [o|]; [destruct (CanonicalHash o) as [h|]; [destruct (String.eqb h ck)|]|]; try done.
    all: go_compute; destruct (cb_GetObject _ _ _ _ w) as [[] w']; done.
Qed.
End Serve.

(** ** The events of a cluster, on the server *)
Section Mirrored.
Context `{KubeLib, !GVKLib, MergePatches, MultiErr, ClientLib} {W : Type} (ERV : string → option string) (ctx' : Ctx).
Variable c : Client (list SyncEvent).
Variables bytes sum : Obj → string.
Local Abbreviation X := (MockAdapter W * W)%type.
Local Abbreviation told l := (concat (announces c bytes sum <$> l)).
Implicit Types st : X.

Definition object_string (d : Obj) : string := KindName_String (object_id c d).
(** An event about another object than the one with this identifier. *)
Definition elsewhere (k : string) (event : WatchEvent) : Prop :=
  ∀ d, we_Object event = WObject d → object_string d ≠ k.

Lemma serve_app l l' st : serve ERV ctx' (l ++ l') st = serve ERV ctx' l' (serve ERV ctx' l st).
Proof. apply foldl_app. Qed.
Lemma announces_cases event : announces c bytes sum event = [] ∨
  ∃ d, we_Object event = WObject d ∧ isFiltered c (Some d) = false ∧ ∃ ev, announces c bytes sum event = [ev] ∧ plain ev ∧
    (ev = SyncVerify (object_id c d) (sum d) ∨ ev = SyncPut (object_id c d) (sum d) (bytes d) ∨ ev = SyncDelete (object_id c d)).
Proof.
  unfold announces. destruct (we_Object event) as [d| |]; [|by left..].
  destruct (isFiltered c (Some d)) eqn:Hf; [by left|].
  destruct (onEvent_type (we_Type event)); [..|by left]; right; exists d; (split; [done|]); (split; [done|]);
    eexists; split_and!; try done; auto.
Qed.
Lemma serve_one ev st : serve ERV ctx' [ev] st = (deliver (go_mock ERV) ctx' (as_received true ev) st).2.
Proof. done. Qed.

(** One event of the cluster, on the server: nothing changes elsewhere, and only the bytes of
    its object are ever stored. *)
Lemma serve_event event st :
  let st' := serve ERV ctx' (announces c bytes sum event) st in
  checkResourceVersion st'.1 = checkResourceVersion st.1 ∧
  ∀ k, (elsewhere k event → Resources st'.1 !! k = Resources st.1 !! k) ∧
       ∀ old, Resources st'.1 !! k = Some old →
         Resources st.1 !! k = Some old ∨ ∃ d, we_Object event = WObject d ∧ object_string d = k ∧ old = bytes d.
Proof.
  destruct (announces_cases event) as [->|(d & Hd & _ & ev & -> & Hplain & Hev)].
  { split; [done|]. intros k. split; [done|]. by left. }
  rewrite serve_one. cbv zeta. destruct (deliver_served ERV ctx' ev st Hplain) as [Hc Hr]. split; [exact Hc|].
  intros k. rewrite Hr. unfold elsewhere. fold (object_string d) in *. split.
  - intros Helse. specialize (Helse d Hd). unfold object_string in Helse.
    destruct Hev as [->|[->| ->]]; cbn; [done| |]; by rewrite decide_False.
  - intros old. destruct Hev as [->|[->| ->]]; cbn; [by left| |];
      (destruct (decide _) as [->|]; [|by left]); [|done].
    intros [= <-]. unfold saved. destruct (Resources st.1 !! _) as [old|] eqn:Hold; [destruct (_ && _); [by left|]|];
      right; by exists d.
Qed.
Lemma serve_events l st :
  let st' := serve ERV ctx' (told l) st in
  checkResourceVersion st'.1 = checkResourceVersion st.1 ∧
  ∀ k, (Forall (elsewhere k) l → Resources st'.1 !! k = Resources st.1 !! k) ∧
       ∀ old, Resources st'.1 !! k = Some old →
         Resources st.1 !! k = Some old ∨
         ∃ event d, event ∈ l ∧ we_Object event = WObject d ∧ object_string d = k ∧ old = bytes d.
Proof.
  revert st. induction l as [|event l IH]; intros st; cbv zeta; cbn [fmap list_fmap concat].
  { split; [done|]. intros k. split; [done|]. by left. }
  rewrite serve_app. destruct (serve_event event st) as [Hc Hk].
  destruct (IH (serve ERV ctx' (announces c bytes sum event) st)) as [Hc' Hk']. split; [congruence|]. intros k.
  destruct (Hk k) as [Helse Hold]. destruct (Hk' k) as [Helse' Hold']. split.
  - intros [He Hl]%Forall_cons. by rewrite Helse', Helse.
  - intros old [Hr|(ev & d & Hin & Hd)]%Hold'.
    + apply Hold in Hr as [?|(d & Hd & Hs & ->)]; [by left|]. right. exists event, d. by split; [left|].
    + right. exists ev, d. by split; [right|].
Qed.
End Mirrored.

Lemma has_key_last `{KubeLib, !GVKLib} key l event d :
  last (about key l) = Some event → we_Object event = WObject d → event_key d = key.
Proof.
  intros Hlast Hd. apply last_Some in Hlast as (l' & Hl).
  assert (event ∈ about key l) as Hin by (rewrite Hl; apply elem_of_app; right; by left).
  apply list_elem_of_filter in Hin as [Hk _]. unfold has_key in Hk. rewrite Hd in Hk. by apply String.eqb_eq.
Qed.
(** From a cluster to a server: once a cluster has become quiet and its client, without
    shadow objects, can go on no further, a server that handles the messages of that client
    in order holds of every object that was modified last exactly the bytes it then had, and
    nothing of an object that was deleted last, however the events of the cluster were
    interleaved and coalesced on the way.  A server that compares versions must not refuse the
    last bytes for those of an earlier event or for what it held at the start. *)
Theorem quiet_cluster_mirrored `{KubeLib, !GVKLib, MergePatches, MultiErr, ClientLib} {W} ERV ctx ctx' gvk log
    (c : Client (list SyncEvent)) bytes sum es s (server : MockAdapter W * W)
    (server' := serve ERV ctx' (client s).2 server) :
  c_callbacks c = emitting → c_Strategy c ≠ PatchStrategy → Forall log_event log →
  (∀ event d, event ∈ log → we_Object event = WObject d →
     prepared c bytes sum d ∧ GroupVersionKind d = gvk ∧ no_sep slash (GetNamespace (Meta d)) = true) →
  Forall by_itself es → run (pipeline_step log ctx) es (new_pipeline (c, [])) = Some s →
  ¬ enabled (pipeline_step log ctx) by_itself s →
  ∀ event d, last (about (event_key d) log) = Some event → we_Object event = WObject d →
  isFiltered c (Some d) = false →
  (we_Type event = WDeleted → Resources server'.1 !! object_string c d = None) ∧
  (we_Type event = WModified →
   (∀ old, Resources server.1 !! object_string c d = Some old ∨
      (∃ event' d', event' ∈ log ∧ we_Object event' = WObject d' ∧ object_string c d' = object_string c d ∧ old = bytes d') →
      old = bytes d ∨ checkResourceVersion server.1 && refused ERV old (bytes d) = false) →
   Resources server'.1 !! object_string c d = Some (bytes d)).
Proof.
  intros Hcb Hstr Hlog Hobj Hes Hrun Hend event d Hlast Hd Hf.
  destruct (quiet_cluster_announced log ctx c bytes sum [] es s) as [Hclient Hsplit]; try done.
  { intros ev d0 Hin Hd0. by apply (Hobj ev d0). }
  destruct (Hsplit _ _ Hlast) as (before & after & Hh & Hafter).
  assert (∀ ev d0, ev ∈ handled s → we_Object ev = WObject d0 → ev ∈ log) as Hin.
  { intros ev d0. apply (handled_in_log log ctx (c, [])). by eapply run_pipeline_ok. }
  unfold server'. rewrite Hclient, Hh. cbn [snd app]. rewrite fmap_app, concat_app. cbn [fmap list_fmap concat].
  rewrite !serve_app.
  destruct (serve_events ERV ctx' c bytes sum before server) as [Hcheck Hbefore].
  set (server1 := serve ERV ctx' (concat (announces c bytes sum <$> before)) server) in *.
  destruct (Hbefore (object_string c d)) as [_ Hold].
  assert (Forall (elsewhere c (object_string c d)) after) as Helse.
  { apply Forall_forall. intros ev Hev d0 Hd0 Hs.
    assert (ev ∈ handled s) as Hevh by (rewrite Hh; apply elem_of_app; right; by right).
    destruct (Hobj ev d0 (Hin _ _ Hevh Hd0) Hd0) as (_ & Hg0 & Hn0).
    assert (event ∈ log) as Hlog' by (eapply Hin; [rewrite Hh; apply elem_of_app; right; by left|done]).
    destruct (Hobj event d Hlog' Hd) as (_ & Hg & Hn).
    assert (ev ∈ about (event_key d) after) as Hab; [|by rewrite Hafter in Hab; apply not_elem_of_nil in Hab].
    apply list_elem_of_filter. split; [|done]. unfold has_key. rewrite Hd0. apply String.eqb_eq.
    apply (same_string_same_key c); [done..|congruence|done]. }
  split; intros Htype.
  - rewrite (proj1 (proj2 (serve_events ERV ctx' c bytes sum after _) (object_string c d)) Helse).
    unfold announces. rewrite Hd, Hf, Htype. cbn [onEvent_type]. rewrite serve_one.
    rewrite (proj2 (deliver_served ERV ctx' (SyncDelete (object_id c d)) server1 I)). cbn. by rewrite decide_True.
  - intros Haccept. rewrite (proj1 (proj2 (serve_events ERV ctx' c bytes sum after _) (object_string c d)) Helse).
    unfold announces. rewrite Hd, Hf, Htype. cbn [onEvent_type]. rewrite serve_one.
    rewrite (proj2 (deliver_served ERV ctx' (SyncPut (object_id c d) (sum d) (bytes d)) server1 I)). cbn.
    rewrite decide_True by done. f_equal. unfold saved.
    destruct (Resources server1.1 !! object_string c d) as [old|] eqn:Hr; [|done].
    assert (old = bytes d ∨ checkResourceVersion server.1 && refused ERV old (bytes d) = false) as [->|Hacc].
    { apply Haccept. destruct (Hold old eq_refl) as [?|(ev & d0 & Hev & Hd0 & Hs & ->)]; [by left|].
      right. exists ev, d0. split_and!; [|done..]. eapply Hin; [|done]. rewrite Hh. apply elem_of_app. by left. }
    + by destruct (_ && _).
    + by rewrite Hcheck, Hacc.
Qed.

Lemma sample_objects event (d : @Obj sample_kube) : event ∈ sample_log → we_Object event = WObject d →
  @prepared sample_kube sample_patches sample_clientlib sample_copy_client sample_bytes sample_bytes d ∧
  @GroupVersionKind sample_kube sample_gvk d = ("", "v1", "Pod")%string ∧
  no_sep slash (GetNamespace (@Meta sample_kube d)) = true.
Proof.
  intros Hin Hd. split; [|split; [reflexivity|]].
  - intros e. unfold sample_log in Hin.
    repeat (apply elem_of_cons in Hin as [->|Hin]; [injection Hd as <-; split; [reflexivity|eexists; by split]|]).
    exfalso. exact (not_elem_of_nil event Hin).
  - unfold sample_log in Hin. repeat (apply elem_of_cons in Hin as [->|Hin]; [injection Hd as <-; reflexivity|]).
    exfalso. exact (not_elem_of_nil event Hin).
Qed.
(** The server held an older object; it gets the last of two versions, and nothing of the
    object that is spoken of in between. *)
Lemma quiet_cluster_mirrored_witness :
  let m := @mkMockAdapter unit nil_Callbacks true false
             {[ object_string sample_copy_client
                  (inl [("metadata", JObj [("name", JStr "a"); ("resourceVersion", JStr "3")])]) := "{}" ]} ∅ in
  ∃ s, run (@pipeline_step sample_kube sample_gvk sample_patches sample_clientlib _ sample_log sample_ctx) sample_steps
         (new_pipeline (sample_copy_client, [])) = Some s ∧
    ∃ d, we_Object (sample_watched "a" "3") = WObject d ∧
      Resources (@serve unit sample_patches sample_multierr (λ _, None) sample_ctx (client s).2 (m, tt)).1
        !! object_string sample_copy_client d = Some (sample_bytes d).
Proof.
  intros m. destruct sample_end as (s & Hrun & Hall & _). exists s. split; [exact Hrun|]. eexists. split; [reflexivity|].
  refine (proj2 (@quiet_cluster_mirrored sample_kube sample_gvk sample_patches sample_multierr sample_clientlib unit
    (λ _, None) sample_ctx sample_ctx ("", "v1", "Pod") sample_log sample_copy_client sample_bytes sample_bytes
    sample_steps s (m, tt) eq_refl _ sample_log_events _ _ Hrun _ (sample_watched "a" "3") _ _ eq_refl _) eq_refl _).
  - discriminate.
  - exact sample_objects.
  - repeat constructor.
  - by apply all_handled_ends.
  - reflexivity.
  - reflexivity.
  - intros old _. right. reflexivity.
Defined.
