(* ===== verification/Shadows.v ===== *)
(** * Shadows: a client that sends patches, and the server that applies them.

    With the patch strategy an in-cluster client keeps a shadow of every object it has sent
    and sends the difference to it.  That is right only as long as the server holds what the
    shadow says.  Here the two are compared after any sequence of events: the pipeline of
    the client (Pipeline) on one side, the reference adapter (Mirror) on the other. *)

From S2P Require Export Mirror.

(** ** Patches and what they are applied to *)
(** Between these documents a patch leads to the document it was made for, from any document
    that hashes as the one it was made from.  RFC 7396 gives this for objects without nulls. *)
Definition merges_exactly `{MergePatches} (documents : string → Prop) : Prop := ∀ old new base patch,
  documents old → documents new → CanonicalHash base = CanonicalHash old → CreateMergePatch old new = inl patch →
  ∃ merged h, MergePatch base patch = inl merged ∧ CanonicalHash merged = inl h ∧ CanonicalHash new = inl h.

Section Shadows.
Context `{KubeLib, !GVKLib, MergePatches, MultiErr, ClientLib} {W : Type} (ERV : string → option string) (ctx ctx' : Ctx).
Variables bytes sum : Obj → string.
Variable documents : string → Prop.
Hypothesis exact : merges_exactly documents.
Local Abbreviation C := (Client (list SyncEvent)).
Local Abbreviation X := (MockAdapter W * W)%type.
Implicit Types (c : C) (st : X).

(** The server holds, of every object with a shadow, something that hashes as the shadow. *)
Definition in_step_with (shadows : gmap string string) st : Prop := ∀ k old,
  shadows !! k = Some old → documents old ∧
  ∃ held, Resources st.1 !! k = Some held ∧ CanonicalHash held = CanonicalHash old.
(** A client that sends patches to a server that does not compare versions. *)
Definition patching c st : Prop :=
  c_callbacks c = emitting ∧ c_Strategy c = PatchStrategy ∧ checkResourceVersion st.1 = false.
Definition in_step_now c st : Prop := patching c st ∧ in_step_with (ShadowObjects c) st.
Definition readable c (d : Obj) : Prop := documents (bytes d) ∧ ∀ f, prepared (with_Shadow f c) bytes sum d.

Lemma deliver_plain ev st : plain ev →
  checkResourceVersion (serve ERV ctx' [ev] st).1 = checkResourceVersion st.1 ∧
  ∀ k, Resources (serve ERV ctx' [ev] st).1 !! k = served ERV ev st.1 k.
Proof. intros Hev. apply (deliver_served ERV ctx' ev st Hev). Qed.
Lemma saved_unchecked (m : MockAdapter W) k o : checkResourceVersion m = false → saved ERV m k o = o.
Proof. intros Hc. unfold saved. rewrite Hc. by destruct (Resources m !! k). Qed.

(** A put: shadow and server hold the new bytes. *)
Lemma put_in_step c st id sum1 new :
  in_step_now c st → documents new →
  in_step_now (with_Shadow <[KindName_String id := new]> c) (serve ERV ctx' [SyncPut id sum1 new] st).
Proof.
  intros [(Hcb & Hstr & Hck) Hin] Hnew. destruct (deliver_plain (SyncPut id sum1 new) st I) as [Hc Hr].
  split; [by split_and!; [..|congruence]|]. intros k old. cbn [with_Shadow ShadowObjects]. rewrite Hr. cbn [served].
  destruct (decide (k = KindName_String id)) as [->|Hne].
  - rewrite lookup_insert_eq, saved_unchecked by done. intros [= <-]. split; [done|]. by eexists.
  - rewrite lookup_insert_ne by done. apply Hin.
Qed.
(** A patch: the server applies it to what it holds. *)
Lemma patch_in_step c st id old new patch merged h :
  in_step_now c st → documents new → ShadowObjects c !! KindName_String id = Some old →
  CreateMergePatch old new = inl patch → MergePatch old patch = inl merged → CanonicalHash merged = inl h →
  in_step_now (with_Shadow <[KindName_String id := new]> c) (serve ERV ctx' [SyncPatch id h patch] st).
Proof.
  intros [(Hcb & Hstr & Hck) Hin] Hnew Hsh Hp Hm Hh. destruct (Hin _ _ Hsh) as (Hold & held & Hheld & Heq).
  destruct (exact old new held patch Hold Hnew Heq Hp) as (merged' & h' & Hm' & Hh' & Hn').
  destruct (exact old new old patch Hold Hnew eq_refl Hp) as (merged0 & h0 & Hm0 & Hh0 & Hn0).
  assert (h' = h) as -> by congruence. destruct st as [m w]. cbn [fst] in *.
  assert (serve ERV ctx' [SyncPatch id h patch] (m, w)
    = (with_shadowObjects <[KindName_String id := merged']> (with_Resources <[KindName_String id := merged']> m), w)) as ->.
  { unfold serve. cbn [foldl as_received deliver go_mock ad_PatchObject]. rewrite wrapE_run.
    rewrite (patch_applies ERV ctx' (unversioned id) patch m w held merged' h) by done. by rewrite Hck. }
  split; [by split_and!|]. intros k o. cbn [with_Shadow ShadowObjects fst with_shadowObjects with_Resources Resources].
  destruct (decide (k = KindName_String id)) as [->|Hne].
  - rewrite !lookup_insert_eq. intros [= <-]. split; [done|]. exists merged'. split; [done|congruence].
  - rewrite !lookup_insert_ne by done. apply Hin.
Qed.
Lemma delete_in_step c st id :
  in_step_now c st → in_step_now (with_Shadow (delete (KindName_String id)) c) (serve ERV ctx' [SyncDelete id] st).
Proof.
  intros [(Hcb & Hstr & Hck) Hin]. destruct (deliver_plain (SyncDelete id) st I) as [Hc Hr].
  split; [by split_and!; [..|congruence]|]. intros k old. cbn [with_Shadow ShadowObjects]. rewrite Hr. cbn [served].
  destruct (decide (k = KindName_String id)) as [->|Hne]; [by rewrite lookup_delete_eq|].
  rewrite lookup_delete_ne by done. apply Hin.
Qed.
Lemma verify_in_step c st id sum1 : in_step_now c st → in_step_now c (serve ERV ctx' [SyncVerify id sum1] st).
Proof.
  intros [(Hcb & Hstr & Hck) Hin]. destruct (deliver_plain (SyncVerify id sum1) st I) as [Hc Hr].
  split; [by split_and!; [..|congruence]|]. intros k old. rewrite Hr. apply Hin.
Qed.

(** What a step of the client leaves: its shadow objects, what it has sent, and a server in step. *)
Definition leaves_in_step c st (e : list SyncEvent) (r : outcome unit * (C * list SyncEvent)) : Prop :=
  ∃ f evs, r.2 = (with_Shadow f c, e ++ evs) ∧ in_step_now (with_Shadow f c) (serve ERV ctx' evs st).
Lemma leaves_nothing c st e o : in_step_now c st → leaves_in_step c st e (o, (c, e)).
Proof. exists (λ m, m), []. rewrite (right_id_L [] (++)). by destruct c. Qed.
Lemma callPutOrPatch_in_step c st id sum1 new e :
  in_step_now c st → documents new → leaves_in_step c st e (callPutOrPatch ctx id sum1 "" new (c, e)).
Proof.
  intros Hin Hnew. pose proof Hin as [(Hcb & Hstr & _) _].
  unfold callPutOrPatch, c_get, getW. go_run. cbn [fst]. rewrite Hstr, String.eqb_refl. cbn [String.eqb]. go_run. cbn [fst].
  destruct (ShadowObjects c !! KindName_String id) as [old|] eqn:Hsh.
  - destruct (CreateMergePatch old new) as [patch|err] eqn:Hp; go_run; [|by apply leaves_nothing].
    destruct (emptyPatch_Match patch); go_run; [by apply leaves_nothing|].
    destruct (MergePatch old patch) as [merged|err] eqn:Hm; go_run; [|by apply leaves_nothing].
    destruct (CanonicalHash merged) as [h|err] eqn:Hh; go_run; [|by apply leaves_nothing].
    rewrite Hcb. exists <[KindName_String id := new]>, [SyncPatch id h patch]. split; [done|].
    by apply (patch_in_step c st id old new patch merged h).
  - rewrite Hcb. exists <[KindName_String id := new]>, [SyncPut id sum1 new]. split; [done|]. by apply put_in_step.
Qed.
Lemma process_event_in_step c st event e :
  in_step_now c st → (∀ d, we_Object event = WObject d → readable c d) →
  leaves_in_step c st e (process_event ctx event (c, e)).
Proof.
  intros Hin Hread. pose proof Hin as [(Hcb & Hstr & _) _].
  unfold process_event. destruct (we_Object event) as [d|v|]; [|by apply leaves_nothing..].
  destruct (Hread d eq_refl) as [Hdoc Hprep]. destruct (Hprep (λ m, m) e) as (Hsum & d' & Hbytes & Hsum').
  assert (with_Shadow (λ m, m) c = c) as Hid by (by destruct c). rewrite Hid in Hsum, Hbytes, Hsum'.
  unfold onEvent, c_get, getW. go_run. cbn [fst].
  destruct (isFiltered c (Some d)); [by apply leaves_nothing|].
  destruct (onEvent_type (we_Type event)); go_run; [| | |by apply leaves_nothing].
  - rewrite Hsum. go_run. rewrite Hcb. exists (λ m, m), [SyncVerify (object_id c d) (sum d)]. rewrite Hid.
    split; [done|]. by apply verify_in_step.
  - rewrite Hbytes. go_run. rewrite Hsum'. go_run.
    destruct (callPutOrPatch_in_step c st (object_id c d) (sum d) (bytes d) e Hin Hdoc) as (f & evs & Hr & Hin').
    unfold object_id in Hr. destruct (callPutOrPatch _ _ _ _ _ _) as [[[]|err|why] x] eqn:Hc; cbn in Hr; subst x;
      go_run; by exists f, evs.
  - rewrite Hcb, Hstr, String.eqb_refl. exists (delete (KindName_String (object_id c d))), [SyncDelete (object_id c d)].
    split; [done|]. by apply delete_in_step.
Qed.
Lemma events_in_step l c st e :
  in_step_now c st → (∀ event d, event ∈ l → we_Object event = WObject d → readable c d) →
  leaves_in_step c st e (mfor (process_event ctx) l (c, e)).
Proof.
  revert c st e. induction l as [|event l IH]; intros c st e Hin Hread; [by apply leaves_nothing|].
  cbn [mfor]. rewrite bind_run.
  destruct (process_event_in_step c st event e Hin) as (f & evs & Hr & Hin'); [intros d; by apply Hread; left|].
  destruct (process_event ctx event (c, e)) as [[a|err|why] x]; cbn in Hr; subst x; [|by exists f, evs..].
  destruct (IH (with_Shadow f c) (serve ERV ctx' evs st) (e ++ evs) Hin') as (g & evs' & Hr' & Hin'').
  { intros ev d Hev Hd. destruct (Hread ev d) as [Hdoc Hprep]; [by right|done|]. split; [done|].
    intros g. exact (Hprep (λ m, g (f m))). }
  exists (λ m, g (f m)), (evs ++ evs'). rewrite Hr', (assoc_L (++)). split; [done|]. by rewrite serve_app.
Qed.
End Shadows.

(** C4. Shadows tell the truth: at every moment of every run of the goroutines of a client that
    sends patches, a server that has handled its messages in order holds, of every object with
    a shadow, something that hashes as the shadow, however events were interleaved and
    coalesced and whichever patches were held back as empty; so every patch is made for what
    it will be applied to.  The server does not compare versions, and its calls do not change
    the client meanwhile; patches merge exactly; and the client has not panicked. *)
Theorem shadows_in_step `{KubeLib, !GVKLib, MergePatches, MultiErr, ClientLib} {W} ERV ctx ctx' documents log
    (c : Client (list SyncEvent)) bytes sum es s (server : MockAdapter W * W) :
  merges_exactly documents → Forall log_event log →
  (∀ event d, event ∈ log → we_Object event = WObject d → readable bytes sum documents c d) →
  in_step_now documents c server →
  Forall by_itself es → run (pipeline_step log ctx) es (new_pipeline (c, [])) = Some s → ¬ panicked s →
  in_step_now documents (client s).1 (serve ERV ctx' (client s).2 server).
Proof.
  intros Hexact Hlog Hread Hin Hes Hrun Hp.
  assert (pipeline_ok log ctx (c, []) s) as Hok by by eapply run_pipeline_ok.
  pose proof (only_events _ _ _ _ _ Hes Hrun) as Hhist.
  destruct (events_in_step ERV ctx ctx' bytes sum documents Hexact (handled s) c server [] Hin) as (f & evs & Hr & Hin').
  { intros event d Hev Hd. apply (Hread event d); [|done]. by eapply handled_in_log. }
  destruct Hok as [_ _ _ _ Hcl]. rewrite Hhist, mfor_map in Hcl. cbn in Hcl.
  assert (mfor (process_event ctx) (handled s) (c, []) = (Ret tt, client s)) as Hall.
  { unfold panicked in Hp. destruct (loop s); [done..|]. exfalso. by eauto. }
  rewrite Hall in Hr. cbn in Hr. by rewrite Hr.
Qed.

(** An object is put, and changed before the server is asked again. *)
Definition sample_patch_steps : list (@PipelineEvent sample_kube (list SyncEvent)) :=
  [Watches; Evicts (sample_key "a"); TakesEvent; HandlesEvent; Watches; Watches; Evicts (sample_key "a"); TakesEvent;
   HandlesEvent].
Definition sample_patch_run : option (@Pipeline sample_kube (list SyncEvent)) :=
  run (@pipeline_step sample_kube sample_gvk sample_patches sample_clientlib _ sample_log sample_ctx) sample_patch_steps
    (new_pipeline (sample_cluster_client ∅, [])).
Definition sent_kind (ev : SyncEvent) : string :=
  match ev with SyncPut _ _ _ => "put" | SyncPatch _ _ _ => "patch" | _ => "other" end.
Definition sample_view (s : @Pipeline sample_kube (list SyncEvent)) : list string * bool :=
  (sent_kind <$> (client s).2, match loop s with LoopPanics _ => true | _ => false end).
Lemma shadows_in_step_witness :
  let m := @NewMockAdapter unit true in
  ∃ s, sample_patch_run = Some s ∧
    sent_kind <$> (client s).2 = ["put"; "patch"]%string ∧
    @in_step_now sample_kube sample_patches unit (λ _, True) (client s).1
      (@serve unit sample_patches sample_multierr (λ _, None) sample_ctx (client s).2 (m, tt)).
Proof.
  intros m.
  assert (sample_view <$> sample_patch_run = Some (["put"; "patch"]%string, false)) as Hcomp by (vm_compute; reflexivity).
  apply fmap_Some in Hcomp as (s & Hrun & Hs). pose proof (f_equal snd Hs) as Hloop. apply (f_equal fst) in Hs.
  cbn [sample_view fst snd] in Hs, Hloop. exists s. split; [exact Hrun|]. split; [exact (eq_sym Hs)|].
  apply (@shadows_in_step sample_kube sample_gvk sample_patches sample_multierr sample_clientlib unit (λ _, None) sample_ctx
    sample_ctx (λ _, True) sample_log (sample_cluster_client ∅) sample_bytes sample_bytes sample_patch_steps s (m, tt)).
  - intros old new base patch _ _ _ Hp. injection Hp as <-. exists new, new. split; [reflexivity|split; reflexivity].
  - exact sample_log_events.
  - intros event d Hin Hd. split; [done|]. intros f e. unfold sample_log in Hin.
    repeat (apply elem_of_cons in Hin as [->|Hin]; [injection Hd as <-; split; [reflexivity|eexists; by split]|]).
    exfalso. exact (not_elem_of_nil event Hin).
  - split; [by split_and!|]. intros k old Hk. exfalso. cbn in Hk. by rewrite lookup_empty in Hk.
  - repeat constructor.
  - exact Hrun.
  - intros [why Hl]. by rewrite Hl in Hloop.
Defined.
