(* ===== verification/Base64.v ===== *)
(** * Base64: [base64.StdEncoding], in which [json] writes a [[]byte].

    The encoder pads to groups of four; the decoder skips line breaks and rejects
    everything else that is not a padded text. *)

From S2P Require Export Domain.

Definition alphabet : string :=
  "ABCDEFGHIJKLMNOPQRSTUVWXYZabcdefghijklmnopqrstuvwxyz0123456789+/".
Definition pad : ascii := "=".

Definition zcode (c : ascii) : Z := Z.of_nat (nat_of_ascii c).
Definition zchar (z : Z) : ascii := ascii_of_nat (Z.to_nat z).

(** The character of a 6-bit value, and back. *)
Definition b64char (v : Z) : ascii := default pad (String.get (Z.to_nat v) alphabet).
Fixpoint find_char (c : ascii) (s : string) (i : Z) : option Z :=
  match s with
  | EmptyString => None
  | String c' s' => if Ascii.eqb c c' then Some i else find_char c s' (i + 1)
  end.
Definition b64val (c : ascii) : option Z := find_char c alphabet 0.

(** The 6-bit values of a group, from its bytes, and back. *)
Definition sextet1 (a : Z) : Z := a / 4.
Definition sextet2 (a b : Z) : Z := (a mod 4) * 16 + b / 16.
Definition sextet3 (b c : Z) : Z := (b mod 16) * 4 + c / 64.
Definition sextet4 (c : Z) : Z := c mod 64.
Definition octet1 (v1 v2 : Z) : Z := v1 * 4 + v2 / 16.
Definition octet2 (v2 v3 : Z) : Z := (v2 mod 16) * 16 + v3 / 4.
Definition octet3 (v3 v4 : Z) : Z := (v3 mod 4) * 64 + v4.

Fixpoint base64_encode (s : string) : string :=
  match s with
  | EmptyString => EmptyString
  | String a EmptyString =>
      String (b64char (sextet1 (zcode a))) (String (b64char (sextet2 (zcode a) 0))
        (String pad (String pad EmptyString)))
  | String a (String b EmptyString) =>
      String (b64char (sextet1 (zcode a))) (String (b64char (sextet2 (zcode a) (zcode b)))
        (String (b64char (sextet3 (zcode b) 0)) (String pad EmptyString)))
  | String a (String b (String c s')) =>
      String (b64char (sextet1 (zcode a))) (String (b64char (sextet2 (zcode a) (zcode b)))
        (String (b64char (sextet3 (zcode b) (zcode c)))
           (String (b64char (sextet4 (zcode c))) (base64_encode s'))))
  end.

(** Groups of four characters; padding ends the text. *)
Fixpoint decode_groups (s : string) : option string :=
  match s with
  | EmptyString => Some EmptyString
  | String c1 (String c2 (String c3 (String c4 s'))) =>
      v1 ← b64val c1;
      v2 ← b64val c2;
      if Ascii.eqb c3 pad then
        if Ascii.eqb c4 pad && String.eqb s' "" then Some (chr (zchar (octet1 v1 v2))) else None
      else
        v3 ← b64val c3;
        if Ascii.eqb c4 pad then
          if String.eqb s' "" then
            Some (String (zchar (octet1 v1 v2)) (chr (zchar (octet2 v2 v3))))
          else None
        else
          v4 ← b64val c4;
          rest ← decode_groups s';
          Some (String (zchar (octet1 v1 v2)) (String (zchar (octet2 v2 v3))
                 (String (zchar (octet3 v3 v4)) rest)))
  | _ => None
  end.
Fixpoint skip_breaks (s : string) : string :=
  match s with
  | EmptyString => EmptyString
  | String c s' =>
      if Ascii.eqb c "010" || Ascii.eqb c "013" then skip_breaks s' else String c (skip_breaks s')
  end.
Definition base64_decode (s : string) : option string := decode_groups (skip_breaks s).

(** ** The round trip *)
Lemma zcode_range c : 0 ≤ zcode c < 256.
Proof. unfold zcode. pose proof (nat_ascii_bounded c). lia. Qed.
Lemma zchar_code c : zchar (zcode c) = c.
Proof. unfold zchar, zcode. by rewrite Nat2Z.id, ascii_nat_embedding. Qed.

(** Facts about the 64 characters, by enumeration. *)
Definition b64_fact (v : Z) : bool :=
  match b64val (b64char v) with Some v' => Z.eqb v v' | None => false end
  && negb (Ascii.eqb (b64char v) pad) && negb (Ascii.eqb (b64char v) "010")
  && negb (Ascii.eqb (b64char v) "013") && (zcode (b64char v) <? 128).
Lemma b64_facts v : 0 ≤ v < 64 → b64_fact v = true.
Proof.
  intros Hv. assert (forallb b64_fact (map Z.of_nat (seq 0 64)) = true) as Hall by by vm_compute.
  rewrite forallb_forall in Hall. apply Hall, in_map_iff. exists (Z.to_nat v).
  split; [lia|]. apply in_seq. lia.
Qed.
Lemma b64_char_spec v : 0 ≤ v < 64 →
  b64val (b64char v) = Some v ∧ Ascii.eqb (b64char v) pad = false ∧
  Ascii.eqb (b64char v) "010" || Ascii.eqb (b64char v) "013" = false ∧ zcode (b64char v) < 128.
Proof.
  intros Hv. pose proof (b64_facts v Hv) as Hf. unfold b64_fact in Hf.
  rewrite !andb_true_iff, !negb_true_iff in Hf. destruct Hf as ((((H1 & H2) & H3) & H4) & H5).
  destruct (b64val (b64char v)); [|done]. apply Z.eqb_eq in H1 as ->.
  rewrite H3, H4. apply Z.ltb_lt in H5. done.
Qed.

Ltac euclid := unfold sextet1, sextet2, sextet3, sextet4, octet1, octet2, octet3 in *;
  Z.to_euclidean_division_equations; lia.

Lemma sextets_range a b c : 0 ≤ a < 256 → 0 ≤ b < 256 → 0 ≤ c < 256 →
  0 ≤ sextet1 a < 64 ∧ 0 ≤ sextet2 a b < 64 ∧ 0 ≤ sextet3 b c < 64 ∧ 0 ≤ sextet4 c < 64.
Proof. intros. split_and!; euclid. Qed.
Lemma octet1_sextets a b : 0 ≤ a < 256 → 0 ≤ b < 256 → octet1 (sextet1 a) (sextet2 a b) = a.
Proof. intros. euclid. Qed.
Lemma octet2_sextets a b c : 0 ≤ a < 256 → 0 ≤ b < 256 → 0 ≤ c < 256 →
  octet2 (sextet2 a b) (sextet3 b c) = b.
Proof. intros. euclid. Qed.
Lemma octet3_sextets b c : 0 ≤ b < 256 → 0 ≤ c < 256 → octet3 (sextet3 b c) (sextet4 c) = c.
Proof. intros. euclid. Qed.

(** Strings are recursed over three bytes at a time. *)
Lemma string_ind3 (P : string → Prop) :
  P "" → (∀ a, P (chr a)) → (∀ a b, P (String a (chr b))) →
  (∀ a b c s, P s → P (String a (String b (String c s)))) → ∀ s, P s.
Proof.
  intros H0 H1 H2 H3. fix IH 1. intros [|a [|b [|c s]]]; [exact H0|apply H1|apply H2|].
  apply H3, IH.
Qed.

Lemma skip_breaks_encode s : skip_breaks (base64_encode s) = base64_encode s.
Proof.
  induction s as [|a|a b|a b c s IH] using string_ind3; [done|..];
    cbn -[b64char sextet1 sextet2 sextet3 sextet4];
    pose proof (zcode_range a); try pose proof (zcode_range b); try pose proof (zcode_range c);
    repeat match goal with
    | |- context [b64char ?v] =>
        match goal with
        | H : Ascii.eqb (b64char v) "010" || _ = false |- _ => fail 1
        | _ => assert (0 ≤ v < 64) by euclid;
               pose proof (proj1 (proj2 (proj2 (b64_char_spec v ltac:(assumption)))))
        end
    end;
    repeat match goal with H : _ || _ = false |- _ => rewrite H; clear H end;
    rewrite ?IH; done.
Qed.

Lemma decode_groups_encode s : decode_groups (base64_encode s) = Some s.
Proof.
  induction s as [|a|a b|a b c s IH] using string_ind3; [done|..];
    cbn -[b64char b64val sextet1 sextet2 sextet3 sextet4 octet1 octet2 octet3 zchar];
    pose proof (zcode_range a); try pose proof (zcode_range b); try pose proof (zcode_range c).
  - destruct (sextets_range (zcode a) 0 0) as (Hs1 & Hs2 & _); [lia..|].
    rewrite (proj1 (b64_char_spec _ Hs1)), (proj1 (b64_char_spec _ Hs2)). cbn -[zchar b64char b64val sextet1 sextet2 sextet3 sextet4 octet1 octet2 octet3].
    by rewrite octet1_sextets, zchar_code by lia.
  - destruct (sextets_range (zcode a) (zcode b) 0) as (Hs1 & Hs2 & Hs3 & _); [lia..|].
    destruct (b64_char_spec _ Hs3) as (Hv3 & Hp3 & _).
    rewrite (proj1 (b64_char_spec _ Hs1)), (proj1 (b64_char_spec _ Hs2)). cbn -[zchar b64char b64val sextet1 sextet2 sextet3 sextet4 octet1 octet2 octet3].
    rewrite Hp3, Hv3. cbn -[zchar b64char b64val sextet1 sextet2 sextet3 sextet4 octet1 octet2 octet3].
    by rewrite octet1_sextets, octet2_sextets, !zchar_code by lia.
  - destruct (sextets_range (zcode a) (zcode b) (zcode c)) as (Hs1 & Hs2 & Hs3 & Hs4); [lia..|].
    destruct (b64_char_spec _ Hs3) as (Hv3 & Hp3 & _).
    destruct (b64_char_spec _ Hs4) as (Hv4 & Hp4 & _).
    rewrite (proj1 (b64_char_spec _ Hs1)), (proj1 (b64_char_spec _ Hs2)). cbn -[zchar b64char b64val sextet1 sextet2 sextet3 sextet4 octet1 octet2 octet3].
    rewrite Hp3, Hv3. cbn -[zchar b64char b64val sextet1 sextet2 sextet3 sextet4 octet1 octet2 octet3]. rewrite Hp4, Hv4, IH. cbn -[zchar].
    by rewrite octet1_sextets, octet2_sextets, octet3_sextets, !zchar_code by lia.
Qed.

(** Decoding what was encoded gives the bytes back. *)
Lemma base64_round_trip s : base64_decode (base64_encode s) = Some s.
Proof. unfold base64_decode. by rewrite skip_breaks_encode, decode_groups_encode. Qed.

(** An ASCII text is valid UTF-8. *)
Definition ascii_text (s : string) : Prop :=
  Forall (λ c, (code c < 128)%N) (String.list_ascii_of_string s).
Lemma ascii_text_ok s : ascii_text s → text_ok s.
Proof.
  unfold ascii_text, text_ok, sanitize. induction s as [|c s IH]; [done|].
  cbn [String.list_ascii_of_string]. intros [Hc Hs]%Forall_cons.
  cbn -[utf8_width]. assert ((code c <? 128)%N = true) as -> by (by apply N.ltb_lt).
  by rewrite IH.
Qed.

Lemma zcode_code c : zcode c = Z.of_N (code c).
Proof. unfold zcode, code, nat_of_ascii. by rewrite N_nat_Z. Qed.

Lemma base64_text_ok s : text_ok (base64_encode s).
Proof.
  apply ascii_text_ok. unfold ascii_text.
  assert (∀ v, 0 ≤ v < 64 → (code (b64char v) < 128)%N) as Hc.
  { intros v Hv. destruct (b64_char_spec v Hv) as (_ & _ & _ & Hz).
    rewrite zcode_code in Hz. lia. }
  induction s as [|a|a b|a b c s IH] using string_ind3;
    cbn -[b64char sextet1 sextet2 sextet3 sextet4 code];
    repeat (constructor; [first [apply Hc|done]|]); try exact IH; try constructor;
    try pose proof (zcode_range a); try pose proof (zcode_range b); try pose proof (zcode_range c);
    euclid.
Qed.
