(* ===== verification/HttpProxy.v ===== *)
(** * HttpProxy: dialing through a proxy, [utils/http_proxy.go].

    A connection is a handle of the network; what is written on it and read from it, and the
    parser of URLs, are parameters. *)

From S2P Require Export Base64 Prelude GoStd.

(** [url.URL], as far as it is used; a user is [None] for the nil pointer. *)
Record ProxyURL : Type := mkProxyURL { u_Host : string; u_User : option (string * option string) }.
(** The request that asks a proxy for a tunnel. *)
Record ConnectRequest : Type := mkConnectRequest {
  cq_Method : string;
  cq_URL : string;
  cq_Authorization : option string
}.
(** The answer of the proxy: its status as a number and as text, or an error with or without a response. *)
Inductive ConnectResponse : Type :=
| Answered (status : Z) (line : string)
| Unreadable (e : gerror).

Record httpProxy : Type := mkHttpProxy { p_host : string; haveAuth : bool; p_username : string; p_password : string }.
Definition newHTTPProxy (uri : ProxyURL) : httpProxy :=
  match u_User uri with
  | Some (name, password) => mkHttpProxy (u_Host uri) true name (default "" password)
  | None => mkHttpProxy (u_Host uri) false "" ""
  end.

Section Proxy.
Context {W : Type}.
Variable ForwardDial : string → string → W → (nat + gerror) * W.
Variable CloseConn : nat → W → W.
Variable WriteRequest : nat → ConnectRequest → W → option gerror * W.
Variable ReadResponse : nat → W → ConnectResponse * W.
(** [url.Parse] and [http.NewRequest], which can refuse what they are given. *)
Variable ParseAddr : string → string + gerror.
Variable NewRequest : string → unit + gerror.

(** [_ = c.Close(); return nil, err]. *)
Definition close_and_fail {A} (c : nat) (e : gerror) : M W A := modifyW (CloseConn c) ;; throw e.
Definition Dial (s : httpProxy) (addr : string) : M W nat := λ w,
  match ForwardDial "tcp" (p_host s) w with
  | (inr e, w) => (Throw (Wrapf "dial proxy" e), w)
  | (inl c, w) =>
      match ParseAddr ("http://" ++ addr)%string with
      | inr e => close_and_fail c (Wrapf "parse addr" e) w
      | inl reqURL =>
          match NewRequest reqURL with
          | inr e => close_and_fail c (Wrapf "create CONNECT request" e) w
          | inl _ =>
              let credential := base64_encode (p_username s ++ ":" ++ p_password s)%string in
              let req := mkConnectRequest "CONNECT" reqURL
                           (if haveAuth s then Some ("Basic " ++ credential)%string else None) in
              match WriteRequest c req w with
              | (Some e, w) => close_and_fail c (Wrapf "write CONNECT request" e) w
              | (None, w) =>
                  match ReadResponse c w with
                  | (Unreadable e, w) => close_and_fail c (Wrapf "read CONNECT response" e) w
                  | (Answered status line, w) =>
                      if negb (status =? 200) then
                        close_and_fail c (Errorf ("CONNECT response: " ++ line)%string) w
                      else (Ret c, w)
                  end
              end
          end
      end
  end.
End Proxy.

(** [GetDialer]: which proxy is used.  [None] is the process that exits at a proxy it cannot
    parse; otherwise the custom one, if one is set. *)
Section Choice.
Variable Getenv : string → string.
Variable ParseURL : string → option ProxyURL.
Definition proxy_env (proxyURI : option ProxyURL) (envVar : string) : option (option ProxyURL) :=
  if String.eqb (Getenv envVar) "" then Some proxyURI
  else match ParseURL (Getenv envVar) with Some uri => Some (Some uri) | None => None end.
Definition GetDialer_proxy : option (option ProxyURL) :=
  uri ← proxy_env None "HTTP_PROXY"; proxy_env uri "HTTPS_PROXY".
End Choice.

Section Facts.
Context {W : Type}.
Variable ForwardDial : string → string → W → (nat + gerror) * W.
Variable CloseConn : nat → W → W.
Variable WriteRequest : nat → ConnectRequest → W → option gerror * W.
Variable ReadResponse : nat → W → ConnectResponse * W.
Variable open : W → gset nat.
(** The network: a dial opens one connection, a close closes it, and data do neither. *)
Record network_laws : Prop := {
  dial_opens : ∀ n a w, match ForwardDial n a w with
    | (inl c, w') => (c ∉ open w) ∧ open w' = ({[c]} ∪ open w)
    | (inr _, w') => open w' = open w end;
  close_closes : ∀ c w, open (CloseConn c w) = open w ∖ {[c]};
  write_keeps : ∀ c q w, open (WriteRequest c q w).2 = open w;
  read_keeps : ∀ c w, open (ReadResponse c w).2 = open w
}.
End Facts.

(** Dialing through a proxy gives a connection only after the proxy has answered 200 to a
    CONNECT request, which carries the credentials exactly when there are some; every other
    outcome is an error, and no connection is left open by it. *)
Theorem proxy_dial {W} ForwardDial CloseConn WriteRequest ReadResponse (open : W → gset nat) ParseAddr NewRequest
    s addr (w : W) (Hnet : network_laws ForwardDial CloseConn WriteRequest ReadResponse open) :
  match Dial ForwardDial CloseConn WriteRequest ReadResponse ParseAddr NewRequest s addr w with
  | (Ret c, w') => (c ∉ open w) ∧ open w' = ({[c]} ∪ open w) ∧
      ∃ req w1 w2, WriteRequest c req w1 = (None, w2) ∧ (∃ line, ReadResponse c w2 = (Answered 200 line, w')) ∧
        cq_Method req = "CONNECT" ∧ (is_Some (cq_Authorization req) ↔ haveAuth s = true)
  | (Throw _, w') => open w' = open w
  | (Panic _, _) => False
  end.
Proof.
  destruct Hnet as [Hdial Hclose Hwrite Hread]. unfold Dial. specialize (Hdial "tcp" (p_host s) w).
  destruct (ForwardDial "tcp" (p_host s) w) as [[c|e] w1]; [|done]. destruct Hdial as [Hc Ho].
  assert (∀ e w', open w' = open w1 →
    match close_and_fail (A := nat) CloseConn c e w' with
    | (Throw _, w2) => open w2 = open w | _ => False end) as Hfail.
  { intros e w' Hw'. unfold close_and_fail, modifyW. rewrite bind_run, throw_run, Hclose, Hw', Ho. set_solver. }
  assert (∀ e w' (P : nat → W → Prop), open w' = open w1 →
    match close_and_fail (A := nat) CloseConn c e w' with
    | (Ret c, w2) => P c w2 | (Throw _, w2) => open w2 = open w | (Panic _, _) => False end) as Hf.
  { intros e w' P Hw'. specialize (Hfail e w' Hw'). by destruct (close_and_fail CloseConn c e w') as [[]]. }
  destruct (ParseAddr _) as [url|e]; [|by apply (Hf _ _ (λ _ _, _))].
  destruct (NewRequest url) as [u|e]; [|by apply (Hf _ _ (λ _ _, _))].
  cbv zeta. match goal with |- context [WriteRequest c ?r w1] => set (req := r) end.
  specialize (Hwrite c req w1). destruct (WriteRequest c req w1) as [[e|] w2] eqn:Hrun; cbn [snd] in Hwrite;
    [by apply (Hf _ _ (λ _ _, _))|].
  specialize (Hread c w2). destruct (ReadResponse c w2) as [[status line|e] w3] eqn:Hresp; cbn [snd] in Hread;
    [|apply (Hf _ _ (λ _ _, _)); congruence].
  destruct (Z.eqb_spec status 200) as [->|Hne]; cbn [negb]; [|apply (Hf _ _ (λ _ _, _)); congruence].
  split_and!; [done|congruence|]. exists req, w1, w2. split_and!; [done|by exists line|done|].
  subst req. cbn. destruct (haveAuth s); split; (done || intros [? ?]; done).
Qed.

(** A proxy that answers with a given status. *)
Definition sample_dial (status : Z) : M (gset nat) nat :=
  Dial (λ _ _ w, (inl (fresh w), {[fresh w]} ∪ w)) (λ c w, w ∖ {[c]}) (λ _ _ w, (None, w))
    (λ _ w, (Answered status "", w)) (λ u, inl u) (λ _, inl tt)
    (newHTTPProxy (mkProxyURL "proxy:3128" (Some ("user"%string, Some "secret"%string)))) "server:443".
Lemma proxy_dial_witness :
  (sample_dial 407 ∅).2 = ∅ ∧ ∃ c w', sample_dial 200 ∅ = (Ret c, w') ∧ w' = {[c]} ∪ ∅.
Proof.
  assert (∀ status, network_laws (λ _ _ w, (inl (fresh w), {[fresh w]} ∪ w)) (λ c w, w ∖ {[c]}) (λ _ _ w, (None, w))
            (λ _ w, (Answered status "", w)) (id : gset nat → gset nat)) as Hnet.
  { intros status. split; try done. intros n a w. split; [apply is_fresh|done]. }
  pose proof (λ status, proxy_dial _ _ _ _ id (λ u, inl u) (λ _, inl tt)
    (newHTTPProxy (mkProxyURL "proxy:3128" (Some ("user"%string, Some "secret"%string)))) "server:443" ∅ (Hnet status)) as Hdial.
  split.
  - assert (∃ e, (sample_dial 407 ∅).1 = Throw e) as [e He] by (vm_compute; by eexists).
    specialize (Hdial 407). fold (sample_dial 407) in Hdial. destruct (sample_dial 407 ∅) as [o w'].
    cbn in He. subst. exact Hdial.
  - assert (∃ c, (sample_dial 200 ∅).1 = Ret c) as [c Hc] by (vm_compute; by eexists).
    specialize (Hdial 200). fold (sample_dial 200) in Hdial. destruct (sample_dial 200 ∅) as [o w'].
    cbn in Hc. subst. exists c, w'. split; [reflexivity|exact (proj1 (proj2 Hdial))].
Defined.
