(* ===== verification/Messages.v ===== *)
(** * Messages: the payloads of the message queue, [messaging/messages.go].

    One record per struct, with the field names of its [json] tags.  Byte slices are
    written in base64; an empty string stands for an empty slice as for a nil one, which
    the decoder does not tell apart. *)

From S2P Require Export Base64 Interface.

Record DeleteObjectMessage : Type := mkDeleteObjectMessage {
  dm_Cluster : string;
  dm_Account : string;
  dm_Depth : Z;
  dm_Kind : string;
  dm_MsgId : string;
  dm_Name : string;
  dm_Namespace : string;
  dm_ResourceVersion : Z
}.
Record GetObjectMessage : Type := mkGetObjectMessage {
  gm_BaseObject : string;
  gm_Cluster : string;
  gm_Account : string;
  gm_Depth : Z;
  gm_Kind : string;
  gm_MsgId : string;
  gm_Name : string;
  gm_Namespace : string;
  gm_ResourceVersion : Z
}.
Record PatchObjectMessage : Type := mkPatchObjectMessage {
  pm_Checksum : string;
  pm_Cluster : string;
  pm_Account : string;
  pm_Depth : Z;
  pm_Kind : string;
  pm_MsgId : string;
  pm_Name : string;
  pm_Namespace : string;
  pm_Patch : string;
  pm_ResourceVersion : Z
}.
Record PutObjectMessage : Type := mkPutObjectMessage {
  um_Checksum : string;
  um_Cluster : string;
  um_Account : string;
  um_Depth : Z;
  um_Kind : string;
  um_MsgId : string;
  um_Name : string;
  um_Namespace : string;
  um_Object : string;
  um_ResourceVersion : Z
}.
Record VerifyObjectMessage : Type := mkVerifyObjectMessage {
  vm_Checksum : string;
  vm_Cluster : string;
  vm_Account : string;
  vm_Depth : Z;
  vm_Kind : string;
  vm_MsgId : string;
  vm_Name : string;
  vm_Namespace : string;
  vm_ResourceVersion : Z
}.
Record ServerConnectedMessage : Type := mkServerConnectedMessage {
  sc_Cluster : string;
  sc_Account : string;
  sc_Depth : Z;
  sc_MsgId : string
}.
Record ReconciliationRequestObject : Type := mkReconciliationRequestObject {
  ro_Checksum : string;
  ro_ResourceVersion : Z;
  ro_Name : string;
  ro_Namespace : string
}.

(** A reconciliation request; [KindToObjects] is [None] for the nil map. *)
Record ReconciliationRequestMessage : Type := mkReconciliationRequestMessage {
  rr_Cluster : string;
  rr_Account : string;
  rr_Depth : Z;
  rr_MsgId : string;
  rr_ServerInitiated : bool;
  rr_KindToObjects : option (gmap string (GoSlice ReconciliationRequestObject))
}.
Record ReconciliationRequestMessageBatch : Type := mkReconciliationRequestMessageBatch {
  rb_Depth : Z;
  rb_MsgId : string;
  rb_Requests : GoSlice ReconciliationRequestMessage
}.
Record ConnectedClient : Type := mkConnectedClient {
  cc_Cluster : string;
  cc_Account : string;
  cc_SynchronizerVersion : string;
  cc_HelmVersion : string;
  cc_ConnectionId : string;
  cc_ConnectionTime : Z;
  cc_GitVersion : string;
  cc_CloudProvider : string;
  cc_ClusterUID : string;
  cc_ResourceGroup : string
}.
Record ConnectedClientsMessage : Type := mkConnectedClientsMessage {
  cm_ServerName : string;
  cm_Clients : list ConnectedClient;
  cm_Timestamp : Z;
  cm_Depth : Z;
  cm_MsgId : string
}.

(** ** Codecs *)
Definition enc_bytes (b : string) : json := JStr (base64_encode b).
Definition dec_bytes (prev : string) (j : json) : option string :=
  match j with JNull => Some "" | JStr s => base64_decode s | _ => None end.
Definition dec_bool (prev : bool) (j : json) : option bool :=
  match j with JNull => Some prev | JBool b => Some b | _ => None end.

Definition enc_DeleteObjectMessage (m : DeleteObjectMessage) : json :=
  JObj [("cluster", JStr (dm_Cluster m));
        ("account", JStr (dm_Account m));
        ("depth", enc_int (dm_Depth m));
        ("kind", JStr (dm_Kind m));
        ("msgId", JStr (dm_MsgId m));
        ("name", JStr (dm_Name m));
        ("namespace", JStr (dm_Namespace m));
        ("resourceVersion", enc_int (dm_ResourceVersion m))].
Definition dec_DeleteObjectMessage (prev : DeleteObjectMessage) (ms : list (string * json)) : option DeleteObjectMessage :=
  x0 ← field "cluster" dec_string (dm_Cluster prev) ms;
  x1 ← field "account" dec_string (dm_Account prev) ms;
  x2 ← field "depth" dec_int (dm_Depth prev) ms;
  x3 ← field "kind" dec_string (dm_Kind prev) ms;
  x4 ← field "msgId" dec_string (dm_MsgId prev) ms;
  x5 ← field "name" dec_string (dm_Name prev) ms;
  x6 ← field "namespace" dec_string (dm_Namespace prev) ms;
  x7 ← field "resourceVersion" dec_int (dm_ResourceVersion prev) ms;
  Some (mkDeleteObjectMessage x0 x1 x2 x3 x4 x5 x6 x7).
#[export] Instance Wire_DeleteObjectMessage : Wire DeleteObjectMessage := {
  enc := enc_DeleteObjectMessage;
  dec := dec_struct dec_DeleteObjectMessage;
  zero := mkDeleteObjectMessage "" "" 0 "" "" "" "" 0
}.
#[export] Instance WireOk_DeleteObjectMessage : WireOk DeleteObjectMessage := λ m,
  text_ok (dm_Cluster m) ∧
  text_ok (dm_Account m) ∧
  in_int (dm_Depth m) ∧
  text_ok (dm_Kind m) ∧
  text_ok (dm_MsgId m) ∧
  text_ok (dm_Name m) ∧
  text_ok (dm_Namespace m) ∧
  in_int (dm_ResourceVersion m).
Definition enc_GetObjectMessage (m : GetObjectMessage) : json :=
  JObj [("baseObject", enc_bytes (gm_BaseObject m));
        ("cluster", JStr (gm_Cluster m));
        ("account", JStr (gm_Account m));
        ("depth", enc_int (gm_Depth m));
        ("kind", JStr (gm_Kind m));
        ("msgId", JStr (gm_MsgId m));
        ("name", JStr (gm_Name m));
        ("namespace", JStr (gm_Namespace m));
        ("resourceVersion", enc_int (gm_ResourceVersion m))].
Definition dec_GetObjectMessage (prev : GetObjectMessage) (ms : list (string * json)) : option GetObjectMessage :=
  x0 ← field "baseObject" dec_bytes (gm_BaseObject prev) ms;
  x1 ← field "cluster" dec_string (gm_Cluster prev) ms;
  x2 ← field "account" dec_string (gm_Account prev) ms;
  x3 ← field "depth" dec_int (gm_Depth prev) ms;
  x4 ← field "kind" dec_string (gm_Kind prev) ms;
  x5 ← field "msgId" dec_string (gm_MsgId prev) ms;
  x6 ← field "name" dec_string (gm_Name prev) ms;
  x7 ← field "namespace" dec_string (gm_Namespace prev) ms;
  x8 ← field "resourceVersion" dec_int (gm_ResourceVersion prev) ms;
  Some (mkGetObjectMessage x0 x1 x2 x3 x4 x5 x6 x7 x8).
#[export] Instance Wire_GetObjectMessage : Wire GetObjectMessage := {
  enc := enc_GetObjectMessage;
  dec := dec_struct dec_GetObjectMessage;
  zero := mkGetObjectMessage "" "" "" 0 "" "" "" "" 0
}.
#[export] Instance WireOk_GetObjectMessage : WireOk GetObjectMessage := λ m,
  text_ok (gm_Cluster m) ∧
  text_ok (gm_Account m) ∧
  in_int (gm_Depth m) ∧
  text_ok (gm_Kind m) ∧
  text_ok (gm_MsgId m) ∧
  text_ok (gm_Name m) ∧
  text_ok (gm_Namespace m) ∧
  in_int (gm_ResourceVersion m).
Definition enc_PatchObjectMessage (m : PatchObjectMessage) : json :=
  JObj [("checksum", JStr (pm_Checksum m));
        ("cluster", JStr (pm_Cluster m));
        ("account", JStr (pm_Account m));
        ("depth", enc_int (pm_Depth m));
        ("kind", JStr (pm_Kind m));
        ("msgId", JStr (pm_MsgId m));
        ("name", JStr (pm_Name m));
        ("namespace", JStr (pm_Namespace m));
        ("patch", enc_bytes (pm_Patch m));
        ("resourceVersion", enc_int (pm_ResourceVersion m))].
Definition dec_PatchObjectMessage (prev : PatchObjectMessage) (ms : list (string * json)) : option PatchObjectMessage :=
  x0 ← field "checksum" dec_string (pm_Checksum prev) ms;
  x1 ← field "cluster" dec_string (pm_Cluster prev) ms;
  x2 ← field "account" dec_string (pm_Account prev) ms;
  x3 ← field "depth" dec_int (pm_Depth prev) ms;
  x4 ← field "kind" dec_string (pm_Kind prev) ms;
  x5 ← field "msgId" dec_string (pm_MsgId prev) ms;
  x6 ← field "name" dec_string (pm_Name prev) ms;
  x7 ← field "namespace" dec_string (pm_Namespace prev) ms;
  x8 ← field "patch" dec_bytes (pm_Patch prev) ms;
  x9 ← field "resourceVersion" dec_int (pm_ResourceVersion prev) ms;
  Some (mkPatchObjectMessage x0 x1 x2 x3 x4 x5 x6 x7 x8 x9).
#[export] Instance Wire_PatchObjectMessage : Wire PatchObjectMessage := {
  enc := enc_PatchObjectMessage;
  dec := dec_struct dec_PatchObjectMessage;
  zero := mkPatchObjectMessage "" "" "" 0 "" "" "" "" "" 0
}.
#[export] Instance WireOk_PatchObjectMessage : WireOk PatchObjectMessage := λ m,
  text_ok (pm_Checksum m) ∧
  text_ok (pm_Cluster m) ∧
  text_ok (pm_Account m) ∧
  in_int (pm_Depth m) ∧
  text_ok (pm_Kind m) ∧
  text_ok (pm_MsgId m) ∧
  text_ok (pm_Name m) ∧
  text_ok (pm_Namespace m) ∧
  in_int (pm_ResourceVersion m).
Definition enc_PutObjectMessage (m : PutObjectMessage) : json :=
  JObj [("checksum", JStr (um_Checksum m));
        ("cluster", JStr (um_Cluster m));
        ("account", JStr (um_Account m));
        ("depth", enc_int (um_Depth m));
        ("kind", JStr (um_Kind m));
        ("msgId", JStr (um_MsgId m));
        ("name", JStr (um_Name m));
        ("namespace", JStr (um_Namespace m));
        ("patch", enc_bytes (um_Object m));
        ("resourceVersion", enc_int (um_ResourceVersion m))].
Definition dec_PutObjectMessage (prev : PutObjectMessage) (ms : list (string * json)) : option PutObjectMessage :=
  x0 ← field "checksum" dec_string (um_Checksum prev) ms;
  x1 ← field "cluster" dec_string (um_Cluster prev) ms;
  x2 ← field "account" dec_string (um_Account prev) ms;
  x3 ← field "depth" dec_int (um_Depth prev) ms;
  x4 ← field "kind" dec_string (um_Kind prev) ms;
  x5 ← field "msgId" dec_string (um_MsgId prev) ms;
  x6 ← field "name" dec_string (um_Name prev) ms;
  x7 ← field "namespace" dec_string (um_Namespace prev) ms;
  x8 ← field "patch" dec_bytes (um_Object prev) ms;
  x9 ← field "resourceVersion" dec_int (um_ResourceVersion prev) ms;
  Some (mkPutObjectMessage x0 x1 x2 x3 x4 x5 x6 x7 x8 x9).
#[export] Instance Wire_PutObjectMessage : Wire PutObjectMessage := {
  enc := enc_PutObjectMessage;
  dec := dec_struct dec_PutObjectMessage;
  zero := mkPutObjectMessage "" "" "" 0 "" "" "" "" "" 0
}.
#[export] Instance WireOk_PutObjectMessage : WireOk PutObjectMessage := λ m,
  text_ok (um_Checksum m) ∧
  text_ok (um_Cluster m) ∧
  text_ok (um_Account m) ∧
  in_int (um_Depth m) ∧
  text_ok (um_Kind m) ∧
  text_ok (um_MsgId m) ∧
  text_ok (um_Name m) ∧
  text_ok (um_Namespace m) ∧
  in_int (um_ResourceVersion m).
Definition enc_VerifyObjectMessage (m : VerifyObjectMessage) : json :=
  JObj [("checksum", JStr (vm_Checksum m));
        ("cluster", JStr (vm_Cluster m));
        ("account", JStr (vm_Account m));
        ("depth", enc_int (vm_Depth m));
        ("kind", JStr (vm_Kind m));
        ("msgId", JStr (vm_MsgId m));
        ("name", JStr (vm_Name m));
        ("namespace", JStr (vm_Namespace m));
        ("resourceVersion", enc_int (vm_ResourceVersion m))].
Definition dec_VerifyObjectMessage (prev : VerifyObjectMessage) (ms : list (string * json)) : option VerifyObjectMessage :=
  x0 ← field "checksum" dec_string (vm_Checksum prev) ms;
  x1 ← field "cluster" dec_string (vm_Cluster prev) ms;
  x2 ← field "account" dec_string (vm_Account prev) ms;
  x3 ← field "depth" dec_int (vm_Depth prev) ms;
  x4 ← field "kind" dec_string (vm_Kind prev) ms;
  x5 ← field "msgId" dec_string (vm_MsgId prev) ms;
  x6 ← field "name" dec_string (vm_Name prev) ms;
  x7 ← field "namespace" dec_string (vm_Namespace prev) ms;
  x8 ← field "resourceVersion" dec_int (vm_ResourceVersion prev) ms;
  Some (mkVerifyObjectMessage x0 x1 x2 x3 x4 x5 x6 x7 x8).
#[export] Instance Wire_VerifyObjectMessage : Wire VerifyObjectMessage := {
  enc := enc_VerifyObjectMessage;
  dec := dec_struct dec_VerifyObjectMessage;
  zero := mkVerifyObjectMessage "" "" "" 0 "" "" "" "" 0
}.
#[export] Instance WireOk_VerifyObjectMessage : WireOk VerifyObjectMessage := λ m,
  text_ok (vm_Checksum m) ∧
  text_ok (vm_Cluster m) ∧
  text_ok (vm_Account m) ∧
  in_int (vm_Depth m) ∧
  text_ok (vm_Kind m) ∧
  text_ok (vm_MsgId m) ∧
  text_ok (vm_Name m) ∧
  text_ok (vm_Namespace m) ∧
  in_int (vm_ResourceVersion m).
Definition enc_ServerConnectedMessage (m : ServerConnectedMessage) : json :=
  JObj [("cluster", JStr (sc_Cluster m));
        ("account", JStr (sc_Account m));
        ("depth", enc_int (sc_Depth m));
        ("msgId", JStr (sc_MsgId m))].
Definition dec_ServerConnectedMessage (prev : ServerConnectedMessage) (ms : list (string * json)) : option ServerConnectedMessage :=
  x0 ← field "cluster" dec_string (sc_Cluster prev) ms;
  x1 ← field "account" dec_string (sc_Account prev) ms;
  x2 ← field "depth" dec_int (sc_Depth prev) ms;
  x3 ← field "msgId" dec_string (sc_MsgId prev) ms;
  Some (mkServerConnectedMessage x0 x1 x2 x3).
#[export] Instance Wire_ServerConnectedMessage : Wire ServerConnectedMessage := {
  enc := enc_ServerConnectedMessage;
  dec := dec_struct dec_ServerConnectedMessage;
  zero := mkServerConnectedMessage "" "" 0 ""
}.
#[export] Instance WireOk_ServerConnectedMessage : WireOk ServerConnectedMessage := λ m,
  text_ok (sc_Cluster m) ∧
  text_ok (sc_Account m) ∧
  in_int (sc_Depth m) ∧
  text_ok (sc_MsgId m).
Definition enc_ReconciliationRequestObject (m : ReconciliationRequestObject) : json :=
  JObj [("checksum", JStr (ro_Checksum m));
        ("resourceVersion", enc_int (ro_ResourceVersion m));
        ("name", JStr (ro_Name m));
        ("namespace", JStr (ro_Namespace m))].
Definition dec_ReconciliationRequestObject (prev : ReconciliationRequestObject) (ms : list (string * json)) : option ReconciliationRequestObject :=
  x0 ← field "checksum" dec_string (ro_Checksum prev) ms;
  x1 ← field "resourceVersion" dec_int (ro_ResourceVersion prev) ms;
  x2 ← field "name" dec_string (ro_Name prev) ms;
  x3 ← field "namespace" dec_string (ro_Namespace prev) ms;
  Some (mkReconciliationRequestObject x0 x1 x2 x3).
#[export] Instance Wire_ReconciliationRequestObject : Wire ReconciliationRequestObject := {
  enc := enc_ReconciliationRequestObject;
  dec := dec_struct dec_ReconciliationRequestObject;
  zero := mkReconciliationRequestObject "" 0 "" ""
}.
#[export] Instance WireOk_ReconciliationRequestObject : WireOk ReconciliationRequestObject := λ m,
  text_ok (ro_Checksum m) ∧
  in_int (ro_ResourceVersion m) ∧
  text_ok (ro_Name m) ∧
  text_ok (ro_Namespace m).

(** A map whose values decode with [decode]; later members override. *)
Definition dec_gomap {A} (decode : json → option A) (prev : option (gmap string A)) (j : json) :
    option (option (gmap string A)) :=
  match j with
  | JNull => Some None
  | JObj ms =>
      Some <$> foldl (λ m kv, m' ← m; v ← decode kv.2; Some (<[kv.1 := v]> m'))
                 (Some (default ∅ prev)) ms
  | _ => None
  end.
Definition enc_gomap {A} (encode : A → json) (m : option (gmap string A)) : json :=
  match m with
  | None => JNull
  | Some m => JObj ((λ kv, (kv.1, encode kv.2)) <$>
      merge_sort (λ x y, Is_true (String.leb (x.1) (y.1))) (map_to_list m))
  end.

Definition enc_ReconciliationRequestMessage (m : ReconciliationRequestMessage) : json :=
  JObj [("cluster", JStr (rr_Cluster m));
        ("account", JStr (rr_Account m));
        ("depth", enc_int (rr_Depth m));
        ("msgId", JStr (rr_MsgId m));
        ("serverInitiated", JBool (rr_ServerInitiated m));
        ("kindToObject", enc_gomap (enc_slice enc) (rr_KindToObjects m))].
Definition dec_ReconciliationRequestMessage (prev : ReconciliationRequestMessage)
    (ms : list (string * json)) : option ReconciliationRequestMessage :=
  x0 ← field "cluster" dec_string (rr_Cluster prev) ms;
  x1 ← field "account" dec_string (rr_Account prev) ms;
  x2 ← field "depth" dec_int (rr_Depth prev) ms;
  x3 ← field "msgId" dec_string (rr_MsgId prev) ms;
  x4 ← field "serverInitiated" dec_bool (rr_ServerInitiated prev) ms;
  x5 ← field "kindToObject" (dec_gomap (dec_slice dec zero None)) (rr_KindToObjects prev) ms;
  Some (mkReconciliationRequestMessage x0 x1 x2 x3 x4 x5).
#[export] Instance Wire_ReconciliationRequestMessage : Wire ReconciliationRequestMessage := {
  enc := enc_ReconciliationRequestMessage;
  dec := dec_struct dec_ReconciliationRequestMessage;
  zero := mkReconciliationRequestMessage "" "" 0 "" false None
}.
Definition enc_ReconciliationRequestMessageBatch (m : ReconciliationRequestMessageBatch) : json :=
  JObj [("depth", enc_int (rb_Depth m));
        ("msgId", JStr (rb_MsgId m));
        ("requests", enc_slice enc (rb_Requests m))].

(** ** The laws of the codecs *)
Lemma dec_bytes_enc p b : dec_bytes p (enc_bytes b) = Some b.
Proof. apply base64_round_trip. Qed.
Lemma enc_bytes_ok b : int_nums (enc_bytes b) ∧ jsanitize (enc_bytes b) = enc_bytes b.
Proof. unfold enc_bytes. cbn -[base64_encode]. by rewrite (base64_text_ok b). Qed.
Opaque enc_bytes dec_bytes.

(** Byte fields for the tactics that prove the laws of a struct. *)
Ltac wire_field ::=
  first [ rewrite field_miss by (vm_compute; reflexivity)
        | rewrite field_hit by (vm_compute; reflexivity)
        | rewrite field_end ];
  rewrite ?dec_int_enc, ?dec_bytes_enc by assumption;
  cbn [dec_string mbind option_bind].
Ltac wire_leaf ::=
  match goal with
  | |- int_nums (enc_int _) => apply enc_int_ok
  | |- int_nums (enc_bytes _) => apply enc_bytes_ok
  | |- True => exact I
  end.
Ltac wire_san ::=
  cbn [jsanitize map fst snd]; sanitize_names;
  repeat match goal with
  | H : text_ok ?s |- context [sanitize ?s] => rewrite H
  | |- context [jsanitize (enc_bytes ?s)] => rewrite (proj2 (enc_bytes_ok s))
  | |- context [jsanitize (enc_int ?z)] => rewrite (proj2 (enc_int_ok z))
  end.

#[export] Instance WireLaws_DeleteObjectMessage : WireLaws DeleteObjectMessage.
Proof. wire_struct WireOk_DeleteObjectMessage enc_DeleteObjectMessage dec_DeleteObjectMessage. Qed.
#[export] Instance WireLaws_GetObjectMessage : WireLaws GetObjectMessage.
Proof. wire_struct WireOk_GetObjectMessage enc_GetObjectMessage dec_GetObjectMessage. Qed.
#[export] Instance WireLaws_PatchObjectMessage : WireLaws PatchObjectMessage.
Proof. wire_struct WireOk_PatchObjectMessage enc_PatchObjectMessage dec_PatchObjectMessage. Qed.
#[export] Instance WireLaws_PutObjectMessage : WireLaws PutObjectMessage.
Proof. wire_struct WireOk_PutObjectMessage enc_PutObjectMessage dec_PutObjectMessage. Qed.
#[export] Instance WireLaws_VerifyObjectMessage : WireLaws VerifyObjectMessage.
Proof. wire_struct WireOk_VerifyObjectMessage enc_VerifyObjectMessage dec_VerifyObjectMessage. Qed.
#[export] Instance WireLaws_ServerConnectedMessage : WireLaws ServerConnectedMessage.
Proof. wire_struct WireOk_ServerConnectedMessage enc_ServerConnectedMessage dec_ServerConnectedMessage. Qed.
#[export] Instance WireLaws_ReconciliationRequestObject : WireLaws ReconciliationRequestObject.
Proof. wire_struct WireOk_ReconciliationRequestObject enc_ReconciliationRequestObject dec_ReconciliationRequestObject. Qed.

(** Values of an event property. *)
Definition MsgPropTimestamp : string := "timestamp".
Definition MsgPropCluster : string := "cluster".
Definition MsgPropAccount : string := "account".
Definition MsgPropEvent : string := "event".
Definition MsgPropResourceKindGroup : string := "group".
Definition MsgPropResourceKindVersion : string := "version".
Definition MsgPropResourceKindResource : string := "resource".
Definition MsgPropResourceName : string := "name".
Definition MsgPropResourceNamespace : string := "namespace".
Definition MsgPropResourceVersion : string := "resourceVersion".
Definition MsgPropProducerSource : string := "x-producer-source".
Definition MsgPropProducerSourceSynchronizerServer : string := "synchronizer-server".
Definition SynchronizerServerProducerKey : string := "SynchronizerServerProducer".
Definition MsgPropEventValueGetObjectMessage : string := "GetObject".
Definition MsgPropEventValuePatchObjectMessage : string := "PatchObject".
Definition MsgPropEventValueVerifyObjectMessage : string := "VerifyObject".
Definition MsgPropEventValueDeleteObjectMessage : string := "DeleteObject".
Definition MsgPropEventValuePutObjectMessage : string := "PutObject".
Definition MsgPropEventValueServerConnectedMessage : string := "ServerConnected".
Definition MsgPropEventValueReconciliationRequestMessage : string := "ReconciliationRequest".
Definition MsgPropEventValueReconciliationRequestMessageBatch : string := "ReconciliationRequestBatch".
Definition MsgPropEventValueConnectedClientsMessage : string := "ConnectedClients".
