(* ===== verification/Messaging.v ===== *)
(** * Messaging: the message queue, [messaging/message.go], [utils.go] and [handler.go].

    The server exchanges messages with the ingester through a queue.  A [MessageProducer]
    is whatever carries a message away; [Handle] runs on every message of a reader and
    calls the callbacks of the client it is about. *)

From S2P Require Export Messages Libraries Delivery.

(** [messaging.MessageProducer] over the world [P] of a queue. *)
Record MessageProducer (P : Type) : Type := mkMessageProducer {
  ProduceMessage : Ctx → ClientIdentifier → string → string → list (gmap string string) → M P unit;
  ProduceMessageWithoutIdentifier : Ctx → string → string → M P unit
}.
Arguments mkMessageProducer {P} _ _.
Arguments ProduceMessage {P} _ _ _ _ _ _.
Arguments ProduceMessageWithoutIdentifier {P} _ _ _ _.

Record IncomingMessage : Type := mkIncomingMessage {
  im_ID : string;
  im_Properties : gmap string string;
  im_Payload : string
}.

(** [m[k]] for a map of strings: the empty string when there is no entry. *)
Definition prop_of (m : gmap string string) (k : string) : string := default "" (m !! k).

(** ** Properties of a message *)
Definition KindNameToCustomProperties {W} (kind : KindName) : M W (gmap string string) :=
  k ← deref (kn_Kind kind);
  mret (<[MsgPropResourceKindGroup := Group k]>
       (<[MsgPropResourceKindVersion := Version k]>
       (<[MsgPropResourceKindResource := Resource k]>
       (<[MsgPropResourceName := kn_Name kind]>
       (<[MsgPropResourceNamespace := kn_Namespace kind]>
       (<[MsgPropResourceVersion := Itoa (kn_ResourceVersion kind)]> ∅)))))).

(** [if v != "" { m[k] = v }]. *)
Definition set_nonempty (k v : string) (m : gmap string string) : gmap string string :=
  if String.eqb v "" then m else <[k := v]> m.

(** [now] is the formatted time; [maps.Copy(dst, src)] is [src ∪ dst]. *)
Definition BuildProducerProperties (now account cluster eventType : string)
    (optionalProperties : list (gmap string string)) : gmap string string :=
  let m0 := <[MsgPropTimestamp := now]>
           (<[MsgPropEvent := eventType]>
           (<[MsgPropProducerSource := MsgPropProducerSourceSynchronizerServer]> ∅)) in
  let m1 := foldl (λ m o, o ∪ m) m0 optionalProperties in
  set_nonempty MsgPropCluster cluster (set_nonempty MsgPropAccount account m1).

Definition IsSelfProducedMessage (properties : gmap string string) (messageKey : string) : bool :=
  if String.eqb (prop_of properties MsgPropProducerSource) MsgPropProducerSourceSynchronizerServer
  then true
  else String.eqb messageKey SynchronizerServerProducerKey.

(** ** The handler of a message

    The world is the state of the adapter and the world of its callbacks.  The mutex that
    keeps two reconciliation requests apart has no effect on one message. *)
Section Handler.
Context `{MultiErr} {W X : Type} (adapter : Adapter W X).
Local Abbreviation Y := (X * W)%type.
(** The order in which [range] visits the entries of the map of a request. *)
Variable Range : gmap string (GoSlice ReconciliationRequestObject) →
  list (string * GoSlice ReconciliationRequestObject).

(** [%q], for text that needs no escapes. *)
Definition quoted (s : string) : string := (chr "034" ++ s ++ chr "034")%string.
Definition unknown_kind (kindStr messageType : string) : gerror :=
  Errorf ("unknown kind " ++ quoted kindStr ++ " in " ++ messageType ++ " message").
Definition kindFromPayload (kindStr messageType : string) : M Y Kind :=
  match KindFromString kindStr with
  | None => throw (unknown_kind kindStr messageType)
  | Some kind => mret kind
  end.
Definition unmarshal_error : gerror :=
  Wrapf "failed to unmarshal message" (Errorf "json.Unmarshal").
Definition h_unmarshal {A} `{Wire A} (payload : string) : M Y A :=
  match Unmarshal payload with
  | Some a => mret a
  | None => throw unmarshal_error
  end.
Definition h_context (ctx : Ctx) (depth : Z) (msgId : string) : Ctx :=
  ContextFromGeneric ctx (mkGeneric depth None None msgId None).

(** The batch of a kind: a checksum per object. *)
Definition requested_checksum (kind : Kind) (object : ReconciliationRequestObject) : NewChecksum :=
  mkNewChecksum (ro_ResourceVersion object) (ro_Checksum object) 0 (Some EventNewChecksum)
    (Some kind) "" (ro_Name object) (ro_Namespace object) None.
Definition requested_items (kind : Kind) (objects : GoSlice ReconciliationRequestObject) :
    BatchItems :=
  mkBatchItems None (Some (requested_checksum kind <$> elems objects)) None None None None.
Definition onRequestedKind (cb : Callbacks W) (ctx : Ctx) (err : option gerror)
    (entry : string * GoSlice ReconciliationRequestObject) : M Y (option gerror) :=
  match KindFromString entry.1 with
  | None => mret (Append err (Some (Errorf ("unknown kind " ++ entry.1 ++ " in batch"))))
  | Some kind =>
      e ← errval (liftR (cb_Batch cb ctx kind ReconciliationBatch (requested_items kind entry.2)));
      mret (Append err e)
  end.
Definition onReconciliationRequestMessage (cb : Callbacks W) (ctx : Ctx) (payload : string) :
    M Y unit :=
  data ← h_unmarshal (A := ReconciliationRequestMessage) payload;
  let ctx := h_context ctx (rr_Depth data) (rr_MsgId data) in
  err ← mfold (onRequestedKind cb ctx) None (Range (default ∅ (rr_KindToObjects data)));
  wrapE "failed to handle ReconciliationRequest message" (return_err err).

Definition onGetObjectMessage (cb : Callbacks W) (ctx : Ctx) (payload : string) : M Y unit :=
  data ← h_unmarshal (A := GetObjectMessage) payload;
  let ctx := h_context ctx (gm_Depth data) (gm_MsgId data) in
  kind ← kindFromPayload (gm_Kind data) "GetObject";
  wrapE "failed to send GetObject message" (liftR (cb_GetObject cb ctx
    (mkKindName (Some kind) (gm_Name data) (gm_Namespace data) (gm_ResourceVersion data))
    (gm_BaseObject data))).
Definition onPatchObjectMessage (cb : Callbacks W) (ctx : Ctx) (payload : string) : M Y unit :=
  data ← h_unmarshal (A := PatchObjectMessage) payload;
  let ctx := h_context ctx (pm_Depth data) (pm_MsgId data) in
  kind ← kindFromPayload (pm_Kind data) "PatchObject";
  wrapE "failed to send PatchObject message" (liftR (cb_PatchObject cb ctx
    (mkKindName (Some kind) (pm_Name data) (pm_Namespace data) (pm_ResourceVersion data))
    (pm_Checksum data) (pm_Patch data))).
Definition onVerifyObjectMessage (cb : Callbacks W) (ctx : Ctx) (payload : string) : M Y unit :=
  data ← h_unmarshal (A := VerifyObjectMessage) payload;
  let ctx := h_context ctx (vm_Depth data) (vm_MsgId data) in
  kind ← kindFromPayload (vm_Kind data) "VerifyObject";
  wrapE "failed to send VerifyObject message" (liftR (cb_VerifyObject cb ctx
    (mkKindName (Some kind) (vm_Name data) (vm_Namespace data) (vm_ResourceVersion data))
    (vm_Checksum data))).
Definition onPutObjectMessage (cb : Callbacks W) (ctx : Ctx) (payload : string) : M Y unit :=
  data ← h_unmarshal (A := PutObjectMessage) payload;
  let ctx := h_context ctx (um_Depth data) (um_MsgId data) in
  kind ← kindFromPayload (um_Kind data) "PutObject";
  wrapE "failed to send PutObject message" (liftR (cb_PutObject cb ctx
    (mkKindName (Some kind) (um_Name data) (um_Namespace data) (um_ResourceVersion data))
    (um_Checksum data) (um_Object data))).
Definition onDeleteObjectMessage (cb : Callbacks W) (ctx : Ctx) (payload : string) : M Y unit :=
  data ← h_unmarshal (A := DeleteObjectMessage) payload;
  let ctx := h_context ctx (dm_Depth data) (dm_MsgId data) in
  kind ← kindFromPayload (dm_Kind data) "DeleteObject";
  wrapE "failed to send DeleteObject message" (liftR (cb_DeleteObject cb ctx
    (mkKindName (Some kind) (dm_Name data) (dm_Namespace data) (dm_ResourceVersion data)))).

Definition Handle (ctx : Ctx) (msg : IncomingMessage) : M Y unit :=
  let prop := prop_of (im_Properties msg) in
  let clientIdentifier := mkIdentifier (prop MsgPropAccount) (prop MsgPropCluster) in
  related ← liftL (ad_IsRelated adapter ctx clientIdentifier);
  if negb related then mret tt else
  let ctx := ContextFromIdentifiers ctx clientIdentifier in
  callbacks ← wrapE "failed to get callbacks" (liftL (ad_Callbacks adapter ctx));
  let event := prop MsgPropEvent in
  if String.eqb event MsgPropEventValueReconciliationRequestMessage then
    onReconciliationRequestMessage callbacks ctx (im_Payload msg)
  else if String.eqb event MsgPropEventValueGetObjectMessage then
    onGetObjectMessage callbacks ctx (im_Payload msg)
  else if String.eqb event MsgPropEventValuePatchObjectMessage then
    onPatchObjectMessage callbacks ctx (im_Payload msg)
  else if String.eqb event MsgPropEventValueVerifyObjectMessage then
    onVerifyObjectMessage callbacks ctx (im_Payload msg)
  else if String.eqb event MsgPropEventValuePutObjectMessage then
    onPutObjectMessage callbacks ctx (im_Payload msg)
  else if String.eqb event MsgPropEventValueDeleteObjectMessage then
    onDeleteObjectMessage callbacks ctx (im_Payload msg)
  else throw (Errorf "unknown message type").
End Handler.
