(* ===== verification/Features.v ===== *)
(** * Features: the features provider of [adapters/backend/v1/skip_alerts.go].

    The cache tells for which accounts a feature flag is on.  An account is fetched in a
    goroutine of its own: [fp_refreshing] lists the fetches under way, in the order they
    were started, and [refreshAccount] is the end of one of them. *)

From S2P Require Export Config Messaging.

Definition resourceRuntimeAlerts : string := "runtimealerts".

(** [features] is [None] for a nil slice. *)
Record cachedAccount : Type := mkCachedAccount {
  ca_accessKey : string;
  ca_features : GoSlice string
}.
Record FeaturesProvider : Type := mkFeaturesProvider {
  featuresURL : string;
  featureFlagName : string;
  fp_cache : gmap string cachedAccount;
  fp_refreshing : list (string * string)
}.
Definition NewFeaturesProvider (featuresURL featureFlagName : string) : FeaturesProvider :=
  mkFeaturesProvider featuresURL featureFlagName ∅ [].
Definition with_cache (f : gmap string cachedAccount → gmap string cachedAccount)
    (p : FeaturesProvider) : FeaturesProvider :=
  mkFeaturesProvider (featuresURL p) (featureFlagName p) (f (fp_cache p)) (fp_refreshing p).
Definition go_refresh (account accessKey : string) (p : FeaturesProvider) : FeaturesProvider :=
  mkFeaturesProvider (featuresURL p) (featureFlagName p) (fp_cache p)
    (fp_refreshing p ++ [(account, accessKey)]).

Definition RegisterAccount (account accessKey : string) (p : FeaturesProvider) : FeaturesProvider :=
  let store := go_refresh account accessKey
                 (with_cache <[account := mkCachedAccount accessKey None]> p) in
  match fp_cache p !! account with
  | Some existing =>
      if String.eqb (ca_accessKey existing) accessKey
         && bool_decide (ca_features existing ≠ None) then p else store
  | None => store
  end.

Definition UnregisterAccount (account : string) (p : FeaturesProvider) : FeaturesProvider :=
  with_cache (delete account) p.

Definition ShouldSkipAlertsFrom (p : FeaturesProvider) (account : string) : bool :=
  match fp_cache p !! account with
  | None => false
  | Some entry =>
      match ca_features entry with
      | None => false
      | Some features => negb (bool_decide (featureFlagName p ∈ features))
      end
  end.

(** ** Fetching: [net/http] as the exchange it makes *)
Record HttpRequest : Type := mkHttpRequest {
  rq_Method : string;
  rq_URL : string;
  rq_Header : list (string * string)
}.
Record HttpResponse : Type := mkHttpResponse {
  rs_StatusCode : Z;
  rs_Status : string;
  rs_Body : string
}.

(** The first value of a stream of JSON: [json.NewDecoder(r).Decode]. *)
Definition decode_first (body : string) : option json := fst <$> parse_val (S (String.length body)) body.
Definition dec_features (prev : GoSlice string) (ms : list (string * json)) : option (GoSlice string) :=
  field "features" (λ _, dec_slice dec_string "" None) prev ms.

Section Fetch.
(** Whether [http.NewRequest] accepts a URL, and what the network answers to a request. *)
Variable NewRequest : string → unit + gerror.
Variable Do : HttpRequest → HttpResponse + gerror.

Definition wrapR {A} (msg : string) (r : A + gerror) : A + gerror :=
  match r with inl a => inl a | inr e => inr (Wrapf msg e) end.
Definition fetchFeatures (p : FeaturesProvider) (account accessKey : string) :
    GoSlice string + gerror :=
  let url := (featuresURL p ++ "/api/v1/features")%string in
  match NewRequest url with
  | inr e => inr (Wrapf "failed to create request" e)
  | inl _ =>
      match Do (mkHttpRequest "GET" url [("X-API-KEY", accessKey); ("X-API-ACCOUNT", account)]) with
      | inr e => inr (Wrapf "failed to fetch features" e)
      | inl resp =>
          if (rs_StatusCode resp <? 200) || (300 <=? rs_StatusCode resp) then
            inr (Errorf ("features endpoint returned status " ++ rs_Status resp ++ ": "
                         ++ String.substring 0 1024 (rs_Body resp)))
          else
            match decode_first (rs_Body resp) ≫= dec_struct dec_features None with
            | None => inr (Wrapf "failed to decode features response" (Errorf "json"))
            | Some features => inl features
            end
      end
  end.

Definition refreshAccount (account accessKey : string) (p : FeaturesProvider) : FeaturesProvider :=
  match fetchFeatures p account accessKey with
  | inr _ => p
  | inl features => with_cache <[account := mkCachedAccount accessKey features]> p
  end.

(** The end of the [i]-th goroutine of [RegisterAccount]. *)
Definition finish_refresh (i : nat) (p : FeaturesProvider) : FeaturesProvider :=
  match fp_refreshing p !! i with
  | None => p
  | Some (account, accessKey) =>
      refreshAccount account accessKey
        (mkFeaturesProvider (featuresURL p) (featureFlagName p) (fp_cache p)
           (delete i (fp_refreshing p)))
  end.

(** A turn of [StartRefreshLoop]: every entry, in the order of [Range]. *)
Definition refresh_tick (Range : gmap string cachedAccount → list (string * cachedAccount))
    (p : FeaturesProvider) : FeaturesProvider :=
  foldl (λ p kv, refreshAccount kv.1 (ca_accessKey kv.2) p) p (Range (fp_cache p)).
Definition refresh_interval (interval : Z) : Z := if interval =? 0 then 3600 * 10 ^ 9 else interval.
End Fetch.

(** ** What the provider knows *)
Section FeatureLemmas.
Implicit Types (p : FeaturesProvider) (a k : string).

(** Alerts are skipped only when the features of the account are known and lack the flag. *)
Lemma ShouldSkip_iff p a :
  ShouldSkipAlertsFrom p a = true ↔
  ∃ k fs, fp_cache p !! a = Some (mkCachedAccount k (Some fs)) ∧ featureFlagName p ∉ fs.
Proof.
  unfold ShouldSkipAlertsFrom. destruct (fp_cache p !! a) as [[k [fs|]]|]; cbn; [|naive_solver..].
  rewrite negb_true_iff, bool_decide_eq_false. naive_solver.
Qed.

Lemma refreshAccount_url N D a k p : featuresURL (refreshAccount N D a k p) = featuresURL p.
Proof. unfold refreshAccount. by destruct fetchFeatures. Qed.
Lemma refreshAccount_flag N D a k p : featureFlagName (refreshAccount N D a k p) = featureFlagName p.
Proof. unfold refreshAccount. by destruct fetchFeatures. Qed.
End FeatureLemmas.

(** A server of features that answers the same to everyone. *)
Definition sample_Do (body : string) (r : HttpRequest) : HttpResponse + gerror :=
  inl (mkHttpResponse 200 "200 OK" body).

(** An account that was unregistered while its features were being fetched comes
    back: the goroutine that [RegisterAccount] started stores its answer
    unconditionally, whatever happened to the account meanwhile. *)
Theorem late_answer_restores_account NewRequest Do account accessKey features (p : FeaturesProvider)
    (Hnew : fp_cache p !! account = None)
    (Hfetch : fetchFeatures NewRequest Do p account accessKey = inl features) :
  let p1 := UnregisterAccount account (RegisterAccount account accessKey p) in
  fp_cache p1 !! account = None ∧
  fp_cache (finish_refresh NewRequest Do (length (fp_refreshing p)) p1) !! account
    = Some (mkCachedAccount accessKey features).
Proof.
  unfold RegisterAccount. rewrite Hnew. cbn. rewrite lookup_delete_eq. split; [done|].
  unfold finish_refresh. cbn.
  rewrite lookup_app_r, Nat.sub_diag by lia. cbn.
  unfold refreshAccount. unfold fetchFeatures in *. cbn in *.
  rewrite Hfetch. cbn. by rewrite lookup_insert_eq.
Qed.

Lemma late_answer_restores_account_witness :
  let q := String (ascii_of_nat 34) "" in
  let body := ("{" ++ q ++ "features" ++ q ++ ":[" ++ q ++ "cadr" ++ q ++ "]}")%string in
  fp_cache (finish_refresh (λ _, inl tt) (sample_Do body) 0
    (UnregisterAccount "acme" (RegisterAccount "acme" "key" (NewFeaturesProvider "http://f" "runtime"))))
    !! "acme" = Some (mkCachedAccount "key" (Some ["cadr"])).
Proof.
  intros q body.
  apply (late_answer_restores_account (λ _, inl tt) (sample_Do body) "acme" "key" (Some ["cadr"])
           (NewFeaturesProvider "http://f" "runtime")); vm_compute; reflexivity.
Defined.
