(* ===== verification/BackendClient.v ===== *)
(** * BackendClient: [adapters/backend/v1/client.go].

    The server's stand-in for one connected cluster: every operation becomes a message of
    the queue, addressed to the ingester.  A client acts on the world
    [option FeaturesProvider * P]: the provider it shares with its adapter ([None] for the
    nil pointer) and the queue. *)

From S2P Require Export Features.

(** The machine: clock and host name, drawn in the world of the queue. *)
Class Machine (P : Type) : Type := {
  NewMsgId : M P string;
  Now : M P Z;
  Hostname : M P string;
  FormatTime : Z → string  (** an instant as [json] writes it, in the zone of the host *)
}.

Definition MaxObjectSizeEnvVar : string := "MAX_OBJECT_SIZE".
Definition getMaxObjectSizeBytes (LookupEnv : string → option string) : option Z :=
  match LookupEnv MaxObjectSizeEnvVar with
  | None => None
  | Some val =>
      if String.eqb val "" then None else
      match Atoi val with
      | None => None
      | Some intVal => if intVal <? 0 then None else Some intVal
      end
  end.

Record BackendClient (W P : Type) : Type := mkBackendClient {
  bc_callbacks : Callbacks W;
  bc_messageProducer : MessageProducer P;
  bc_skipAlertsFrom : list string;
  bc_maxObjectSizeBytes : option Z
}.
Arguments mkBackendClient {W P} _ _ _ _.
Arguments bc_callbacks {W P} _.
Arguments bc_messageProducer {W P} _.
Arguments bc_skipAlertsFrom {W P} _.
Arguments bc_maxObjectSizeBytes {W P} _.

Definition NewBackendClient {W P} (env : string → option string) (producer : MessageProducer P)
    (skipAlertsFrom : list string) : BackendClient W P :=
  mkBackendClient nil_Callbacks producer skipAlertsFrom (getMaxObjectSizeBytes env).

(** ** The messages the server announces a client with *)
Definition enc_ConnectedClient (time : Z → string) (m : ConnectedClient) : json :=
  JObj ([("cluster", JStr (cc_Cluster m));
         ("account", JStr (cc_Account m));
         ("synchronizerVersion", JStr (cc_SynchronizerVersion m));
         ("helmVersion", JStr (cc_HelmVersion m));
         ("connectionId", JStr (cc_ConnectionId m));
         ("connectionTime", JStr (time (cc_ConnectionTime m)));
         ("gitVersion", JStr (cc_GitVersion m));
         ("cloudProvider", JStr (cc_CloudProvider m));
         ("clusterUID", JStr (cc_ClusterUID m))]
        ++ (if String.eqb (cc_ResourceGroup m) "" then []
            else [("resourceGroup", JStr (cc_ResourceGroup m))])).
Definition enc_ConnectedClientsMessage (time : Z → string) (m : ConnectedClientsMessage) : json :=
  JObj [("serverName", JStr (cm_ServerName m));
        ("clients", JArr (enc_ConnectedClient time <$> cm_Clients m));
        ("keepalive", JStr (time (cm_Timestamp m)));
        ("depth", enc_int (cm_Depth m));
        ("msgId", JStr (cm_MsgId m))].
Definition connected_client (id : ClientIdentifier) : ConnectedClient :=
  mkConnectedClient (Cluster id) (Account id) (SyncVersion id) (HelmVersion id) (ConnectionId id)
    (ConnectionTime id) (GitVersion id) (CloudProvider id) (ClusterUID id) (ResourceGroup id).

Section Client.
Context `{MultiErr, MergePatches, Machine P} {W : Type}.
Local Abbreviation B := (option FeaturesProvider * P)%type.
Implicit Type c : BackendClient W P.

Definition b_ids (ctx : Ctx) : M B (Z * string) :=
  DeptMsgIdFromContext (liftR NewMsgId) ctx.
Definition produce c (ctx : Ctx) (id : ClientIdentifier) (event payload : string)
    (props : list (gmap string string)) : M B unit :=
  liftR (ProduceMessage (bc_messageProducer c) ctx id event payload props).
(** [ProduceMessage(..., messaging.KindNameToCustomProperties(id))]. *)
Definition produce_about c (ctx : Ctx) (cId : ClientIdentifier) (event payload : string)
    (id : KindName) : M B unit :=
  props ← KindNameToCustomProperties id;
  produce c ctx cId event payload [props].

Definition sendDeleteObjectMessage c (ctx : Ctx) (id : KindName) : M B unit :=
  '(depth, msgId) ← b_ids ctx;
  cId ← ClientIdentifierFromContext ctx;
  k ← deref (kn_Kind id);
  let msg := mkDeleteObjectMessage (Cluster cId) (Account cId) (wrap_int (depth + 1))
    (Kind_String k) msgId (kn_Name id) (kn_Namespace id) 0 in
  produce_about c ctx cId MsgPropEventValueDeleteObjectMessage (Marshal msg) id.

Definition sendGetObjectMessage c (ctx : Ctx) (id : KindName) (baseObject : string) : M B unit :=
  '(depth, msgId) ← b_ids ctx;
  cId ← ClientIdentifierFromContext ctx;
  k ← deref (kn_Kind id);
  let msg := mkGetObjectMessage baseObject (Cluster cId) (Account cId) (wrap_int (depth + 1))
    (Kind_String k) msgId (kn_Name id) (kn_Namespace id) 0 in
  produce_about c ctx cId MsgPropEventValueGetObjectMessage (Marshal msg) id.

Definition sendPatchObjectMessage c (ctx : Ctx) (id : KindName) (checksum patch : string) :
    M B unit :=
  '(depth, msgId) ← b_ids ctx;
  cId ← ClientIdentifierFromContext ctx;
  k ← deref (kn_Kind id);
  let msg := mkPatchObjectMessage checksum (Cluster cId) (Account cId) (wrap_int (depth + 1))
    (Kind_String k) msgId (kn_Name id) (kn_Namespace id) patch 0 in
  produce_about c ctx cId MsgPropEventValuePatchObjectMessage (Marshal msg) id.

Definition skip_alerts c (features : option FeaturesProvider) (account : string) : bool :=
  bool_decide (account ∈ bc_skipAlertsFrom c)
  || match features with None => false | Some p => ShouldSkipAlertsFrom p account end.
Definition too_large c (object : string) : bool :=
  match bc_maxObjectSizeBytes c with
  | None => false
  | Some max => max <? Z.of_nat (String.length object)
  end.
Definition sendPutObjectMessage c (ctx : Ctx) (id : KindName) (checksum object : string) :
    M B unit :=
  '(depth, msgId) ← b_ids ctx;
  cId ← ClientIdentifierFromContext ctx;
  k ← deref (kn_Kind id);
  w ← getW;
  if String.eqb (Resource k) resourceRuntimeAlerts && skip_alerts c w.1 (Account cId) then mret tt
  else if too_large c object then mret tt
  else
    let msg := mkPutObjectMessage checksum (Cluster cId) (Account cId) (wrap_int (depth + 1))
      (Kind_String k) msgId (kn_Name id) (kn_Namespace id) object 0 in
    produce_about c ctx cId MsgPropEventValuePutObjectMessage (Marshal msg) id.

Definition sendVerifyObjectMessage c (ctx : Ctx) (id : KindName) (checksum : string) : M B unit :=
  '(depth, msgId) ← b_ids ctx;
  cId ← ClientIdentifierFromContext ctx;
  k ← deref (kn_Kind id);
  let msg := mkVerifyObjectMessage checksum (Cluster cId) (Account cId) (wrap_int (depth + 1))
    (Kind_String k) msgId (kn_Name id) (kn_Namespace id) 0 in
  produce_about c ctx cId MsgPropEventValueVerifyObjectMessage (Marshal msg) id.

Definition SendReconciliationRequestMessage c (ctx : Ctx) : M B unit :=
  id ← ClientIdentifierFromContext ctx;
  msgId ← liftR NewMsgId;
  let msg := mkReconciliationRequestMessage (Cluster id) (Account id) 0 msgId true None in
  produce c ctx id MsgPropEventValueReconciliationRequestMessage (Marshal msg) [].

Definition sendServerConnectedMessage c (ctx : Ctx) : M B unit :=
  id ← ClientIdentifierFromContext ctx;
  msgId ← liftR NewMsgId;
  let msg := mkServerConnectedMessage (Cluster id) (Account id) 0 msgId in
  produce c ctx id MsgPropEventValueServerConnectedMessage (Marshal msg) [].

Definition sendSingleConnectedClientsMessage c (ctx : Ctx) : M B unit :=
  id ← ClientIdentifierFromContext ctx;
  hostname ← liftR Hostname;
  now ← liftR Now;
  msgId ← liftR NewMsgId;
  let msg := mkConnectedClientsMessage hostname [connected_client id] now 0 msgId in
  produce c ctx id MsgPropEventValueConnectedClientsMessage
    (print (enc_ConnectedClientsMessage FormatTime msg)) [].

Definition b_Start c (ctx : Ctx) : M B unit :=
  wrapE "failed to produce server connected message" (sendServerConnectedMessage c ctx) ;;
  wrapE "failed to produce connected clients message" (sendSingleConnectedClientsMessage c ctx).
Definition b_Stop c (ctx : Ctx) : M B unit := mret tt.

Definition b_IsRelated c (ctx : Ctx) (id : ClientIdentifier) : M B bool :=
  identifierFromContext ← ClientIdentifierFromContext ctx;
  mret (String.eqb (Cluster identifierFromContext) (Cluster id)
        && String.eqb (Account identifierFromContext) (Account id)).

(** [callVerifyObject] calls into the core, [W]. *)
Definition b_callVerifyObject c (ctx : Ctx) (id : KindName) (object : string) : M W unit :=
  checksum ← wrapE "calculate checksum" (try (CanonicalHash object));
  wrapE "send checksum" (cb_VerifyObject (bc_callbacks c) ctx id checksum).

Definition b_DeleteObject := sendDeleteObjectMessage.
Definition b_GetObject := sendGetObjectMessage.
Definition b_PatchObject := sendPatchObjectMessage.
Definition b_PutObject := sendPutObjectMessage.
Definition b_VerifyObject := sendVerifyObjectMessage.

(** The loops of [Batch]: each visits all its items. *)
Definition item_id (kind : Kind) (name namespace : string) (version : Z) : KindName :=
  mkKindName (Some kind) name namespace version.
Definition b_batch_get c ctx kind (i : GetObject) : M B unit :=
  b_GetObject c ctx (item_id kind (go_Name i) (go_Namespace i) (go_ResourceVersion i)) (go_BaseObject i).
Definition b_batch_verify c ctx kind (i : NewChecksum) : M B unit :=
  b_VerifyObject c ctx (item_id kind (nc_Name i) (nc_Namespace i) (nc_ResourceVersion i)) (nc_Checksum i).
Definition b_batch_delete c ctx kind (i : ObjectDeleted) : M B unit :=
  b_DeleteObject c ctx (item_id kind (od_Name i) (od_Namespace i) (od_ResourceVersion i)).
Definition b_batch_patch c ctx kind (i : PatchObject) : M B unit :=
  b_PatchObject c ctx (item_id kind (pa_Name i) (pa_Namespace i) (pa_ResourceVersion i))
    (pa_Checksum i) (pa_Patch i).
Definition b_batch_put c ctx kind (i : PutObject) : M B unit :=
  b_PutObject c ctx (item_id kind (pu_Name i) (pu_Namespace i) (pu_ResourceVersion i))
    (pu_Checksum i) (pu_Object i).
Definition b_Batch c (ctx : Ctx) (kind : Kind) (batchType : BatchType) (items : BatchItems) :
    M B unit :=
  err ← appendErrs (b_batch_get c ctx kind) (elems (bi_GetObject items)) None;
  err ← appendErrs (b_batch_verify c ctx kind) (elems (bi_NewChecksum items)) err;
  err ← appendErrs (b_batch_delete c ctx kind) (elems (bi_ObjectDeleted items)) err;
  err ← appendErrs (b_batch_patch c ctx kind) (elems (bi_PatchObject items)) err;
  err ← appendErrs (b_batch_put c ctx kind) (elems (bi_PutObject items)) err;
  return_err err.

Definition b_RegisterCallbacks c (callbacks : Callbacks W) : BackendClient W P :=
  mkBackendClient callbacks (bc_messageProducer c) (bc_skipAlertsFrom c) (bc_maxObjectSizeBytes c).
Definition b_Callbacks c (ctx : Ctx) : M B (Callbacks W) := mret (bc_callbacks c).
End Client.
