(* ===== verification/Queue.v ===== *)
(** * Queue: what the two ends of the message queue promise together.

    A [link] stands for the queue: it keeps, for every message produced, the incoming
    message that a reader makes of it.  A message that a client writes names the client,
    and [Handle] makes of it the call that wrote it. *)

From S2P Require Export BackendClient.

(** The producers stamp a message with [BuildProducerProperties]. *)
Definition queued (now : string) (account cluster event payload : string)
    (props : list (gmap string string)) : IncomingMessage :=
  mkIncomingMessage "" (BuildProducerProperties now account cluster event props) payload.
Definition link (now : string) : MessageProducer (list IncomingMessage) := mkMessageProducer
  (λ _ id event payload props,
     modifyW (λ sent, sent ++ [queued now (Account id) (Cluster id) event payload props]))
  (λ _ event payload, modifyW (λ sent, sent ++ [queued now "" "" event payload []])).

(** ** Properties of what is produced *)
Definition described (id : KindName) (k : Kind) : gmap string string :=
  <[MsgPropResourceKindGroup := Group k]>
  (<[MsgPropResourceKindVersion := Version k]>
  (<[MsgPropResourceKindResource := Resource k]>
  (<[MsgPropResourceName := kn_Name id]>
  (<[MsgPropResourceNamespace := kn_Namespace id]>
  (<[MsgPropResourceVersion := Itoa (kn_ResourceVersion id)]> ∅))))).

Lemma KindNameToCustomProperties_run {W} id k (w : W) :
  kn_Kind id = Some k → KindNameToCustomProperties id w = (Ret (described id k), w).
Proof. intros Hk. unfold KindNameToCustomProperties. rewrite Hk. reflexivity. Qed.

(** The keys that route a message: no description of a resource sets them. *)
Lemma prop_set_nonempty_ne k k' v m : k ≠ k' → prop_of (set_nonempty k' v m) k = prop_of m k.
Proof. intros. unfold set_nonempty, prop_of. case_match; [done|]. by rewrite lookup_insert_ne. Qed.
Lemma prop_set_nonempty_eq k v m :
  m !! k = None → prop_of (set_nonempty k v m) k = v.
Proof.
  intros Hm. unfold set_nonempty, prop_of. destruct (String.eqb_spec v "") as [->|].
  - by rewrite Hm.
  - by rewrite lookup_insert_eq.
Qed.
Definition free_of (k : string) (props : list (gmap string string)) : Prop :=
  Forall (λ m, m !! k = None) props.
Lemma foldl_union_free k m props :
  free_of k props → foldl (λ m (o : gmap string string), o ∪ m) m props !! k = m !! k.
Proof.
  intros HF. revert m. induction HF as [|o props Ho HF IH]; intros m; [done|].
  cbn. rewrite IH. by rewrite lookup_union_r.
Qed.

Section Routing.
Variables (now account cluster event : string) (props : list (gmap string string)).
Let m := BuildProducerProperties now account cluster event props.
Lemma routed_account : free_of MsgPropAccount props → prop_of m MsgPropAccount = account.
Proof.
  intros Ha. subst m. unfold BuildProducerProperties. cbv zeta.
  rewrite prop_set_nonempty_ne by done. apply prop_set_nonempty_eq. by rewrite foldl_union_free.
Qed.
Lemma routed_cluster : free_of MsgPropCluster props → prop_of m MsgPropCluster = cluster.
Proof.
  intros Hc. subst m. unfold BuildProducerProperties. cbv zeta.
  apply prop_set_nonempty_eq. unfold set_nonempty.
  case_match; [|rewrite lookup_insert_ne by done]; by rewrite foldl_union_free.
Qed.
Lemma routed_event : free_of MsgPropEvent props → prop_of m MsgPropEvent = event.
Proof.
  intros He. subst m. unfold BuildProducerProperties. cbv zeta.
  rewrite !prop_set_nonempty_ne by done. unfold prop_of. by rewrite foldl_union_free.
Qed.
Lemma routed_source :
  free_of MsgPropProducerSource props → ∀ key, IsSelfProducedMessage m key = true.
Proof.
  intros Hs key. subst m. unfold BuildProducerProperties, IsSelfProducedMessage. cbv zeta.
  rewrite !prop_set_nonempty_ne by done. unfold prop_of. by rewrite foldl_union_free.
Qed.
End Routing.

(** The account, the cluster, the event and the producer of a message are the ones
    given, and no description of a resource changes them; so the server recognises its own
    messages. *)
Theorem routing_properties (now account cluster event : string) (props : list (gmap string string))
    (Ha : free_of MsgPropAccount props) (Hc : free_of MsgPropCluster props)
    (He : free_of MsgPropEvent props) (Hs : free_of MsgPropProducerSource props) :
  let m := BuildProducerProperties now account cluster event props in
  prop_of m MsgPropAccount = account ∧ prop_of m MsgPropCluster = cluster ∧
  prop_of m MsgPropEvent = event ∧ ∀ key, IsSelfProducedMessage m key = true.
Proof.
  intros m. split_and!; [by apply routed_account|by apply routed_cluster|by apply routed_event|].
  by apply routed_source.
Qed.

Lemma routing_properties_witness :
  let m := BuildProducerProperties "now" "acme" "prod" "PutObject" [described sample_id sample_kind] in
  prop_of m MsgPropAccount = "acme" ∧ prop_of m MsgPropCluster = "prod" ∧
  prop_of m MsgPropEvent = "PutObject" ∧ ∀ key, IsSelfProducedMessage m key = true.
Proof.
  apply (routing_properties "now" "acme" "prod" "PutObject" [described sample_id sample_kind]);
    repeat constructor.
Defined.

(** The same for the messages of a client, which carry one description. *)
Lemma described_free id k key :
  key ∈ [MsgPropAccount; MsgPropCluster; MsgPropEvent; MsgPropProducerSource] →
  described id k !! key = None.
Proof. intros Hk. repeat (apply elem_of_cons in Hk as [->|Hk]); [done..|]. by apply not_elem_of_nil in Hk. Qed.
Lemma described_routes now account cluster event id k :
  let m := BuildProducerProperties now account cluster event [described id k] in
  prop_of m MsgPropAccount = account ∧ prop_of m MsgPropCluster = cluster ∧
  prop_of m MsgPropEvent = event.
Proof.
  split_and!; [apply routed_account|apply routed_cluster|apply routed_event];
    constructor; [|constructor| |constructor| |constructor]; apply described_free; set_solver.
Qed.

(** ** A call and the message it becomes *)
Definition queue_event (ev : SyncEvent) : string :=
  match ev with
  | SyncDelete _ => MsgPropEventValueDeleteObjectMessage
  | SyncGet _ _ => MsgPropEventValueGetObjectMessage
  | SyncPatch _ _ _ => MsgPropEventValuePatchObjectMessage
  | SyncPut _ _ _ => MsgPropEventValuePutObjectMessage
  | SyncVerify _ _ => MsgPropEventValueVerifyObjectMessage
  | SyncBatch _ _ _ => ""
  end.
Definition queue_label (ev : SyncEvent) : string :=
  ("failed to send " ++ queue_event ev ++ " message")%string.
Definition queue_payload (cId : ClientIdentifier) (k : Kind) (depth : Z) (msgId : string)
    (ev : SyncEvent) : string :=
  match ev with
  | SyncDelete id =>
      Marshal (mkDeleteObjectMessage (Cluster cId) (Account cId) depth (Kind_String k) msgId
                 (kn_Name id) (kn_Namespace id) 0)
  | SyncGet id base =>
      Marshal (mkGetObjectMessage base (Cluster cId) (Account cId) depth (Kind_String k) msgId
                 (kn_Name id) (kn_Namespace id) 0)
  | SyncPatch id checksum patch =>
      Marshal (mkPatchObjectMessage checksum (Cluster cId) (Account cId) depth (Kind_String k)
                 msgId (kn_Name id) (kn_Namespace id) patch 0)
  | SyncPut id checksum object =>
      Marshal (mkPutObjectMessage checksum (Cluster cId) (Account cId) depth (Kind_String k)
                 msgId (kn_Name id) (kn_Namespace id) object 0)
  | SyncVerify id checksum =>
      Marshal (mkVerifyObjectMessage checksum (Cluster cId) (Account cId) depth (Kind_String k)
                 msgId (kn_Name id) (kn_Namespace id) 0)
  | SyncBatch _ _ _ => ""
  end.
(** The object an event is about; a batch is about none. *)
Definition event_id (ev : SyncEvent) : option KindName :=
  match ev with
  | SyncDelete id | SyncGet id _ | SyncPatch id _ _ | SyncPut id _ _ | SyncVerify id _ => Some id
  | SyncBatch _ _ _ => None
  end.

(** Text the queue carries unchanged: names and checksums are valid UTF-8, the parts of
    the kind have no slash.  Objects and patches are bytes and need no condition. *)
Definition kind_ok (k : Kind) : Prop :=
  text_ok (Kind_String k) ∧ Forall (λ p, no_sep slash p = true) [Group k; Version k; Resource k] ∧
  Kind_AdditionalProperties k = None.
Definition checksum_ok (ev : SyncEvent) : Prop :=
  match ev with
  | SyncPatch _ checksum _ | SyncPut _ checksum _ | SyncVerify _ checksum => text_ok checksum
  | _ => True
  end.
Definition queueable (ev : SyncEvent) (id : KindName) (k : Kind) : Prop :=
  event_id ev = Some id ∧ kn_Kind id = Some k ∧ kind_ok k ∧
  text_ok (kn_Name id) ∧ text_ok (kn_Namespace id) ∧ checksum_ok ev.

Lemma KindFromString_String k : kind_ok k → KindFromString (Kind_String k) = Some k.
Proof.
  intros (_ & Hs & Ha). unfold KindFromString, Kind_String.
  change (Join _ "/") with (Join [Group k; Version k; Resource k] (chr slash)).
  rewrite Split_Join by done. destruct k; cbn in *. by subst.
Qed.

(** ** The client writes one message *)
Section ClientSide.
Context `{MultiErr, MergePatches, Machine P} {W : Type}.
Implicit Type c : BackendClient W P.

(** The operation of the client that the event names. *)
Definition client_call c (ctx : Ctx) (ev : SyncEvent) : M (option FeaturesProvider * P) unit :=
  match ev with
  | SyncDelete id => b_DeleteObject c ctx id
  | SyncGet id base => b_GetObject c ctx id base
  | SyncPatch id checksum patch => b_PatchObject c ctx id checksum patch
  | SyncPut id checksum object => b_PutObject c ctx id checksum object
  | SyncVerify id checksum => b_VerifyObject c ctx id checksum
  | SyncBatch kind bt items => b_Batch c ctx kind bt items
  end.
(** The guards of [sendPutObjectMessage] let the event pass. *)
Definition held_back c (f : option FeaturesProvider) (account : string) (ev : SyncEvent) : bool :=
  match ev with
  | SyncPut id _ object =>
      match kn_Kind id with
      | Some k => String.eqb (Resource k) resourceRuntimeAlerts && skip_alerts c f account
                  || too_large c object
      | None => false
      end
  | _ => false
  end.

Lemma client_call_run c ctx ev id k cId f q d m f' q1 :
  event_id ev = Some id → kn_Kind id = Some k → carries ctx cId →
  b_ids ctx (f, q) = (Ret (d, m), (f', q1)) →
  client_call c ctx ev (f, q) =
    if held_back c f' (Account cId) ev then (Ret tt, (f', q1))
    else produce c ctx cId (queue_event ev) (queue_payload cId k (wrap_int (d + 1)) m ev)
           [described id k] (f', q1).
Proof.
  intros Hev Hk Hc Hids. unfold client_call, held_back.
  destruct ev; cbn in Hev; try done; injection Hev as ->;
    cbv [b_DeleteObject b_GetObject b_PatchObject b_PutObject b_VerifyObject
         sendDeleteObjectMessage sendGetObjectMessage sendPatchObjectMessage sendPutObjectMessage
         sendVerifyObjectMessage produce_about];
    rewrite bind_run, Hids; cbn beta iota;
    rewrite bind_run, (ClientIdentifier_run _ _ _ Hc); cbn beta iota; rewrite Hk, deref_bind_Some.
  4: { rewrite bind_run. unfold getW. cbn beta iota. cbn [fst].
       destruct (String.eqb (Resource k) resourceRuntimeAlerts && skip_alerts c f' (Account cId));
         [done|]. cbn [orb]. destruct (too_large c object); [done|].
       rewrite bind_run, (KindNameToCustomProperties_run _ _ _ Hk). done. }
  all: rewrite bind_run, (KindNameToCustomProperties_run _ _ _ Hk); done.
Qed.
End ClientSide.

(** ** The handler makes the call again *)
Section HandlerSide.
Context `{MultiErr} {W X : Type} (adapter : Adapter W X).
Variable Range : gmap string (GoSlice ReconciliationRequestObject) →
  list (string * GoSlice ReconciliationRequestObject).

(** The handler of a message once the adapter has answered. *)
Definition on_event (event : string) (cb : Callbacks W) (ctx : Ctx) (payload : string) :
    M (X * W) unit :=
  if String.eqb event MsgPropEventValueReconciliationRequestMessage then
    onReconciliationRequestMessage Range cb ctx payload
  else if String.eqb event MsgPropEventValueGetObjectMessage then onGetObjectMessage cb ctx payload
  else if String.eqb event MsgPropEventValuePatchObjectMessage then
    onPatchObjectMessage cb ctx payload
  else if String.eqb event MsgPropEventValueVerifyObjectMessage then
    onVerifyObjectMessage cb ctx payload
  else if String.eqb event MsgPropEventValuePutObjectMessage then onPutObjectMessage cb ctx payload
  else if String.eqb event MsgPropEventValueDeleteObjectMessage then
    onDeleteObjectMessage cb ctx payload
  else throw (Errorf "unknown message type").

(** The adapter serves a client: it is related and has callbacks for it. *)
Definition serves (ctx : Ctx) (id : ClientIdentifier) (x : X) (cb : Callbacks W) (x' : X) : Prop :=
  ∃ x1, ad_IsRelated adapter ctx id x = (Ret true, x1) ∧
        ad_Callbacks adapter (ContextFromIdentifiers ctx id) x1 = (Ret cb, x').

Definition message_client (msg : IncomingMessage) : ClientIdentifier :=
  mkIdentifier (prop_of (im_Properties msg) MsgPropAccount) (prop_of (im_Properties msg) MsgPropCluster).

Lemma Handle_serves ctx msg x w cb x' :
  serves ctx (message_client msg) x cb x' →
  Handle adapter Range ctx msg (x, w) =
    on_event (prop_of (im_Properties msg) MsgPropEvent) cb
      (ContextFromIdentifiers ctx (message_client msg)) (im_Payload msg) (x', w).
Proof.
  intros (x1 & Hr & Hc). unfold Handle. rewrite bind_run. unfold liftL at 1.
  unfold message_client in *. rewrite Hr. cbn [negb].
  rewrite bind_run, wrapE_run. unfold liftL at 1. rewrite Hc. reflexivity.
Qed.

Lemma h_unmarshal_Marshal {A} `{WireLaws A} (a : A) (y : X * W) :
  wire_ok a → h_unmarshal (Marshal a) y = (Ret a, y).
Proof. intros Ha. unfold h_unmarshal. by rewrite Unmarshal_Marshal. Qed.
Lemma kindFromPayload_String k label (y : X * W) :
  kind_ok k → kindFromPayload (Kind_String k) label y = (Ret k, y).
Proof. intros Hk. unfold kindFromPayload. by rewrite KindFromString_String. Qed.

Definition client_ok (cId : ClientIdentifier) : Prop := text_ok (Account cId) ∧ text_ok (Cluster cId).

Ltac message_ok :=
  cbv [wire_ok WireOk_DeleteObjectMessage WireOk_GetObjectMessage WireOk_PatchObjectMessage
       WireOk_PutObjectMessage WireOk_VerifyObjectMessage]; cbn;
  repeat match goal with |- _ ∧ _ => split end; assumption.
Lemma on_event_call ev id k cId d m cb ctx (y : X * W) :
  queueable ev id k → client_ok cId → in_int d → text_ok m →
  on_event (queue_event ev) cb ctx (queue_payload cId k d m ev) y =
    wrapE (queue_label ev) (liftR (call cb (h_context ctx d m) (as_received false ev))) y.
Proof.
  intros (Hev & Hk & Hko & Hn & Hns & Hc) [Ha Hcl] Hd Hm.
  pose proof (proj1 Hko) as Hks.
  assert (in_int 0) as H0 by (unfold in_int, int_min, int_max; lia).
  unfold on_event.
  destruct ev; cbn in Hev; try done; injection Hev as ->;
    cbn [queue_event queue_payload checksum_ok] in *;
    cbn [String.eqb Ascii.eqb Bool.eqb MsgPropEventValueReconciliationRequestMessage
         MsgPropEventValueGetObjectMessage MsgPropEventValuePatchObjectMessage
         MsgPropEventValueVerifyObjectMessage MsgPropEventValuePutObjectMessage
         MsgPropEventValueDeleteObjectMessage];
    unfold onGetObjectMessage, onPatchObjectMessage, onVerifyObjectMessage, onPutObjectMessage,
      onDeleteObjectMessage;
    rewrite bind_run, h_unmarshal_Marshal by message_ok; cbn beta iota;
    cbn [gm_Kind pm_Kind vm_Kind um_Kind dm_Kind];
    rewrite bind_run, kindFromPayload_String by done; cbn beta iota;
    rewrite <- Hk; destruct id; reflexivity.
Qed.
End HandlerSide.

(** C10. What a client writes on the queue is read back as the same call: unless its guards
    hold the event back, the operation of a client adds one message, and on any side that
    serves the client [Handle] answers that message with the callback of the same name, the
    same object (its resource version reset), checksum and bytes, one level deeper in the
    same conversation. *)
Theorem queue_round_trip `{MultiErr, MergePatches, Machine (list IncomingMessage)} {W V X : Type}
    (c : BackendClient V (list IncomingMessage)) (now : string) (ctx : Ctx) (ev : SyncEvent)
    (id : KindName) (k : Kind) (cId : ClientIdentifier) (f : option FeaturesProvider)
    (sent sent1 : list IncomingMessage) (d : Z) (m : string)
    (Hlink : bc_messageProducer c = link now) (Hctx : carries ctx cId)
    (Hids : b_ids ctx (f, sent) = (Ret (d, m), (f, sent1)))
    (Hev : queueable ev id k) (Hid : client_ok cId) (Hm : text_ok m)
    (Hheld : held_back c f (Account cId) ev = false) :
  ∃ msg, client_call c ctx ev (f, sent) = (Ret tt, (f, sent1 ++ [msg])) ∧
    message_client msg = mkIdentifier (Account cId) (Cluster cId) ∧
    ∀ (adapter : Adapter W X) Range hctx x w cb x',
      serves adapter hctx (message_client msg) x cb x' →
      Handle adapter Range hctx msg (x, w) =
        wrapE (queue_label ev)
          (liftR (call cb (h_context (ContextFromIdentifiers hctx (message_client msg))
                             (wrap_int (d + 1)) m)
                    (as_received false ev))) (x', w).
Proof.
  pose proof Hev as (He & Hk & Hrest).
  destruct (described_routes now (Account cId) (Cluster cId) (queue_event ev) id k)
    as (Hra & Hrc & Hre).
  exists (queued now (Account cId) (Cluster cId) (queue_event ev)
            (queue_payload cId k (wrap_int (d + 1)) m ev) [described id k]).
  assert (message_client (queued now (Account cId) (Cluster cId) (queue_event ev)
            (queue_payload cId k (wrap_int (d + 1)) m ev) [described id k])
          = mkIdentifier (Account cId) (Cluster cId)) as Hmc
    by (unfold message_client, queued; cbn [im_Properties]; by rewrite Hra, Hrc).
  split_and!; [|done|].
  - rewrite (client_call_run c ctx ev id k cId f sent d m f sent1) by done. rewrite Hheld.
    unfold produce. rewrite Hlink. reflexivity.
  - intros adapter Range hctx x w cb x' Hs.
    rewrite (Handle_serves _ _ _ _ _ _ _ _ Hs). rewrite Hmc.
    unfold queued. cbn [im_Properties im_Payload]. rewrite Hre.
    apply (on_event_call Range ev id k); [done|done|apply wrap_int_range|done].
Qed.

Definition sample_machine {P} : Machine P :=
  {| NewMsgId := mret "0b7c"; Now := mret 0; Hostname := mret "server"; FormatTime := Itoa |}.
Definition sample_bclient {W} : BackendClient W (list IncomingMessage) :=
  NewBackendClient (λ _, Some "100") (link "now") ["other"].

Lemma queue_round_trip_witness :
  ∃ msg, @client_call sample_multierr _ sample_machine unit sample_bclient (sample_ctx_at 3)
           (SyncPut sample_id "c0" "{}") (None, []) = (Ret tt, (None, [msg])) ∧
    @Handle sample_multierr (list string) _ recorder map_to_list Background msg ([], [])
      = (Panic "call of a nil function", ([], [])).
Proof.
  destruct (@queue_round_trip sample_multierr sample_patches sample_machine (list string) unit
              (list string) sample_bclient "now" (sample_ctx_at 3) (SyncPut sample_id "c0" "{}")
              sample_id sample_kind sample_client None [] [] 3 "0b7c")
    as (msg & Hrun & Hclient & Hhandle);
    [reflexivity|reflexivity|reflexivity| | | |vm_compute; reflexivity|].
  - split_and!; try reflexivity; vm_compute; repeat constructor.
  - split; reflexivity.
  - reflexivity.
  - exists msg. split; [exact Hrun|].
    rewrite (Hhandle recorder map_to_list Background [] [] nil_Callbacks []);
      [reflexivity|]. exists []. split; reflexivity.
Defined.

(** ** What keeps an object from being written *)

(** An alert of an account that is listed, or whose features are known and lack the
    flag, and an object larger than the limit of the process are not written, without an
    error; every other object is, in one message. *)
Theorem put_object_guards `{MultiErr, MergePatches, Machine P} {W : Type} (c : BackendClient W P)
    (ctx : Ctx) (id : KindName) (k : Kind) (cId : ClientIdentifier) (checksum object : string)
    (f : option FeaturesProvider) (q q1 : P) (d : Z) (m : string)
    (Hk : kn_Kind id = Some k) (Hctx : carries ctx cId)
    (Hids : b_ids ctx (f, q) = (Ret (d, m), (f, q1))) :
  let alerts_off := Account cId ∈ bc_skipAlertsFrom c ∨
    ∃ p key fs, f = Some p ∧ fp_cache p !! Account cId = Some (mkCachedAccount key (Some fs)) ∧
                featureFlagName p ∉ fs in
  let oversized := ∃ max, bc_maxObjectSizeBytes c = Some max ∧ max < Z.of_nat (String.length object) in
  (Resource k = "runtimealerts" ∧ alerts_off ∨ oversized →
   b_PutObject c ctx id checksum object (f, q) = (Ret tt, (f, q1))) ∧
  (¬ (Resource k = "runtimealerts" ∧ alerts_off ∨ oversized) →
   b_PutObject c ctx id checksum object (f, q) =
     produce c ctx cId "PutObject"
       (Marshal (mkPutObjectMessage checksum (Cluster cId) (Account cId) (wrap_int (d + 1))
                   (Kind_String k) m (kn_Name id) (kn_Namespace id) object 0))
       [described id k] (f, q1)).
Proof.
  intros alerts_off oversized.
  assert (skip_alerts c f (Account cId) = true ↔ alerts_off) as Hskip.
  { unfold skip_alerts. rewrite orb_true_iff, bool_decide_eq_true. subst alerts_off.
    destruct f as [p|]; [rewrite ShouldSkip_iff|]; naive_solver. }
  assert (too_large c object = true ↔ oversized) as Hlarge.
  { unfold too_large. subst oversized. destruct (bc_maxObjectSizeBytes c); [|naive_solver].
    rewrite Z.ltb_lt. naive_solver. }
  change (b_PutObject c ctx id checksum object) with (client_call c ctx (SyncPut id checksum object)).
  rewrite (client_call_run c ctx (SyncPut id checksum object) id k cId f q d m f q1) by done.
  unfold held_back. rewrite Hk.
  rewrite <- Hskip, <- Hlarge. clearbody alerts_off oversized.
  destruct (String.eqb_spec (Resource k) resourceRuntimeAlerts) as [Ha|Ha];
    destruct (skip_alerts c f (Account cId)), (too_large c object); cbn;
    unfold resourceRuntimeAlerts in Ha; split; intros Hc; try reflexivity;
    try (exfalso; apply Hc; tauto); exfalso; intuition congruence.
Qed.

Lemma put_object_guards_witness :
  @b_PutObject _ sample_machine unit sample_bclient sample_ctx
    (mkKindName (Some (mkKind "g" "v1" "runtimealerts" None)) "a" "b" 0) "c0" "{}"
    (Some (with_cache <["acme" := mkCachedAccount "key" (Some ["cadr"])]>
             (NewFeaturesProvider "http://f" "runtime")), [])
  = (Ret tt, (Some (with_cache <["acme" := mkCachedAccount "key" (Some ["cadr"])]>
             (NewFeaturesProvider "http://f" "runtime")), [])).
Proof.
  apply (@put_object_guards sample_multierr sample_patches _ sample_machine unit sample_bclient
           sample_ctx (mkKindName (Some (mkKind "g" "v1" "runtimealerts" None)) "a" "b" 0)
           (mkKind "g" "v1" "runtimealerts" None) sample_client "c0" "{}" _ [] [] 0 "0b7c");
    [reflexivity..|].
  left. split; [reflexivity|]. right. eexists _, "key", ["cadr"].
  split_and!; [reflexivity|vm_compute; reflexivity|]. cbn. set_solver.
Defined.

(** ** Messages that call nothing *)
Definition handled_events : list string :=
  [MsgPropEventValueReconciliationRequestMessage; MsgPropEventValueGetObjectMessage;
   MsgPropEventValuePatchObjectMessage; MsgPropEventValueVerifyObjectMessage;
   MsgPropEventValuePutObjectMessage; MsgPropEventValueDeleteObjectMessage].
(** The payload is a message of type [A] whose kind is not [group/version/resource]. *)
Definition unknown_kind_in {A} `{Wire A} (kind : A → string) (payload : string) : Prop :=
  ∃ data : A, Unmarshal payload = Some data ∧ KindFromString (kind data) = None.
Definition names_unknown_kind (event payload : string) : Prop :=
  event = MsgPropEventValueGetObjectMessage ∧ unknown_kind_in gm_Kind payload ∨
  event = MsgPropEventValuePatchObjectMessage ∧ unknown_kind_in pm_Kind payload ∨
  event = MsgPropEventValueVerifyObjectMessage ∧ unknown_kind_in vm_Kind payload ∨
  event = MsgPropEventValuePutObjectMessage ∧ unknown_kind_in um_Kind payload ∨
  event = MsgPropEventValueDeleteObjectMessage ∧ unknown_kind_in dm_Kind payload.

Section Rejections.
Context `{MultiErr} {W X : Type}.
Variable Range : gmap string (GoSlice ReconciliationRequestObject) →
  list (string * GoSlice ReconciliationRequestObject).

Lemma h_unmarshal_garbage {A} `{Wire A} payload (y : X * W) :
  parse payload = None → h_unmarshal (A := A) payload y = (Throw unmarshal_error, y).
Proof. intros Hp. unfold h_unmarshal. Transparent Unmarshal. unfold Unmarshal. by rewrite Hp. Qed.
#[global] Opaque Unmarshal.

Ltac next_event :=
  match goal with
  | |- context [String.eqb ?e ?s] => destruct (String.eqb_spec e s)
  end.
Lemma on_event_unknown event cb ctx payload (y : X * W) :
  event ∉ handled_events → on_event Range event cb ctx payload y = (Throw (Errorf "unknown message type"), y).
Proof.
  intros Hev. unfold on_event.
  repeat (next_event; [exfalso; apply Hev; subst; set_solver|]). done.
Qed.
Lemma on_event_garbage event cb ctx payload (y : X * W) :
  event ∈ handled_events → parse payload = None →
  on_event Range event cb ctx payload y = (Throw unmarshal_error, y).
Proof.
  intros Hev Hp. unfold on_event, onReconciliationRequestMessage, onGetObjectMessage,
    onPatchObjectMessage, onVerifyObjectMessage, onPutObjectMessage, onDeleteObjectMessage.
  repeat (next_event; [rewrite bind_run, h_unmarshal_garbage by done; done|]).
  exfalso. unfold handled_events in Hev. set_solver.
Qed.
Lemma on_event_unknown_kind event cb ctx payload (y : X * W) :
  names_unknown_kind event payload →
  ∃ s, on_event Range event cb ctx payload y = (Throw (unknown_kind s event), y).
Proof.
  intros [[-> Hk]|[[-> Hk]|[[-> Hk]|[[-> Hk]|[-> Hk]]]]]; destruct Hk as (data & Hd & Hk);
    eexists; unfold on_event;
    cbn [String.eqb Ascii.eqb Bool.eqb MsgPropEventValueReconciliationRequestMessage
         MsgPropEventValueGetObjectMessage MsgPropEventValuePatchObjectMessage
         MsgPropEventValueVerifyObjectMessage MsgPropEventValuePutObjectMessage
         MsgPropEventValueDeleteObjectMessage];
    unfold onGetObjectMessage, onPatchObjectMessage, onVerifyObjectMessage, onPutObjectMessage,
      onDeleteObjectMessage, h_unmarshal, kindFromPayload;
    rewrite bind_run, Hd; cbn beta iota; rewrite ret_run, bind_run, Hk; reflexivity.
Qed.
End Rejections.

(** A message calls nothing of the core when the adapter does not serve its client
    (then it is skipped without an error), and neither when its event is none of the six,
    its payload is not JSON or it names a kind that cannot be read (then [Handle] fails). *)
Theorem message_rejected `{MultiErr} {W X : Type} (adapter : Adapter W X) Range (ctx : Ctx)
    (msg : IncomingMessage) (x : X) (w : W) :
  let event := prop_of (im_Properties msg) MsgPropEvent in
  (∀ x', ad_IsRelated adapter ctx (message_client msg) x = (Ret false, x') →
     Handle adapter Range ctx msg (x, w) = (Ret tt, (x', w))) ∧
  (∀ cb x', serves adapter ctx (message_client msg) x cb x' →
     event ∉ handled_events ∨ parse (im_Payload msg) = None ∨
       names_unknown_kind event (im_Payload msg) →
     ∃ e, Handle adapter Range ctx msg (x, w) = (Throw e, (x', w))).
Proof.
  intros event. split.
  - intros x' Hr. unfold Handle. rewrite bind_run. unfold liftL at 1.
    unfold message_client in Hr. by rewrite Hr.
  - intros cb x' Hs Hc. rewrite (Handle_serves _ _ _ _ _ _ _ _ Hs).
    destruct (decide (event ∈ handled_events)) as [Hin|Hout];
      [|eexists; by apply on_event_unknown].
    destruct Hc as [Hc|[Hc|Hc]]; [done|eexists; by apply on_event_garbage|].
    edestruct (on_event_unknown_kind (W := W) (X := X)) as [s Hk]; [exact Hc|].
    eexists. exact Hk.
Qed.

Lemma message_rejected_witness :
  ∃ e, @Handle sample_multierr (list string) _ recorder map_to_list Background
         (queued "now" "acme" "prod" "PutObject" "{" []) ([], []) = (Throw e, ([], [])).
Proof.
  apply (@message_rejected sample_multierr (list string) _ recorder map_to_list Background
           (queued "now" "acme" "prod" "PutObject" "{" []) [] []) with (cb := nil_Callbacks).
  - exists []. split; reflexivity.
  - right. left. vm_compute. reflexivity.
Defined.

(** ** Reconciliation requests

    [requested] is what a request asks of the core, kind by kind. *)
Section Requests.
Context `{MultiErrLaws} {W X : Type}.
Variable Range : gmap string (GoSlice ReconciliationRequestObject) →
  list (string * GoSlice ReconciliationRequestObject).
Local Abbreviation entry := (string * GoSlice ReconciliationRequestObject)%type.

Definition requested (cb : Callbacks W) (ctx : Ctx) (e : entry) : M W unit :=
  match KindFromString e.1 with
  | None => throw (Errorf ("unknown kind " ++ e.1 ++ " in batch"))
  | Some kind => cb_Batch cb ctx kind ReconciliationBatch (requested_items kind e.2)
  end.

Lemma onRequestedKinds_run cb ctx l err (x : X) (w : W) :
  mfold (onRequestedKind cb ctx) err l (x, w) =
    let '(o, w') := appendErrs (requested cb ctx) l err w in (o, (x, w')).
Proof.
  revert err w. induction l as [|e l IH]; intros err w; [done|].
  cbn [mfold appendErrs]. rewrite !bind_run. unfold onRequestedKind, requested at 1.
  destruct (KindFromString e.1) as [kind|].
  - rewrite bind_run, !errval_run. unfold liftR.
    destruct (cb_Batch cb ctx kind _ _ w) as [[[]|?|?] w1]; cbn beta iota;
      rewrite ?ret_run; cbn beta iota; by rewrite ?IH.
  - rewrite errval_run, throw_run, ret_run. cbn beta iota. by rewrite IH.
Qed.
End Requests.

(** C32. A reconciliation request is handled kind by kind: [Batch] is called for every kind
    that can be read, with one checksum per listed object, whatever happened to the other
    kinds; the request is answered without an error exactly when every kind was read and
    its batch was sent. *)
Theorem reconciliation_request_complete `{MultiErrLaws} {W X : Type} (adapter : Adapter W X) Range
    (ctx : Ctx) (msg : IncomingMessage) (x : X) (w : W) (cb : Callbacks W) (x' : X)
    (data : ReconciliationRequestMessage) (err : option gerror) (w' : W)
    (Hs : serves adapter ctx (message_client msg) x cb x')
    (Hev : prop_of (im_Properties msg) MsgPropEvent = "ReconciliationRequest")
    (Hdata : Unmarshal (im_Payload msg) = Some data) :
  let ctx' := h_context (ContextFromIdentifiers ctx (message_client msg)) (rr_Depth data) (rr_MsgId data) in
  appendErrs (requested cb ctx') (Range (default ∅ (rr_KindToObjects data))) None w = (Ret err, w') →
  Handle adapter Range ctx msg (x, w) =
    (match err with
     | None => Ret tt
     | Some e => Throw (Wrapf "failed to handle ReconciliationRequest message" e)
     end, (x', w')) ∧
  (err = None ↔
   mfor (requested cb ctx') (Range (default ∅ (rr_KindToObjects data))) w = (Ret tt, w')).
Proof.
  intros ctx' Hrun. split; [|by apply appendErrs_clean_iff]. rewrite (Handle_serves _ _ _ _ _ _ _ _ Hs), Hev.
  unfold on_event. cbn [String.eqb Ascii.eqb Bool.eqb MsgPropEventValueReconciliationRequestMessage].
  unfold onReconciliationRequestMessage, h_unmarshal. rewrite bind_run, Hdata, ret_run.
  cbn beta iota. rewrite bind_run. fold ctx'.
  rewrite onRequestedKinds_run, Hrun. cbn beta iota.
  rewrite wrapE_run. unfold return_err. by destruct err.
Qed.

(** A client that takes note of the batches it is asked for. *)
Definition noting_Callbacks : Callbacks (list string) :=
  mkCallbacks (λ _ _, nil_func) (λ _ _ _, nil_func) (λ _ _ _ _, nil_func) (λ _ _ _ _, nil_func)
    (λ _ _ _, nil_func)
    (λ _ kind _ items, modifyW (λ l, l ++ [Kind_String kind] ++
       (nc_Name <$> elems (bi_NewChecksum items)))).
Definition noting : Adapter (list string) unit := mkAdapter
  (λ _, mret tt) (λ _, mret tt) (λ _ _, mret true) (λ _ _, mret tt) (λ _, mret noting_Callbacks)
  (λ _ _, mret tt) (λ _ _ _, mret tt) (λ _ _ _ _, mret tt) (λ _ _ _ _, mret tt)
  (λ _ _ _, mret tt) (λ _ _ _ _, mret tt).
Definition sample_request : ReconciliationRequestMessage :=
  mkReconciliationRequestMessage "prod" "acme" 1 "0b7c" true
    (Some (<["pods" := None]> (<["apps/v1/deployments" :=
       Some [mkReconciliationRequestObject "c0" 7 "nginx" "default"]]> ∅))).

Lemma reconciliation_request_complete_witness :
  @Handle sample_multierr (list string) unit noting map_to_list Background
    (queued "now" "acme" "prod" "ReconciliationRequest" (Marshal sample_request) []) (tt, [])
  = (Throw (Wrapf "failed to handle ReconciliationRequest message"
              (Errorf "unknown kind pods in batch")), (tt, ["apps/v1/deployments"; "nginx"])).
Proof.
  apply (@reconciliation_request_complete sample_multierr sample_multierr_laws (list string) unit
           noting map_to_list Background
           (queued "now" "acme" "prod" "ReconciliationRequest" (Marshal sample_request) [])
           tt [] noting_Callbacks tt sample_request (Some (Errorf "unknown kind pods in batch")));
    [exists tt; split; reflexivity|reflexivity|vm_compute; reflexivity|vm_compute; reflexivity].
Defined.

(** ** Batches of a client *)
Section ClientBatch.
Context `{MultiErrLaws, MergePatches, Machine P} {W : Type}.
Implicit Type c : BackendClient W P.

(** The events of a batch, in the order they are written. *)
Definition batch_events (kind : Kind) (items : BatchItems) : list SyncEvent :=
  ((λ i, SyncGet (item_id kind (go_Name i) (go_Namespace i) (go_ResourceVersion i)) (go_BaseObject i))
     <$> elems (bi_GetObject items)) ++
  ((λ i, SyncVerify (item_id kind (nc_Name i) (nc_Namespace i) (nc_ResourceVersion i)) (nc_Checksum i))
     <$> elems (bi_NewChecksum items)) ++
  ((λ i, SyncDelete (item_id kind (od_Name i) (od_Namespace i) (od_ResourceVersion i)))
     <$> elems (bi_ObjectDeleted items)) ++
  ((λ i, SyncPatch (item_id kind (pa_Name i) (pa_Namespace i) (pa_ResourceVersion i))
           (pa_Checksum i) (pa_Patch i)) <$> elems (bi_PatchObject items)) ++
  ((λ i, SyncPut (item_id kind (pu_Name i) (pu_Namespace i) (pu_ResourceVersion i))
           (pu_Checksum i) (pu_Object i)) <$> elems (bi_PutObject items)).

Lemma b_Batch_calls c ctx kind bt items w :
  b_Batch c ctx kind bt items w =
    (err ← appendErrs (client_call c ctx) (batch_events kind items) None; return_err err) w.
Proof.
  symmetry. unfold b_Batch, batch_events.
  do 4 (apply (appendErrs_next (client_call c ctx)); [done|]; intros).
  rewrite !bind_run. by erewrite appendErrs_map.
Qed.

(** The messages that an event leaves on the queue. *)
Definition written {V} (c : BackendClient V P) (now : string) (cId : ClientIdentifier)
    (f : option FeaturesProvider) (d : Z) (m : string) (ev : SyncEvent) : list IncomingMessage :=
  if held_back c f (Account cId) ev then []
  else match event_id ev with
       | Some id =>
           match kn_Kind id with
           | Some k => [queued now (Account cId) (Cluster cId) (queue_event ev)
                          (queue_payload cId k (wrap_int (d + 1)) m ev) [described id k]]
           | None => []
           end
       | None => []
       end.
End ClientBatch.

Lemma client_calls_run `{MultiErrLaws, MergePatches, Machine (list IncomingMessage)} {W}
    (c : BackendClient W (list IncomingMessage)) now ctx cId f sent d m l :
  bc_messageProducer c = link now → carries ctx cId →
  Value ctx ContextKeyDepth = Some (VInt d) → Value ctx ContextKeyMsgId = Some (VString m) →
  Forall (λ ev, ∃ id k, event_id ev = Some id ∧ kn_Kind id = Some k) l →
  mfor (client_call c ctx) l (f, sent) =
    (Ret tt, (f, sent ++ concat (written c now cId f d m <$> l))).
Proof.
  intros Hlink Hc Hd Hm HF. revert sent. induction HF as [|ev l (id & k & Hid & Hk) HF IH]; intros sent.
  { cbn. by rewrite (right_id_L [] (++)). }
  cbn [mfor]. rewrite bind_run.
  rewrite (client_call_run c ctx ev id k cId f sent d m f sent) by
    (done || by unfold b_ids; rewrite (DeptMsgId_set _ _ d m)).
  assert (written c now cId f d m ev = if held_back c f (Account cId) ev then [] else
    [queued now (Account cId) (Cluster cId) (queue_event ev)
       (queue_payload cId k (wrap_int (d + 1)) m ev) [described id k]]) as Hw
    by (unfold written; by rewrite Hid, Hk).
  rewrite fmap_cons. cbn [concat]. rewrite Hw.
  destruct (held_back c f (Account cId) ev); cbn beta iota; [by rewrite IH|].
  unfold produce. rewrite Hlink. unfold link, liftR, modifyW. cbn [ProduceMessage].
  cbn beta iota. rewrite IH. by rewrite <- (assoc_L (++)).
Qed.

(** C23. A batch that the server's client receives leaves one message per item on the queue,
    requests first, then checksums, deletions, patches and objects, all of the conversation
    of the batch and one level deeper; only what the guards hold back is missing. *)
Theorem client_batch_written `{MultiErrLaws, MergePatches, Machine (list IncomingMessage)} {W}
    (c : BackendClient W (list IncomingMessage)) now ctx cId f sent d m kind bt items
    (Hlink : bc_messageProducer c = link now) (Hctx : carries ctx cId)
    (Hdepth : Value ctx ContextKeyDepth = Some (VInt d))
    (Hmsg : Value ctx ContextKeyMsgId = Some (VString m)) :
  b_Batch c ctx kind bt items (f, sent) =
    (Ret tt, (f, sent ++ concat (written c now cId f d m <$> batch_events kind items))).
Proof.
  rewrite b_Batch_calls, bind_run. erewrite appendErrs_clean; [done|].
  apply client_calls_run; [done..|]. unfold batch_events, item_id.
  rewrite !Forall_app. split_and!; apply Forall_fmap, Forall_true; intros; cbn; eauto.
Qed.

Definition sample_items : BatchItems :=
  mkBatchItems (Some [mkPutObject "c1" 0 0 None None "" "web" "default" "{}" None])
    (Some [mkNewChecksum 0 "c0" 0 None None "" "nginx" "default" None]) None None None None.
Lemma client_batch_written_witness :
  (im_Properties <$> (@b_Batch sample_multierr _ sample_machine unit sample_bclient (sample_ctx_at 3)
     sample_kind DefaultBatch sample_items (None, [])).2.2) =
  [BuildProducerProperties "now" "acme" "prod" "VerifyObject"
     [described (item_id sample_kind "nginx" "default" 0) sample_kind];
   BuildProducerProperties "now" "acme" "prod" "PutObject"
     [described (item_id sample_kind "web" "default" 0) sample_kind]].
Proof.
  rewrite (@client_batch_written sample_multierr sample_multierr_laws sample_patches sample_machine unit
             sample_bclient "now" (sample_ctx_at 3) sample_client None [] 3 "0b7c"
             sample_kind DefaultBatch sample_items);
    [vm_compute; reflexivity|reflexivity..].
Defined.
