(* ===== verification/BackendAdapter.v ===== *)
(** * BackendAdapter: [adapters/backend/v1/adapter.go].

    The adapter of the server: one [BackendClient] per connected cluster, found by the
    [account/cluster] of the context.  The world of its operations is the state of the
    adapter and the queue.  [connMapMutex] makes [Start], [Stop] and the ticks of the
    periodic tasks atomic; the goroutines that [Start] spawns are the list
    [ba_starting], and [run_starting] runs one. *)

From S2P Require Export BackendClient.

(** The two gauges are the metrics of [connectedClientsGauge] and, by cluster and account,
    [clientDisconnectionCounter]. *)
Record BackendAdapter (W P : Type) : Type := mkBackendAdapter {
  callbacksMap : gmap string (Callbacks W);
  clientsMap : gmap string (BackendClient W P);
  connectionMap : gmap string ClientIdentifier;
  ba_producer : MessageProducer P;
  ba_skipAlertsFrom : list string;
  ba_featuresProvider : option FeaturesProvider;
  ba_starting : list (Ctx * BackendClient W P);
  connectedClientsGauge : Z;
  clientDisconnectionCounter : gmap (string * string) Z
}.
Arguments mkBackendAdapter {W P} _ _ _ _ _ _ _ _ _.
Arguments callbacksMap {W P} _.
Arguments clientsMap {W P} _.
Arguments connectionMap {W P} _.
Arguments ba_producer {W P} _.
Arguments ba_skipAlertsFrom {W P} _.
Arguments ba_featuresProvider {W P} _.
Arguments ba_starting {W P} _.
Arguments connectedClientsGauge {W P} _.
Arguments clientDisconnectionCounter {W P} _.

(** ** Updates of a field *)
Section Updates.
Context {W P : Type}.
Implicit Type b : BackendAdapter W P.
Definition set_callbacksMap f b : BackendAdapter W P :=
  mkBackendAdapter (f (callbacksMap b)) (clientsMap b) (connectionMap b) (ba_producer b)
    (ba_skipAlertsFrom b) (ba_featuresProvider b) (ba_starting b) (connectedClientsGauge b)
    (clientDisconnectionCounter b).
Definition set_clientsMap f b : BackendAdapter W P :=
  mkBackendAdapter (callbacksMap b) (f (clientsMap b)) (connectionMap b) (ba_producer b)
    (ba_skipAlertsFrom b) (ba_featuresProvider b) (ba_starting b) (connectedClientsGauge b)
    (clientDisconnectionCounter b).
Definition set_connectionMap f b : BackendAdapter W P :=
  mkBackendAdapter (callbacksMap b) (clientsMap b) (f (connectionMap b)) (ba_producer b)
    (ba_skipAlertsFrom b) (ba_featuresProvider b) (ba_starting b) (connectedClientsGauge b)
    (clientDisconnectionCounter b).
Definition set_features p b : BackendAdapter W P :=
  mkBackendAdapter (callbacksMap b) (clientsMap b) (connectionMap b) (ba_producer b)
    (ba_skipAlertsFrom b) p (ba_starting b) (connectedClientsGauge b)
    (clientDisconnectionCounter b).
Definition set_starting f b : BackendAdapter W P :=
  mkBackendAdapter (callbacksMap b) (clientsMap b) (connectionMap b) (ba_producer b)
    (ba_skipAlertsFrom b) (ba_featuresProvider b) (f (ba_starting b)) (connectedClientsGauge b)
    (clientDisconnectionCounter b).
Definition add_gauge n b : BackendAdapter W P :=
  mkBackendAdapter (callbacksMap b) (clientsMap b) (connectionMap b) (ba_producer b)
    (ba_skipAlertsFrom b) (ba_featuresProvider b) (ba_starting b) (connectedClientsGauge b + n)
    (clientDisconnectionCounter b).
Definition count_disconnection (id : ClientIdentifier) b : BackendAdapter W P :=
  mkBackendAdapter (callbacksMap b) (clientsMap b) (connectionMap b) (ba_producer b)
    (ba_skipAlertsFrom b) (ba_featuresProvider b) (ba_starting b) (connectedClientsGauge b)
    (<[(Cluster id, Account id) :=
        default 0 (clientDisconnectionCounter b !! (Cluster id, Account id)) + 1]>
       (clientDisconnectionCounter b)).
End Updates.

(** [t.After(u)]. *)
Definition After (t u : Z) : bool := u <? t.

Section BackendAdapter.
Context `{MultiErr, Machine P} {W : Type}.
Local Abbreviation Y := (BackendAdapter W P * P)%type.
(** The environment of the process. *)
Variable env : string → option string.

Definition ba_get : M Y (BackendAdapter W P) := s ← getW; mret s.1.
Definition ba_modify (f : BackendAdapter W P → BackendAdapter W P) : M Y unit :=
  modifyW (λ s, (f s.1, s.2)).

(** An operation of a client, on the provider of the adapter. *)
Definition on_bclient {A} (m : M (option FeaturesProvider * P) A) : M Y A := λ '(b, q),
  let '(o, (p, q')) := m (ba_featuresProvider b, q) in (o, (set_features p b, q')).

(** The provider is only made when its flag and the server's URL are set. *)
Definition features_of (cfg : Backend) : option FeaturesProvider :=
  let featuresURL := match AuthenticationServer cfg with Some s => Url s | None => "" end in
  match FeaturesProviderSettings cfg with
  | Some f =>
      if negb (String.eqb featuresURL "") && negb (String.eqb (FeatureFlagName f) "")
      then Some (NewFeaturesProvider featuresURL (FeatureFlagName f)) else None
  | None => None
  end.
Definition NewBackendAdapter (messageProducer : MessageProducer P) (cfg : Backend) :
    BackendAdapter W P :=
  mkBackendAdapter ∅ ∅ ∅ messageProducer (SkipAlertsFrom cfg) (features_of cfg) [] 0 ∅.

Definition getClient (ctx : Ctx) : M Y (BackendClient W P) :=
  id ← ClientIdentifierFromContext ctx;
  b ← ba_get;
  match clientsMap b !! ClientIdentifier_String id with
  | Some client => mret client
  | None => throw (Errorf ("client was missing from map " ++ ClientIdentifier_String id
                           ++ " (probably disconnected client)"))
  end.

Definition ba_Callbacks (ctx : Ctx) : M Y (Callbacks W) :=
  id ← ClientIdentifierFromContext ctx;
  b ← ba_get;
  match callbacksMap b !! ClientIdentifier_String id with
  | Some callbacks => mret callbacks
  | None => throw (Errorf ("callbacks for client " ++ ClientIdentifier_String id
                           ++ " were missing (probably disconnected client)"))
  end.

Definition ba_DeleteObject (ctx : Ctx) (id : KindName) : M Y unit :=
  client ← getClient ctx; on_bclient (b_DeleteObject client ctx id).
Definition ba_GetObject (ctx : Ctx) (id : KindName) (baseObject : string) : M Y unit :=
  client ← getClient ctx; on_bclient (b_GetObject client ctx id baseObject).
Definition ba_PatchObject (ctx : Ctx) (id : KindName) (checksum patch : string) : M Y unit :=
  client ← getClient ctx; on_bclient (b_PatchObject client ctx id checksum patch).
Definition ba_PutObject (ctx : Ctx) (id : KindName) (checksum object : string) : M Y unit :=
  client ← getClient ctx; on_bclient (b_PutObject client ctx id checksum object).
Definition ba_VerifyObject (ctx : Ctx) (id : KindName) (checksum : string) : M Y unit :=
  client ← getClient ctx; on_bclient (b_VerifyObject client ctx id checksum).
Definition ba_Batch (ctx : Ctx) (kind : Kind) (batchType : BatchType) (items : BatchItems) :
    M Y unit :=
  client ← getClient ctx; on_bclient (b_Batch client ctx kind batchType items).

Definition ba_RegisterCallbacks (ctx : Ctx) (callbacks : Callbacks W) : M Y unit :=
  id ← ClientIdentifierFromContext ctx;
  ba_modify (set_callbacksMap <[ClientIdentifier_String id := callbacks]>).

(** Another connection of the same client is in the map and is newer than [id]. *)
Definition superseded (b : BackendAdapter W P) (id : ClientIdentifier) : bool :=
  match connectionMap b !! ClientIdentifier_String id with
  | Some existingId =>
      negb (String.eqb (ConnectionString existingId) (ConnectionString id))
      && After (ConnectionTime existingId) (ConnectionTime id)
  | None => false
  end.

Definition ba_Start (ctx : Ctx) : M Y unit :=
  incomingId ← ClientIdentifierFromContext ctx;
  b ← ba_get;
  let key := ClientIdentifier_String incomingId in
  if superseded b incomingId then
    throw (Errorf "failed to start synchronization for client because a newer connection exist")
  else
    ba_modify (set_connectionMap <[key := incomingId]>) ;;
    ba_modify (λ b, match ba_featuresProvider b with
                    | Some p =>
                        if String.eqb (AccessKeyFromContext ctx) "" then b
                        else set_features (Some (RegisterAccount (Account incomingId)
                                                   (AccessKeyFromContext ctx) p)) b
                    | None => b
                    end) ;;
    let client := NewBackendClient env (ba_producer b) (ba_skipAlertsFrom b) in
    ba_modify (λ b, match clientsMap b !! key with None => add_gauge 1 b | Some _ => b end) ;;
    ba_modify (set_clientsMap <[key := client]>) ;;
    callbacks ← ba_Callbacks ctx;
    let client := b_RegisterCallbacks client callbacks in
    ba_modify (set_clientsMap <[key := client]>) ;;
    ba_modify (set_starting (λ l, l ++ [(ctx, client)])).

(** The account has a connection left. *)
Definition hasOtherConnection (b : BackendAdapter W P) (account : string) : bool :=
  existsb (λ kv, String.eqb (Account (kv.2)) account) (map_to_list (connectionMap b)).

Definition ba_Stop (ctx : Ctx) : M Y unit :=
  toDelete ← ClientIdentifierFromContext ctx;
  b ← ba_get;
  let key := ClientIdentifier_String toDelete in
  if superseded b toDelete then mret tt
  else
    ba_modify (set_connectionMap (delete key)) ;;
    ba_modify (set_callbacksMap (delete key)) ;;
    b ← ba_get;
    match clientsMap b !! key with
    | Some client =>
        attempt (on_bclient (b_Stop client ctx)) ;;
        ba_modify (set_clientsMap (delete key)) ;;
        ba_modify (add_gauge (-1)) ;;
        ba_modify (count_disconnection toDelete)
    | None => mret tt
    end ;;
    ba_modify (λ b, match ba_featuresProvider b with
                    | Some p =>
                        if hasOtherConnection b (Account toDelete) then b
                        else set_features (Some (UnregisterAccount (Account toDelete) p)) b
                    | None => b
                    end).

Definition ba_IsRelated (ctx : Ctx) (id : ClientIdentifier) : M Y bool :=
  b ← ba_get;
  mret (bool_decide (is_Some (callbacksMap b !! ClientIdentifier_String id))
        && bool_decide (is_Some (clientsMap b !! ClientIdentifier_String id))).

(** The [i]-th goroutine of [Start]; its error is dropped. *)
Definition run_starting (i : nat) : M Y unit :=
  b ← ba_get;
  match ba_starting b !! i with
  | None => mret tt
  | Some (ctx, client) =>
      ba_modify (set_starting (delete i)) ;;
      attempt (on_bclient (b_Start client ctx)) ;;
      mret tt
  end.

Definition go_backend : Adapter W Y :=
  mkAdapter ba_Start ba_Stop ba_IsRelated ba_RegisterCallbacks ba_Callbacks ba_DeleteObject
    ba_GetObject ba_PatchObject ba_PutObject ba_VerifyObject ba_Batch.

(** ** The periodic tasks

  The order in which a map is visited is that of [Range], [Compare] is
  [semver.Compare]. *)
Variable Range : gmap string ClientIdentifier → list (string * ClientIdentifier).
Variable Compare : string → string → Z.

Definition second : Z := 10 ^ 9.
(** [t.Sub(u)] saturates; a product of durations wraps. *)
Definition Sub (t u : Z) : Z := Z.max int_min (Z.min int_max (t - u)).
Definition Seconds (n : Z) : Z := wrap_int (n * second).

Definition reconciliation_enabled (cfg : option ReconciliationTaskConfig) : bool :=
  match cfg with
  | None => false
  | Some c =>
      negb ((rt_TaskIntervalSeconds c =? 0) && String.eqb (CronSchedule c) ""
            || (IntervalFromConnectionSeconds c =? 0))
  end.
Definition keepalive_enabled (cfg : option KeepAliveTaskConfig) : bool :=
  match cfg with None => false | Some c => negb (ka_TaskIntervalSeconds c =? 0) end.

Definition reconcile_client (mainCtx : Ctx) (cfg : ReconciliationTaskConfig)
    (requests : GoSlice ReconciliationRequestMessage) (entry : string * ClientIdentifier) :
    M Y (GoSlice ReconciliationRequestMessage) :=
  let '(connId, clientId) := entry in
  now ← liftR Now;
  if Sub now (ConnectionTime clientId) <? Seconds (IntervalFromConnectionSeconds cfg) then
    mret requests
  else
    b ← ba_get;
    match clientsMap b !! connId with
    | None => mret requests
    | Some client =>
        if negb (IsBatchMessageSupported Compare (SyncVersion clientId)) then mret requests
        else if SendBatch cfg then
          mret (Some (elems requests ++
                  [mkReconciliationRequestMessage (Cluster clientId) (Account clientId) 0 "" true None]))
        else
          attempt (on_bclient (SendReconciliationRequestMessage client
                                 (ContextFromIdentifiers mainCtx clientId))) ;;
          mret requests
    end.

Definition reconcile_tick (mainCtx : Ctx) (cfg : ReconciliationTaskConfig) : M Y unit :=
  msgId ← (if SendBatch cfg then liftR NewMsgId else mret "");
  b ← ba_get;
  requests ← mfold (reconcile_client mainCtx cfg) (if SendBatch cfg then Some [] else None)
               (Range (connectionMap b));
  if SendBatch cfg && (0 <? Z.of_nat (length (elems requests))) then
    attempt (liftR (ProduceMessageWithoutIdentifier (ba_producer b) mainCtx
      MsgPropEventValueReconciliationRequestMessageBatch
      (print (enc_ReconciliationRequestMessageBatch (mkReconciliationRequestMessageBatch 0 msgId requests))))) ;;
    mret tt
  else mret tt.

Definition keepalive_tick (mainCtx : Ctx) : M Y unit :=
  hostname ← liftR Hostname;
  now ← liftR Now;
  msgId ← liftR NewMsgId;
  b ← ba_get;
  let msg := mkConnectedClientsMessage hostname
    (connected_client <$> (Range (connectionMap b)).*2) now 0 msgId in
  attempt (liftR (ProduceMessageWithoutIdentifier (ba_producer b) mainCtx
    MsgPropEventValueConnectedClientsMessage
    (print (enc_ConnectedClientsMessage FormatTime msg)))) ;;
  mret tt.
End BackendAdapter.
