(* ===== verification/Connections.v ===== *)
(** * Connections: which connection of a cluster the server serves.

    The clients and the connections of the adapter stay in step over any history of
    [RegisterCallbacks], [Start] and [Stop]; a connection that a newer one superseded can
    neither start nor stop the client. *)

From stdpp Require Export relations.
From S2P Require Export BackendAdapter Queue.

Section Connections.
Context `{MultiErr, Machine P} {W : Type}.
Variable env : string → option string.
Implicit Types (b : BackendAdapter W P) (q : P).

(** ** The operations, run *)
Definition client_key (id : ClientIdentifier) : string := ClientIdentifier_String id.
Arguments client_key : simpl never.
Arguments ClientIdentifier_String : simpl never.

(** The state that [Start] leaves once it accepted the connection, without the callbacks. *)
Definition registered_features (ctx : Ctx) (id : ClientIdentifier) (p : option FeaturesProvider) :
    option FeaturesProvider :=
  match p with
  | Some p =>
      Some (if String.eqb (AccessKeyFromContext ctx) "" then p
            else RegisterAccount (Account id) (AccessKeyFromContext ctx) p)
  | None => None
  end.
Definition started (ctx : Ctx) (id : ClientIdentifier) (client : BackendClient W P) b :
    BackendAdapter W P :=
  mkBackendAdapter (callbacksMap b) (<[client_key id := client]> (clientsMap b))
    (<[client_key id := id]> (connectionMap b)) (ba_producer b) (ba_skipAlertsFrom b)
    (registered_features ctx id (ba_featuresProvider b)) (ba_starting b)
    (connectedClientsGauge b
     + match clientsMap b !! client_key id with None => 1 | Some _ => 0 end)
    (clientDisconnectionCounter b).
Definition new_client b : BackendClient W P :=
  NewBackendClient env (ba_producer b) (ba_skipAlertsFrom b).

Lemma start_superseded ctx id b q :
  carries ctx id → superseded b id = true →
  ba_Start env ctx (b, q) =
    (Throw (Errorf "failed to start synchronization for client because a newer connection exist"),
     (b, q)).
Proof.
  intros Hc Hs. unfold ba_Start. rewrite bind_run, (ClientIdentifier_run _ _ _ Hc). cbn beta iota.
  unfold ba_get. go_compute. by rewrite Hs.
Qed.

Lemma backend_start_run ctx id b q :
  carries ctx id → superseded b id = false →
  ba_Start env ctx (b, q) =
    match callbacksMap b !! client_key id with
    | Some cb =>
        let client := b_RegisterCallbacks (new_client b) cb in
        (Ret tt, (set_starting (λ l, l ++ [(ctx, client)]) (started ctx id client b), q))
    | None =>
        (Throw (Errorf ("callbacks for client " ++ client_key id
                        ++ " were missing (probably disconnected client)")),
         (started ctx id (new_client b) b, q))
    end.
Proof.
  intros Hc Hs. unfold ba_Start. rewrite bind_run, (ClientIdentifier_run _ _ _ Hc). cbn beta iota.
  unfold ba_get, ba_modify, ba_Callbacks, ba_get. go_compute. rewrite Hs.
  unfold ClientIdentifierFromContext. rewrite Hc. go_compute.
  unfold started, new_client, client_key, registered_features.
  destruct b as [cbs cls conns prod skip feats starting gauge disc].
  destruct feats as [p|]; [destruct (String.eqb (AccessKeyFromContext ctx) "")|];
    cbn -[ClientIdentifier_String NewBackendClient RegisterAccount];
    destruct (cls !! ClientIdentifier_String id);
    cbn -[ClientIdentifier_String NewBackendClient RegisterAccount];
    destruct (cbs !! ClientIdentifier_String id);
    cbn -[ClientIdentifier_String NewBackendClient RegisterAccount];
    unfold set_starting, set_clientsMap;
    cbn -[ClientIdentifier_String NewBackendClient RegisterAccount];
    rewrite ?Z.add_0_r, ?insert_insert_eq; reflexivity.
Qed.

(** What [Stop] leaves of a connection it removes. *)
Definition stopped (id : ClientIdentifier) b : BackendAdapter W P :=
  let b1 := mkBackendAdapter (delete (client_key id) (callbacksMap b))
    (delete (client_key id) (clientsMap b)) (delete (client_key id) (connectionMap b))
    (ba_producer b) (ba_skipAlertsFrom b) (ba_featuresProvider b) (ba_starting b)
    (connectedClientsGauge b) (clientDisconnectionCounter b) in
  let b2 := match clientsMap b !! client_key id with
            | Some _ => count_disconnection id (add_gauge (-1) b1)
            | None => b1
            end in
  match ba_featuresProvider b with
  | Some p => if hasOtherConnection b2 (Account id) then b2
              else set_features (Some (UnregisterAccount (Account id) p)) b2
  | None => b2
  end.

Lemma stop_run ctx id b q :
  carries ctx id →
  ba_Stop ctx (b, q) = (Ret tt, (if superseded b id then b else stopped id b, q)).
Proof.
  intros Hc. unfold ba_Stop. rewrite bind_run, (ClientIdentifier_run _ _ _ Hc). cbn beta iota.
  unfold ba_get, ba_modify. go_compute. destruct (superseded b id); [done|].
  unfold stopped, client_key.
  destruct b as [cbs cls conns prod skip feats starting gauge disc].
  cbn -[ClientIdentifier_String hasOtherConnection UnregisterAccount].
  destruct (cls !! ClientIdentifier_String id) eqn:Hcl;
    cbn -[ClientIdentifier_String hasOtherConnection UnregisterAccount];
    unfold set_features, hasOtherConnection, set_clientsMap;
    cbn -[ClientIdentifier_String UnregisterAccount];
    destruct feats; cbn -[ClientIdentifier_String UnregisterAccount];
    by rewrite ?(delete_id cls) by done.
Qed.

(** ** Histories

  A step is one operation of the adapter by a connection [id], whose context is [ctx];
  the ends of the goroutines are steps too. *)
Inductive backend_step : BackendAdapter W P * P → BackendAdapter W P * P → Prop :=
| step_register ctx id cb s s' : carries ctx id →
  (ba_RegisterCallbacks ctx cb s).2 = s' → backend_step s s'
| step_start ctx id s s' : carries ctx id → (ba_Start env ctx s).2 = s' → backend_step s s'
| step_stop ctx id s s' : carries ctx id → (ba_Stop ctx s).2 = s' → backend_step s s'
| step_starting i s s' : (run_starting i s).2 = s' → backend_step s s'.

(** Every client has a connection, stored under its own name, and the gauge counts them. *)
Definition in_step b : Prop :=
  dom (clientsMap b) = dom (connectionMap b) ∧
  (∀ key id, connectionMap b !! key = Some id → key = client_key id) ∧
  connectedClientsGauge b = Z.of_nat (size (clientsMap b)).

Lemma in_step_eq b b' :
  clientsMap b = clientsMap b' → connectionMap b = connectionMap b' →
  connectedClientsGauge b = connectedClientsGauge b' → in_step b → in_step b'.
Proof. unfold in_step. by intros -> -> ->. Qed.

Lemma started_in_step ctx id c b : in_step b → in_step (started ctx id c b).
Proof.
  intros (Hd & Hk & Hg). unfold in_step, started. cbn -[client_key]. split_and!.
  - by rewrite !dom_insert_L, Hd.
  - intros key id'. rewrite lookup_insert_Some. intros [[<- <-]|[_ Hl]]; [done|by apply Hk].
  - rewrite Hg. destruct (clientsMap b !! client_key id) eqn:Hc.
    + rewrite map_size_insert_Some by eauto. lia.
    + rewrite map_size_insert_None by done. lia.
Qed.

Lemma stopped_in_step id b : in_step b → in_step (stopped id b).
Proof.
  intros (Hd & Hk & Hg). unfold in_step.
  assert (clientsMap (stopped id b) = delete (client_key id) (clientsMap b)) as ->
    by (unfold stopped; repeat case_match; done).
  assert (connectionMap (stopped id b) = delete (client_key id) (connectionMap b)) as ->
    by (unfold stopped; repeat case_match; done).
  assert (connectedClientsGauge (stopped id b) = connectedClientsGauge b
            + match clientsMap b !! client_key id with Some _ => -1 | None => 0 end) as ->
    by (unfold stopped; repeat case_match; cbn; lia).
  split_and!.
  - by rewrite !dom_delete_L, Hd.
  - intros key id'. rewrite lookup_delete_Some. intros [_ Hl]. by apply Hk.
  - rewrite Hg. destruct (clientsMap b !! client_key id) eqn:Hc.
    + rewrite map_size_delete_Some by eauto.
      assert (size (clientsMap b) ≠ 0%nat) by (apply (map_size_ne_0_lookup_2 _ (client_key id)); eauto). lia.
    + rewrite map_size_delete_None by done. lia.
Qed.

Lemma run_starting_keeps i b q :
  ∃ p st q', (run_starting i (b, q)).2 = (set_features p (set_starting st b), q').
Proof.
  unfold run_starting, ba_get, ba_modify. go_compute.
  destruct (ba_starting b !! i) as [[ctx c]|]; cbn beta iota.
  - unfold on_bclient. destruct (b_Start c ctx _) as [[[]|e|s] [p q']]; cbn beta iota;
      by eexists p, (delete i), q'.
  - by exists (ba_featuresProvider b), (λ l, l), q; destruct b.
Qed.

Lemma backend_step_in_step s s' : backend_step s s' → in_step s.1 → in_step s'.1.
Proof.
  intros Hstep Hin. destruct Hstep as [ctx id cb s s' Hc <-|ctx id s s' Hc <-|ctx id s s' Hc <-|i s s' <-];
    destruct s as [b q]; cbn [fst] in Hin.
  - unfold ba_RegisterCallbacks. rewrite bind_run, (ClientIdentifier_run _ _ _ Hc).
    revert Hin. by apply in_step_eq.
  - destruct (superseded b id) eqn:Hs.
    + by rewrite (start_superseded _ _ _ _ Hc Hs).
    + rewrite (backend_start_run _ _ _ _ Hc Hs). pose proof (started_in_step ctx id) as Hst.
      destruct (callbacksMap b !! client_key id) as [cb|]; cbn [snd fst]; [|by apply Hst].
      eapply in_step_eq, (Hst (b_RegisterCallbacks (new_client b) cb)), Hin; reflexivity.
  - rewrite (stop_run _ _ _ _ Hc). cbn. case_match; [done|by apply stopped_in_step].
  - destruct (run_starting_keeps i b q) as (p & st & q' & ->). revert Hin. by apply in_step_eq.
Qed.

(** Over any history of connections that register, start and stop, each client the
  server holds has a recorded connection of its own name and conversely, and the gauge of
  connected clients is their number. *)
Theorem connections_in_step (producer : MessageProducer P) (cfg : Backend) q s
  (Hreach : rtc backend_step (NewBackendAdapter producer cfg, q) s) : in_step s.1.
Proof.
  assert (in_step (NewBackendAdapter (W := W) producer cfg)) as Hinit.
  { unfold in_step. cbn. split_and!; [done|by intros ??|done]. }
  change (in_step (fst (NewBackendAdapter (W := W) producer cfg, q))) in Hinit.
  revert Hinit. induction Hreach; [done|]. eauto using backend_step_in_step.
Qed.

(** ** Newer connections win *)

(** C25. [Start] and [Stop] by a connection that another, newer one of the same client
  superseded change nothing: [Start] fails, [Stop] does not. *)
Theorem newer_connection_wins ctx id existing b q
    (Hctx : carries ctx id) (Hex : connectionMap b !! ClientIdentifier_String id = Some existing)
    (Hne : ConnectionString existing ≠ ConnectionString id)
    (Hnew : ConnectionTime id < ConnectionTime existing) :
  (∃ e, ba_Start env ctx (b, q) = (Throw e, (b, q))) ∧ ba_Stop ctx (b, q) = (Ret tt, (b, q)).
Proof.
  assert (superseded b id = true) as Hs.
  { unfold superseded, After. rewrite Hex. apply andb_true_iff. split.
    - by apply negb_true_iff, String.eqb_neq.
    - by apply Z.ltb_lt. }
  split; [eexists; by apply (start_superseded _ _ _ _ Hctx Hs)|].
  by rewrite (stop_run _ _ _ _ Hctx), Hs.
Qed.

(** A connection with registered callbacks that no newer one superseded is served after
  [Start] and no longer after [Stop]; the clients of other names are as they were. *)
Theorem start_then_stop ctx id cb b q
    (Hctx : carries ctx id) (Hcb : callbacksMap b !! ClientIdentifier_String id = Some cb)
    (Hfree : superseded b id = false) :
  ∃ b1 b2,
    ba_Start env ctx (b, q) = (Ret tt, (b1, q)) ∧
    (ba_IsRelated ctx id (b1, q)).1 = Ret true ∧ (ba_Callbacks ctx (b1, q)).1 = Ret cb ∧
    connectionMap b1 !! ClientIdentifier_String id = Some id ∧
    ba_Stop ctx (b1, q) = (Ret tt, (b2, q)) ∧
    (ba_IsRelated ctx id (b2, q)).1 = Ret false ∧
    connectionMap b2 !! ClientIdentifier_String id = None ∧
    ∀ key, key ≠ ClientIdentifier_String id →
      clientsMap b2 !! key = clientsMap b !! key ∧ callbacksMap b2 !! key = callbacksMap b !! key ∧
      connectionMap b2 !! key = connectionMap b !! key.
Proof.
  set (client := b_RegisterCallbacks (new_client b) cb).
  set (b1 := set_starting (λ l, l ++ [(ctx, client)]) (started ctx id client b)).
  exists b1, (stopped id b1).
  assert (connectionMap b1 !! ClientIdentifier_String id = Some id) as Hc1 by apply lookup_insert_eq.
  assert (superseded b1 id = false) as Hs1.
  { unfold superseded. rewrite Hc1. by rewrite String.eqb_refl. }
  assert (clientsMap (stopped id b1) = delete (client_key id) (clientsMap b1) ∧
          callbacksMap (stopped id b1) = delete (client_key id) (callbacksMap b1) ∧
          connectionMap (stopped id b1) = delete (client_key id) (connectionMap b1)) as (Hd1 & Hd2 & Hd3)
    by (unfold stopped; repeat case_match; done).
  assert (∀ ctx (b : BackendAdapter W P) q, (ba_IsRelated ctx id (b, q)).1 =
            Ret (bool_decide (is_Some (callbacksMap b !! client_key id))
                 && bool_decide (is_Some (clientsMap b !! client_key id)))) as Hrel by done.
  split_and!.
  - rewrite (backend_start_run _ _ _ _ Hctx Hfree). unfold client_key at 1. by rewrite Hcb.
  - rewrite Hrel. subst b1. cbn. unfold client_key. rewrite Hcb, lookup_insert_eq. done.
  - unfold ba_Callbacks. rewrite bind_run, (ClientIdentifier_run _ _ _ Hctx).
    subst b1. unfold ba_get. go_compute. cbn. by rewrite Hcb.
  - done.
  - by rewrite (stop_run _ _ _ _ Hctx), Hs1.
  - rewrite Hrel, Hd1, Hd2, !lookup_delete_eq. done.
  - rewrite Hd3. apply lookup_delete_eq.
  - intros key Hne. rewrite Hd1, Hd2, Hd3. subst b1. cbn.
    by rewrite !lookup_delete_ne, ?lookup_insert_ne by (unfold client_key; congruence).
Qed.

(** ** A superseded connection still takes the callbacks *)

(** The life of a connection, as the synchronizer of the server runs it: its callbacks are
  registered, then it starts, and when that fails it is stopped. *)
Definition connection_life (ctx : Ctx) (cb : Callbacks W) : M (BackendAdapter W P * P) unit :=
  ba_RegisterCallbacks ctx cb ;;
  attempt (ba_Start env ctx) ;;
  ba_Stop ctx.

(** The life of a connection that is already superseded ends without an error and leaves
  the newer connection recorded as the one that is served; but the callbacks of the client
  are now those of the connection that is gone. *)
Theorem superseded_callbacks_take_over ctx old new cb ctx_new b q
    (Hctx : carries ctx old) (Hctx_new : carries ctx_new new)
    (Hsame : ClientIdentifier_String old = ClientIdentifier_String new)
    (Hex : connectionMap b !! ClientIdentifier_String new = Some new)
    (Hne : ConnectionString new ≠ ConnectionString old)
    (Hnew : ConnectionTime old < ConnectionTime new) :
  ∃ b', connection_life ctx cb (b, q) = (Ret tt, (b', q)) ∧
    connectionMap b' = connectionMap b ∧ clientsMap b' = clientsMap b ∧
    ba_Callbacks ctx_new (b', q) = (Ret cb, (b', q)).
Proof.
  set (b' := set_callbacksMap <[ClientIdentifier_String old := cb]> b). exists b'.
  assert (superseded b' old = true) as Hs.
  { unfold superseded, After. subst b'. cbn. rewrite Hsame, Hex. apply andb_true_iff. split.
    - by apply negb_true_iff, String.eqb_neq.
    - by apply Z.ltb_lt. }
  split_and!; [|done..|].
  - unfold connection_life, ba_RegisterCallbacks.
    rewrite !bind_run, (ClientIdentifier_run _ _ _ Hctx). unfold ba_modify, modifyW. cbn [fst snd].
    rewrite bind_run, attempt_run. fold b'.
    rewrite (start_superseded _ _ _ _ Hctx Hs), (stop_run _ _ _ _ Hctx), Hs. done.
  - unfold ba_Callbacks. rewrite bind_run, (ClientIdentifier_run _ _ _ Hctx_new).
    unfold ba_get. go_compute. subst b'. cbn. rewrite Hsame. by rewrite lookup_insert_eq.
Qed.

(** ** A reconnection can meet the end of the connection before *)
Lemma stopped_maps id b :
  clientsMap (stopped id b) = delete (client_key id) (clientsMap b) ∧
  callbacksMap (stopped id b) = delete (client_key id) (callbacksMap b) ∧
  connectionMap (stopped id b) = delete (client_key id) (connectionMap b).
Proof. unfold stopped; repeat case_match; done. Qed.
Lemma not_superseded id b : connectionMap b !! client_key id = None → superseded b id = false.
Proof. unfold superseded, client_key. by intros ->. Qed.
Lemma register_callbacks_run ctx id cb b q :
  carries ctx id → ba_RegisterCallbacks ctx cb (b, q) = (Ret tt, (set_callbacksMap <[client_key id := cb]> b, q)).
Proof. intros Hc. unfold ba_RegisterCallbacks. by rewrite bind_run, (ClientIdentifier_run _ _ _ Hc). Qed.

(** C26. The callbacks are set without the lock that [Start] and [Stop] hold.  When a client comes
    back and its old connection ends between the two calls of its new one, the callbacks of
    the new one are deleted and its start fails, although no other connection is left; the
    same calls one connection after the other succeed. *)
Theorem reconnection_refused ctx_old old ctx_new new cb b q
    (Hold : carries ctx_old old) (Hnew : carries ctx_new new)
    (Hsame : ClientIdentifier_String old = ClientIdentifier_String new) (Hserved : superseded b old = false) :
  (∃ e b', (ba_RegisterCallbacks ctx_new cb ;; ba_Stop ctx_old ;; ba_Start env ctx_new) (b, q) = (Throw e, (b', q)) ∧
     connectionMap b' !! ClientIdentifier_String new = Some new ∧ callbacksMap b' !! ClientIdentifier_String new = None) ∧
  (∃ b', (ba_Stop ctx_old ;; ba_RegisterCallbacks ctx_new cb ;; ba_Start env ctx_new) (b, q) = (Ret tt, (b', q)) ∧
     connectionMap b' !! ClientIdentifier_String new = Some new ∧ callbacksMap b' !! ClientIdentifier_String new = Some cb).
Proof.
  assert (∀ b1, connectionMap (stopped old b1) !! client_key new = None ∧ callbacksMap (stopped old b1) !! client_key new = None)
    as Hgone.
  { intros b1. destruct (stopped_maps old b1) as (_ & -> & ->). unfold client_key. rewrite Hsame. by rewrite !lookup_delete_eq. }
  split.
  - set (b0 := set_callbacksMap <[client_key new := cb]> b). destruct (Hgone b0) as [Hconn Hcb].
    rewrite !bind_run, (register_callbacks_run _ _ _ _ _ Hnew). fold b0.
    rewrite bind_run, (stop_run _ _ _ _ Hold). change (superseded b0 old) with (superseded b old). rewrite Hserved.
    rewrite (backend_start_run _ _ _ _ Hnew (not_superseded _ _ Hconn)), Hcb.
    eexists _, _. split; [done|]. split; [apply lookup_insert_eq|exact Hcb].
  - destruct (Hgone b) as [Hconn Hcb]. rewrite bind_run, (stop_run _ _ _ _ Hold), Hserved.
    rewrite bind_run, (register_callbacks_run _ _ _ _ _ Hnew).
    rewrite (backend_start_run _ _ _ _ Hnew) by (by apply not_superseded).
    cbn [set_callbacksMap callbacksMap]. rewrite lookup_insert_eq.
    eexists. split; [done|]. split; apply lookup_insert_eq.
Qed.
End Connections.

(** ** Reconciliation requests *)
Section Reconciliation.
Context `{MultiErr, Machine P} {W : Type}.
Variable Range : gmap string ClientIdentifier → list (string * ClientIdentifier).
Variable Compare : string → string → Z.
Implicit Types (b : BackendAdapter W P) (q : P).

(** A client is asked to reconcile when it is connected for long enough, known, and new
  enough to understand a batch. *)
Definition eligible b (cfg : ReconciliationTaskConfig) (now : Z) (e : string * ClientIdentifier) : bool :=
  negb (Sub now (ConnectionTime e.2) <? Seconds (IntervalFromConnectionSeconds cfg))
  && bool_decide (is_Some (clientsMap b !! e.1))
  && IsBatchMessageSupported Compare (SyncVersion e.2).
Definition request_for (e : string * ClientIdentifier) : ReconciliationRequestMessage :=
  mkReconciliationRequestMessage (Cluster e.2) (Account e.2) 0 "" true None.

Lemma reconcile_client_batch mainCtx cfg now b q e reqs :
  SendBatch cfg = true → Now q = (Ret now, q) →
  reconcile_client Compare mainCtx cfg (Some reqs) e (b, q) =
    (Ret (Some (if eligible b cfg now e then reqs ++ [request_for e] else reqs)), (b, q)).
Proof.
  intros Hb Hnow. unfold reconcile_client, eligible. destruct e as [key id]. cbn [fst snd].
  rewrite bind_run. unfold liftR at 1. rewrite Hnow. cbn beta iota.
  destruct (Sub now (ConnectionTime id) <? _); [done|]. cbn [negb andb].
  rewrite bind_run. unfold ba_get, getW. rewrite bind_run. cbn beta iota. rewrite ret_run.
  cbn beta iota. cbn [fst].
  destruct (clientsMap b !! key) as [c|] eqn:Hc; [|done].
  rewrite bool_decide_true by eauto. cbn [andb].
  destruct (IsBatchMessageSupported Compare (SyncVersion id)); [|done]. cbn [negb].
  by rewrite Hb.
Qed.

Lemma reconcile_clients_batch mainCtx cfg now b q l reqs :
  SendBatch cfg = true → Now q = (Ret now, q) →
  mfold (reconcile_client Compare mainCtx cfg) (Some reqs) l (b, q) =
    (Ret (Some (reqs ++ (request_for <$> filter (λ e, eligible b cfg now e = true) l))), (b, q)).
Proof.
  intros Hb Hnow. revert reqs. induction l as [|e l IH]; intros reqs.
  { cbn. by rewrite (right_id_L [] (++)). }
  cbn [mfold]. rewrite bind_run, (reconcile_client_batch _ _ now) by done. cbn beta iota.
  rewrite IH, filter_cons. case_decide as He.
  - by rewrite He, fmap_cons, <- (assoc_L (++)).
  - by apply not_true_is_false in He as ->.
Qed.

(** C28. In batch mode a tick of the reconciliation task writes one message with a request
  for exactly the eligible clients, in the order the connections are visited, and none
  when nobody is eligible; errors of the queue do not reach the task. *)
Theorem reconciliation_targets_exact mainCtx cfg now msgId b q q1
    (Hb : SendBatch cfg = true) (Hid : NewMsgId q = (Ret msgId, q1)) (Hnow : Now q1 = (Ret now, q1)) :
  let targets := request_for <$> filter (λ e, eligible b cfg now e = true) (Range (connectionMap b)) in
  reconcile_tick Range Compare mainCtx cfg (b, q) =
    if decide (targets = []) then (Ret tt, (b, q1))
    else let '(o, q2) := ProduceMessageWithoutIdentifier (ba_producer b) mainCtx
                 "ReconciliationRequestBatch"
                 (print (enc_ReconciliationRequestMessageBatch
                           (mkReconciliationRequestMessageBatch 0 msgId (Some targets)))) q1 in
         (match o with Panic s => Panic s | _ => Ret tt end, (b, q2)).
Proof.
  intros targets. unfold reconcile_tick. rewrite Hb. rewrite bind_run. unfold liftR at 1.
  rewrite Hid. cbn beta iota. rewrite bind_run. unfold ba_get. rewrite bind_run.
  unfold getW. cbn beta iota. rewrite ret_run. cbn beta iota. cbn [fst].
  rewrite bind_run, (reconcile_clients_batch mainCtx cfg now b q1 _ [] Hb Hnow). cbn [app elems].
  fold targets. destruct targets as [|t ts]; [done|].
  rewrite decide_False by done.
  assert ((0 <? Z.of_nat (length (elems (Some (t :: ts))))) = true) as -> by (apply Z.ltb_lt; cbn; lia).
  cbn [andb]. rewrite bind_run, attempt_run. unfold liftR.
  change MsgPropEventValueReconciliationRequestMessageBatch with "ReconciliationRequestBatch".
  by destruct (ProduceMessageWithoutIdentifier _ _ _ _ q1) as [[[]|e|s] q2].
Qed.
End Reconciliation.

(** ** Two connections of one cluster, for the witnesses *)
Definition sample_backend : Backend := mkBackend 8080 None "" None "" "" 1 None None None [] None None.
Definition sample_env (name : string) : option string := None.
Definition connection (cid : string) (time : Z) : ClientIdentifier :=
  mkClientIdentifier "acme" "prod" cid time "" "v0.1.0" "" "" "" "".
Definition connected_ctx (id : ClientIdentifier) : Ctx :=
  WithValue Background ContextKeyClientIdentifier (VIdentifier id).
Definition older : ClientIdentifier := connection "c1" 1.
Definition newer : ClientIdentifier := connection "c2" 2.
Definition fresh_adapter : BackendAdapter (list string) (list IncomingMessage) :=
  NewBackendAdapter (link "now") sample_backend.
Definition sample_W : Type := (BackendAdapter (list string) (list IncomingMessage) * list IncomingMessage)%type.
Definition registered_newer : sample_W :=
  (@ba_RegisterCallbacks (list IncomingMessage) (list string) (connected_ctx newer) noting_Callbacks (fresh_adapter, [])).2.
Definition started_newer : sample_W := (ba_Start sample_env (connected_ctx newer) registered_newer).2.

Lemma connections_in_step_witness :
  in_step started_newer.1 ∧ connectedClientsGauge started_newer.1 = 1.
Proof.
  split; [|vm_compute; reflexivity].
  apply (@connections_in_step (list IncomingMessage) sample_machine (list string) sample_env
           (link "now") sample_backend []).
  eapply rtc_l; [by eapply (step_register _ (connected_ctx newer) newer noting_Callbacks)|].
  eapply rtc_l; [by eapply (step_start _ (connected_ctx newer) newer)|].
  apply rtc_refl.
Defined.

Lemma newer_connection_wins_witness :
  (∃ e, ba_Start sample_env (connected_ctx older) started_newer = (Throw e, started_newer)) ∧
  ba_Stop (connected_ctx older) started_newer = (Ret tt, started_newer).
Proof.
  apply (@newer_connection_wins (list IncomingMessage) (list string) sample_env (connected_ctx older)
           older newer started_newer.1 started_newer.2);
    [reflexivity|vm_compute; reflexivity|vm_compute; discriminate|vm_compute; reflexivity].
Defined.

Lemma start_then_stop_witness :
  ∃ b1 b2,
    ba_Start sample_env (connected_ctx newer) registered_newer = (Ret tt, (b1, [])) ∧
    (ba_IsRelated (connected_ctx newer) newer (b1, [] : list IncomingMessage)).1 = Ret true ∧
    ba_Stop (connected_ctx newer) (b1, []) = (Ret tt, (b2, [])).
Proof.
  destruct (@start_then_stop (list IncomingMessage) (list string) sample_env (connected_ctx newer)
              newer noting_Callbacks registered_newer.1 registered_newer.2)
    as (b1 & b2 & H1 & H2 & _ & _ & H3 & _);
    [reflexivity|vm_compute; reflexivity|vm_compute; reflexivity|].
  exists b1, b2. split; [exact H1|]. split; [exact H2|exact H3].
Defined.

Lemma superseded_callbacks_take_over_witness :
  ∃ b', connection_life sample_env (connected_ctx older) nil_Callbacks started_newer
          = (Ret tt, (b', started_newer.2)) ∧
    ba_Callbacks (connected_ctx newer) (b', started_newer.2) = (Ret nil_Callbacks, (b', started_newer.2)).
Proof.
  destruct (@superseded_callbacks_take_over (list IncomingMessage) (list string) sample_env
              (connected_ctx older) older newer nil_Callbacks (connected_ctx newer)
              started_newer.1 started_newer.2) as (b' & H1 & _ & _ & H2);
    [reflexivity|reflexivity|reflexivity|vm_compute; reflexivity|vm_compute; discriminate
    |vm_compute; reflexivity|].
  exists b'. split; [exact H1|exact H2].
Defined.

Definition sample_task : ReconciliationTaskConfig := mkReconciliationTaskConfig "" 60 1 true.
(** A machine whose clock shows ten seconds. *)
Definition later_machine {P} : Machine P :=
  {| NewMsgId := mret "0b7c"; Now := mret (10 * second); Hostname := mret "server"; FormatTime := Itoa |}.
Lemma reconciliation_targets_exact_witness :
  (@reconcile_tick _ later_machine (list string) map_to_list (λ _ _, 1) Background sample_task started_newer).2.2
  = [queued "now" "" "" "ReconciliationRequestBatch"
       (print (enc_ReconciliationRequestMessageBatch (mkReconciliationRequestMessageBatch 0 "0b7c"
          (Some [request_for ("acme/prod", newer)])))) []].
Proof.
  change started_newer with (started_newer.1, started_newer.2).
  rewrite (@reconciliation_targets_exact _ later_machine (list string) map_to_list (λ _ _, 1)
             Background sample_task (10 * second) "0b7c" started_newer.1 started_newer.2 started_newer.2);
    [vm_compute; reflexivity|reflexivity..].
Defined.

(** The older connection is served when the newer one of its client registers. *)
Definition started_older : sample_W :=
  ((ba_RegisterCallbacks (connected_ctx older) noting_Callbacks ;; ba_Start sample_env (connected_ctx older))
     (fresh_adapter, [])).2.
Lemma reconnection_refused_witness :
  ∃ e b', (ba_RegisterCallbacks (connected_ctx newer) noting_Callbacks ;; ba_Stop (connected_ctx older) ;;
           ba_Start sample_env (connected_ctx newer)) started_older = (Throw e, (b', [])) ∧
    connectionMap b' !! "acme/prod" = Some newer.
Proof.
  destruct (@reconnection_refused (list IncomingMessage) (list string) sample_env (connected_ctx older) older
    (connected_ctx newer) newer noting_Callbacks started_older.1 started_older.2) as [(e & b' & Hrun & Hconn & _) _];
    [reflexivity|reflexivity|vm_compute; reflexivity|vm_compute; reflexivity|].
  exists e, b'. split; [exact Hrun|exact Hconn].
Defined.
