(* ===== verification/Duplex.v ===== *)
(** * Duplex: two synchronizers at the two ends of a connection.

    The client and the server of Pools, with a connection that holds at most [cap] messages in
    each direction (the buffers of TCP are finite): a worker that finds no room waits.  What is
    shown for every interleaving of their goroutines: messages arrive once and in order, and
    are handled as if one after the other; and, with a server whose adapters do not send while
    they handle, as the backend adapter, nothing waits for ever. *)

From S2P Require Export Pools Convergence Connections.

(** ** The connection *)
Record Link (P S T : Type) : Type := mkLink {
  client_end : Side P S;
  server_end : Side P T;
  upstream : list string;
  downstream : list string
}.
Arguments mkLink {P S T} _ _ _ _.
Arguments client_end {P S T} _.
Arguments server_end {P S T} _.
Arguments upstream {P S T} _.
Arguments downstream {P S T} _.

Inductive LinkEvent : Type :=
| AtClient (e : SideEvent)
| AtServer (e : SideEvent).
(** What happens unless a synchronizer is stopped. *)
Definition working (e : LinkEvent) : Prop := e ≠ AtClient StopPools ∧ e ≠ AtServer StopPools.

Section Link.
Context `{WorkerPool P} {S T : Type}.
Variables (client_handler : Handler S) (server_handler : Handler T).
Variable cap : nat.

Definition link_step (e : LinkEvent) (l : Link P S T) : option (Link P S T) :=
  match e with
  | AtClient e =>
      match side_step client_handler cap e (client_end l) (upstream l) (downstream l) with
      | Some (c, up, down) => Some (mkLink c (server_end l) up down)
      | None => None
      end
  | AtServer e =>
      match side_step server_handler cap e (server_end l) (downstream l) (upstream l) with
      | Some (s, down, up) => Some (mkLink (client_end l) s up down)
      | None => None
      end
  end.
Definition new_link (from_client from_server : list (list string)) (st : S) (st' : T) : Link P S T :=
  mkLink (new_side from_client st) (new_side from_server st') [] [].
End Link.

(** One direction: what the pool of the sender took is what the receiver read, then what is on
    the way; every goroutine gave its messages in its order, the handler its answers; the
    receiver handled what it read, in order, and is where a receiver would be that takes one
    message after the other.  Until a side is stopped, nothing is refused or dropped. *)
Record in_order `{WorkerPool P} {S T} (sender : Handler S) (receiver : Handler T) (messages : list (list string))
    (st : S) (st' : T) (from : Side P S) (wire : list string) (to : Side P T) : Prop := {
  io_wire : (accepted_by_pool from).*2 = read_messages to ++ wire ++ option_list (running (outPool from));
  io_accepted : accepted_by_pool from `sublist_of` offered from;
  io_open : IsClosed (outPool from) = false → accepted_by_pool from = offered from;
  io_producers : ∀ g, sent_by (Some g) (offered from) `prefix_of` default [] (messages !! g);
  io_answers : sent_by None (offered from) `prefix_of` (handle_all sender (handled_messages from) st).2;
  io_handled : handled_messages to `sublist_of` read_messages to;
  io_handled_open : IsClosed (inPool to) = false → handled_messages to `prefix_of` read_messages to;
  io_state : handler_state to = (handle_all receiver (handled_messages to) st').1
}.

(** Everything was sent, and everything that was sent was handled. *)
Record delivered_all `{WorkerPool P} {S T} (sender : Handler S) (messages : list (list string)) (st : S)
    (from : Side P S) (to : Side P T) : Prop := {
  da_handled : handled_messages to = (accepted_by_pool from).*2;
  da_producers : ∀ g, sent_by (Some g) (accepted_by_pool from) = default [] (messages !! g);
  da_answers : sent_by None (accepted_by_pool from) = (handle_all sender (handled_messages from) st).2
}.

Section LinkLemmas.
Context `{WorkerPoolLaws P} {S T : Type} (client_handler : Handler S) (server_handler : Handler T) (cap : nat).
Context (from_client from_server : list (list string)) (st : S) (st' : T).
Implicit Types l : Link P S T.
Local Abbreviation step := (link_step client_handler server_handler cap).

Record link_ok l : Prop := {
  client_end_ok : pools_ok client_handler from_client st (client_end l);
  server_end_ok : pools_ok server_handler from_server st' (server_end l);
  up_ok : written_messages (client_end l) = read_messages (server_end l) ++ upstream l;
  down_ok : written_messages (server_end l) = read_messages (client_end l) ++ downstream l
}.

Lemma new_link_ok : link_ok (new_link from_client from_server st st').
Proof. by constructor; [apply new_side_ok..| |]. Qed.
Lemma link_step_ok e l l' : link_ok l → step e l = Some l' → link_ok l'.
Proof.
  intros [Hc Hs Hu Hd]. destruct e as [e|e]; cbn [link_step].
  - destruct (side_step _ _ e _ _ _) as [[[c up] down]|] eqn:Hstep; [|done]. intros [= <-].
    destruct (side_step_ok _ _ _ _ _ _ _ _ _ _ _ Hstep Hc) as (Hc' & w & r & Hw & -> & Hr & Hin).
    constructor; cbn; [done..| |].
    + by rewrite Hw, Hu, <- (assoc_L (++)).
    + by rewrite Hr, Hd, Hin, <- (assoc_L (++)).
  - destruct (side_step _ _ e _ _ _) as [[[s down] up]|] eqn:Hstep; [|done]. intros [= <-].
    destruct (side_step_ok _ _ _ _ _ _ _ _ _ _ _ Hstep Hs) as (Hs' & w & r & Hw & -> & Hr & Hin).
    constructor; cbn; [done..| |].
    + by rewrite Hr, Hu, Hin, <- (assoc_L (++)).
    + by rewrite Hw, Hd, <- (assoc_L (++)).
Qed.
Lemma reachable_link_ok l : reachable step (new_link from_client from_server st st') l → link_ok l.
Proof. apply reachable_invariant; [apply link_step_ok|apply new_link_ok]. Qed.

End LinkLemmas.

Lemma pools_ok_in_order `{WorkerPoolLaws P} {S T} (h : Handler S) (h' : Handler T) ms ms' st st'
    (from : Side P S) wire (to : Side P T) :
  pools_ok h ms st from → pools_ok h' ms' st' to → written_messages from = read_messages to ++ wire →
  in_order h h' ms st st' from wire to.
Proof.
  intros [Hw Ha Ho Hp _ Hr _ _ _ _] [_ _ _ _ _ _ Hst _ Hrd Hrdo] Hwire.
  constructor; try done.
  - by rewrite Hw, Hwire, (assoc_L (++)).
  - intros g. rewrite <- Hp. by apply prefix_app_r.
  - rewrite <- Hr. by apply prefix_app_r.
  - etrans; [|exact Hrd]. by apply sublist_inserts_r.
  - intros Hc. rewrite <- Hrdo by done. by apply prefix_app_r.
Qed.

(** ** Progress and termination *)

(** No message is left anywhere on a side. *)
Definition side_idle `{WorkerPool P} {S} (s : Side P S) : Prop :=
  concat (producers s) = [] ∧ replies s = [] ∧ held s = None ∧
  running (outPool s) = None ∧ running (inPool s) = None.
Definition link_idle `{WorkerPool P} {S T} (l : Link P S T) : Prop :=
  side_idle (client_end l) ∧ side_idle (server_end l) ∧ upstream l = [] ∧ downstream l = [].
(** Both pools take messages. *)
Definition side_open `{WorkerPool P} {S} (s : Side P S) : Prop :=
  IsClosed (outPool s) = false ∧ IsClosed (inPool s) = false.

(** The steps that the messages of a side have before them: from its goroutines, over the
    pool, the connection and the other reading loop to the other handler. *)
Definition occupied {A} (o : option A) : nat := length (option_list o).
Definition to_send `{WorkerPool P} {S} (s : Side P S) : nat :=
  (length (concat (producers s)) + length (replies s))%nat.
Definition on_the_way `{WorkerPool P} {S T} (from : Side P S) (wire : list string) (to : Side P T) : nat :=
  (4 * to_send from + 3 * occupied (running (outPool from)) + 2 * length wire + occupied (held to))%nat.

Lemma occupied_Some {A} (o : option A) a : o = Some a → occupied o = 1%nat.
Proof. by intros ->. Qed.
Lemma occupied_None {A} (o : option A) : o = None → occupied o = 0%nat.
Proof. by intros ->. Qed.
Lemma concat_producer (ls : list (list string)) g d rest :
  ls !! g = Some (d :: rest) → length (concat ls) = S (length (concat (<[g := rest]> ls))).
Proof.
  intros Hg. rewrite <- (take_drop_middle ls g _ Hg) at 1.
  rewrite insert_take_drop by (by eapply lookup_lt_Some).
  rewrite !concat_app. cbn. rewrite !length_app. cbn. rewrite length_app. lia.
Qed.
Lemma concat_nonempty (ls : list (list string)) :
  concat ls ≠ [] → ∃ g d rest, ls !! g = Some (d :: rest).
Proof.
  induction ls as [|[|d rest] ls IH]; [done| |]; cbn.
  - intros (g & d & rest & Hg)%IH. by exists (S g), d, rest.
  - intros _. by exists 0%nat, d, rest.
Qed.

Section SideSteps.
Context `{WorkerPoolLaws P} {S : Type} (handler : Handler S) (cap : nat).
Implicit Types s : Side P S.

Lemma offer_open who d s s' :
  offer who d s = Some s' → side_open s →
  side_open s' ∧ running (outPool s) = None ∧ running (outPool s') = Some d.
Proof.
  intros Hof [Ho Hi]. unfold offer in Hof.
  destruct (pool_Invoke d (outPool s)) as [[r p]|] eqn:He; [|done]. injection Hof as <-.
  apply invoke_inv in He as [(_ & Hr & _ & Hr' & Hc)|(Hc & _)]; [done|congruence].
Qed.
Lemma offer_enabled who d s :
  side_open s → running (outPool s) = None → is_Some (offer who d s).
Proof.
  intros [Ho _] Hr. unfold offer. destruct (invoke_free d _ Ho Hr) as (p & -> & _). by eexists.
Qed.

(** What a step of a side does to the messages of both directions. *)
Lemma side_step_progress {T} (other : Side P T) e s out inn s' out' inn' :
  side_step handler cap e s out inn = Some (s', out', inn') → side_open s → e ≠ StopPools →
  side_open s' ∧
  match e with
  | GiveToInPool =>
      on_the_way other inn s = Datatypes.S (on_the_way other inn' s') ∧
      ∃ d, held s = Some d ∧ running (inPool s) = None ∧ running (inPool s') = Some d ∧
        replies s' = (handler d (handler_state s)).2 ∧ out' = out ∧ producers s' = producers s ∧
        running (outPool s') = running (outPool s)
  | HandlerEnds =>
      on_the_way other inn' s' = on_the_way other inn s ∧ on_the_way s' out' other = on_the_way s out other ∧
      is_Some (running (inPool s)) ∧ running (inPool s') = None ∧ to_send s' = to_send s ∧
      replies s' = replies s
  | ReadMessage =>
      on_the_way other inn s = Datatypes.S (on_the_way other inn' s') ∧
      on_the_way s' out' other = on_the_way s out other ∧ running (inPool s') = running (inPool s) ∧
      to_send s' = to_send s ∧ replies s' = replies s
  | _ =>
      on_the_way s out other = Datatypes.S (on_the_way s' out' other) ∧
      on_the_way other inn' s' = on_the_way other inn s ∧ running (inPool s') = running (inPool s) ∧
      (to_send s' ≤ to_send s)%nat ∧ (length (replies s') ≤ length (replies s))%nat
  end.
Proof.
  unfold on_the_way, to_send, occupied. intros Hstep Hopen He.
  destruct e as [g| | | | | |]; cbn [side_step inner_step] in Hstep; [..|done].
  - destruct (producers s !! g) as [[|d rest]|] eqn:Hg; [done| |done].
    apply fmap_Some in Hstep as (? & (s1 & Hof & ->)%fmap_Some & [= -> -> ->]).
    destruct (offer_open _ _ _ _ Hof Hopen) as (Hop & Hr & Hr').
    apply offer_inv in Hof as (_ & Hp & Hin & Hre & Hh & _). apply concat_producer in Hg. cbn.
    rewrite Hin, Hre, Hh, Hr, Hr', Hg. cbn. split; [by destruct Hop|]. split_and!; [lia|done..|lia|lia].
  - destruct (running (inPool s)) as [w|] eqn:Hrun; [|done]. destruct (replies s) as [|d rest] eqn:Hrep; [done|].
    apply fmap_Some in Hstep as (? & (s1 & Hof & ->)%fmap_Some & [= -> -> ->]).
    destruct (offer_open _ _ _ _ Hof Hopen) as (Hop & Hr & Hr').
    apply offer_inv in Hof as (_ & Hp & Hin & Hre & Hh & _). cbn.
    rewrite Hin, Hp, Hh, Hr, Hr', Hrun. cbn. split; [by destruct Hop|]. split_and!; [lia|done..|lia|lia].
  - destruct (running (inPool s)) as [w|] eqn:Hrun; [|done]. destruct (replies s) as [|d rest] eqn:Hrep; [|done].
    injection Hstep as <- <- <-. cbn. rewrite Hrep, returns_running. destruct Hopen.
    split; [split; cbn; by rewrite ?returns_closed|]. split_and!; done.
  - destruct (running (outPool s)) as [d|] eqn:Hrun; [|done]. destruct (length out <? cap)%nat; [|done].
    injection Hstep as <- <- <-. destruct Hopen. cbn. rewrite returns_running, length_app. cbn.
    split; [split; cbn; by rewrite ?returns_closed|]. split_and!; [lia|done..].
  - destruct (held s) as [|] eqn:Hh; [done|]. destruct inn as [|d rest]; [done|].
    injection Hstep as <- <- <-. cbn. split; [done|]. split_and!; [lia|done..].
  - apply fmap_Some in Hstep as (s1 & Hg & [= -> -> ->]). unfold give_to_inPool in Hg.
    destruct (held s) as [d|] eqn:Hh; [|done]. destruct (pool_Invoke d (inPool s)) as [[o p]|] eqn:Hi; [|done].
    destruct Hopen as [Ho Hc].
    apply invoke_inv in Hi as [(_ & Hr & -> & Hr' & Hc')|(Hcl & _)]; [|congruence].
    injection Hg as <-. cbn. split; [done|]. split; [lia|]. by exists d.
Qed.

(** A side that is not held up by its handler reads and handles until there is nothing left. *)
Lemma side_reads s out inn :
  side_open s → (running (inPool s) = None → replies s = []) →
  (∀ d rest, replies s = d :: rest → is_Some (offer None d s)) →
  (∃ e, e ≠ StopPools ∧ is_Some (side_step handler cap e s out inn)) ∨
  (running (inPool s) = None ∧ held s = None ∧ inn = [] ∧ replies s = []).
Proof.
  intros [_ Hopen] Hidle Hoffer. destruct (running (inPool s)) as [w|] eqn:Hi.
  - left. destruct (replies s) as [|d rest] eqn:Hr.
    + exists HandlerEnds. cbn [side_step inner_step]. rewrite Hi, Hr. by split; [|eexists].
    + destruct (Hoffer d rest eq_refl) as [s1 Hs1]. exists HandlerSends. cbn [side_step inner_step].
      rewrite Hi, Hr, Hs1. by split; [|eexists].
  - destruct (held s) as [d|] eqn:Hh.
    + left. exists GiveToInPool. cbn [side_step inner_step]. unfold give_to_inPool.
      rewrite Hh. destruct (invoke_free d _ Hopen Hi) as (p & -> & _). by split; [|eexists].
    + destruct inn as [|d rest].
      * right. auto.
      * left. exists ReadMessage. cbn [side_step]. rewrite Hh. by split; [|eexists].
Qed.

(** A side whose handler has nothing to send, or for whose messages there is room, moves on, or
    it has read everything, and with room it has nothing left to do. *)
Lemma side_moves s out inn :
  side_open s → (0 < cap)%nat → (running (inPool s) = None → replies s = []) →
  replies s = [] ∨ out = [] →
  (∃ e, e ≠ StopPools ∧ is_Some (side_step handler cap e s out inn)) ∨
  (running (inPool s) = None ∧ held s = None ∧ inn = [] ∧ (out = [] → side_idle s)).
Proof.
  intros Hopen Hcap Hidle Hor.
  assert (out = [] → running (outPool s) ≠ None → is_Some (side_step handler cap WriteMessage s out inn)) as Hwrite.
  { intros ->. cbn [side_step length]. destruct (running (outPool s)) as [d|]; [|done]. intros _.
    destruct (Nat.ltb_spec 0 cap); [by eexists|lia]. }
  assert (running (outPool s) = None ∨ running (outPool s) ≠ None ∧ out = [] ∨
          running (outPool s) ≠ None ∧ out ≠ [] ∧ replies s = []) as Hcases.
  { destruct (running (outPool s)); [|by left]. right. destruct Hor, out; auto. }
  destruct Hcases as [Ho|[[Ho Hout]|(Ho & Hout & Hrep)]]; [|left; exists WriteMessage; auto|].
  - destruct (decide (concat (producers s) = [])) as [Hp|(g & d & rest & Hg)%concat_nonempty].
    + destruct (side_reads s out inn Hopen Hidle) as [He|(Hi & Hh & Hinn & Hrep)]; [|by left|].
      * intros d rest Hr. destruct (offer_enabled None d s Hopen Ho) as [s1 Hs1]. by rewrite Hs1.
      * right. by split_and!.
    + left. destruct (offer_enabled (Some g) d s Hopen Ho) as [s1 Hs1]. exists (Produces g). split; [done|].
      cbn [side_step inner_step]. rewrite Hg, Hs1. by eexists.
  - destruct (side_reads s out inn Hopen Hidle) as [He|(Hi & Hh & Hinn & _)]; [|by left|].
    + intros d rest Hr. congruence.
    + right. split_and!; [done..|]. intros Hout'. by destruct Hout.
Qed.
End SideSteps.

Section Progress.
Context `{WorkerPoolLaws P} {S T : Type} (client_handler : Handler S) (server_handler : Handler T) (cap : nat).
Context (from_client from_server : list (list string)) (st : S) (st' : T).
Hypothesis server_silent : ∀ d s, (server_handler d s).2 = [].
Hypothesis room : (0 < cap)%nat.
Implicit Types l : Link P S T.
Local Abbreviation step := (link_step client_handler server_handler cap).
Local Abbreviation ok := (link_ok client_handler server_handler from_client from_server st st').

Record link_works l : Prop := {
  lw_ok : ok l;
  lw_client : side_open (client_end l);
  lw_server : side_open (server_end l);
  lw_silent : replies (server_end l) = []
}.

Lemma new_link_works : link_works (new_link from_client from_server st st').
Proof.
  constructor; [apply new_link_ok|..]; cbn; try done; unfold side_open; cbn; by destruct new_pool.
Qed.

(** Messages to the client first, because its handler may answer them; then the others. *)
Definition link_measure l : nat * nat :=
  (on_the_way (server_end l) (downstream l) (client_end l),
   (2 * on_the_way (client_end l) (upstream l) (server_end l)
    + occupied (running (inPool (client_end l))) + occupied (running (inPool (server_end l))))%nat).
Definition lex (p q : nat * nat) : Prop := (p.1 < q.1)%nat ∨ p.1 = q.1 ∧ (p.2 < q.2)%nat.
Lemma lex_wf : well_founded lex.
Proof.
  intros [a b]. revert b. induction (lt_wf a) as [a _ IHa]. intros b. induction (lt_wf b) as [b _ IHb].
  constructor. intros [a' b'] Hlex. destruct Hlex as [Ha|[Heq Hb]]; cbn in *; [by apply IHa|].
  rewrite Heq. by apply IHb.
Qed.

Lemma link_step_works e l l' :
  working e → link_works l → step e l = Some l' → link_works l' ∧ lex (link_measure l') (link_measure l).
Proof.
  intros [Hec Hes] [Hok Hc Hs Hsil] Hstep. pose proof (link_step_ok _ _ _ _ _ _ _ _ _ _ Hok Hstep) as Hok'.
  destruct e as [e|e]; cbn [link_step] in Hstep.
  - destruct (side_step _ _ e _ _ _) as [[[c up] down]|] eqn:Hside; [|done]. injection Hstep as <-.
    destruct (side_step_progress _ _ (server_end l) _ _ _ _ _ _ _ Hside Hc) as (Hc' & He); [congruence|].
    split; [by constructor|]. unfold lex, link_measure. cbn [client_end server_end upstream downstream fst snd].
    destruct e; try (destruct He as (? & ? & Hr & _); rewrite ?Hr; right; lia).
    + destruct He as (? & ? & [w Hw] & Hr & _). right.
      rewrite (occupied_None _ Hr), (occupied_Some _ _ Hw). lia.
    + left. lia.
    + left. lia.
  - destruct (side_step _ _ e _ _ _) as [[[s down] up]|] eqn:Hside; [|done]. injection Hstep as <-.
    destruct (side_step_progress _ _ (client_end l) _ _ _ _ _ _ _ Hside Hs) as (Hs' & He); [congruence|].
    assert (replies s = []) as Hsil'.
    { destruct e; try (destruct He as (_ & _ & _ & _ & Hre); rewrite Hsil in Hre; by apply length_zero_iff_nil, Nat.le_0_r).
      - by destruct He as (_ & _ & _ & _ & _ & ->).
      - by destruct He as (_ & _ & _ & _ & ->).
      - destruct He as (_ & d & _ & _ & _ & -> & _). apply server_silent. }
    split; [by constructor|]. unfold lex, link_measure. cbn [client_end server_end upstream downstream fst snd].
    destruct e; try (left; lia).
    + destruct He as (? & ? & [w Hw] & Hr & _). right.
      rewrite (occupied_None _ Hr), (occupied_Some _ _ Hw). lia.
    + destruct He as (? & ? & Hr & _). right. rewrite Hr. lia.
    + destruct He as (Hw & d & Hh & Hr & Hr' & _ & Hout & Hp & Ho). right.
      rewrite (occupied_None _ Hr), (occupied_Some _ _ Hr'). split; [|lia].
      unfold on_the_way, to_send. by rewrite Hsil, Hsil', Hout, Hp, Ho.
Qed.

Lemma link_progress l : link_works l → link_idle l ∨ enabled step working l.
Proof.
  intros [[Hcok Hsok _ _] Hc Hs Hsil]. destruct l as [c s up down]. cbn in *.
  assert (∀ e, e ≠ StopPools → is_Some (side_step client_handler cap e c up down) →
    enabled step working (mkLink c s up down)) as Hclient.
  { intros e He [[[c' up'] down'] Hst]. exists (AtClient e), (mkLink c' s up' down').
    cbn [link_step client_end upstream downstream]. rewrite Hst. split; [split; congruence|done]. }
  assert (∀ e, e ≠ StopPools → is_Some (side_step server_handler cap e s down up) →
    enabled step working (mkLink c s up down)) as Hserver.
  { intros e He [[[s' down'] up'] Hst]. exists (AtServer e), (mkLink c s' up' down').
    cbn [link_step server_end upstream downstream]. rewrite Hst. split; [split; congruence|done]. }
  destruct (side_moves server_handler cap s down up Hs room (ok_idle _ _ _ _ Hsok) (or_introl Hsil))
    as [(e & He & Hst)|(_ & _ & -> & _)]; [eauto|].
  destruct (side_moves client_handler cap c [] down Hc room (ok_idle _ _ _ _ Hcok) (or_intror eq_refl))
    as [(e & He & Hst)|(_ & _ & -> & Hci)]; [eauto|].
  destruct (side_moves server_handler cap s [] [] Hs room (ok_idle _ _ _ _ Hsok) (or_introl Hsil))
    as [(e & He & Hst)|(_ & _ & _ & Hsi)]; [eauto|].
  left. split_and!; auto.
Qed.
End Progress.

Section Delivered.
Context `{WorkerPoolLaws P} {S T : Type} (h : Handler S) (h' : Handler T).

(** Where nothing is left to do between two open sides, everything was delivered. *)
Lemma idle_delivered ms ms' st st' (from : Side P S) (to : Side P T) :
  pools_ok h ms st from → pools_ok h' ms' st' to → written_messages from = read_messages to →
  side_open from → side_open to → side_idle from → side_idle to →
  delivered_all h ms st from to.
Proof.
  intros [Hw Ha Ho Hp Hlen Hr _ _ _ _] [_ _ _ _ _ _ _ _ Hrd Hrdo] Hwire [Hfo _] [_ Hti] Hfi Hto.
  destruct Hfi as (Hprod & Hrep & _ & Hrun & _). destruct Hto as (_ & _ & Hheld & _).
  rewrite Hrun in Hw. cbn in Hw. rewrite (right_id_L [] (++)) in Hw. specialize (Hrdo Hti).
  rewrite Hheld in Hrdo. cbn in Hrdo. rewrite (right_id_L [] (++)) in Hrdo.
  constructor.
  - congruence.
  - intros g. rewrite (Ho Hfo), <- (Hp g).
    destruct (producers from !! g) as [l|] eqn:Hg; cbn; [|by rewrite (right_id_L [] (++))].
    destruct l as [|d rest]; [by rewrite (right_id_L [] (++))|]. apply concat_producer in Hg. by rewrite Hprod in Hg.
  - rewrite (Ho Hfo), <- Hr, Hrep. by rewrite (right_id_L [] (++)).
Qed.
End Delivered.

(** ** Properties *)

(** A pool of one worker. *)
Record SamplePool : Type := mkSamplePool { sp_running : option string; sp_closed : bool }.
Definition sample_pool : WorkerPool SamplePool := {|
  NewPoolWithFunc := mkSamplePool None false;
  pool_Invoke data p :=
    if sp_closed p then Some (Throw (Errorf "this pool has been closed"), p)
    else match sp_running p with
         | Some _ => None
         | None => Some (Ret tt, mkSamplePool (Some data) false)
         end;
  func_returns p := mkSamplePool None (sp_closed p);
  Release p := mkSamplePool (sp_running p) true;
  running := sp_running;
  IsClosed := sp_closed
|}.
Lemma sample_pool_laws : @WorkerPoolLaws SamplePool sample_pool.
Proof.
  constructor; cbn; try done.
  - intros data p -> ->. by eexists.
  - by intros data p -> [w ->].
  - intros data p ->. by eexists.
Qed.

(** C6. Whatever the goroutines of both sides do, and whenever they are stopped, messages cross
    the connection once and in order, in each direction, and the receiver is where it would
    be if it had taken them one after the other. *)
Theorem link_in_order `{WorkerPoolLaws P} {S T} (client_handler : Handler S) (server_handler : Handler T)
    cap from_client from_server st st' (l : Link P S T) :
  reachable (link_step client_handler server_handler cap) (new_link from_client from_server st st') l →
  in_order client_handler server_handler from_client st st' (client_end l) (upstream l) (server_end l) ∧
  in_order server_handler client_handler from_server st' st (server_end l) (downstream l) (client_end l).
Proof.
  intros [Hc Hs Hu Hd]%reachable_link_ok.
  split; [by apply (pools_ok_in_order _ _ from_client from_server)|by apply (pools_ok_in_order _ _ from_server from_client)].
Qed.

(** Between a client and a silent server: what every run keeps, and what it has come to where
    nothing is left anywhere. *)
Lemma run_link_works `{WorkerPoolLaws P} {X W Y} (adapters : list (Adapter (list string) (X * list string)))
    (server_adapters : list (Adapter W Y)) cap from_client from_server st st' es (l : Link P (Ctx * X) (Ctx * Y)) :
  (0 < cap)%nat → Forall working es →
  run (link_step (in_handler adapters) (silent_handler server_adapters) cap) es (new_link from_client from_server st st') = Some l →
  link_works (in_handler adapters) (silent_handler server_adapters) from_client from_server st st' l.
Proof.
  intros Hcap Hes. apply (run_invariant _ working); [|exact Hes|apply new_link_works].
  intros e l1 l2 He Hl1 Hstep. by eapply (link_step_works (in_handler adapters) (silent_handler server_adapters) cap).
Qed.
Lemma works_idle_done `{WorkerPoolLaws P} {X W Y} (adapters : list (Adapter (list string) (X * list string)))
    (server_adapters : list (Adapter W Y)) from_client from_server st st' (l : Link P (Ctx * X) (Ctx * Y)) :
  link_works (in_handler adapters) (silent_handler server_adapters) from_client from_server st st' l → link_idle l →
  delivered_all (in_handler adapters) from_client st (client_end l) (server_end l) ∧
  delivered_all (silent_handler server_adapters) from_server st' (server_end l) (client_end l).
Proof.
  intros [[Hc Hs Hu Hd] Hco Hso _] (Hci & Hsi & Hup & Hdown). rewrite Hup, (right_id_L [] (++)) in Hu.
  rewrite Hdown, (right_id_L [] (++)) in Hd. split; by eapply idle_delivered.
Qed.

(** C7. Nothing waits for ever between a client and a server whose adapters do not send while
    they handle a message: from every state that can be reached without stopping a side, no
    run is endless, a run that cannot go on has delivered and had handled every message of
    every goroutine and every answer, and every run can be continued to such an end. *)
Theorem link_delivers `{WorkerPoolLaws P} {X W Y} (adapters : list (Adapter (list string) (X * list string)))
    (server_adapters : list (Adapter W Y)) cap from_client from_server st st' es (l : Link P (Ctx * X) (Ctx * Y))
    (step := link_step (in_handler adapters) (silent_handler server_adapters) cap)
    (done := λ l, delivered_all (in_handler adapters) from_client st (client_end l) (server_end l) ∧
                  delivered_all (silent_handler server_adapters) from_server st' (server_end l) (client_end l)) :
  (0 < cap)%nat → Forall working es → run step es (new_link from_client from_server st st') = Some l →
  Acc (λ l' l, ∃ e, working e ∧ step e l = Some l') l ∧
  (¬ enabled step working l → done l) ∧
  ∃ es' l', Forall working es' ∧ run step es' l = Some l' ∧ done l'.
Proof.
  intros Hcap Hes Hrun.
  set (works := link_works (in_handler adapters) (silent_handler server_adapters) from_client from_server st st').
  assert (∀ e l l', working e → works l → step e l = Some l' → works l' ∧ lex (link_measure l') (link_measure l))
    as Hstep by (intros; by eapply link_step_works).
  assert (works l) as Hl by by eapply run_link_works.
  assert (∀ l, works l → link_idle l → done l) as Hidle by (intros; by eapply works_idle_done).
  assert (Acc (λ l' l, ∃ e, working e ∧ step e l = Some l') l) as Hacc.
  { apply (no_endless_run step lex working works link_measure); [apply lex_wf|..|done]; intros; by eapply Hstep. }
  assert (∀ l, works l → done l ∨ enabled step working l) as Hprog.
  { intros l0 Hl0. destruct (link_progress (in_handler adapters) (silent_handler server_adapters) cap
      from_client from_server st st' Hcap l0 Hl0) as [|]; eauto. }
  split; [done|]. split; [intros Hn; by destruct (Hprog l Hl)|].
  apply (run_until_finished step working works); [intros; by eapply Hstep|done..].
Qed.

(** *** Two sides that answer *)
Section Blocked.
Context `{WorkerPoolLaws P} {S : Type} (handler : Handler S) (cap : nat) (I : S → Prop).

(** A side with open pools: what is to be produced, sent, answered and handed over. *)
Record shape (prods : list (list string)) (sending handling : option string) (answers : list string)
    (hd : option string) (s : Side P S) : Prop := {
  sh_open : side_open s;
  sh_state : I (handler_state s);
  sh_producers : producers s = prods;
  sh_sending : running (outPool s) = sending;
  sh_handling : running (inPool s) = handling;
  sh_answers : replies s = answers;
  sh_held : held s = hd
}.
(** From a shape to a shape by one event. *)
Local Abbreviation moves e s out inn A out' inn' :=
  (∃ s', side_step handler cap e s out inn = Some (s', out', inn') ∧ A s').

Lemma shape_produce ms d rest ci rep hd s out inn :
  shape ((d :: rest) :: ms) None ci rep hd s →
  moves (Produces 0) s out inn (shape (rest :: ms) (Some d) ci rep hd) out inn.
Proof.
  intros [Hop HI Hp Hs Hh Ha Hhd]. destruct (offer_enabled (Some 0%nat) d s Hop Hs) as [s1 Hs1].
  exists (set_producers (rest :: ms) s1). cbn [side_step inner_step]. rewrite Hp. cbn. rewrite Hs1. split; [done|].
  destruct (offer_open _ _ _ _ Hs1 Hop) as (Hop' & _ & Hr).
  apply offer_inv in Hs1 as (_ & _ & Hin & Hre & Hhe & Hst & _). constructor; cbn; rewrite ?Hst, ?Hin, ?Hre, ?Hhe; done.
Qed.
Lemma shape_write ms d ci rep hd s out inn :
  shape ms (Some d) ci rep hd s → (length out < cap)%nat →
  moves WriteMessage s out inn (shape ms None ci rep hd) (out ++ [d]) inn.
Proof.
  intros [[Ho Hi] HI Hp Hs Hh Ha Hhd] Hl. cbn [side_step]. rewrite Hs.
  destruct (Nat.ltb_spec (length out) cap); [|lia]. eexists. split; [done|].
  constructor; cbn; try done; [split; cbn; [by rewrite returns_closed|done]|apply returns_running].
Qed.
Lemma shape_read ms co ci rep s out d inn :
  shape ms co ci rep None s → moves ReadMessage s out (d :: inn) (shape ms co ci rep (Some d)) out inn.
Proof. intros [Hop HI Hp Hs Hh Ha Hhd]. cbn [side_step]. rewrite Hhd. eexists. split; [done|]. by constructor. Qed.
Lemma shape_give ms co d answers s out inn :
  shape ms co None [] (Some d) s → (∀ x, I x → ∃ x', handler d x = (x', answers) ∧ I x') →
  moves GiveToInPool s out inn (shape ms co (Some d) answers None) out inn.
Proof.
  intros [[Ho Hi] HI Hp Hs Hh Ha Hhd] Hd. destruct (Hd _ HI) as (x' & Hx & HI').
  destruct (invoke_free d _ Hi Hh) as (p & Hinv & Hr & Hc).
  cbn [side_step inner_step]. unfold give_to_inPool. rewrite Hhd, Hinv, Hx.
  eexists. split; [done|]. by constructor.
Qed.
Lemma shape_send ms w d rest hd s out inn :
  shape ms None (Some w) (d :: rest) hd s →
  moves HandlerSends s out inn (shape ms (Some d) (Some w) rest hd) out inn.
Proof.
  intros [Hop HI Hp Hs Hh Ha Hhd]. destruct (offer_enabled None d s Hop Hs) as [s1 Hs1].
  exists (set_replies rest s1). cbn [side_step inner_step]. rewrite Hh, Ha, Hs1. split; [done|].
  destruct (offer_open _ _ _ _ Hs1 Hop) as (Hop' & _ & Hr).
  apply offer_inv in Hs1 as (_ & Hpr & Hin & Hre & Hhe & Hst & _).
  constructor; cbn; rewrite ?Hst, ?Hin, ?Hpr, ?Hhe; done.
Qed.
Lemma shape_end ms co w hd s out inn :
  shape ms co (Some w) [] hd s → moves HandlerEnds s out inn (shape ms co None [] hd) out inn.
Proof.
  intros [[Ho Hi] HI Hp Hs Hh Ha Hhd]. cbn [side_step inner_step]. rewrite Hh, Ha.
  eexists. split; [done|]. constructor; cbn; try done; [split; cbn; [done|by rewrite returns_closed]|apply returns_running].
Qed.
(** Nothing can happen on a side that sends, answers and holds a message when there is no room. *)
Lemma shape_blocked ms d w a rest hd s out inn e :
  shape ms (Some d) (Some w) (a :: rest) (Some hd) s → length out = cap → e ≠ StopPools →
  side_step handler cap e s out inn = None.
Proof.
  intros [[Ho Hi] HI Hp Hs Hh Ha Hhd] Hl He.
  assert (∀ x, pool_Invoke x (outPool s) = None) as Hout by (intros x; apply invoke_busy; [done|by rewrite Hs]).
  assert (∀ x, pool_Invoke x (inPool s) = None) as Hin by (intros x; apply invoke_busy; [done|by rewrite Hh]).
  destruct e as [g| | | | | |]; cbn [side_step inner_step]; [..|done].
  - unfold offer. destruct (producers s !! g) as [[|x l]|]; try done. by rewrite Hout.
  - unfold offer. by rewrite Hh, Ha, Hout.
  - by rewrite Hh, Ha.
  - rewrite Hs. destruct (Nat.ltb_spec (length out) cap); [lia|done].
  - by rewrite Hhd.
  - unfold give_to_inPool. by rewrite Hhd, Hin.
Qed.
End Blocked.

Section Deadlock.
Context `{WorkerPoolLaws P} {S T : Type} (client_handler : Handler S) (server_handler : Handler T) (cap : nat).
Context (I : S → Prop) (J : T → Prop) (ask answer put : string).
(** The server answers what it is asked, and the client answers that again. *)
Hypothesis server_answers : ∀ y, J y → ∃ y', server_handler ask y = (y', [answer]) ∧ J y'.
Hypothesis client_answers : ∀ x, I x → ∃ x', client_handler answer x = (x', [put]) ∧ I x'.
Hypothesis room : (0 < cap)%nat.
Implicit Types l : Link P S T.
Local Abbreviation step := (link_step client_handler server_handler cap).

Definition can_reach l (C : Link P S T → Prop) : Prop := ∃ es l', Forall working es ∧ run step es l = Some l' ∧ C l'.
Lemma can_bind l (C D : Link P S T → Prop) : can_reach l C → (∀ l', C l' → can_reach l' D) → can_reach l D.
Proof.
  intros (es & l1 & He & Hr & HC) HD. destruct (HD _ HC) as (es' & l2 & He' & Hr' & HD').
  exists (es ++ es'), l2. split_and!; [by apply Forall_app| |done]. by rewrite run_app, Hr.
Qed.
Lemma can_event e l l' (C : Link P S T → Prop) : working e → step e l = Some l' → C l' → can_reach l C.
Proof. intros He Hs HC. exists [e], l'. split_and!; [by constructor| |done]. by rewrite (run_cons _ _ _ _ _ Hs). Qed.

(** The client has [n] questions left to ask; the server only answers. *)
Definition conf (n : nat) co ci rep hd so si srep shd (up down : list string) l : Prop :=
  shape I [replicate n ask] co ci rep hd (client_end l) ∧ shape J [] so si srep shd (server_end l) ∧
  upstream l = up ∧ downstream l = down.
Lemma client_moves e n co ci rep hd n' co' ci' rep' hd' so si srep shd up down up' down' l D :
  conf n co ci rep hd so si srep shd up down l → e ≠ StopPools →
  (∀ c, shape I [replicate n ask] co ci rep hd c →
    ∃ c', side_step client_handler cap e c up down = Some (c', up', down') ∧
          shape I [replicate n' ask] co' ci' rep' hd' c') →
  (∀ l', conf n' co' ci' rep' hd' so si srep shd up' down' l' → can_reach l' D) → can_reach l D.
Proof.
  intros (Hc & Hs & Hu & Hd) He Hstep. destruct (Hstep _ Hc) as (c' & Hst & Hc').
  apply can_bind. apply (can_event (AtClient e) _ (mkLink c' (server_end l) up' down')); [split; congruence| |done].
  cbn [link_step]. by rewrite Hu, Hd, Hst.
Qed.
Lemma server_moves e n co ci rep hd so' si' srep' shd' so si srep shd up down up' down' l D :
  conf n co ci rep hd so si srep shd up down l → e ≠ StopPools →
  (∀ s, shape J [] so si srep shd s →
    ∃ s', side_step server_handler cap e s down up = Some (s', down', up') ∧ shape J [] so' si' srep' shd' s') →
  (∀ l', conf n co ci rep hd so' si' srep' shd' up' down' l' → can_reach l' D) → can_reach l D.
Proof.
  intros (Hc & Hs & Hu & Hd) He Hstep. destruct (Hstep _ Hs) as (s' & Hst & Hs').
  apply can_bind. apply (can_event (AtServer e) _ (mkLink (client_end l) s' up' down')); [split; congruence| |done].
  cbn [link_step]. by rewrite Hu, Hd, Hst.
Qed.
(** On to the state that was reached. *)
Ltac next :=
  lazymatch goal with H : conf _ _ _ _ _ _ _ _ _ _ _ ?l |- ∀ _, _ → can_reach _ _ => clear H; clear l; intros l H end.
Ltac client_event e lem :=
  eapply (client_moves e); [eassumption|done|intros ? ?; eapply lem; eauto with lia|cbn [app]; next].
Ltac server_event e lem :=
  eapply (server_moves e); [eassumption|done|intros ? ?; eapply lem; eauto with lia|cbn [app]; next].
Ltac arrived := match goal with |- can_reach ?l _ => by exists [], l end.

(** A question reaches the handler of the server. *)
Lemma ask_round n ci rep hd so down l :
  conf (Datatypes.S n) None ci rep hd so None [] None [] down l →
  can_reach l (conf n None ci rep hd so (Some ask) [answer] None [] down).
Proof.
  intros Hl. client_event (Produces 0) @shape_produce. client_event WriteMessage @shape_write.
  server_event ReadMessage @shape_read. server_event GiveToInPool @shape_give. arrived.
Qed.
(** And its answer the connection. *)
Lemma answer_round n ci rep hd down l :
  conf (Datatypes.S n) None ci rep hd None None [] None [] down l → (length down < cap)%nat →
  can_reach l (conf n None ci rep hd None None [] None [] (down ++ [answer])).
Proof.
  intros Hl Hlen. eapply can_bind; [by apply ask_round|]. next.
  server_event HandlerSends @shape_send. server_event HandlerEnds @shape_end.
  server_event WriteMessage @shape_write. arrived.
Qed.
Lemma answer_rounds k n ci rep hd down l :
  conf (k + n) None ci rep hd None None [] None [] down l → (length down + k ≤ cap)%nat →
  can_reach l (conf n None ci rep hd None None [] None [] (down ++ replicate k answer)).
Proof.
  revert down l. induction k as [|k IH]; intros down l Hl Hlen; cbn [replicate].
  - rewrite (right_id_L [] (++)). arrived.
  - eapply can_bind; [apply answer_round; [exact Hl|lia]|]. next.
    eapply can_bind; [apply IH; [exact Hl|rewrite length_app; cbn; lia]|]. next.
    rewrite <- (assoc_L (++)) in Hl. arrived.
Qed.
(** Questions that nobody reads fill the connection. *)
Lemma ask_rounds k n ci rep hd so si srep shd up down l :
  conf (k + n) None ci rep hd so si srep shd up down l → (length up + k ≤ cap)%nat →
  can_reach l (conf n None ci rep hd so si srep shd (up ++ replicate k ask) down).
Proof.
  revert up l. induction k as [|k IH]; intros up l Hl Hlen; cbn [replicate].
  - rewrite (right_id_L [] (++)). arrived.
  - change (Datatypes.S k + n)%nat with (Datatypes.S (k + n)) in Hl.
    client_event (Produces 0) @shape_produce. client_event WriteMessage @shape_write.
    eapply can_bind; [apply IH; [eassumption|rewrite length_app; cbn; lia]|]. next.
    rewrite <- (assoc_L (++)) in Hl. arrived.
Qed.

(** Enough questions block both sides. *)
Lemma sides_block l :
  conf (cap + (cap + 6)) None None [] None None None [] None [] [] l →
  can_reach l (λ l', (∀ e, working e → step e l' = None) ∧ held (server_end l') = Some ask).
Proof.
  intros Hl. replace (cap + (cap + 6))%nat with (Datatypes.S (Datatypes.S (cap + (cap + 4)))) in Hl by lia.
  eapply can_bind; [by apply answer_round|]. next.
  client_event ReadMessage @shape_read. client_event GiveToInPool @shape_give.
  eapply can_bind; [by apply answer_round|]. next.
  client_event ReadMessage @shape_read.
  eapply can_bind; [by apply (answer_rounds cap (cap + 4))|]. next. cbn [app] in Hl.
  replace (cap + 4)%nat with (Datatypes.S (Datatypes.S (cap + 2))) in Hl by lia.
  eapply can_bind; [by apply ask_round|]. next.
  server_event HandlerSends @shape_send. server_event HandlerEnds @shape_end.
  eapply can_bind; [by apply ask_round|]. next.
  replace (cap + 2)%nat with (Datatypes.S (cap + 1)) in Hl by lia.
  client_event (Produces 0) @shape_produce. client_event WriteMessage @shape_write.
  server_event ReadMessage @shape_read.
  eapply can_bind; [by apply (ask_rounds cap 1)|]. next. cbn [app] in Hl.
  client_event (Produces 0) @shape_produce.
  destruct Hl as (Hcs & Hss & Hu & Hd). exists [], l. split_and!; [done|done| |apply Hss]. intros e [Hc Hs].
  destruct e as [e|e]; cbn [link_step].
  - erewrite shape_blocked; [done|exact Hcs|by rewrite Hu, length_replicate|congruence].
  - erewrite shape_blocked; [done|exact Hss|by rewrite Hd, length_replicate|congruence].
Qed.
End Deadlock.

(** Two reference adapters.  The client holds an object that the server lacks and announces
    it again and again. *)
Section TwoMocks.
Context `{MergePatches, MultiErr, WorkerPoolLaws P} (ERV : string → option string).
Variables (id : KindName) (obj h : string).
Hypothesis Hid : id_ok id.
Hypothesis Hobj : text_ok obj.
Hypothesis Hh : text_ok h.
Local Abbreviation mock_handler := (in_handler [go_mock ERV]).
Implicit Types x : Ctx * MockAdapter (list string).

Definition lacks x : Prop := connected false (x.1, (x.2, [])) ∧ Resources x.2 !! KindName_String id = None.
Definition holds x : Prop :=
  connected true (x.1, (x.2, [])) ∧ Resources x.2 !! KindName_String id = Some obj ∧
  shadowObjects x.2 !! KindName_String id = None.
Lemma connected_on b x g : connected b (x.1, (x.2, [])) → connected b (ContextFromGeneric x.1 g, (x.2, [])).
Proof. intros ([cid Hc] & Hr). split; [exists cid; by apply carries_Generic|exact Hr]. Qed.
Lemma mock_asks x :
  lacks x → ∃ x', mock_handler (message_of true (SyncVerify id h) 1 "") x =
                    (x', [message_of false (SyncGet (unversioned id) "") 2 ""]) ∧ lacks x'.
Proof.
  intros [Hc Hr]. unfold in_handler.
  rewrite (server_asks ERV id h Hid Hh (x.1, (x.2, [])) "" Hc) by (done || by left).
  eexists. split; [done|]. split; [by apply (connected_on _ x)|done].
Qed.
Lemma mock_puts x :
  holds x → ∃ x', mock_handler (message_of false (SyncGet (unversioned id) "") 2 "") x =
                    (x', [message_of true (SyncPut (unversioned id) "" obj) 3 ""]) ∧ holds x'.
Proof.
  intros (Hc & Hr & Hs). unfold in_handler.
  rewrite (client_puts ERV id obj Hid Hobj (x.1, (x.2, [])) Hc Hr Hs).
  eexists. split; [done|]. split; [by apply (connected_on _ x)|done].
Qed.

(** C8. The condition on the server of [link_delivers] is needed: between two reference adapters,
    which answer while they handle, announcements come to a state in which every goroutine
    waits for another one, and the server never handles a message it has read.  However
    much the connection holds, twice as many announcements and six more are enough. *)
Theorem mocks_block cap x y :
  (0 < cap)%nat → holds x → lacks y →
  let messages := replicate (2 * cap + 6) (message_of true (SyncVerify id h) 1 "") in
  ∃ es (l : Link P _ _), Forall working es ∧
    run (link_step mock_handler mock_handler cap) es (new_link [messages] [] x y) = Some l ∧
    (∀ e, working e → link_step mock_handler mock_handler cap e l = None) ∧
    held (server_end l) = Some (message_of true (SyncVerify id h) 1 "").
Proof.
  intros Hcap Hx Hy messages.
  destruct (sides_block mock_handler mock_handler cap holds lacks
    (message_of true (SyncVerify id h) 1 "") _ _ mock_asks mock_puts Hcap (new_link [messages] [] x y))
    as (es & l & Hes & Hrun & Hblocked & Hheld); [|by exists es, l].
  destruct new_pool as [Hr Hc]. split_and!; [..|done|done]; constructor; cbn; try done.
  f_equal. unfold messages. f_equal. lia.
Qed.
End TwoMocks.

(** ** Witnesses *)
Definition sample_messages : list (list string) :=
  [[message_of true (SyncVerify sample_id "v1") 1 ""]; [Marshal (mkGeneric 0 (Some EventPing) None "p" None)]].
Definition sample_client_state (res : gmap string string) : Ctx * MockAdapter (list string) :=
  ((sample_party true res ∅).1, (sample_party true res ∅).2.1).
Definition sample_server_state : Ctx * MockAdapter (list string) :=
  ((sample_party false ∅ ∅).1, (sample_party false ∅ ∅).2.1).
#[local] Existing Instances sample_patches sample_multierr sample_pool sample_pool_laws.
Abbreviation sample_client_handler := (in_handler [go_mock (W := list string) (λ _, None)]).
(** Everything that the goroutines of the client send crosses a connection of one message. *)
Definition sample_schedule : list LinkEvent :=
  [AtClient (Produces 1); AtClient WriteMessage; AtClient (Produces 0); AtServer ReadMessage;
   AtServer GiveToInPool; AtClient WriteMessage; AtServer ReadMessage; AtServer HandlerEnds;
   AtServer GiveToInPool].

Lemma link_in_order_witness :
  ∃ l, run (link_step sample_client_handler sample_client_handler 1) sample_schedule
         (new_link sample_messages [] (sample_client_state ∅) sample_server_state) = Some l ∧
    handled_messages (server_end l) = [Marshal (mkGeneric 0 (Some EventPing) None "p" None);
                                        message_of true (SyncVerify sample_id "v1") 1 ""] ∧
    in_order sample_client_handler sample_client_handler sample_messages (sample_client_state ∅)
      sample_server_state (client_end l) (upstream l) (server_end l).
Proof.
  assert ((λ l, handled_messages (server_end l)) <$> run (link_step sample_client_handler sample_client_handler 1)
    sample_schedule (new_link sample_messages [] (sample_client_state ∅) sample_server_state) =
    Some [Marshal (mkGeneric 0 (Some EventPing) None "p" None); message_of true (SyncVerify sample_id "v1") 1 ""])
    as (l & Hl & Hh)%fmap_Some by (vm_compute; reflexivity).
  exists l. split; [done|]. split; [done|].
  apply (link_in_order (P := SamplePool) sample_client_handler sample_client_handler 1 sample_messages []
    (sample_client_state ∅) sample_server_state l). exists sample_schedule. exact Hl.
Defined.

(** A mock adapter in a cluster and the backend adapter of the server. *)
Lemma link_delivers_witness :
  let server := silent_handler [go_backend (H := sample_multierr) (H0 := sample_machine) sample_env] in
  ∃ es (l : Link SamplePool _ _), Forall working es ∧
    run (link_step sample_client_handler server 1) es
      (new_link sample_messages [] (sample_client_state ∅) (connected_ctx newer, started_newer)) = Some l ∧
    delivered_all sample_client_handler sample_messages (sample_client_state ∅) (client_end l) (server_end l).
Proof.
  intros server.
  destruct (link_delivers (P := SamplePool) [go_mock (W := list string) (λ _, None)]
    [go_backend (H := sample_multierr) (H0 := sample_machine) sample_env] 1
    sample_messages [] (sample_client_state ∅) (connected_ctx newer, started_newer) [] _ (le_n 1) (Forall_nil_2 _) eq_refl)
    as (_ & _ & es & l & Hes & Hrun & Hdone & _).
  by exists es, l.
Defined.

Lemma mocks_block_witness :
  ∃ es (l : Link SamplePool _ _), Forall working es ∧
    run (link_step sample_client_handler sample_client_handler 1) es
      (new_link [replicate 8 (message_of true (SyncVerify sample_id "v2") 1 "")] []
         (sample_client_state {[ KindName_String sample_id := "v2" ]}) sample_server_state) = Some l ∧
    Forall (λ e, link_step sample_client_handler sample_client_handler 1 e l = None) [AtClient WriteMessage; AtServer HandlerSends].
Proof.
  destruct (mocks_block (P := SamplePool) (λ _, None) sample_id "v2" "v2" sample_id_ok eq_refl eq_refl 1
    (sample_client_state {[ KindName_String sample_id := "v2" ]}) sample_server_state (le_n 1))
    as (es & l & Hes & Hrun & Hblocked & _).
  - split; [apply sample_party_connected|split; [apply lookup_singleton_eq|apply lookup_empty]].
  - split; [apply sample_party_connected|apply lookup_empty].
  - exists es, l. split; [done|]. split; [exact Hrun|]. repeat constructor; apply Hblocked; done.
Defined.
