(* ===== verification/EndToEnd.v ===== *)
(** * EndToEnd: from the watch of a cluster to the store of a server.

    The goroutines of an in-cluster client (Pipeline) decide which messages go to its
    synchronizer; the goroutines of two synchronizers carry them over a connection (Duplex);
    the worker of the server decodes each and runs its adapter (Delivery), the reference
    adapter (Mirror).  What each part promises is put together here. *)

From S2P Require Export Mirror Duplex.

(** ** Messages that come from one goroutine only *)
Lemma only_sender (l : list (option nat * string)) who :
  (∀ who', who' ≠ who → sent_by who' l = []) → l.*2 = sent_by who l.
Proof.
  intros Hothers. assert (Forall (λ p, p.1 = who) l) as Hall.
  { apply Forall_forall. intros [who' d] Hin. cbn. destruct (decide (who' = who)) as [|Hne]; [done|].
    assert (d ∈ sent_by who' l) as Hd; [|by rewrite (Hothers who' Hne) in Hd; apply not_elem_of_nil in Hd].
    unfold sent_by. apply list_elem_of_fmap. exists (who', d). split; [done|]. by apply list_elem_of_filter. }
  unfold sent_by. f_equal. clear Hothers. induction Hall as [|p l Hp Hall IH]; [done|].
  rewrite filter_cons_True by done. by f_equal.
Qed.
Lemma no_sender (l : list (option nat * string)) : (∀ who, sent_by who l = []) → l = [].
Proof.
  intros H. destruct l as [|[who d] l]; [done|]. specialize (H who). unfold sent_by in H. by rewrite filter_cons_True in H.
Qed.
Lemma silent_says_nothing {W X} (adapters : list (Adapter W X)) ds s : (handle_all (silent_handler adapters) ds s).2 = [].
Proof. revert s. induction ds as [|d ds IH]; intros s; [done|]. cbn. apply IH. Qed.

(** A client that sends from one goroutine and a silent server: where nothing can go on, the
    server has handled exactly those messages, in their order. *)
Lemma link_carries `{WorkerPoolLaws P} {X W Y} (adapters : list (Adapter (list string) (X * list string)))
    (server_adapters : list (Adapter W Y)) cap messages st st' es (l : Link P (Ctx * X) (Ctx * Y)) :
  let step := link_step (in_handler adapters) (silent_handler server_adapters) cap in
  (0 < cap)%nat → Forall working es → run step es (new_link [messages] [] st st') = Some l → ¬ enabled step working l →
  handled_messages (server_end l) = messages ∧
  handler_state (server_end l) = (handle_all (silent_handler server_adapters) messages st').1.
Proof.
  intros step Hcap Hes Hrun Hend.
  pose proof (run_link_works adapters server_adapters cap [messages] [] st st' es l Hcap Hes Hrun) as Hworks.
  destruct (link_progress (in_handler adapters) (silent_handler server_adapters) cap [messages] [] st st' Hcap l Hworks)
    as [Hidle|]; [|done].
  destruct (works_idle_done adapters server_adapters [messages] [] st st' l Hworks Hidle)
    as [[Hh Hp Ha] [Hh' Hp' Ha']].
  assert (handled_messages (client_end l) = []) as Hnone.
  { rewrite Hh', (no_sender (accepted_by_pool (server_end l))); [done|]. intros [g|]; [by rewrite Hp'|].
    by rewrite Ha', silent_says_nothing. }
  assert (handled_messages (server_end l) = messages) as Hall.
  { rewrite Hh, (only_sender _ (Some 0%nat)); [by rewrite Hp|]. intros [g|] Hne; [|by rewrite Ha, Hnone].
    rewrite Hp. destruct g as [|g]; [done|]. by destruct g. }
  split; [exact Hall|]. destruct Hworks as [[_ Hs _ _] _ _ _]. destruct Hs as [_ _ _ _ _ _ Hstate _ _ _].
  by rewrite Hstate, Hall.
Qed.

(** ** The store of the reference adapter *)
Section Store.
Context {W : Type} `{MergePatches, MultiErr} (ERV : string → option string).
Local Abbreviation X := (MockAdapter W * W)%type.
Implicit Types st : X.

(** The same objects, and the same rule for accepting new ones. *)
Definition same_store (st st' : X) : Prop :=
  checkResourceVersion st.1 = checkResourceVersion st'.1 ∧ Resources st.1 = Resources st'.1.
Lemma deliver_same ctx ctx' ev st st' : plain ev → same_store st st' →
  same_store (deliver (go_mock ERV) ctx (as_received true ev) st).2 (deliver (go_mock ERV) ctx' (as_received true ev) st').2.
Proof.
  intros Hev [Hc Hr]. destruct (deliver_served ERV ctx ev st Hev) as [Hc1 Hr1].
  destruct (deliver_served ERV ctx' ev st' Hev) as [Hc2 Hr2]. split; [congruence|]. apply map_eq. intros k.
  rewrite Hr1, Hr2. unfold served, saved. by rewrite Hc, Hr.
Qed.

(** The messages of events that no other message caused, with the ids that are drawn for them. *)
Fixpoint messages_from (ids : nat → string) (n : nat) (evs : list SyncEvent) : list string :=
  match evs with
  | [] => []
  | ev :: evs' => message_of true ev 1 (ids n) :: messages_from ids (S n) evs'
  end.
Lemma messages_from_app ids n evs evs' :
  messages_from ids n (evs ++ evs') = messages_from ids n evs ++ messages_from ids (n + length evs) evs'.
Proof.
  revert n. induction evs as [|ev evs IH]; intros n; cbn; [by rewrite Nat.add_0_r|]. by rewrite IH, Nat.add_succ_r.
Qed.
Lemma worker_delivers ev msgId rctx st : sendable ev → text_ok msgId →
  ∃ rctx', (inWorker [go_mock ERV] (message_of true ev 1 msgId) (rctx, st)).2
    = (rctx', (deliver (go_mock ERV) rctx' (as_received true ev) st).2).
Proof.
  intros Hev Hid. exists (ContextFromGeneric rctx (message_header ev 1 msgId)). rewrite receive_run; [|done|by apply in_intb_spec|by unfold maxMessageDepth|done].
  cbn [mfor]. rewrite bind_run. destruct (deliver (go_mock ERV) _ _ st) as [[[]|e|why] st']; reflexivity.
Qed.
Lemma worker_serves ctx' evs ids n rctx st st' :
  Forall plain evs → Forall sendable evs → (∀ n, text_ok (ids n)) → same_store st st' →
  same_store (handle_all (silent_handler [go_mock ERV]) (messages_from ids n evs) (rctx, st)).1.2 (serve ERV ctx' evs st').
Proof.
  intros Hplain Hsend Hids. revert n rctx st st'. induction Hplain as [|ev evs Hev Hplain IH]; intros n rctx st st' Hst; [done|].
  inversion Hsend as [|?? Hs1 Hs2]; subst. destruct (worker_delivers ev (ids n) rctx st Hs1 (Hids n)) as (rctx' & Hw).
  cbn [messages_from handle_all]. unfold silent_handler at 1 2. cbn [fst snd]. rewrite Hw.
  change (serve ERV ctx' (ev :: evs) st') with (serve ERV ctx' evs (deliver (go_mock ERV) ctx' (as_received true ev) st').2).
  apply IH; [done|]. by apply deliver_same.
Qed.
End Store.

(** What a client without shadow objects tells is about one object each. *)
Lemma announced_plain `{KubeLib, !GVKLib, MergePatches, MultiErr, ClientLib} (c : Client (list SyncEvent)) bytes sum l :
  Forall plain (concat (announces c bytes sum <$> l)).
Proof.
  apply Forall_concat, Forall_fmap, Forall_forall. intros ev _. cbn.
  destruct (announces_cases c bytes sum ev) as [->|(d0 & _ & _ & sev & -> & Hp & _)]; by repeat constructor.
Qed.

(** Nothing can go on where nothing is left. *)
Lemma idle_stuck `{WorkerPoolLaws P} {S T} (h : Handler S) (h' : Handler T) cap (l : Link P S T) :
  link_idle l → ¬ enabled (link_step h h' cap) working l.
Proof.
  assert (∀ {U} (g : Handler U) (s : Side P U) e out, side_idle s → e ≠ StopPools → side_step g cap e s out [] = None) as Hside.
  { intros U g s e out (Hp & Hr & Hh & Ho & Hi) He. destruct e as [i| | | | | |]; cbn; try done.
    - destruct (producers s !! i) as [[|d rest]|] eqn:Hg; [done| |done]. apply concat_producer in Hg. by rewrite Hp in Hg.
    - by rewrite Hi.
    - by rewrite Hi.
    - by rewrite Ho.
    - by rewrite Hh.
    - unfold give_to_inPool. by rewrite Hh. }
  intros (Hc & Hs & Hup & Hdown) (e & l' & [He He'] & Hstep). destruct e as [e|e]; cbn in Hstep.
  - rewrite Hdown, Hside in Hstep; [done..|]. congruence.
  - rewrite Hup, Hside in Hstep; [done..|]. congruence.
Qed.

(** ** The goroutines of the cluster's client and of both synchronizers, together *)
Section System.
Context `{KubeLib, !GVKLib, MergePatches, MultiErr, ClientLib, WorkerPoolLaws P} {X W Y : Type}.
Variables (log : list WatchEvent) (ctx : Ctx) (ids : nat → string) (cap : nat).
Variables (adapters : list (Adapter (list string) (X * list string))) (server_adapters : list (Adapter W Y)).
Local Abbreviation L := (Link P (Ctx * X) (Ctx * Y)).

Record System : Type := mkSystem { cluster_side : Pipeline (E := list SyncEvent); connection : L }.
Inductive SystemEvent : Type := OfCluster (e : PipelineEvent (E := list SyncEvent)) | OfLink (e : LinkEvent).
(** Nothing stops a synchronizer, and no call of the server changes the client. *)
Definition undisturbed (e : SystemEvent) : Prop :=
  match e with OfCluster e => by_itself e | OfLink e => working e end.

(** What the event loop of the client still has to give to [outPool]. *)
Definition unsent (l : L) : list string := concat (producers (client_end l)).
Definition says (msgs : list string) (l : L) : L :=
  mkLink (set_producers [unsent l ++ msgs] (client_end l)) (server_end l) (upstream l) (downstream l).
(** The event loop handles an event once the pool has taken the messages of the one before. *)
Definition system_step (e : SystemEvent) (s : System) : option System :=
  match e with
  | OfCluster e =>
      match e, unsent (connection s) with
      | HandlesEvent, _ :: _ => None
      | _, _ =>
          p ← pipeline_step log ctx e (cluster_side s);
          let n := length (client (cluster_side s)).2 in
          Some (mkSystem p (says (messages_from ids n (drop n (client p).2)) (connection s)))
      end
  | OfLink e => mkSystem (cluster_side s) <$> link_step (in_handler adapters) (silent_handler server_adapters) cap e (connection s)
  end.
Definition new_system (c : Client (list SyncEvent)) (st : Ctx * X) (st' : Ctx * Y) : System :=
  mkSystem (new_pipeline (c, [])) (new_link [[]] [] st st').

(** *** Messages that are not there yet do not matter *)
Local Abbreviation lstep := (link_step (in_handler adapters) (silent_handler server_adapters) cap).
Definition one_loop (l : L) : Prop := length (producers (client_end l)) = 1%nat.
Lemma one_loop_unsent l : one_loop l → producers (client_end l) = [unsent l].
Proof. unfold one_loop, unsent. destruct (producers (client_end l)) as [|q [|q2 l2]]; try done. cbn. by rewrite (right_id_L [] (++)). Qed.
Lemma says_nil l : one_loop l → says [] l = l.
Proof.
  intros Hl%one_loop_unsent. unfold says. rewrite (right_id_L [] (++)), <- Hl. destruct l as [c s up down]. cbn. by destruct c.
Qed.
Lemma says_says msgs msgs' l : says msgs' (says msgs l) = says (msgs ++ msgs') l.
Proof. unfold says, unsent. cbn. by rewrite (right_id_L [] (++)), <- (assoc_L (++)). Qed.
Lemma side_step_ahead {S} (h : Handler S) e (s : Side P S) out inn s' out' inn' q fut :
  producers s = [q] → side_step h cap e s out inn = Some (s', out', inn') →
  ∃ q', producers s' = [q'] ∧
    side_step h cap e (set_producers [q ++ fut] s) out inn = Some (set_producers [q' ++ fut] s', out', inn').
Proof.
  intros Hq. destruct s as [pr op ip re hd st ofd ac wr rd ha]. cbn in Hq. subst pr.
  destruct e as [[|g]| | | | | |]; cbn [side_step inner_step producers set_producers]; cbn -[Nat.ltb]; [|done|..].
  - destruct q as [|d rest]; [done|]. unfold offer. cbn. destruct (pool_Invoke d op) as [[r p]|]; [|done]. cbn.
    intros [= <- <- <-]. by exists rest.
  - destruct (running ip) as [w|]; [|done]. destruct re as [|d rest]; [done|]. unfold offer. cbn.
    destruct (pool_Invoke d op) as [[r p]|]; [|done]. cbn. intros [= <- <- <-]. by exists q.
  - destruct (running ip) as [w|]; [|done]. destruct re; [|done]. cbn. intros [= <- <- <-]. by exists q.
  - destruct (running op) as [d|]; [|done]. destruct (length out <? cap)%nat; [|done]. intros [= <- <- <-]. by exists q.
  - destruct hd as [d|]; [done|]. destruct inn as [|d rest]; [done|]. intros [= <- <- <-]. by exists q.
  - unfold give_to_inPool. cbn. destruct hd as [d|]; [|done]. destruct (pool_Invoke d ip) as [[[r|e|w] p]|]; [..|done];
      cbn; intros [= <- <- <-]; by exists q.
  - intros [= <- <- <-]. by exists q.
Qed.
Lemma link_step_ahead e l l' fut : one_loop l → lstep e l = Some l' →
  one_loop l' ∧ lstep e (says fut l) = Some (says fut l').
Proof.
  intros Hl%one_loop_unsent Hstep. unfold says. destruct e as [e|e]; cbn [link_step] in *.
  - destruct (side_step _ _ e _ _ _) as [[[c up] down]|] eqn:Hside; [|done]. injection Hstep as <-.
    destruct (side_step_ahead _ _ _ _ _ _ _ _ _ fut Hl Hside) as (q' & Hq' & Hahead).
    cbn. rewrite Hahead. unfold one_loop, unsent. cbn. rewrite Hq'. cbn. by rewrite (right_id_L [] (++)).
  - cbn. destruct (side_step _ _ e _ _ _) as [[[c up] down]|] eqn:Hside; [|done]. injection Hstep as <-.
    unfold one_loop. cbn. by rewrite Hl.
Qed.

(** *** Runs of the whole are runs of its parts *)
Variables (c : Client (list SyncEvent)) (bytes sum : Obj → string) (st : Ctx * X) (st' : Ctx * Y).
Hypothesis emits : c_callbacks c = emitting.
Hypothesis copies : c_Strategy c ≠ PatchStrategy.
Hypothesis log_events : Forall log_event log.
Hypothesis readable : ∀ event d, event ∈ log → we_Object event = WObject d → prepared c bytes sum d.
Local Abbreviation told s := (client (cluster_side s)).2.
Local Abbreviation pstep := (pipeline_step log ctx).

Record system_ok (s : System) : Prop := {
  so_cluster : ∃ es, Forall by_itself es ∧ run pstep es (new_pipeline (c, [])) = Some (cluster_side s);
  so_loop : one_loop (connection s);
  so_link : ∃ es, Forall working es ∧ ∀ fut,
    run lstep es (new_link [messages_from ids 0 (told s) ++ fut] [] st st') = Some (says fut (connection s))
}.
Lemma new_system_ok : system_ok (new_system c st st').
Proof.
  constructor; [by exists []|done|]. exists []. split; [done|]. intros fut. done.
Qed.
(** A step of the client appends what it tells. *)
Lemma tells_more es e p p' :
  Forall by_itself es → run pstep es (new_pipeline (c, [])) = Some p → by_itself e → pstep e p = Some p' →
  ∃ evs, (client p').2 = (client p).2 ++ evs.
Proof using H2 emits copies log_events readable.
  intros Hes Hrun He Hstep.
  destruct (announced_so_far log ctx c bytes sum [] es p) as (_ & _ & ->); [done..|].
  destruct (announced_so_far log ctx c bytes sum [] (es ++ [e]) p') as (_ & _ & ->); [done..| | |].
  - apply Forall_app. by repeat constructor.
  - rewrite run_app, Hrun. cbn. by rewrite Hstep.
  - assert (∃ l, Pipeline.handled p' = Pipeline.handled p ++ l) as [l ->].
    { unfold Pipeline.handled. destruct (history_step log ctx e p p' He Hstep) as [->|[event ->]].
      - exists []. by rewrite (right_id_L [] (++)).
      - rewrite handled_snoc. by eexists. }
    cbn. rewrite fmap_app, concat_app. by eexists.
Qed.
Lemma system_step_ok e s s' : undisturbed e → system_ok s → system_step e s = Some s' → system_ok s'.
Proof using H2 emits copies log_events readable.
  intros He [(es & Hes & Hrun) Hloop (es' & Hes' & Hrun')] Hstep. destruct e as [e|e]; cbn in He, Hstep.
  - assert (∃ p, pstep e (cluster_side s) = Some p ∧ let n := length (told s) in
      s' = mkSystem p (says (messages_from ids n (drop n (client p).2)) (connection s))) as (p & Hp & ->).
    { destruct e, (unsent (connection s)); try discriminate; apply bind_Some in Hstep as (p & Hp & [= <-]); by exists p. }
    destruct (tells_more es e _ p Hes Hrun He Hp) as [evs Hevs]. constructor; cbn [cluster_side connection].
    + exists (es ++ [e]). split; [apply Forall_app; by repeat constructor|]. rewrite run_app, Hrun. cbn. by rewrite Hp.
    + done.
    + exists es'. split; [done|]. intros fut.
      rewrite Hevs, drop_app_length, messages_from_app, <- (assoc_L (++)), Hrun', says_says. done.
  - apply fmap_Some in Hstep as (l & Hl & ->). destruct (link_step_ahead e _ _ [] Hloop Hl) as [Hloop' _].
    constructor; cbn [cluster_side connection]; [by exists es|done|]. exists (es' ++ [e]).
    split; [by apply Forall_app; split; [|apply Forall_singleton]|]. intros fut. rewrite run_app, Hrun'. cbn [mbind option_bind run].
    destruct (link_step_ahead e _ _ fut Hloop Hl) as [_ ->]. done.
Qed.
Lemma system_link s : system_ok s → ∃ es, Forall working es ∧
  run lstep es (new_link [messages_from ids 0 (told s)] [] st st') = Some (connection s).
Proof.
  intros [_ Hloop (es & Hes & Hrun)]. exists es. split; [done|]. specialize (Hrun []).
  by rewrite (right_id_L [] (++)), says_nil in Hrun.
Qed.

(** *** And they end *)
Definition lex3 (p q : nat * (nat * nat)) : Prop := (p.1 < q.1)%nat ∨ p.1 = q.1 ∧ lex p.2 q.2.
Lemma lex3_wf : well_founded lex3.
Proof.
  intros [a b]. revert b. induction (lt_wf a) as [a _ IHa]. intros b. induction (lex_wf b) as [b _ IHb].
  constructor. intros [a' b'] Hlex. destruct Hlex as [Ha|[Heq Hb]]; cbn in *; [by apply IHa|].
  rewrite Heq. by apply IHb.
Qed.
Definition system_measure (s : System) : nat * (nat * nat) := (steps_left log (cluster_side s), link_measure (connection s)).
Hypothesis room : (0 < cap)%nat.
Lemma system_link_works s : system_ok s →
  link_works (in_handler adapters) (silent_handler server_adapters) [messages_from ids 0 (told s)] [] st st' (connection s).
Proof using H4 room.
  intros (es & Hes & Hrun)%system_link. by eapply run_link_works.
Qed.
Lemma system_step_measure e s s' :
  system_ok s → undisturbed e → system_step e s = Some s' → lex3 (system_measure s') (system_measure s).
Proof using H2 emits copies log_events readable H4 room.
  intros Hok He Hstep. pose proof Hok as [(es & Hes & Hrun) _ _]. destruct e as [e|e]; cbn in He, Hstep.
  - assert (∃ p, pstep e (cluster_side s) = Some p ∧ cluster_side s' = p) as (p & Hp & Hs').
    { destruct e, (unsent (connection s)); try discriminate; apply bind_Some in Hstep as (p & Hp & [= <-]); by exists p. }
    left. cbn. rewrite Hs'. eapply (pipeline_step_measure log ctx (c, [])); [done| |done..]. by eapply run_pipeline_ok.
  - apply fmap_Some in Hstep as (l & Hl & ->). right. split; [done|]. cbn.
    eapply (link_step_works (in_handler adapters) (silent_handler server_adapters)); [done|exact room|exact He|exact (system_link_works s Hok)|exact Hl].
Qed.
(** Where nothing can go on, neither part can. *)
Lemma system_stuck s : system_ok s → ¬ enabled system_step undisturbed s →
  ¬ enabled pstep by_itself (cluster_side s) ∧ ¬ enabled lstep working (connection s).
Proof using H4 room.
  intros Hok Hend.
  assert (¬ enabled lstep working (connection s)) as Hlink.
  { intros (e & l & He & Hl). apply Hend. exists (OfLink e). eexists. split; [done|]. cbn. by rewrite Hl. }
  split; [|done]. intros (e & p & He & Hp). apply Hend. exists (OfCluster e). eexists. split; [done|].
  destruct (link_progress (in_handler adapters) (silent_handler server_adapters) cap _ [] st st' room _ (system_link_works s Hok))
    as [Hidle|]; [|done].
  destruct Hidle as ((Hq & _) & _). cbn. unfold unsent. rewrite Hq, Hp. by destruct e.
Qed.
Lemma parts_stuck s :
  ¬ enabled pstep by_itself (cluster_side s) → ¬ enabled lstep working (connection s) → ¬ enabled system_step undisturbed s.
Proof.
  intros Hc Hl ([e|e] & s' & He & Hstep); cbn in He, Hstep.
  - apply Hc. exists e. destruct e, (unsent (connection s)); try discriminate; apply bind_Some in Hstep as (p & Hp & _); by exists p.
  - apply fmap_Some in Hstep as (l & Hstep & _). apply Hl. by exists e, l.
Qed.
End System.


(** Two versions of one object and one of another: two messages, and the first is on its way
    before the client takes the second event. *)
Definition sample_put (name version bytes : string) : SyncEvent :=
  SyncPut (mkKindName (Some sample_kind) name "" (ToResourceVersion version)) bytes bytes.
Definition sample_object_bytes (name version : string) : string :=
  print (JObj [("metadata", JObj [("name", JStr name); ("resourceVersion", JStr version)])]).
Definition sample_told : list SyncEvent :=
  [sample_put "a" "3" (sample_object_bytes "a" "3"); sample_put "b" "2" (sample_object_bytes "b" "2")].
Lemma sample_told_sendable : Forall sendable sample_told.
Proof. repeat constructor; (exists sample_kind; split; [reflexivity|]; by repeat split) || reflexivity. Qed.

#[local] Existing Instances sample_patches sample_multierr sample_pool sample_pool_laws.
Local Abbreviation Store := (MockAdapter unit * unit)%type.
Definition sample_store : Store := (mkMockAdapter nil_Callbacks true false ∅ ∅, tt).
Definition sample_ids (n : nat) : string := if (n =? 0)%nat then "m1" else "m2".
Lemma sample_ids_text n : text_ok (sample_ids n).
Proof. unfold sample_ids. by destruct (n =? 0)%nat. Qed.

Definition sample_turn : list (@SystemEvent sample_kube) :=
  OfLink <$> [AtClient (Produces 0); AtClient WriteMessage; AtServer ReadMessage; AtServer GiveToInPool; AtServer HandlerEnds].
Definition sample_interleaving : list (@SystemEvent sample_kube) :=
  (OfCluster <$> [Watches; Watches; Watches; Evicts (sample_key "a"); TakesEvent; Evicts (sample_key "b"); HandlesEvent])
  ++ take 3 sample_turn ++ [OfCluster TakesEvent] ++ drop 3 sample_turn ++ [OfCluster HandlesEvent] ++ sample_turn.
Local Abbreviation sample_system_run :=
  (run (@system_step sample_kube sample_gvk sample_patches sample_clientlib SamplePool sample_pool unit unit Store
      sample_log sample_ctx sample_ids 1 [] [@go_mock unit sample_patches sample_multierr (λ _, None)]) sample_interleaving
    (new_system sample_copy_client (sample_ctx, tt) (sample_ctx, sample_store))).
Definition side_left {U} (s : Side SamplePool U) :=
  (concat (producers s), replies s, held s, sp_running (outPool s), sp_running (inPool s)).
Definition link_left (l : Link SamplePool (Ctx * unit) (Ctx * Store)) :=
  (side_left (client_end l), side_left (server_end l), upstream l, downstream l).
Definition cluster_left (s : @Pipeline sample_kube (list SyncEvent)) :=
  (watched s, size (seen (queue s)), match evicting s with None => true | _ => false end,
   match loop s with AtRange => true | _ => false end).
Lemma sample_system_end : ∃ s, sample_system_run = Some s ∧ (client (cluster_side s)).2 = sample_told ∧
  @all_handled sample_kube _ sample_log (cluster_side s) ∧ @link_idle SamplePool sample_pool _ _ (connection s).
Proof.
  assert ((λ s, ((client (cluster_side s)).2, cluster_left (cluster_side s), link_left (connection s))) <$> sample_system_run =
    Some (sample_told, (3%nat, 0%nat, true, true), (([], [], None, None, None), ([], [], None, None, None), [], [])))
    as (s & Hs & Hleft)%fmap_Some by (vm_compute; reflexivity).
  exists s. split; [exact Hs|]. injection Hleft as H0 Hw Hsize Hev Hl H1 H2 H3 H4 H5 H6 H7 H8 H9 H10 H11 H12. clear Hs.
  split; [done|]. split; [|unfold link_idle, side_idle; auto 12]. split_and!.
  - by symmetry.
  - by apply map_size_empty_inv.
  - by destruct (evicting (cluster_side s)).
  - by destruct (loop (cluster_side s)).
Qed.

