(* ===== verification/Reconnect.v ===== *)
(** * Reconnect: the connection of a client, [core/synchronizer.go].

    The worker of [outPool] ([sendData]) and the loop of [listenForSyncEvents] share the
    variable [s.Conn].  Both close what it holds when they fail, and [sendData] alone
    replaces it.  Synchronizer has each as one function; here every access to the variable
    and to a connection is a step of its own, so that the two interleave, with a network that
    breaks connections, loses what is on its way and refuses new ones as it likes. *)

From Stdlib Require Import Sorted.
From S2P Require Export Synchronizer Runs.

(** Where [sendData] is with a message: at its first write, before [s.Conn.Close()], at
    [s.newConn()], before [s.Conn = &conn], at the write that follows. *)
Inductive SenderAt : Type :=
| SenderIdle
| Writing (data : string)
| ClosingFailed (data : string)
| Dialing (data : string)
| Replacing (data : string) (conn : nat)
| WritingAgain (data : string).
(** Where the reading loop is: before it looks at [s.Conn], in [readDataFunc] on a
    connection, before [s.Conn.Close()]. *)
Inductive ReaderAt : Type :=
| AtLoop
| ReadingFrom (conn : nat)
| ReadFailed.

(** What went over the connections, which are numbered as they are made: a write gives a
    message to the buffers of a connection, and the server gets the messages of each in their
    order.  The network may lose the rest of a connection that is closed or broken. *)
Record Traffic : Type := mkTraffic {
  written : list (nat * string);
  arrived : list (nat * string);
  lost : list nat
}.
Definition on_conn (c : nat) (l : list (nat * string)) : list string := (filter (λ p, p.1 = c) l).*2.
Arguments on_conn : simpl never.
Definition wrote (c : nat) (data : string) (t : Traffic) : Traffic :=
  mkTraffic (written t ++ [(c, data)]) (arrived t) (lost t).
Definition loses (c : nat) (t : Traffic) : Traffic := mkTraffic (written t) (arrived t) (c :: lost t).
(** The next message of a connection arrives. *)
Definition arrives (c : nat) (t : Traffic) : option Traffic :=
  if bool_decide (c ∈ lost t) then None
  else match on_conn c (written t) !! length (on_conn c (arrived t)) with
       | Some data => Some (mkTraffic (written t) (arrived t ++ [(c, data)]) (lost t))
       | None => None
       end.

(** [conns] says which connections are open.  [pending] are the messages that [outPool] will
    take.  The last two count the open connections that the network broke and the reading loop
    closed. *)
Record ConnState : Type := mkConnState {
  current : nat;
  conns : list bool;
  sender : SenderAt;
  reader : ReaderAt;
  pending : list string;
  traffic : Traffic;
  broken_by_network : nat;
  closed_by_reader : nat
}.
Inductive ConnEvent : Type :=
| TakeMessage
| SenderWrites
| SenderCloses
| DialSucceeds
| DialFails
| SenderReplaces
| ReaderLooks
| ReaderReads
| ReaderFails
| ReaderCloses
| NetworkBreaks (conn : nat)
| NetworkLoses (conn : nat)
| Arrives (conn : nat).

Section Updates.
Variable s : ConnState.
Definition set_sender (p : SenderAt) : ConnState :=
  mkConnState (current s) (conns s) p (reader s) (pending s) (traffic s) (broken_by_network s) (closed_by_reader s).
Definition set_reader (r : ReaderAt) : ConnState :=
  mkConnState (current s) (conns s) (sender s) r (pending s) (traffic s) (broken_by_network s) (closed_by_reader s).
Definition set_traffic (t : Traffic) : ConnState :=
  mkConnState (current s) (conns s) (sender s) (reader s) (pending s) t (broken_by_network s) (closed_by_reader s).
Definition is_open (c : nat) : bool := default false (conns s !! c).
(** A write on a connection that is open succeeds, which says nothing of the arrival of the
    message; on a closed or broken one it fails. *)
Definition write_step (data : string) (failed : SenderAt) : ConnState :=
  if is_open (current s) then
    mkConnState (current s) (conns s) SenderIdle (reader s) (pending s) (wrote (current s) data (traffic s))
      (broken_by_network s) (closed_by_reader s)
  else set_sender failed.
Definition close_conn (c : nat) : list bool := <[c := false]> (conns s).
End Updates.

(** [sendData]: the second write that fails is retried, as a connection refused is. *)
Definition sender_step (e : ConnEvent) (s : ConnState) : option ConnState :=
  match e, sender s with
  | TakeMessage, SenderIdle =>
      match pending s with
      | data :: rest => Some (mkConnState (current s) (conns s) (Writing data) (reader s) rest (traffic s)
                                (broken_by_network s) (closed_by_reader s))
      | [] => None
      end
  | SenderWrites, Writing data => Some (write_step s data (ClosingFailed data))
  | SenderCloses, ClosingFailed data =>
      Some (mkConnState (current s) (close_conn s (current s)) (Dialing data) (reader s) (pending s) (traffic s)
              (broken_by_network s) (closed_by_reader s))
  | DialSucceeds, Dialing data =>
      Some (mkConnState (current s) (conns s ++ [true]) (Replacing data (length (conns s))) (reader s) (pending s)
              (traffic s) (broken_by_network s) (closed_by_reader s))
  | DialFails, Dialing data => Some (set_sender s (Writing data))
  | SenderReplaces, Replacing data c =>
      Some (mkConnState c (conns s) (WritingAgain data) (reader s) (pending s) (traffic s) (broken_by_network s)
              (closed_by_reader s))
  | SenderWrites, WritingAgain data => Some (write_step s data (Writing data))
  | _, _ => None
  end.
(** The reading loop; messages it reads go to [inPool], which is left out. *)
Definition reader_loop_step (e : ConnEvent) (s : ConnState) : option ConnState :=
  match e, reader s with
  | ReaderLooks, AtLoop => Some (set_reader s (ReadingFrom (current s)))
  | ReaderReads, ReadingFrom c => if is_open s c then Some (set_reader s AtLoop) else None
  | ReaderFails, ReadingFrom c => if is_open s c then None else Some (set_reader s ReadFailed)
  | ReaderCloses, ReadFailed =>
      Some (mkConnState (current s) (close_conn s (current s)) (sender s) AtLoop (pending s) (traffic s)
              (broken_by_network s) (closed_by_reader s + if is_open s (current s) then 1 else 0))
  | _, _ => None
  end.
Definition conn_step (e : ConnEvent) (s : ConnState) : option ConnState :=
  match e with
  | NetworkBreaks c =>
      if is_open s c then
        Some (mkConnState (current s) (close_conn s c) (sender s) (reader s) (pending s) (traffic s)
                (S (broken_by_network s)) (closed_by_reader s))
      else None
  | NetworkLoses c =>
      if bool_decide (conns s !! c = Some false) then Some (set_traffic s (loses c (traffic s))) else None
  | Arrives c => set_traffic s <$> arrives c (traffic s)
  | ReaderLooks | ReaderReads | ReaderFails | ReaderCloses => reader_loop_step e s
  | _ => sender_step e s
  end.
Definition new_conn_state (messages : list string) : ConnState :=
  mkConnState 0 [true] SenderIdle AtLoop messages (mkTraffic [] [] []) 0 0.

(** ** What holds in every run *)

(** The message that [sendData] has, and the connection it has not yet put in [s.Conn]. *)
Definition in_hand (p : SenderAt) : list string :=
  match p with
  | SenderIdle => []
  | Writing d | ClosingFailed d | Dialing d | Replacing d _ | WritingAgain d => [d]
  end.
Definition open_conns (s : ConnState) : nat := length (filter (λ b : bool, b = true) (conns s)).

(** The connections are used one after the other, nothing arrives that was not written, and
    only what is closed can be lost. *)
Record traffic_ok (s : ConnState) : Prop := {
  tr_current : Forall (λ p, (p.1 ≤ current s)%nat) (written (traffic s));
  tr_order : Sorted le (written (traffic s)).*1;
  tr_arrived : ∀ c, on_conn c (arrived (traffic s)) `prefix_of` on_conn c (written (traffic s));
  tr_lost : ∀ c, c ∈ lost (traffic s) → conns s !! c = Some false
}.
Record conn_ok (messages : list string) (s : ConnState) : Prop := {
  co_messages : (written (traffic s)).*2 ++ in_hand (sender s) ++ pending s = messages;
  co_current : (current s < length (conns s))%nat;
  co_traffic : traffic_ok s;
  co_open : ∀ c, conns s !! c = Some true →
    match sender s with Replacing _ c' => c = c' | _ => c = current s end;
  co_dialing : ∀ d, sender s = Dialing d → conns s !! current s = Some false;
  co_replacing : ∀ d c, sender s = Replacing d c → (current s < c < length (conns s))%nat;
  co_closing : ∀ d, sender s = ClosingFailed d → conns s !! current s = Some false;
  co_causes : length (conns s) = (open_conns s + broken_by_network s + closed_by_reader s)%nat
}.

Lemma close_conn_lookup s c c' :
  close_conn s c !! c' = Some true ↔ c' ≠ c ∧ conns s !! c' = Some true.
Proof.
  unfold close_conn. destruct (decide (c' = c)) as [->|Hne].
  - destruct (conns s !! c) eqn:Hc.
    + rewrite list_lookup_insert_eq by (by eapply lookup_lt_Some). naive_solver.
    + rewrite list_insert_ge by (by apply lookup_ge_None). rewrite Hc. naive_solver.
  - rewrite list_lookup_insert_ne by done. naive_solver.
Qed.
Lemma close_conn_closed s c : (c < length (conns s))%nat → close_conn s c !! c = Some false.
Proof. intros. by apply list_lookup_insert_eq. Qed.
Lemma close_conn_stays s c c' : conns s !! c' = Some false → close_conn s c !! c' = Some false.
Proof.
  intros Hc. destruct (decide (c' = c)) as [->|Hne]; [apply close_conn_closed; by eapply lookup_lt_Some|].
  unfold close_conn. by rewrite list_lookup_insert_ne.
Qed.
(** Closing an open connection leaves one open connection less. *)
Lemma close_conn_open s c :
  (length (filter (λ b : bool, b = true) (close_conn s c)) + (if is_open s c then 1 else 0) = open_conns s)%nat.
Proof.
  unfold close_conn, is_open, open_conns. destruct (conns s !! c) as [b|] eqn:Hc; cbn.
  - pose proof (lookup_lt_Some _ _ _ Hc) as Hlt. rewrite insert_take_drop by done.
    rewrite <- (take_drop_middle (conns s) c b Hc) at 3. rewrite !filter_app, !length_app.
    rewrite (filter_cons_False _ false) by done. destruct b.
    + rewrite filter_cons_True by done. cbn. lia.
    + rewrite filter_cons_False by done. lia.
  - rewrite list_insert_ge by (by apply lookup_ge_None). lia.
Qed.
Lemma is_open_true s c : is_open s c = true → conns s !! c = Some true.
Proof. unfold is_open. destruct (conns s !! c) as [[]|]; done. Qed.
Lemma is_open_false s c : is_open s c = false → (c < length (conns s))%nat → conns s !! c = Some false.
Proof. unfold is_open. intros Ho [b Hb]%lookup_lt_is_Some. rewrite Hb in *. cbn in Ho. by subst. Qed.

Lemma on_conn_snoc c p l : on_conn c (l ++ [p]) = on_conn c l ++ (if decide (p.1 = c) then [p.2] else []).
Proof. unfold on_conn. rewrite filter_app, fmap_app. f_equal. rewrite filter_cons. by destruct (decide _). Qed.
Lemma Sorted_le_snoc (l : list nat) n : Sorted le l → Forall (λ m, (m ≤ n)%nat) l → Sorted le (l ++ [n]).
Proof.
  induction l as [|m l IH]; intros Hs Hn; [by repeat constructor|]. cbn.
  apply Sorted_inv in Hs as [Hs Hhd]. apply Forall_cons in Hn as [Hm Hn]. constructor; [auto|].
  destruct Hhd; by constructor.
Qed.
Lemma traffic_stays s s' :
  traffic s' = traffic s → (current s ≤ current s')%nat → (∀ c, conns s !! c = Some false → conns s' !! c = Some false) →
  traffic_ok s → traffic_ok s'.
Proof.
  intros Ht Hc Hf [H1 H2 H3 H4]. constructor; rewrite Ht; try done.
  - eapply Forall_impl; [exact H1|]. intros p Hp. cbn in *. lia.
  - intros c Hin. by apply Hf, H4.
Qed.
Lemma traffic_wrote s s' d :
  traffic s' = wrote (current s) d (traffic s) → current s' = current s → conns s' = conns s →
  traffic_ok s → traffic_ok s'.
Proof.
  intros Ht Hc Hf [H1 H2 H3 H4]. constructor; rewrite ?Ht, ?Hc, ?Hf; cbn; try done.
  - apply Forall_app. by repeat constructor.
  - rewrite fmap_app. apply Sorted_le_snoc; [done|]. by apply Forall_fmap.
  - intros c. rewrite on_conn_snoc. by apply prefix_app_r.
Qed.
Lemma traffic_arrives s c t : arrives c (traffic s) = Some t → traffic_ok s → traffic_ok (set_traffic s t).
Proof.
  unfold arrives. intros Ha [H1 H2 H3 H4]. destruct (bool_decide _); [done|].
  destruct (on_conn c _ !! _) as [d|] eqn:Hd; [|done]. injection Ha as <-. constructor; cbn; try done.
  intros c'. rewrite on_conn_snoc. cbn. destruct (decide (c = c')) as [<-|]; [|by rewrite (right_id_L [] (++))].
  destruct (H3 c) as [k Hk]. rewrite Hk in Hd. rewrite lookup_app_r, Nat.sub_diag in Hd by done.
  destruct k as [|d' k]; [done|]. injection Hd as ->. exists k. by rewrite Hk, <- (assoc_L (++)).
Qed.
Lemma traffic_loses s c :
  conns s !! c = Some false → traffic_ok s → traffic_ok (set_traffic s (loses c (traffic s))).
Proof.
  intros Hc [H1 H2 H3 H4]. constructor; cbn; try done. intros c' [->|Hin]%elem_of_cons; [done|by apply H4].
Qed.

Ltac stays := by (eapply traffic_stays; [| | |eassumption]; cbn; auto using close_conn_stays).

Section Invariant.
Context (messages : list string).
Local Abbreviation ok := (conn_ok messages).

Lemma new_conn_ok : ok (new_conn_state messages).
Proof.
  constructor; cbn; try done; [lia| |by intros [|[|c]]].
  constructor; cbn; [constructor..|done|]. intros c Hin. by apply not_elem_of_nil in Hin.
Qed.
Lemma write_step_ok s d failed :
  ok s → sender s = Writing d ∧ failed = ClosingFailed d ∨ sender s = WritingAgain d ∧ failed = Writing d →
  ok (write_step s d failed).
Proof.
  intros [Hm Hc Hs Ho Hd Hr Hcl Hk] Hcase. unfold write_step. destruct (is_open s (current s)) eqn:Hop.
  - constructor; cbn; try done.
    + rewrite fmap_app. cbn. destruct Hcase as [[Hp _]|[Hp _]]; rewrite Hp in Hm; cbn in Hm;
        by rewrite <- (assoc_L (++)).
    + by apply (traffic_wrote s _ d).
    + intros c Hc'. specialize (Ho c Hc'). by destruct Hcase as [[Hp _]|[Hp _]]; rewrite Hp in Ho.
  - pose proof (is_open_false _ _ Hop Hc) as Hcur.
    destruct Hcase as [[Hp ->]|[Hp ->]]; constructor; cbn; try done; try stays; rewrite Hp in *; try done; by intros.
Qed.
Lemma sender_step_ok e s s' : sender_step e s = Some s' → ok s → ok s'.
Proof.
  intros Hstep Hok. destruct e; cbn in Hstep; destruct (sender s) as [|d|d|d|d c|d] eqn:Hp; try done.
  - destruct Hok as [Hm Hc Hs Ho Hd Hr Hcl Hk]. rewrite Hp in *. destruct (pending s) as [|d rest] eqn:Hq; [done|].
    injection Hstep as <-. constructor; cbn; try done; stays.
  - injection Hstep as <-. apply write_step_ok; auto.
  - injection Hstep as <-. apply write_step_ok; auto.
  - destruct Hok as [Hm Hc Hs Ho Hd Hr Hcl Hk]. rewrite Hp in *. injection Hstep as <-.
    pose proof (close_conn_open s (current s)) as Hopen. unfold is_open in Hopen. rewrite (Hcl _ eq_refl) in Hopen. cbn in Hopen.
    constructor; cbn; try done; try stays; unfold close_conn; rewrite ?length_insert; try done.
    + intros c [_ Hc']%close_conn_lookup. by apply Ho.
    + intros _ _. by apply close_conn_closed.
    + unfold open_conns. cbn. unfold close_conn in Hopen. lia.
  - destruct Hok as [Hm Hc Hs Ho Hd Hr Hcl Hk]. rewrite Hp in *. injection Hstep as <-.
    constructor; cbn; rewrite ?length_app; cbn; try done; try lia.
    + apply (traffic_stays s); [done..| |exact Hs]. cbn. intros c Hf.
      by rewrite lookup_app_l by (by eapply lookup_lt_Some).
    + intros c. destruct (decide (c < length (conns s))%nat).
      * rewrite lookup_app_l by done. intros Hc'. specialize (Ho c Hc'). rewrite Ho, (Hd _ eq_refl) in Hc'. done.
      * intros Hc'. apply lookup_lt_Some in Hc'. rewrite length_app in Hc'. cbn in Hc'. lia.
    + intros d0 c [= <- <-]. lia.
    + unfold open_conns in *. cbn. rewrite filter_app, length_app, filter_cons_True by done. cbn. lia.
  - destruct Hok as [Hm Hc Hs Ho Hd Hr Hcl Hk]. rewrite Hp in *. injection Hstep as <-. constructor; cbn; try done; stays.
  - destruct Hok as [Hm Hc Hs Ho Hd Hr Hcl Hk]. rewrite Hp in *. injection Hstep as <-.
    specialize (Hr _ _ eq_refl). constructor; cbn; try done; [lia|].
    apply (traffic_stays s); [done| |done|exact Hs]. cbn. lia.
Qed.
Lemma conn_step_ok e s s' : conn_step e s = Some s' → ok s → ok s'.
Proof.
  intros Hstep Hok.
  assert (∀ r, ok (set_reader s r)) as Hreader by (intros r; destruct Hok; constructor; cbn; try done; stays).
  assert (∀ t, written t = written (traffic s) → traffic_ok (set_traffic s t) → ok (set_traffic s t)) as Htraffic
    by (intros t Hw Ht; destruct Hok; constructor; cbn; rewrite ?Hw; done).
  assert (∀ c n k r, (n + k = broken_by_network s + closed_by_reader s + if is_open s c then 1 else 0)%nat →
    ok (mkConnState (current s) (close_conn s c) (sender s) r (pending s) (traffic s) n k) ) as Hclose.
  { intros c n k r Hn. pose proof (close_conn_open s c) as Hopen. destruct Hok as [Hm Hc Hs Ho Hd Hr Hcl Hk].
    constructor; cbn; unfold open_conns; cbn; rewrite ?(length_insert (conns s)); try done; eauto using close_conn_stays.
    - unfold close_conn. by rewrite length_insert.
    - stays.
    - intros c' [_ Hc']%close_conn_lookup. by apply Ho.
    - intros d c' Hp. unfold close_conn. rewrite length_insert. by eapply Hr.
    - unfold close_conn in *. rewrite length_insert. lia. }
  destruct e; cbn [conn_step] in Hstep; try (by eapply sender_step_ok); cbn in Hstep.
  - destruct (reader s); try done. by injection Hstep as <-.
  - destruct (reader s); try done. destruct (is_open s conn); [|done]. by injection Hstep as <-.
  - destruct (reader s); try done. destruct (is_open s conn); [done|]. by injection Hstep as <-.
  - destruct (reader s); try done. injection Hstep as <-. apply Hclose. lia.
  - destruct (is_open s conn) eqn:Hc; [|done]. injection Hstep as <-. apply Hclose. rewrite Hc. lia.
  - destruct (bool_decide _) eqn:Hc; [|done]. injection Hstep as <-. apply bool_decide_eq_true in Hc.
    apply Htraffic; [done|]. by apply traffic_loses; [|destruct Hok].
  - apply fmap_Some in Hstep as (t & Ht & ->). apply Htraffic; [|eapply traffic_arrives; [exact Ht|by destruct Hok]].
    unfold arrives in Ht. by repeat case_match; simplify_eq.
Qed.
End Invariant.

(** ** The sender alone

    Without interference the steps of [sendData] are [send_attempt] of Synchronizer, over a
    network that answers the next dials as [dials] says. *)
Record DialNet : Type := mkDialNet { dials : list bool; net_conns : list bool; net_sent : list (nat * string) }.
Definition dn_write (c : nat) (data : string) : M DialNet unit := λ n,
  if default false (net_conns n !! c)
  then (Ret tt, mkDialNet (dials n) (net_conns n) (net_sent n ++ [(c, data)]))
  else (Throw (Errorf "use of closed network connection"), n).
Definition dn_Close (c : nat) : M DialNet unit :=
  modifyW (λ n, mkDialNet (dials n) (<[c := false]> (net_conns n)) (net_sent n)).
Definition dn_newConn : M DialNet nat := λ n,
  match dials n with
  | true :: ds => (Ret (length (net_conns n)), mkDialNet ds (net_conns n ++ [true]) (net_sent n))
  | ds => (Throw (Errorf "connection refused"), mkDialNet (tail ds) (net_conns n) (net_sent n))
  end.

Definition by_sender (e : ConnEvent) : Prop :=
  match e with
  | SenderWrites | SenderCloses | DialSucceeds | DialFails | SenderReplaces => True
  | _ => False
  end.
Definition net_of (ds : list bool) (s : ConnState) : DialNet := mkDialNet ds (conns s) (written (traffic s)).

Lemma write_step_open s d failed :
  is_open s (current s) = true →
  write_step s d failed = mkConnState (current s) (conns s) SenderIdle (reader s) (pending s)
    (wrote (current s) d (traffic s)) (broken_by_network s) (closed_by_reader s).
Proof. intros Ho. unfold write_step. by rewrite Ho. Qed.
Lemma write_step_closed s d failed : is_open s (current s) = false → write_step s d failed = set_sender s failed.
Proof. intros Ho. unfold write_step. by rewrite Ho. Qed.

(** The steps from the dial to the message. *)
Lemma dial_and_write s d :
  sender s = Dialing d →
  run conn_step [DialSucceeds; SenderReplaces; SenderWrites] s =
    Some (mkConnState (length (conns s)) (conns s ++ [true]) SenderIdle (reader s) (pending s)
            (wrote (length (conns s)) d (traffic s)) (broken_by_network s) (closed_by_reader s)).
Proof.
  intros Hp. cbn. rewrite Hp. cbn. rewrite write_step_open; [done|].
  unfold is_open. cbn. by rewrite lookup_app_r, Nat.sub_diag.
Qed.
(** And from the first write on a connection that is closed. *)
Lemma write_close s d :
  sender s = Writing d → is_open s (current s) = false →
  run conn_step [SenderWrites; SenderCloses] s =
    Some (mkConnState (current s) (close_conn s (current s)) (Dialing d) (reader s) (pending s) (traffic s)
            (broken_by_network s) (closed_by_reader s)).
Proof. intros Hp Ho. cbn. rewrite Hp. cbn. by rewrite write_step_closed. Qed.

(** ** Properties *)

(** Alone, the sender does what [send_attempt] does: it is done when that returns, and back
    at its first write when that fails. *)
Theorem sender_alone s d ds :
  sender s = Writing d →
  ∃ es s' o ds', Forall by_sender es ∧ run conn_step es s = Some s' ∧
    send_attempt dn_write dn_Close dn_newConn true d (current s, net_of ds s) = (o, (current s', net_of ds' s')) ∧
    match o with
    | Ret _ => sender s' = SenderIdle
    | Throw _ => sender s' = Writing d
    | Panic _ => False
    end.
Proof.
  intros Hp. unfold send_attempt, s_Conn, set_Conn. go_compute. unfold dn_write, net_of. cbn.
  destruct (is_open s (current s)) eqn:Ho.
  - exists [SenderWrites]. eexists _, _, ds. split; [by repeat constructor|]. split.
    + cbn. rewrite Hp. cbn. by rewrite write_step_open.
    + unfold is_open in Ho. rewrite Ho. done.
  - pose proof (write_close s d Hp Ho) as Hwc. unfold is_open in Ho. rewrite Ho. cbn.
    unfold dn_newConn. cbn. destruct ds as [|[] ds]; cbn.
    + exists [SenderWrites; SenderCloses; DialFails]. eexists _, _, []. split; [by repeat constructor|].
      change [SenderWrites; SenderCloses; DialFails] with ([SenderWrites; SenderCloses] ++ [DialFails]).
      rewrite run_app, Hwc. cbn. done.
    + exists ([SenderWrites; SenderCloses] ++ [DialSucceeds; SenderReplaces; SenderWrites]). eexists _, _, ds.
      split; [by repeat constructor|]. split; [by rewrite run_app, Hwc; apply dial_and_write|].
      cbn. unfold close_conn. by rewrite lookup_app_r, Nat.sub_diag.
    + exists [SenderWrites; SenderCloses; DialFails]. eexists _, _, ds. split; [by repeat constructor|].
      change [SenderWrites; SenderCloses; DialFails] with ([SenderWrites; SenderCloses] ++ [DialFails]).
      rewrite run_app, Hwc. cbn. done.
Qed.

Lemma none_open (l : list bool) : (∀ c, l !! c ≠ Some true) → filter (λ b : bool, b = true) l = [].
Proof.
  induction l as [|b l IH]; intros Hl; [done|]. rewrite filter_cons_False by (intros ->; by apply (Hl 0%nat)).
  apply IH. intros c. apply (Hl (S c)).
Qed.
Lemma at_most_one (l : list bool) k :
  (∀ c, l !! c = Some true → c = k) → (length (filter (λ b : bool, b = true) l) ≤ 1)%nat.
Proof.
  revert k. induction l as [|b l IH]; intros k Hk; [cbn; lia|]. destruct b.
  - rewrite filter_cons_True by done. rewrite none_open; [done|].
    intros c Hc. pose proof (Hk 0%nat eq_refl) as H0. pose proof (Hk (S c) Hc). lia.
  - rewrite filter_cons_False by done. apply (IH (pred k)). intros c Hc. specialize (Hk (S c) Hc). lia.
Qed.

(** What a lost connection has not carried to the server stays behind. *)
Lemma lost_step e s s' c :
  traffic_ok s → conn_step e s = Some s' → c ∈ lost (traffic s) →
  c ∈ lost (traffic s') ∧ on_conn c (written (traffic s')) = on_conn c (written (traffic s)) ∧
  on_conn c (arrived (traffic s')) = on_conn c (arrived (traffic s)).
Proof.
  intros Hok Hstep Hl.
  assert (∀ d failed, c ∈ lost (traffic (write_step s d failed)) ∧
    on_conn c (written (traffic (write_step s d failed))) = on_conn c (written (traffic s)) ∧
    on_conn c (arrived (traffic (write_step s d failed))) = on_conn c (arrived (traffic s))) as Hwrite.
  { intros d failed. unfold write_step. destruct (is_open s (current s)) eqn:Ho; [|done]. cbn. rewrite on_conn_snoc.
    split_and!; [done| |done]. cbn. rewrite decide_False, (right_id_L [] (++)); [done|]. intros <-.
    apply is_open_true in Ho. by rewrite (tr_lost s Hok _ Hl) in Ho. }
  destruct e as [| | | | | | | | | |c'|c'|c']; cbn in Hstep;
    try (destruct (sender s); try done; destruct (pending s); try done; injection Hstep as <-; done || apply Hwrite);
    try (destruct (reader s); try done; try (destruct (is_open _ _); try done); injection Hstep as <-; by split_and!).
  - destruct (bool_decide _); [|done]. injection Hstep as <-. cbn. split_and!; [by right|done..].
  - apply fmap_Some in Hstep as (t & Ht & ->). unfold arrives in Ht.
    destruct (bool_decide _) eqn:Hc; [done|]. apply bool_decide_eq_false in Hc.
    destruct (on_conn c' _ !! _) as [d|]; [|done]. injection Ht as <-. cbn. rewrite on_conn_snoc. cbn.
    rewrite decide_False, (right_id_L [] (++)); [done|congruence].
Qed.
Lemma conn_reachable_ok messages s : reachable conn_step (new_conn_state messages) s → conn_ok messages s.
Proof.
  intros Hr. eapply (reachable_invariant conn_step (conn_ok messages));
    [intros ? ? ? ? ?; by eapply conn_step_ok|apply new_conn_ok|done].
Qed.

Lemma lost_reachable messages s s' c :
  conn_ok messages s → c ∈ lost (traffic s) → reachable conn_step s s' →
  on_conn c (written (traffic s')) = on_conn c (written (traffic s)) ∧
  on_conn c (arrived (traffic s')) = on_conn c (arrived (traffic s)).
Proof.
  intros Hok Hl Hr.
  assert (conn_ok messages s' ∧ c ∈ lost (traffic s') ∧
    on_conn c (written (traffic s')) = on_conn c (written (traffic s)) ∧
    on_conn c (arrived (traffic s')) = on_conn c (arrived (traffic s))) as (_ & _ & ? & ?); [|done].
  eapply (reachable_invariant conn_step (λ s', conn_ok messages s' ∧ c ∈ lost (traffic s') ∧
    on_conn c (written (traffic s')) = on_conn c (written (traffic s)) ∧
    on_conn c (arrived (traffic s')) = on_conn c (arrived (traffic s)))); [|by split_and!|exact Hr].
  intros e s1 s2 (Hok1 & Hl1 & Hw1 & Ha1) Hstep. pose proof Hok1 as [_ _ Ht1 _ _ _ _ _].
  destruct (lost_step e s1 s2 c Ht1 Hstep Hl1) as (? & ? & ?). split_and!; [by eapply conn_step_ok|done|congruence..].
Qed.

(** C15. Over every interleaving of sender, reading loop and network: each message is written
    exactly once, in order, on connections that follow one another; the server gets from each
    connection a prefix of what was written there, in order and nothing twice; what has not
    arrived can still arrive, except on a connection that ended and whose rest the network
    lost: that is never sent again.  There is never more than one open connection, so none is
    left behind, and every connection after the first has a cause, a break or a close by the
    reading loop. *)
Theorem reconnection_safe messages s :
  reachable conn_step (new_conn_state messages) s →
  (written (traffic s)).*2 ++ in_hand (sender s) ++ pending s = messages ∧
  Sorted le (written (traffic s)).*1 ∧
  (∀ c, on_conn c (arrived (traffic s)) `prefix_of` on_conn c (written (traffic s))) ∧
  (∀ c, on_conn c (arrived (traffic s)) = on_conn c (written (traffic s)) ∨
     (∃ s', conn_step (Arrives c) s = Some s') ∨
     conns s !! c = Some false ∧ ∀ s', reachable conn_step s s' →
       on_conn c (written (traffic s')) = on_conn c (written (traffic s)) ∧
       on_conn c (arrived (traffic s')) = on_conn c (arrived (traffic s))) ∧
  (open_conns s ≤ 1)%nat ∧
  (length (conns s) ≤ 1 + broken_by_network s + closed_by_reader s)%nat.
Proof.
  intros Hr. pose proof (conn_reachable_ok _ _ Hr) as Hok. pose proof Hok as [Hm _ Ht Ho _ _ _ Hk].
  assert (open_conns s ≤ 1)%nat as Hone.
  { unfold open_conns. destruct (sender s); by eapply at_most_one. }
  split_and!; [done|apply Ht|apply Ht| |done|lia].
  intros c. destruct (tr_arrived s Ht c) as [rest Hrest]. destruct rest as [|d rest]; [left; by rewrite (right_id_L [] (++)) in Hrest|].
  right. destruct (decide (c ∈ lost (traffic s))) as [Hl|Hl].
  - right. split; [by apply Ht|]. intros s' Hr'.
    by eapply lost_reachable.
  - left. unfold conn_step, arrives. rewrite bool_decide_eq_false_2 by done.
    rewrite Hrest, lookup_app_r, Nat.sub_diag by done. cbn. by eexists.
Qed.

(** A break, a refused dial, and a reading loop that closes while the sender dials. *)
Definition sample_outage : list ConnEvent :=
  [TakeMessage; NetworkBreaks 0; SenderWrites; ReaderLooks; SenderCloses; DialFails; SenderWrites; ReaderFails;
   SenderCloses; DialSucceeds; ReaderCloses; SenderReplaces; SenderWrites; ReaderLooks; Arrives 1].
Lemma reconnection_safe_witness :
  ∃ s, run conn_step sample_outage (new_conn_state ["a"; "b"]) = Some s ∧
    traffic s = mkTraffic [(1%nat, "a")] [(1%nat, "a")] [] ∧ pending s = ["b"] ∧ (open_conns s ≤ 1)%nat ∧
    (length (conns s) ≤ 1 + broken_by_network s + closed_by_reader s)%nat.
Proof.
  eexists. split; [vm_compute; reflexivity|]. split; [reflexivity|]. split; [reflexivity|].
  apply (reconnection_safe ["a"; "b"]). exists sample_outage. vm_compute. reflexivity.
Defined.

(** [sendData] takes a write that succeeds for a delivery: of two messages that are written
    around a break the first can be lost, and nothing sends it again. *)
Theorem written_can_be_lost a b :
  ∃ s, run conn_step [TakeMessage; SenderWrites; NetworkBreaks 0; NetworkLoses 0; TakeMessage; SenderWrites; SenderCloses;
                      DialSucceeds; SenderReplaces; SenderWrites; Arrives 1] (new_conn_state [a; b]) = Some s ∧
    sender s = SenderIdle ∧ pending s = [] ∧ arrived (traffic s) = [(1%nat, b)] ∧
    ∀ s', reachable conn_step s s' → on_conn 0 (arrived (traffic s')) = [].
Proof.
  set (s := mkConnState 1 [false; true] SenderIdle AtLoop [] (mkTraffic [(0%nat, a); (1%nat, b)] [(1%nat, b)] [0%nat]) 1 0).
  exists s. match goal with |- ?run ∧ _ => assert run as Hrun by (vm_compute; reflexivity) end.
  split; [exact Hrun|]. do 3 (split; [reflexivity|]). intros s' Hr'.
  destruct (lost_reachable [a; b] s s' 0) as [_ ->]; [|by left|done|done].
  apply conn_reachable_ok. eexists. exact Hrun.
Qed.

(** Without a message a client without a connection stays so. *)
Lemma idle_step e t t' :
  sender t = SenderIdle → pending t = [] → is_open t (current t) = false → conn_step e t = Some t' →
  (sender t' = SenderIdle ∧ pending t' = [] ∧ is_open t' (current t') = false) ∧ written (traffic t') = written (traffic t).
Proof.
  intros Htp Htq Hto Hstep.
  assert (∀ c, default false (close_conn t c !! current t) = false) as Hclose.
  { intros c. unfold is_open in Hto. destruct (close_conn t c !! current t) as [[]|] eqn:Hc; [|done..].
    apply close_conn_lookup in Hc as [_ Hc]. by rewrite Hc in Hto. }
  destruct e; cbn in Hstep; rewrite ?Htp, ?Htq in Hstep; try done;
    try (apply fmap_Some in Hstep as (tr & Htr & ->); unfold arrives in Htr);
    repeat case_match; try done; simplify_eq; unfold is_open; cbn; done.
Qed.
(** A step of the sender alone, while the dials succeed. *)
Definition sender_event (e : ConnEvent) : Prop := e = TakeMessage ∨ by_sender e ∧ e ≠ DialFails.
(** Where only one such step is possible, every run goes there first. *)
Lemma forced e0 es0 s s1 es s' :
  conn_step e0 s = Some s1 → (∀ e s2, sender_event e → conn_step e s = Some s2 → e = e0) →
  (∀ es', Forall sender_event es' → run conn_step es' s1 = Some s' → es' `prefix_of` es0) →
  Forall sender_event es → run conn_step es s = Some s' → es `prefix_of` e0 :: es0.
Proof.
  intros H0 Honly Hrest Hes Hrun. destruct es as [|e es]; [apply prefix_nil|].
  apply Forall_cons in Hes as [He Hes]. cbn [run] in Hrun. apply bind_Some in Hrun as (s2 & Hstep & Hrun).
  pose proof (Honly e s2 He Hstep) as ->. rewrite H0 in Hstep. injection Hstep as <-. by apply prefix_cons, Hrest.
Qed.
(** The only step of the sender where it is: the shape of its state decides. *)
Ltac only_step :=
  let e := fresh in let He := fresh in let Hstep := fresh in
  intros e ? He Hstep; destruct e; destruct He as [?|[? ?]]; try done; cbn in Hstep; try done.
Definition recovery : list ConnEvent := [TakeMessage; SenderWrites; SenderCloses; DialSucceeds; SenderReplaces; SenderWrites].
Lemma recovery_only cur l r p t n k es s' :
  default false (l !! cur) = false → (cur < length l)%nat → Forall sender_event es →
  run conn_step es (mkConnState cur l SenderIdle r [p] t n k) = Some s' → es `prefix_of` recovery.
Proof.
  intros Ho Hcur. set (closed := <[cur := false]> l).
  assert (∀ (q : SenderAt) failed, write_step (mkConnState cur l q r [] t n k) p failed = mkConnState cur l failed r [] t n k) as Hw1.
  { intros q failed. unfold write_step, is_open. cbn. by rewrite Ho. }
  assert (∀ (q : SenderAt) failed, write_step (mkConnState (length closed) (closed ++ [true]) q r [] t n k) p failed =
    mkConnState (length closed) (closed ++ [true]) SenderIdle r [] (wrote (length closed) p t) n k) as Hw2.
  { intros q failed. unfold write_step, is_open. cbn. by rewrite lookup_app_r, Nat.sub_diag. }
  eapply forced; [reflexivity|only_step|]. intros es1. eapply forced; [cbn; rewrite Hw1; reflexivity|only_step|].
  intros es2. eapply forced; [reflexivity|only_step|]. intros es3. eapply forced; [reflexivity|only_step|].
  intros es4. eapply forced; [reflexivity|only_step|]. intros es5. unfold close_conn. cbn [conns current]. fold closed.
  eapply forced; [cbn; rewrite Hw2; reflexivity|only_step|]. intros es6 Hes Hrun. destruct es6 as [|e es6]; [apply prefix_nil|].
  exfalso. cbn [run] in Hrun. apply bind_Some in Hrun as (s2 & Hstep & _). apply Forall_cons in Hes as [He _].
  revert e s2 He Hstep. only_step.
Qed.

Lemma recovery_run cur l r p t n k :
  default false (l !! cur) = false →
  ∃ s', run conn_step recovery (mkConnState cur l SenderIdle r [p] t n k) = Some s' ∧
    traffic s' = wrote (current s') p t ∧ is_open s' (current s') = true.
Proof.
  intros Ho. set (s1 := mkConnState cur l (Writing p) r [] t n k).
  change recovery with (TakeMessage :: ([SenderWrites; SenderCloses] ++ [DialSucceeds; SenderReplaces; SenderWrites])).
  rewrite (run_cons _ _ _ _ s1) by done. rewrite run_app, (write_close s1 p) by done.
  cbn [mbind option_bind]. rewrite (dial_and_write _ p) by done. eexists. split; [done|]. split; [done|].
  unfold is_open. cbn. by rewrite lookup_app_r, Nat.sub_diag.
Qed.

(** C18. Only a message brings a connection back: while there is none, a client whose connection
    is down stays without, whatever its goroutines and the network do.  With one more message
    the sender alone restores it, with no choice of its own: as long as no dial fails its steps
    are those of one run of six, after which there is an open connection with the message on
    it.  [sendPing] gives such a message to the pool at every turn of its loop, which goes on
    whatever the pool answers. *)
Theorem ping_restores {W} NewMsgId (Invoke : string → M W unit) messages s w msgId w1 :
  let down s := sender s = SenderIdle ∧ pending s = [] ∧ is_open s (current s) = false in
  let with_ping p := mkConnState (current s) (conns s) (sender s) (reader s) [p] (traffic s) (broken_by_network s) (closed_by_reader s) in
  reachable conn_step (new_conn_state messages) s → down s → NewMsgId w = (Ret msgId, w1) →
  (∀ s', reachable conn_step s s' → down s' ∧ written (traffic s') = written (traffic s)) ∧
  ∃ ping,
    (sendPing_turn NewMsgId Invoke w =
       match Invoke ping w1 with (Panic why, w2) => (Panic why, w2) | (_, w2) => (Ret tt, w2) end) ∧
    (∃ s', run conn_step recovery (with_ping ping) = Some s' ∧
       traffic s' = wrote (current s') ping (traffic s) ∧ is_open s' (current s') = true) ∧
    ∀ es s', Forall sender_event es →
      run conn_step es (with_ping ping) = Some s' → es `prefix_of` recovery.
Proof.
  intros down with_ping Hr Hdown HId. pose proof (conn_reachable_ok _ _ Hr) as [_ Hcur _ _ _ _ _ _]. split.
  - intros s' Hr'.
    eapply (reachable_invariant conn_step (λ t, down t ∧ written (traffic t) = written (traffic s))); [|by split|exact Hr'].
    intros e t t' [(Htp & Htq & Hto) Hts] Hstep. rewrite <- Hts. by eapply idle_step.
  - destruct Hdown as (Hp & Hq & Ho).
    exists (Marshal (mkGeneric 0 (Some EventPing) None msgId None)). split_and!.
    + unfold sendPing_turn. rewrite bind_run, HId. cbn beta iota. rewrite bind_run, attempt_run.
      by destruct (Invoke _ w1) as [[]].
    + unfold with_ping. rewrite Hp. by apply recovery_run.
    + intros es s' Hes. unfold with_ping. rewrite Hp. by apply recovery_only.
Qed.

(** The client after a break that its reading loop has noticed. *)
Definition broken_state : ConnState := mkConnState 0 [false] SenderIdle AtLoop [] (mkTraffic [] [] []) 1 0.
Lemma ping_restores_witness :
  ∃ ping s', run conn_step [TakeMessage; SenderWrites; SenderCloses; DialSucceeds; SenderReplaces; SenderWrites]
      (mkConnState 0 [false] SenderIdle AtLoop [ping] (mkTraffic [] [] []) 1 0) = Some s' ∧
    written (traffic s') = [(current s', ping)] ∧ is_open s' (current s') = true.
Proof.
  destruct (ping_restores (mret "m1" : M (list string) string) (λ data, modifyW (λ l : list string, l ++ [data])) [] broken_state [] "m1" [])
    as (_ & ping & _ & (s' & Hrun & Ht & Ho) & _);
    [exists [ReaderLooks; NetworkBreaks 0; ReaderFails; ReaderCloses]; reflexivity|done|done|].
  exists ping, s'. split; [exact Hrun|]. split; [by rewrite Ht|exact Ho].
Defined.

(** The reading loop closes what [s.Conn] holds when it closes, not what it read from: between
    its failed read and its close the sender can put a new connection there, which is then
    closed although it never failed. *)
Theorem fresh_connection_closed :
  ∃ s, run conn_step [ReaderLooks; NetworkBreaks 0; ReaderFails; TakeMessage; SenderWrites; SenderCloses;
                      DialSucceeds; SenderReplaces; SenderWrites] (new_conn_state ["m"]) = Some s ∧
    current s = 1%nat ∧ is_open s 1 = true ∧ reader s = ReadFailed ∧
    ∃ s', conn_step ReaderCloses s = Some s' ∧ current s' = 1%nat ∧ is_open s' 1 = false ∧ closed_by_reader s' = 1%nat.
Proof.
  eexists. split; [vm_compute; reflexivity|]. do 3 (split; [reflexivity|]).
  eexists. split; [vm_compute; reflexivity|]. by repeat split.
Qed.

Lemma sender_alone_witness :
  ∃ es s' ds', Forall by_sender es ∧ run conn_step es (mkConnState 0 [false] (Writing "m") AtLoop [] (mkTraffic [] [] []) 1 0) = Some s' ∧
    send_attempt dn_write dn_Close dn_newConn true "m" (0%nat, mkDialNet [true] [false] []) =
      (Ret tt, (current s', net_of ds' s')) ∧ sender s' = SenderIdle.
Proof.
  destruct (sender_alone (mkConnState 0 [false] (Writing "m") AtLoop [] (mkTraffic [] [] []) 1 0) "m" [true] eq_refl)
    as (es & s' & o & ds' & Hes & Hrun & Hsend & Ho).
  exists es, s', ds'. split; [exact Hes|]. split; [exact Hrun|].
  assert (o = Ret tt) as ->; [|by split].
  change (net_of [true] _) with (mkDialNet [true] [false] []) in Hsend. cbn in Hsend. by injection Hsend.
Defined.
