(* ===== verification/Periodic.v ===== *)
(** * Periodic: the tasks of the server that run from time to time,
    [adapters/backend/v1/adapter.go] and [skip_alerts.go].

    A task is a goroutine that waits for its ticker or for the end of the main context.  What
    it sees is a list of events: a tick, the end, or what the other goroutines of the server
    do meanwhile, each under [connMapMutex] as one change of the state. *)

From stdpp Require Import relations.
From S2P Require Export Ticker Connections.

Create HintDb keeps.

(** A [utils.Ticker] holds a [*StdTicker] or a [*CronTicker], and the latter can be nil. *)
Inductive TaskTicker (Schedule Location : Type) : Type :=
| StdTicker (d : Z)
| CronTicker (c : option (Schedule * Location)).
Arguments StdTicker {Schedule Location} _.
Arguments CronTicker {Schedule Location} _.

Inductive TaskEvent (Y : Type) : Type :=
| TickerFires
| Meanwhile (op : Y → Y)
| MainContextDone.
Arguments TickerFires {Y}.
Arguments Meanwhile {Y} _.
Arguments MainContextDone {Y}.
(** Where a task is after the events: it never started, it waits for more, it returned. *)
Inductive TaskEnd : Type := Disabled | StillWaiting | Returned.

Section Tickers.
Context {Y Location Schedule : Type}.
Variable LoadLocation : string → Location + gerror.
Variable Parse : string → Schedule + gerror.
Local Abbreviation T := (TaskTicker Schedule Location).

(** [time.NewTicker] panics for an interval that is not positive. *)
Definition NewStdTicker (d : Z) : M Y T :=
  if d <=? 0 then panic "non-positive interval for NewTicker" else mret (StdTicker d).
(** A nil [*CronTicker] in the interface is not the nil interface. *)
Definition choose_ticker (cfg : ReconciliationTaskConfig) : M Y T :=
  ticker ← (if negb (String.eqb (CronSchedule cfg) "") then
              r ← attempt (newCronTicker LoadLocation Parse (CronSchedule cfg));
              mret match r with inl c => Some (CronTicker (Some c)) | inr _ => Some (CronTicker None) end
            else mret None);
  match ticker with
  | None => NewStdTicker (Seconds (rt_TaskIntervalSeconds cfg))
  | Some ticker => mret ticker
  end.
(** [ticker.Chan()] reads a field of the ticker. *)
Definition Chan (t : T) : M Y unit :=
  match t with CronTicker None => panic "nil pointer dereference" | _ => mret tt end.

(** [for { select { case <-mainCtx.Done(): ... case <-ticker.Chan(): ... } }]. *)
Fixpoint periodic_loop (t : T) (tick : M Y unit) (events : list (TaskEvent Y)) : M Y TaskEnd :=
  Chan t ;;
  match events with
  | [] => mret StillWaiting
  | MainContextDone :: _ => mret Returned
  | Meanwhile op :: rest => modifyW op ;; periodic_loop t tick rest
  | TickerFires :: rest => tick ;; periodic_loop t tick rest
  end.

(** The same as a sequence: what happens before the end. *)
Fixpoint until_done (events : list (TaskEvent Y)) : list (TaskEvent Y) :=
  match events with
  | [] | MainContextDone :: _ => []
  | e :: rest => e :: until_done rest
  end.
Definition act (tick : M Y unit) (e : TaskEvent Y) : M Y unit :=
  match e with TickerFires => tick | Meanwhile op => modifyW op | MainContextDone => mret tt end.
Definition task_end (events : list (TaskEvent Y)) : TaskEnd :=
  if Nat.eqb (length (until_done events)) (length events) then StillWaiting else Returned.

Lemma periodic_loop_run t tick events y :
  t ≠ CronTicker None →
  periodic_loop t tick events y = (mfor (act tick) (until_done events) ;; mret (task_end events)) y.
Proof.
  intros Ht. assert (∀ y, Chan t y = (Ret tt, y)) as Hchan by (by destruct t as [|[|]]).
  revert y. induction events as [|e rest IH]; intros y; cbn [periodic_loop]; rewrite bind_run, Hchan; [done|].
  assert (task_end (e :: rest) = match e with MainContextDone => Returned | _ => task_end rest end) as Hend
    by (unfold task_end; by destruct e).
  destruct e as [|op|]; cbn [until_done mfor act]; rewrite ?Hend, ?bind_run; [| |done].
  - destruct (tick y) as [[[]|e|s] y']; [|done..]. by rewrite IH, bind_run.
  - unfold modifyW at 1 2. by rewrite IH, bind_run.
Qed.
Lemma newCronTicker_pure {W} schedule (w : W) : (newCronTicker LoadLocation Parse schedule w).2 = w.
Proof.
  unfold newCronTicker, guaranteeTimeZone, extractTZ.
  destruct (Index _ " ") as [e|]; [|done]. destruct (Index _ "=") as [i|].
  - destruct (_ <=? _)%nat; [|done]. rewrite !bind_run, ret_run. cbn beta iota.
    destruct (LoadLocation _) as [l|]; [|done]. rewrite ret_run. cbn beta iota. by destruct (Parse _).
  - rewrite !bind_run, ret_run. cbn beta iota.
    destruct (LoadLocation _) as [l|]; [|done]. rewrite ret_run. cbn beta iota. by destruct (Parse _).
Qed.
End Tickers.

(** ** The tasks of the adapter *)
Section Tasks.
Context `{MultiErr, Machine P} {W Location Schedule : Type}.
Local Abbreviation Y := (BackendAdapter W P * P)%type.
Variable LoadLocation : string → Location + gerror.
Variable Parse : string → Schedule + gerror.
Variable Range : gmap string ClientIdentifier → list (string * ClientIdentifier).
Variable RangeAccounts : gmap string cachedAccount → list (string * cachedAccount).
Variable Compare : string → string → Z.
Variable NewRequest : string → unit + gerror.
Variable Do : HttpRequest → HttpResponse + gerror.

Definition startReconciliationPeriodicTask (mainCtx : Ctx) (cfg : option ReconciliationTaskConfig)
    (events : list (TaskEvent Y)) : M Y TaskEnd :=
  match cfg with
  | Some c =>
      if reconciliation_enabled cfg then
        ticker ← choose_ticker LoadLocation Parse c;
        periodic_loop ticker (reconcile_tick Range Compare mainCtx c) events
      else mret Disabled
  | None => mret Disabled
  end.
Definition startKeepalivePeriodicTask (mainCtx : Ctx) (cfg : option KeepAliveTaskConfig)
    (events : list (TaskEvent Y)) : M Y TaskEnd :=
  match cfg with
  | Some c =>
      if keepalive_enabled cfg then
        ticker ← (NewStdTicker (Seconds (ka_TaskIntervalSeconds c)) : M Y (TaskTicker Schedule Location));
        periodic_loop ticker (keepalive_tick Range mainCtx) events
      else mret Disabled
  | None => mret Disabled
  end.
(** A turn of the refresh loop, on the provider of the adapter. *)
Definition refresh_features : M Y unit :=
  ba_modify (λ b, set_features (refresh_tick NewRequest Do RangeAccounts <$> ba_featuresProvider b) b).
Definition StartRefreshLoop (interval : Z) (events : list (TaskEvent Y)) : M Y TaskEnd :=
  ticker ← (NewStdTicker (refresh_interval interval) : M Y (TaskTicker Schedule Location));
  periodic_loop ticker refresh_features events.
End Tasks.

(** C29. The reconciliation task never starts when its settings disable it; otherwise it does
    exactly one tick for every firing of its ticker, between whatever else the server does,
    until the main context ends.  But a schedule that cron refuses does not make it fall back
    to the interval, as it is meant to: it makes the server panic. *)
Theorem reconciliation_task `{MultiErr, Machine P} {W Location Schedule : Type}
    (LoadLocation : string → Location + gerror) (Parse : string → Schedule + gerror)
    Range Compare mainCtx cfg events (y : BackendAdapter W P * P) :
  let start := startReconciliationPeriodicTask LoadLocation Parse Range Compare mainCtx (Some cfg) events in
  let tick := reconcile_tick Range Compare mainCtx cfg in
  let sequence := mfor (act tick) (until_done events) ;; mret (task_end events) in
  if negb (reconciliation_enabled (Some cfg)) then start y = (Ret Disabled, y)
  else if String.eqb (CronSchedule cfg) "" then
    start y = if 0 <? Seconds (rt_TaskIntervalSeconds cfg) then sequence y
              else (Panic "non-positive interval for NewTicker", y)
  else match (newCronTicker LoadLocation Parse (CronSchedule cfg) y).1 with
       | Ret _ => start y = sequence y
       | Throw _ => start y = (Panic "nil pointer dereference", y)
       | Panic s => start y = (Panic s, y)
       end.
Proof.
  intros start tick sequence. unfold start, startReconciliationPeriodicTask.
  destruct (reconciliation_enabled (Some cfg)); [|done]. cbn [negb].
  rewrite bind_run. unfold choose_ticker. destruct (String.eqb (CronSchedule cfg) "") eqn:Hcron; cbn [negb].
  - rewrite bind_run, ret_run. cbn beta iota. unfold NewStdTicker.
    rewrite <- Z.leb_antisym || rewrite Z.ltb_antisym. destruct (_ <=? 0); [done|].
    rewrite ret_run. by apply periodic_loop_run.
  - pose proof (newCronTicker_pure LoadLocation Parse (CronSchedule cfg) y) as Hpure.
    rewrite !bind_run, attempt_run.
    destruct (newCronTicker LoadLocation Parse (CronSchedule cfg) y) as [[c|e|s] y']; cbn [fst snd] in *; subst y';
      [| |done]; rewrite !ret_run; cbn beta iota; rewrite ?ret_run; cbn beta iota.
    + by apply periodic_loop_run.
    + by destruct events.
Qed.

(** ** The connections, whatever the adapter does *)
Section History.
Context `{MultiErr, Machine P} {W : Type}.
Local Abbreviation Y := (BackendAdapter W P * P)%type.
Variable env : string → option string.

(** Nothing that tells which client is served changes. *)
Definition same_connections (s s' : Y) : Prop :=
  clientsMap s.1 = clientsMap s'.1 ∧ connectionMap s.1 = connectionMap s'.1 ∧
  callbacksMap s.1 = callbacksMap s'.1 ∧ connectedClientsGauge s.1 = connectedClientsGauge s'.1.
#[local] Instance same_connections_preorder : PreOrder same_connections.
Proof.
  split; [by intros s; unfold same_connections; split_and!|]. intros s1 s2 s3 (H1 & H2 & H3 & H4) (G1 & G2 & G3 & G4).
  split_and!; congruence.
Qed.
Definition keeps {A} (m : M Y A) : Prop := ∀ s, same_connections s (m s).2.

Lemma keeps_ret {A} (a : A) : keeps (mret a).
Proof. intros s. reflexivity. Qed.
Lemma keeps_throw {A} e : keeps (throw (A := A) e).
Proof. intros s. reflexivity. Qed.
Lemma keeps_get : keeps (ba_get (W := W) (P := P)).
Proof. intros s. reflexivity. Qed.
Lemma keeps_liftR {A} (m : M P A) : keeps (liftR m).
Proof. intros [b q]. unfold liftR, same_connections. destruct (m q) as [[]]; by split_and!. Qed.
Lemma keeps_on_bclient {A} (m : M (option FeaturesProvider * P) A) : keeps (on_bclient m).
Proof. intros [b q]. unfold on_bclient. destruct (m _) as [o [p q']]. by split_and!. Qed.
Lemma keeps_attempt {A} (m : M Y A) : keeps m → keeps (attempt m).
Proof. intros Hm s. specialize (Hm s). rewrite attempt_run. by destruct (m s) as [[]]. Qed.
Lemma keeps_bind {A B} (m : M Y A) (f : A → M Y B) : keeps m → (∀ a, keeps (f a)) → keeps (m ≫= f).
Proof.
  intros Hm Hf s. specialize (Hm s). rewrite bind_run. destruct (m s) as [[a|e|p] s1]; [|done..].
  etrans; [exact Hm|]. apply Hf.
Qed.
Lemma keeps_mfold {S A} (f : S → A → M Y S) l : (∀ a x, keeps (f a x)) → ∀ a, keeps (mfold f a l).
Proof.
  intros Hf. induction l as [|x l IH]; intros a; [apply keeps_ret|]. by apply keeps_bind.
Qed.
Lemma keeps_features f : keeps (ba_modify (λ b, set_features (f (ba_featuresProvider b)) b)).
Proof. intros [b q]. unfold same_connections. by split_and!. Qed.
Hint Resolve keeps_ret keeps_throw keeps_get keeps_liftR keeps_on_bclient keeps_attempt keeps_features : keeps.
Ltac solve_keeps :=
  repeat match goal with
  | |- keeps (_ ≫= _) => apply keeps_bind; [|intros ?]
  | |- keeps (match ?x with _ => _ end) => destruct x
  | |- keeps (mfold _ _ _) => apply keeps_mfold; intros ? ?
  | |- keeps (attempt _) => apply keeps_attempt
  | |- keeps _ => solve [eauto with keeps]
  end.

(** What happens to the adapter besides [Start], [Stop] and [RegisterCallbacks]: a call for
    an object, a tick of a task, the end of a fetch of features. *)
Inductive adapter_call : M Y unit → Prop :=
| call_Delete ctx id : adapter_call (ba_DeleteObject ctx id)
| call_Get ctx id base : adapter_call (ba_GetObject ctx id base)
| call_Patch ctx id sum patch : adapter_call (ba_PatchObject ctx id sum patch)
| call_Put ctx id sum object : adapter_call (ba_PutObject ctx id sum object)
| call_Verify ctx id sum : adapter_call (ba_VerifyObject ctx id sum)
| call_Batch ctx kind bt items : adapter_call (ba_Batch ctx kind bt items)
| call_reconcile Range Compare ctx cfg : adapter_call (reconcile_tick Range Compare ctx cfg)
| call_keepalive Range ctx : adapter_call (keepalive_tick Range ctx)
| call_refresh RangeAccounts NewRequest Do : adapter_call (refresh_features RangeAccounts NewRequest Do)
| call_fetched NewRequest Do i :
    adapter_call (ba_modify (λ b, set_features (finish_refresh NewRequest Do i <$> ba_featuresProvider b) b)).
Lemma getClient_keeps ctx : keeps (getClient ctx).
Proof. unfold getClient, ClientIdentifierFromContext. solve_keeps. Qed.
Lemma adapter_call_keeps m : adapter_call m → keeps m.
Proof.
  intros []; try (apply keeps_bind; [apply getClient_keeps|eauto with keeps]).
  - unfold reconcile_tick. solve_keeps. unfold reconcile_client. solve_keeps.
  - unfold keepalive_tick. solve_keeps.
  - apply (keeps_features (fmap _)).
  - apply (keeps_features (fmap _)).
Qed.

Inductive server_step : Y → Y → Prop :=
| step_connection s s' : backend_step env s s' → server_step s s'
| step_call m s s' : adapter_call m → (m s).2 = s' → server_step s s'.

Lemma server_step_in_step s s' : server_step s s' → in_step s.1 → in_step s'.1.
Proof.
  intros [s1 s2 Hstep|m s1 s2 Hm <-] Hin; [by eapply backend_step_in_step|].
  destruct (adapter_call_keeps m Hm s1) as (H1 & H2 & _ & H4). by apply (in_step_eq s1.1).
Qed.
Lemma server_steps_in_step s s' : rtc server_step s s' → in_step s.1 → in_step s'.1.
Proof. induction 1; eauto using server_step_in_step. Qed.

(** C13. Over any history of a server's adapter, connections that register, start and stop,
    objects that go to the queue, ticks of the three tasks, ends of fetches, in any order,
    each client it holds has a recorded connection of its own name and conversely, and the
    gauge of connected clients is their number; only connections change who is served. *)
Theorem server_adapter_in_step (producer : MessageProducer P) (cfg : Backend) q s
    (Hreach : rtc server_step (NewBackendAdapter producer cfg, q) s) :
  in_step s.1 ∧ ∀ m, adapter_call m → same_connections s (m s).2.
Proof.
  split; [|intros m Hm; by apply adapter_call_keeps].
  apply (server_steps_in_step _ _ Hreach). unfold in_step. cbn. by split_and!.
Qed.
End History.

Lemma server_adapter_in_step_witness :
  let s := (@reconcile_tick _ later_machine (list string) map_to_list (λ _ _, 1) Background sample_task started_newer).2 in
  in_step s.1 ∧ connectedClientsGauge s.1 = 1 ∧ length s.2 = 1%nat.
Proof.
  intros s. split; [|split; vm_compute; reflexivity].
  apply (@server_adapter_in_step sample_multierr (list IncomingMessage) later_machine (list string) sample_env (link "now") sample_backend []).
  eapply rtc_l; [by eapply step_connection, (step_register _ (connected_ctx newer) newer noting_Callbacks)|].
  eapply rtc_l; [by eapply step_connection, (step_start _ (connected_ctx newer) newer)|].
  eapply rtc_l; [by eapply step_call; [apply (call_reconcile map_to_list (λ _ _, 1) Background sample_task)|]|].
  apply rtc_refl.
Defined.

(** What the task makes of the schedule when cron accepts only one. *)
Definition sample_cron (schedule : string) : unit + gerror :=
  if String.eqb schedule "TZ=UTC 0 * * * *" then inl tt else inr (Errorf "expected exactly 5 fields").
Example cron_task_runs_or_panics :
  let start cron := (@startReconciliationPeriodicTask _ later_machine (list string) unit unit (λ _, inl tt) sample_cron
    map_to_list (λ _ _, 1) Background (Some (mkReconciliationTaskConfig cron 60 1 true))
    [TickerFires; MainContextDone; TickerFires] started_newer) in
  (start "0 * * * *").1 = Ret Returned ∧ length (start "0 * * * *").2.2 = 1%nat ∧
  (start "hourly").1 = Panic "nil pointer dereference".
Proof. by vm_compute. Qed.
