(* ===== verification/Clocks.v ===== *)
(** * Clocks: the goroutines behind the ticks of a task, [utils/ticker.go].

    A ticker and the task that waits for it share a channel.  A [CronTicker] has a goroutine
    of its own, [cronRunner], which sleeps until the schedule says so, sends the tick on [C]
    and returns when it finds a message on [k]; both channels hold one value.  A [StdTicker]
    is a ticker of the runtime, which drops the ticks that nobody reads in time.  The task is
    the loop of Periodic.  Here all of them take single steps, in any order, in a time that
    passes. *)

From Stdlib Require Import Sorted.
From S2P Require Export Runs Periodic.

(** ** States *)
(** Where [cronRunner] is: in its [select], at [c <- tickTime], or gone. *)
Inductive RunnerAt : Type := Selecting | Sending (tickTime : Z) | RunnerGone.
(** A timer is set to fire no earlier than [armed]; [k] is the number of messages on the
    channel of that name.  A ticker of the runtime has a next time, and may be stopped. *)
Inductive Clock : Type :=
| CronClock (armed : Z) (k : nat) (runner : RunnerAt)
| StdClock (next : Z) (stopped : bool).
(** Where the task is: in its [select], at a tick, at [ticker.Stop()], gone; or its tick
    failed and it never comes back. *)
Inductive TaskAt : Type := AtSelect | AtTick | AtStop | TaskGone | TaskFailed (o : outcome TaskEnd).

(** [C] is what the channel of the ticks holds, [sent] and [taken] what went through it. *)
Record Ticked (Y : Type) : Type := mkTicked {
  now : Z;
  clock : Clock;
  C : list Z;
  task : TaskAt;
  mainDone : bool;
  sent : list Z;
  taken : list Z;
  world : Y
}.
Arguments mkTicked {Y} _ _ _ _ _ _ _ _.
Arguments now {Y} _.
Arguments clock {Y} _.
Arguments C {Y} _.
Arguments task {Y} _.
Arguments mainDone {Y} _.
Arguments sent {Y} _.
Arguments taken {Y} _.
Arguments world {Y} _.

Inductive ClockEvent (Y : Type) : Type :=
| Passes (d : Z)
| TimerFires (tickTime : Z)
| RunnerSends
| RunnerStops
| TakesTick
| DoesTick
| MainEnds
| SeesEnd
| StopsTicker
| Others (op : Y → Y).
Arguments Passes {Y} _.
Arguments TimerFires {Y} _.
Arguments RunnerSends {Y}.
Arguments RunnerStops {Y}.
Arguments TakesTick {Y}.
Arguments DoesTick {Y}.
Arguments MainEnds {Y}.
Arguments SeesEnd {Y}.
Arguments StopsTicker {Y}.
Arguments Others {Y} _.

Section Machine.
Context {Y : Type}.
(** [schedule.Next(t.In(loc))] of the schedule of a [CronTicker], the period of a
    [StdTicker], and what the task does at a tick. *)
Variable Next : Z → Z.
Variable period : Z.
Variable tick : M Y unit.
Implicit Types s : Ticked Y.

Definition with_clock c s : Ticked Y :=
  mkTicked (now s) c (C s) (task s) (mainDone s) (sent s) (taken s) (world s).
Definition with_task t s : Ticked Y :=
  mkTicked (now s) (clock s) (C s) t (mainDone s) (sent s) (taken s) (world s).
Definition with_world y s : Ticked Y :=
  mkTicked (now s) (clock s) (C s) (task s) (mainDone s) (sent s) (taken s) y.
(** A value on the channel of the ticks. *)
Definition put_tick t s : Ticked Y :=
  mkTicked (now s) (clock s) (C s ++ [t]) (task s) (mainDone s) (sent s ++ [t]) (taken s) (world s).

(** [time.Until(t)], [timer.Reset]: a timer for a time that is over fires at once. *)
Definition arm (t : Z) s : Z := Z.max t (now s).

(** What happens to the clock by itself. *)
Definition clock_step (e : ClockEvent Y) s : option (Ticked Y) :=
  match e, clock s with
  | TimerFires t, CronClock armed k Selecting =>
      if (armed <=? t) && (t <=? now s) then Some (with_clock (CronClock armed k (Sending t)) s) else None
  | TimerFires t, StdClock next false =>
      if (next <=? t) && (t <=? now s) then
        let s' := with_clock (StdClock (next + period * (1 + (now s - next) / period)) false) s in
        Some (match C s with [] => put_tick t s' | _ => s' end)
      else None
  | RunnerSends, CronClock _ k (Sending t) =>
      match C s with
      | [] => Some (with_clock (CronClock (arm (Next t) s) k Selecting) (put_tick t s))
      | _ => None
      end
  | RunnerStops, CronClock armed (S k) Selecting => Some (with_clock (CronClock armed k RunnerGone) s)
  | _, _ => None
  end.
(** [ticker.Stop()]: [c.k <- true] waits for room on [k]. *)
Definition Stop_ticker s : option (Ticked Y) :=
  match clock s with
  | CronClock armed k r => if (k <? 1)%nat then Some (with_clock (CronClock armed (S k) r) s) else None
  | StdClock next _ => Some (with_clock (StdClock next true) s)
  end.
(** And what the task does with it.  A tick is one step: the adapter computes its message
    under its lock and writes it after; what others write to the queue in between comes
    before it here. *)
Definition task_step (e : ClockEvent Y) s : option (Ticked Y) :=
  match e, task s with
  | TakesTick, AtSelect =>
      match C s with
      | t :: rest => Some (mkTicked (now s) (clock s) rest AtTick (mainDone s) (sent s) (taken s ++ [t]) (world s))
      | [] => None
      end
  | DoesTick, AtTick =>
      let '(o, y) := tick (world s) in
      Some (with_task (match o with
                       | Ret _ => AtSelect
                       | Throw err => TaskFailed (Throw err)
                       | Panic why => TaskFailed (Panic why)
                       end) (with_world y s))
  | SeesEnd, AtSelect => if mainDone s then Some (with_task AtStop s) else None
  | StopsTicker, AtStop => with_task TaskGone <$> Stop_ticker s
  | _, _ => None
  end.
Definition ticked_step (e : ClockEvent Y) s : option (Ticked Y) :=
  match e with
  | Passes d =>
      if 0 <? d then Some (mkTicked (now s + d) (clock s) (C s) (task s) (mainDone s) (sent s) (taken s) (world s))
      else None
  | TimerFires _ | RunnerSends | RunnerStops => clock_step e s
  | TakesTick | DoesTick | SeesEnd | StopsTicker => task_step e s
  | MainEnds => Some (mkTicked (now s) (clock s) (C s) (task s) true (sent s) (taken s) (world s))
  | Others op => Some (with_world (op (world s)) s)
  end.

(** [NewCronTicker] and [time.NewTicker] at a time, and the task that waits for them. *)
Definition cron_clock (start : Z) : Clock := CronClock (Z.max (Next start) start) 0 Selecting.
Definition std_clock (start : Z) : Clock := StdClock (start + period) false.
Definition task_starts (start : Z) (c : Clock) (y : Y) : Ticked Y := mkTicked start c [] AtSelect false [] [] y.
End Machine.

(** ** Ticks *)
Section Ordered.
Context {A : Type} (R : A → A → Prop).
Lemma Sorted_snoc l x y : Sorted R (l ++ [x]) → R x y → Sorted R ((l ++ [x]) ++ [y]).
Proof.
  induction l as [|a l IH]; cbn; intros Hs Hxy; [by repeat constructor|].
  apply Sorted_inv in Hs as [Hs Hhd]. constructor; [auto|].
  destruct l; cbn in *; inversion Hhd; by constructor.
Qed.
Lemma Sorted_raise l x y : (∀ a, R a x → R a y) → Sorted R (l ++ [x]) → Sorted R (l ++ [y]).
Proof.
  intros Hxy. induction l as [|a l IH]; cbn; intros Hs; [by repeat constructor|].
  apply Sorted_inv in Hs as [Hs Hhd]. constructor; [auto|].
  destruct l; cbn in *; inversion Hhd; constructor; auto.
Qed.
Lemma Sorted_init l k : Sorted R (l ++ k) → Sorted R l.
Proof.
  induction l as [|a l IH]; cbn; intros Hs; [constructor|].
  apply Sorted_inv in Hs as [Hs Hhd]. constructor; [auto|].
  destruct l; cbn in *; inversion Hhd; by constructor.
Qed.
End Ordered.

Section Ticks.
Context {Y : Type} (Next : Z → Z) (period : Z) (tick : M Y unit) (start : Z).
Implicit Types s : Ticked Y.
Local Abbreviation step := (ticked_step Next period tick).

(** When the next tick of a clock can be, and what it keeps between two ticks. *)
Definition next_tick (c : Clock) : list Z :=
  match c with
  | CronClock armed _ Selecting => [armed]
  | CronClock _ _ (Sending t) => [t]
  | CronClock _ _ RunnerGone => []
  | StdClock next _ => [next]
  end.
Definition no_sooner (c : Clock) (t t' : Z) : Prop :=
  match c with CronClock _ _ _ => Z.max (Next t) t ≤ t' | StdClock _ _ => t < t' end.
Definition same_kind (c c' : Clock) : Prop :=
  match c, c' with CronClock _ _ _, CronClock _ _ _ | StdClock _ _, StdClock _ _ => True | _, _ => False end.

Record clock_ok (c : Clock) s : Prop := {
  clk_kind : same_kind c (clock s);
  clk_flow : sent s = taken s ++ C s;
  clk_room : (length (C s) ≤ 1)%nat;
  clk_past : Forall (λ t, t ≤ now s) (sent s);
  clk_sending : ∀ armed k t, clock s = CronClock armed k (Sending t) → t ≤ now s;
  clk_order : Sorted (no_sooner c) (start :: sent s ++ next_tick (clock s));
  clk_count : ∀ next stopped, clock s = StdClock next stopped →
    start + period * (Z.of_nat (length (sent s)) + 1) ≤ next ≤ Z.max (start + period) (now s + period);
  clk_start : start ≤ now s
}.
Lemma task_step_clock e s s' :
  task_step tick e s = Some s' →
  now s' = now s ∧ sent s' = sent s ∧ taken s' ++ C s' = taken s ++ C s ∧
  (length (C s') ≤ length (C s))%nat ∧
  (clock s' = clock s ∨ Stop_ticker s = Some (with_clock (clock s') s)).
Proof.
  unfold task_step. intros Hstep. destruct e, (task s); try discriminate.
  - destruct (C s) eqn:HC; [done|]. injection Hstep as <-. cbn. rewrite <- (assoc_L (++)). split_and!; auto.
  - destruct (tick (world s)) as [o y]. injection Hstep as <-. cbn. split_and!; auto.
  - destruct (mainDone s); [|done]. injection Hstep as <-. cbn. split_and!; auto.
  - apply fmap_Some in Hstep as (s1 & Hstop & ->). pose proof Hstop as Hs1. revert Hs1. unfold Stop_ticker.
    destruct (clock s) as [a k r|n b]; [destruct (k <? 1)%nat; [|done]|]; intros [= <-]; cbn; split_and!; auto.
Qed.
Lemma stopped_clock c s s1 : clock_ok c s → Stop_ticker s = Some s1 →
  same_kind c (clock s1) ∧ next_tick (clock s1) = next_tick (clock s) ∧
  (∀ armed k t, clock s1 = CronClock armed k (Sending t) → t ≤ now s) ∧
  (∀ next stopped, clock s1 = StdClock next stopped → ∃ b, clock s = StdClock next b).
Proof.
  intros [Hk _ _ _ Hsend _ _ _]. unfold Stop_ticker.
  destruct (clock s) as [a k r|n b]; [destruct (k <? 1)%nat; [|done]|]; intros [= <-]; cbn; split_and!; eauto;
    try done; intros; simplify_eq; eauto.
Qed.

(** [time.NewTicker] panics for an interval that is not positive. *)
Definition valid (c : Clock) : Prop := match c with CronClock _ _ _ => True | StdClock _ _ => 0 < period end.

Lemma next_period next n : 0 < period → next ≤ n →
  n < next + period * (1 + (n - next) / period) ≤ n + period.
Proof.
  intros Hp Hn. pose proof (Z.div_mod (n - next) period). pose proof (Z.mod_pos_bound (n - next) period). nia.
Qed.
Lemma clock_step_ok c e s s' :
  valid c → clock_step Next period e s = Some s' → clock_ok c s → clock_ok c s'.
Proof.
  intros Hv Hstep [Hk Hflow Hroom Hpast Hsend Hord Hcnt Hst]. unfold clock_step in Hstep.
  destruct e as [|t| | | | | | | |], (clock s) as [armed k [|t'|]|next [|]] eqn:Hc; try discriminate;
    try (destruct k; discriminate).
  - destruct (_ && _) eqn:Ht; [|done]. apply andb_true_iff in Ht as [Ha Hn].
    apply Z.leb_le in Ha, Hn. injection Hstep as <-. cbn in Hord. destruct c as [a1 k1 r1|]; [|done].
    constructor; cbn; try done; [by intros; simplify_eq|].
    eapply (Sorted_raise _ (start :: sent s) armed t); [|exact Hord]. intros a. unfold no_sooner. lia.
  - destruct (_ && _) eqn:Ht; [|done]. apply andb_true_iff in Ht as [Ha Hn]. apply Z.leb_le in Ha, Hn.
    destruct c as [|n1 b1]; [done|]. cbn in Hord, Hv. specialize (Hcnt _ _ eq_refl).
    pose proof (next_period next (now s) Hv (Z.le_trans _ _ _ Ha Hn)) as [Hlt Hle].
    set (next' := next + _) in *.
    assert (next + period ≤ next') as Hstep1.
    { unfold next'. pose proof (Z.div_pos (now s - next) period). nia. }
    destruct (C s) as [|t0 rest] eqn:HC; injection Hstep as <-; constructor; cbn; try done; rewrite ?HC; try done.
    + by rewrite (assoc_L (++)), <- Hflow.
    + apply Forall_app. by split; [|constructor].
    + apply (Sorted_snoc _ (start :: sent s) t next'); [|cbn; lia].
      eapply (Sorted_raise _ (start :: sent s) next t); [|exact Hord]. cbn. lia.
    + intros n b [= <- <-]. rewrite length_app, Nat2Z.inj_add. cbn. lia.
    + eapply (Sorted_raise _ (start :: sent s) next next'); [|exact Hord]. cbn. lia.
    + intros n b [= <- <-]. lia.
  - destruct (C s) eqn:HC; [|done]. injection Hstep as <-. cbn in Hord. destruct c as [a1 k1 r1|]; [|done].
    constructor; cbn; try done; rewrite ?HC; try done.
    + by rewrite (assoc_L (++)), <- Hflow.
    + apply Forall_app. split; [done|]. constructor; [|done]. by eapply Hsend.
    + apply (Sorted_snoc _ (start :: sent s)); [done|]. unfold arm. cbn. specialize (Hsend _ _ _ eq_refl). lia.
  - destruct k; [done|]. injection Hstep as <-. destruct c as [a1 k1 r1|]; [|done].
    constructor; cbn; try done. rewrite (right_id_L [] (++)). exact (Sorted_init _ (start :: sent s) [armed] Hord).
Qed.
Lemma ticked_step_ok c e s s' : valid c → step e s = Some s' → clock_ok c s → clock_ok c s'.
Proof.
  intros Hv Hstep Hok.
  assert (task_step tick e s = Some s' → clock_ok c s') as Htask.
  { intros (Hn & Hs & Hf & Hr & Hc)%task_step_clock. pose proof Hok as [Hk Hflow Hroom Hpast Hsend Hord Hcnt Hst].
    destruct Hc as [Hc|Hstop].
    - constructor; rewrite ?Hc, ?Hn, ?Hs; [done|congruence|lia|done..].
    - destruct (stopped_clock c s _ Hok Hstop) as (Hk' & Hnext & Hsend' & Hstd). cbn in Hk', Hnext, Hsend', Hstd.
      constructor; rewrite ?Hn, ?Hs, ?Hnext; [done|congruence|lia|done..| |done].
      intros n b Hb. destruct (Hstd n b Hb) as [b' Hb']. by eapply Hcnt. }
  destruct e as [d|t| | | | | | | |op]; cbn [ticked_step] in Hstep; auto; try (by eapply clock_step_ok).
  - destruct (0 <? d) eqn:Hd; [|done]. apply Z.ltb_lt in Hd. injection Hstep as <-.
    destruct Hok as [Hk Hflow Hroom Hpast Hsend Hord Hcnt Hst]. constructor; cbn; try done; [| | |lia].
    + eapply Forall_impl; [exact Hpast|]. cbn. lia.
    + intros a k t Hc. specialize (Hsend a k t Hc). lia.
    + intros n b Hc. specialize (Hcnt n b Hc). lia.
  - injection Hstep as <-. by destruct Hok.
  - injection Hstep as <-. by destruct Hok.
Qed.
Lemma starts_ok c y :
  valid c → c = cron_clock Next start ∨ c = std_clock period start → clock_ok c (task_starts start c y).
Proof.
  intros Hv [->| ->]; constructor; cbn; try done; try lia.
  - repeat constructor. cbn. lia.
  - cbn in Hv. repeat constructor. cbn. lia.
  - intros n b [= <- <-]. cbn in Hv. lia.
Qed.
End Ticks.

(** C31. A task gets the ticks of its clock in the order they were sent, none twice and none
    lost on the way, and at most one waits for it.  Each tick of a schedule comes no earlier
    than the time the schedule gives after the one before it; in any time there are at most
    as many ticks of an interval as the interval fits into it, however late they are read. *)
Theorem ticks_on_time {Y} Next period (tick : M Y unit) start y :
  let step := ticked_step Next period tick in
  (∀ es s, run step es (task_starts start (cron_clock Next start) y) = Some s →
     sent s = taken s ++ C s ∧ (length (C s) ≤ 1)%nat ∧ Forall (λ t, t ≤ now s) (sent s) ∧
     Sorted (λ t t', Z.max (Next t) t ≤ t') (start :: sent s)) ∧
  (0 < period → ∀ es s, run step es (task_starts start (std_clock period start) y) = Some s →
     sent s = taken s ++ C s ∧ (length (C s) ≤ 1)%nat ∧ Forall (λ t, t ≤ now s) (sent s) ∧
     Sorted Z.lt (start :: sent s) ∧ Z.of_nat (length (sent s)) * period ≤ now s - start).
Proof.
  intros step.
  assert (∀ c es s, valid period c → c = cron_clock Next start ∨ c = std_clock period start →
    run step es (task_starts start c y) = Some s → clock_ok Next period start c s) as Hok.
  { intros c es s Hv Hc Hrun. eapply (reachable_invariant step (clock_ok Next period start c));
      [|by apply starts_ok|by exists es]. intros e s1 s2 Hs1 Hstep. by eapply ticked_step_ok. }
  split.
  - intros es s Hrun. destruct (Hok (cron_clock Next start) es s I (or_introl eq_refl) Hrun) as [_ Hflow Hroom Hpast _ Hord _ _].
    split_and!; [done..|]. by apply (Sorted_init _ (start :: sent s) _ Hord).
  - intros Hp es s Hrun. destruct (Hok (std_clock period start) es s Hp (or_intror eq_refl) Hrun)
      as [Hk Hflow Hroom Hpast _ Hord Hcnt Hst].
    split_and!; [done..|by apply (Sorted_init _ (start :: sent s) _ Hord)|].
    destruct (clock s) as [|next b]; [done|]. specialize (Hcnt next b eq_refl). nia.
Qed.

Lemma ticks_on_time_witness :
  let step := ticked_step (λ t, t + 60) 10 (mret tt : M nat unit) in
  let late := [Passes 25; TimerFires 10; Passes 10; TimerFires 30; TakesTick; DoesTick; Passes 5; TimerFires 40] in
  (λ s, (sent s, taken s, C s)) <$> run step late (task_starts 0 (std_clock 10 0) 0%nat) = Some ([10; 40], [10], [40]) ∧
  ∀ s, run step late (task_starts 0 (std_clock 10 0) 0%nat) = Some s → Z.of_nat (length (sent s)) * 10 ≤ now s - 0.
Proof.
  intros step late. split; [by vm_compute|]. intros s Hrun.
  exact (proj2 (proj2 (proj2 (proj2 (proj2 (ticks_on_time (λ t, t + 60) 10 (mret tt) 0 0%nat) eq_refl late s Hrun))))).
Defined.

(** ** The end of a ticker *)
(** A step that was taken, opened into its cases. *)
Ltac open_step :=
  repeat match goal with
  | H : Some _ = Some _ |- _ => injection H as <-
  | H : None = Some _ |- _ => discriminate
  | H : _ <$> _ = Some _ |- _ => apply fmap_Some in H as (? & ? & ->)
  | H : context [match ?x with _ => _ end] |- _ => destruct x eqn:?; try discriminate
  end.

(** The goroutine of a ticker has returned, or the runtime has stopped it. *)
Definition clock_gone {Y} (s : Ticked Y) : Prop :=
  match clock s with CronClock _ _ RunnerGone | StdClock _ true => True | _ => False end.
(** The goroutine waits for a reader that never comes. *)
Definition leaked {Y} (s : Ticked Y) : Prop :=
  match clock s with CronClock _ _ (Sending _) => task s = TaskGone ∧ C s ≠ [] | _ => False end.

Section Ending.
Context {Y : Type} (Next : Z → Z) (period : Z) (tick : M Y unit).
Implicit Types s : Ticked Y.
Local Abbreviation step := (ticked_step Next period tick).

(** Who holds the message on [k]. *)
Definition stop_ok s : Prop :=
  match clock s, task s with
  | CronClock _ k RunnerGone, TaskGone => k = 0%nat
  | CronClock _ k _, TaskGone => k = 1%nat
  | CronClock _ _ RunnerGone, _ => False
  | CronClock _ k _, _ => k = 0%nat
  | StdClock _ stopped, TaskGone => stopped = true
  | StdClock _ stopped, _ => stopped = false
  end.
Lemma ticked_step_stop e s s' : step e s = Some s' → stop_ok s → stop_ok s'.
Proof.
  destruct s as [n c l t m sn tk y]. unfold stop_ok. intros Hstep Hok.
  destruct e; cbn in Hstep, Hok; unfold Stop_ticker in Hstep; cbn in Hstep; open_step; cbn in *;
    repeat case_match; simplify_eq/=; try done; try lia.
Qed.
Lemma same_kind_step c e s s' : step e s = Some s' → same_kind c (clock s) → same_kind c (clock s').
Proof.
  destruct s as [n c0 l t m sn tk y]. intros Hstep Hk. cbn in Hk.
  destruct e; cbn in Hstep; unfold Stop_ticker in Hstep; cbn in Hstep; open_step; cbn in *; repeat case_match; simplify_eq/=; by destruct c.
Qed.
Lemma leaked_step e s s' : step e s = Some s' → leaked s → leaked s'.
Proof.
  destruct s as [n c l t m sn tk y]. unfold leaked. cbn. intros Hstep Hl.
  destruct c as [a k [|t'|]|]; try done. destruct Hl as [-> Hl].
  destruct e; cbn in Hstep; open_step; cbn in *; try done; by split.
Qed.
Lemma gone_step e s s' : step e s = Some s' → clock_gone s → clock_gone s' ∧ sent s' = sent s.
Proof.
  destruct s as [n c l t m sn tk y]. unfold clock_gone. intros Hstep Hg. cbn in Hg.
  destruct e; cbn in Hstep; unfold Stop_ticker in Hstep; cbn in Hstep; open_step; cbn in *;
    repeat case_match; simplify_eq/=; try done.
Qed.
Lemma leaked_not_gone s : leaked s → ¬ clock_gone s.
Proof. unfold leaked, clock_gone. intros Hl Hg. destruct (clock s) as [? ? []|? []]; done. Qed.

(** *** What a ticker does once its task is gone *)
Definition clock_events (es : list (ClockEvent Y)) : nat :=
  length (omap (λ e, match e with TimerFires _ | RunnerSends | RunnerStops => Some tt | _ => None end) es).
(** The steps and the ticks that are left to it. *)
Definition steps_to_end s : nat :=
  match clock s, C s with
  | CronClock _ _ Selecting, [] => 3
  | CronClock _ _ (Sending _), [] => 2
  | CronClock _ _ Selecting, _ => 1
  | _, _ => 0
  end.
Definition ticks_to_end s : nat :=
  match clock s, C s with CronClock _ _ Selecting, [] | CronClock _ _ (Sending _), [] => 1 | _, _ => 0 end.
Definition task_gone s : Prop := stop_ok s ∧ task s = TaskGone.
Lemma task_gone_step e s s' : step e s = Some s' → task_gone s →
  task_gone s' ∧ (steps_to_end s' + clock_events [e] ≤ steps_to_end s)%nat ∧
  (length (sent s') + ticks_to_end s' ≤ length (sent s) + ticks_to_end s)%nat.
Proof.
  intros Hstep [Hok Ht]. pose proof (ticked_step_stop e s s' Hstep Hok) as Hok'. unfold task_gone.
  revert Hstep Hok' Hok. destruct s as [n c l t m sn tk y]. cbn in Ht. subst t.
  unfold stop_ok, steps_to_end, ticks_to_end, clock_events. intros Hstep Hok' Hok. cbn in Hok.
  destruct e; cbn in Hstep; open_step; cbn in *; rewrite ?length_app; cbn; simplify_eq; repeat split; try done; try lia; destruct l; lia.
Qed.
Lemma task_gone_run es s s' : run step es s = Some s' → task_gone s →
  task_gone s' ∧ (steps_to_end s' + clock_events es ≤ steps_to_end s)%nat ∧
  (length (sent s') + ticks_to_end s' ≤ length (sent s) + ticks_to_end s)%nat.
Proof.
  revert s. induction es as [|e es IH]; intros s; cbn [run]; [intros [= <-] Hs; cbn; split_and!; [done|lia..]|].
  intros (s1 & Hstep & Hrun)%bind_Some Hs. destruct (task_gone_step e s s1 Hstep Hs) as (Hs1 & H1 & H2).
  destruct (IH s1 Hrun Hs1) as (Hs' & H3 & H4). split; [done|]. split; [|lia].
  assert (clock_events (e :: es) = clock_events [e] + clock_events es)%nat as ->; [|lia].
  unfold clock_events. by destruct e.
Qed.
(** It is over, or it waits for ever, or its goroutine can go on. *)
Lemma task_gone_goes_on s : task_gone s →
  clock_gone s ∨ leaked s ∨ is_Some (step RunnerStops s) ∨ is_Some (step RunnerSends s).
Proof.
  intros [Hok Ht]. unfold stop_ok, leaked, clock_gone in *. rewrite Ht in Hok.
  destruct (clock s) as [a k [|t|]|next stopped] eqn:Hc; subst.
  - right; right; left. cbn. rewrite Hc. by eexists.
  - destruct (C s) eqn:HC; [right; right; right|by right; left]. cbn. rewrite Hc, HC. by eexists.
  - by left.
  - by left.
Qed.
(** Either end can still come about. *)
Lemma task_gone_may_end s : task_gone s → ¬ leaked s → ∃ es s', run step es s = Some s' ∧ clock_gone s'.
Proof.
  intros [Hok Ht]. unfold stop_ok, leaked, clock_gone in *. rewrite Ht in Hok.
  destruct (clock s) as [a k [|t|]|next stopped] eqn:Hc; subst; intros Hl.
  - exists [RunnerStops]. eexists. cbn. by rewrite Hc.
  - destruct (C s) eqn:HC; [|by destruct Hl]. exists [RunnerSends; RunnerStops]. eexists. cbn. rewrite Hc, HC. cbn. by split.
  - exists [], s. by rewrite Hc.
  - exists [], s. by rewrite Hc.
Qed.
(** A timer that may fire, once enough time has passed. *)
Lemma timer_fires s a k : clock s = CronClock a k Selecting →
  ∃ es t s', run step es s = Some s' ∧ clock s' = CronClock a k (Sending t) ∧ C s' = C s ∧ task s' = task s.
Proof.
  intros Hc. set (d := Z.max 1 (a - now s)). exists [Passes d; TimerFires (now s + d)], (now s + d). eexists. cbn.
  rewrite (proj2 (Z.ltb_lt 0 d)) by lia. cbn. rewrite Hc, (proj2 (Z.leb_le a (now s + d))), Z.leb_refl by lia. by split_and!.
Qed.
Lemma selecting_may_leak s a k : clock s = CronClock a k Selecting → task s = TaskGone → C s ≠ [] →
  ∃ es s', run step es s = Some s' ∧ leaked s'.
Proof.
  intros Hc Ht HC. destruct (timer_fires s a k Hc) as (es & t & s' & Hrun & Hc' & HC' & Ht').
  exists es, s'. split; [done|]. unfold leaked. rewrite Hc', HC', Ht'. by split.
Qed.
Lemma sending_may_leak s a k t : clock s = CronClock a k (Sending t) → task s = TaskGone →
  ∃ es s', run step es s = Some s' ∧ leaked s'.
Proof.
  intros Hc Ht. destruct (C s) as [|t0 rest] eqn:HC.
  - destruct (selecting_may_leak (with_clock (CronClock (arm (Next t) s) k Selecting) (put_tick t s)) _ k eq_refl Ht) as (es & s' & Hrun & Hl).
    { cbn. by rewrite HC. }
    exists (RunnerSends :: es), s'. split; [|done]. cbn [run]. cbn. by rewrite Hc, HC.
  - exists [], s. split; [done|]. unfold leaked. rewrite Hc, HC. by split.
Qed.
Lemma task_gone_may_leak s : task_gone s → ¬ clock_gone s → ∃ es s', run step es s = Some s' ∧ leaked s'.
Proof.
  intros [Hok Ht]. unfold stop_ok, clock_gone in *. rewrite Ht in Hok.
  destruct (clock s) as [a k [|t|]|next stopped] eqn:Hc; subst; intros Hg; try done.
  - destruct (timer_fires s a 1 Hc) as (es & t & s1 & Hrun & Hc' & _ & Ht').
    destruct (sending_may_leak s1 a 1 t Hc' (eq_trans Ht' Ht)) as (es' & s' & Hrun' & Hl).
    exists (es ++ es'), s'. split; [|done]. by rewrite run_app, Hrun.
  - by eapply sending_may_leak.
Qed.
End Ending.

(** C30. The end of a ticker.  Its task never waits in [Stop].  A ticker of the runtime is
    stopped at once and a stopped one never ticks again.  Once its task is gone, the goroutine
    of a [CronTicker] takes at most three more steps and sends at most one more tick, in any
    run; before its next time has come, all it can do is to return.  It has returned, or it
    waits for ever to send a tick behind an unread one, or it can go on; and until either is
    the case both remain possible: the timer may fire before the message on [k] is read, and
    then the goroutine may be left for ever. *)
Theorem ticker_stops {Y} Next period (tick : M Y unit) start y :
  let step := ticked_step Next period tick in
  (∀ c s, c = cron_clock Next start ∨ c = std_clock period start → reachable step (task_starts start c y) s →
     (task s = AtStop → ∃ s', step StopsTicker s = Some s' ∧ task s' = TaskGone) ∧
     (task s = TaskGone →
        (c = std_clock period start → clock_gone s) ∧
        (∀ es s', run step es s = Some s' → (clock_events es ≤ 3)%nat ∧ (length (sent s') ≤ length (sent s) + 1)%nat) ∧
        (∀ armed k e s', clock s = CronClock armed k Selecting → now s < armed → (0 < clock_events [e])%nat →
           step e s = Some s' → clock_gone s') ∧
        (clock_gone s ∨ leaked s ∨ is_Some (step RunnerStops s) ∨ is_Some (step RunnerSends s)) ∧
        (¬ leaked s → ∃ es s', run step es s = Some s' ∧ clock_gone s') ∧
        (¬ clock_gone s → ∃ es s', run step es s = Some s' ∧ leaked s'))) ∧
  (∀ s s', clock_gone s → reachable step s s' → clock_gone s' ∧ sent s' = sent s) ∧
  (∀ s s', leaked s → reachable step s s' → leaked s' ∧ ¬ clock_gone s').
Proof.
  intros step. split_and!.
  - intros c s Hc Hreach. assert (stop_ok s) as Hok.
    { eapply (reachable_invariant step stop_ok); [| |exact Hreach]; [intros; by eapply ticked_step_stop|].
      by destruct Hc as [->| ->]. }
    assert (same_kind c (clock s)) as Hkind.
    { eapply (reachable_invariant step (λ s, same_kind c (clock s))); [| |exact Hreach]; [|by destruct Hc as [->| ->]].
      intros e s1 s2 Hk Hstep. by eapply same_kind_step. }
    split.
    + intros Ht. unfold stop_ok in Hok. rewrite Ht in Hok.
      unfold step, ticked_step, task_step. rewrite Ht. unfold Stop_ticker.
      destruct (clock s) as [a k [|t|]|next b]; cbn in Hok; simplify_eq; try done; by eexists.
    + intros Ht. assert (task_gone s) as Hg by by split. split_and!.
      * intros ->. unfold stop_ok, clock_gone in *. rewrite Ht in Hok. destruct (clock s); [done|by subst].
      * intros es s' Hrun. destruct (task_gone_run Next period tick es s s' Hrun Hg) as (_ & H1 & H2).
        assert (steps_to_end s ≤ 3 ∧ ticks_to_end s ≤ 1)%nat by (unfold steps_to_end, ticks_to_end; repeat case_match; lia).
        lia.
      * intros armed k e s' Hclock Hnow He Hstep. unfold step, ticked_step in Hstep.
        destruct e; cbn in He; try lia; unfold clock_step in Hstep; rewrite Hclock in Hstep; [|done|].
        -- destruct (armed <=? tickTime) eqn:H1; [|done]. destruct (tickTime <=? now s) eqn:H2; [|done].
           apply Z.leb_le in H1, H2. lia.
        -- destruct k; [done|]. by injection Hstep as <-.
      * by apply task_gone_goes_on.
      * by apply task_gone_may_end.
      * by apply task_gone_may_leak.
  - intros s s' Hg. apply (reachable_invariant step (λ s', clock_gone s' ∧ sent s' = sent s)); [|done].
    intros e s1 s2 [Hg1 <-] Hstep. by eapply gone_step.
  - intros s s' Hl Hreach. assert (leaked s') as Hl'; [|by split; [|apply leaked_not_gone]].
    eapply (reachable_invariant step leaked); [|exact Hl|exact Hreach]. intros e s1 s2 H1 H2. by eapply leaked_step.
Qed.

(** A task that ends while a tick is on its way. *)
Lemma ticker_stops_witness :
  let step := ticked_step (λ t, t + 60) 1 (mret tt : M nat unit) in
  let stopping := [Passes 60; TimerFires 60; MainEnds; SeesEnd; StopsTicker] in
  ∃ s, run step stopping (task_starts 0 (cron_clock (λ t, t + 60) 0) 0%nat) = Some s ∧ task s = TaskGone ∧
    (∃ es s', run step es s = Some s' ∧ clock_gone s') ∧ (∃ es s', run step es s = Some s' ∧ leaked s') ∧
    ∀ es s', run step es s = Some s' → (clock_events es ≤ 3)%nat.
Proof.
  intros step stopping. eexists. split; [reflexivity|]. split; [reflexivity|].
  destruct (ticker_stops (λ t, t + 60) 1 (mret tt) 0 0%nat) as [Hstops _].
  edestruct (Hstops (cron_clock (λ t, t + 60) 0)) as [_ Hgone]; [by left|by exists stopping|].
  destruct (Hgone eq_refl) as (_ & Hbound & _ & _ & Hend & Hleak). split; [|split].
  - apply Hend. intros [_ Hl]. by destruct Hl.
  - apply Hleak. intros [].
  - intros es s' Hrun. apply (Hbound es s' Hrun).
Defined.

(** A schedule that cron accepts and that never comes, such as the 30th of February, has no
    next time: [Next] then gives the zero time, which is over.  Its task ticks without a
    pause: any number of times before any time has passed. *)
Definition one_round {Y} (start : Z) : list (ClockEvent Y) := [TimerFires start; RunnerSends; TakesTick; DoesTick].
Lemma endless_schedule_spins {Y} Next period (tick : M Y unit) start y n :
  (∀ t, Next t ≤ start) → (∀ y, (tick y).1 = Ret tt) →
  ∃ s, run (ticked_step Next period tick) (concat (replicate n (one_round start)))
         (task_starts start (cron_clock Next start) y) = Some s ∧ length (taken s) = n ∧ now s = start.
Proof.
  intros Hnext Htick.
  assert (∀ n sn tk y, ∃ s, run (ticked_step Next period tick) (concat (replicate n (one_round start)))
    (mkTicked start (CronClock start 0 Selecting) [] AtSelect false sn tk y) = Some s ∧
    length (taken s) = (length tk + n)%nat ∧ now s = start) as Hrun.
  { clear n y. induction n as [|n IH]; intros sn tk y; [eexists; split_and!; [done|cbn; lia|done]|].
    cbn. rewrite Z.leb_refl. cbn. specialize (Htick y). destruct (tick y) as [o y']. cbn in Htick. subst o. cbn.
    unfold arm. cbn. rewrite Z.max_r by done.
    destruct (IH (sn ++ [start]) (tk ++ [start]) y') as (s & Hs & Hlen & Hnow).
    exists s. rewrite length_app in Hlen. cbn in Hlen. split_and!; [exact Hs|lia|done]. }
  destruct (Hrun n [] [] y) as (s & Hs & Hlen & Hnow). exists s. split_and!; [|exact Hlen|exact Hnow].
  unfold task_starts, cron_clock. by rewrite Z.max_r.
Qed.

(** ** The task, as its loop sees it *)
Section Refinement.
Context {Y Location Schedule : Type} (Next : Z → Z) (period : Z) (tick : M Y unit).
Implicit Types s : Ticked Y.
Local Abbreviation step := (ticked_step Next period tick).
Local Abbreviation T := (TaskTicker Schedule Location).

Definition task_event (e : ClockEvent Y) : option (TaskEvent Y) :=
  match e with
  | DoesTick => Some TickerFires
  | Others op => Some (Meanwhile op)
  | SeesEnd => Some MainContextDone
  | _ => None
  end.
Definition task_events (es : list (ClockEvent Y)) : list (TaskEvent Y) := omap task_event es.
(** What the loop of the task has come to. *)
Definition task_outcome s : outcome TaskEnd :=
  match task s with
  | AtSelect | AtTick => Ret StillWaiting
  | AtStop | TaskGone => Ret Returned
  | TaskFailed o => o
  end.
Definition in_loop s : bool := match task s with AtSelect | AtTick => true | _ => false end.

Lemma out_of_loop_step e s s' :
  step e s = Some s' → in_loop s = false → in_loop s' = false ∧ task_outcome s' = task_outcome s.
Proof.
  destruct s as [n c l t m sn tk y]. unfold in_loop, task_outcome. intros Hstep Hin. cbn in Hin.
  destruct e; cbn in Hstep; unfold Stop_ticker in Hstep; cbn in Hstep;
    open_step; cbn in *; repeat case_match; simplify_eq/=; done.
Qed.
(** An event that the loop does not see leaves it where it is. *)
Lemma unseen_step e s s' : step e s = Some s' → in_loop s = true → task_event e = None →
  in_loop s' = true ∧ world s' = world s.
Proof.
  destruct s as [n c l t m sn tk y]. unfold in_loop. intros Hstep Hin He. cbn in Hin.
  destruct e; cbn in Hstep, He; try discriminate;
    open_step; cbn in *; repeat case_match; simplify_eq/=; done.
Qed.
Lemma loop_follows (t : T) es s s' :
  t ≠ CronTicker None → in_loop s = true → run step es s = Some s' →
  (periodic_loop t tick (task_events es) (world s)).1 = task_outcome s' ∧
  (in_loop s' = true → (periodic_loop t tick (task_events es) (world s)).2 = world s').
Proof.
  intros Ht. assert (∀ y : Y, Chan t y = (Ret tt, y)) as Hchan by (by destruct t as [|[|]]).
  assert (∀ es s s', in_loop s = false → run step es s = Some s' →
    in_loop s' = false ∧ task_outcome s' = task_outcome s) as Hout.
  { intros es' s1 s2 H1 Hrun.
    apply (reachable_invariant step (λ s2, in_loop s2 = false ∧ task_outcome s2 = task_outcome s1) s1);
      [|done|by exists es']. intros e s3 s4 [H3 <-] Hstep. by eapply out_of_loop_step. }
  revert s. induction es as [|e es IH]; intros s Hin.
  - intros [= <-]. cbn [task_events omap list_omap periodic_loop]. rewrite bind_run, Hchan.
    unfold in_loop, task_outcome in *. by destruct (task s).
  - cbn [run]. intros (s1 & Hstep & Hrun)%bind_Some. unfold task_events. cbn [omap list_omap].
    destruct (task_event e) as [te|] eqn:He.
    2: { destruct (unseen_step e s s1 Hstep Hin He) as [Hin1 <-]. by apply IH. }
    cbn [periodic_loop]. rewrite bind_run, Hchan.
    destruct e; cbn in He; simplify_eq; cbn [ticked_step task_step] in Hstep.
    + destruct (task s) eqn:Htask; try discriminate. rewrite bind_run.
      destruct (tick (world s)) as [[[]|err|why] y]; injection Hstep as <-.
      * by apply (IH (with_task AtSelect (with_world y s)) eq_refl).
      * apply Hout in Hrun as [Hf ->]; [by rewrite Hf|done].
      * apply Hout in Hrun as [Hf ->]; [by rewrite Hf|done].
    + destruct (task s) eqn:Htask, (mainDone s); try discriminate. injection Hstep as <-.
      apply Hout in Hrun as [Hf ->]; [by rewrite Hf|done].
    + injection Hstep as <-. rewrite bind_run. unfold modifyW. by apply (IH (with_world (op (world s)) s)).
Qed.
(** Every tick that was taken is done once. *)
Definition firings (seen : list (TaskEvent Y)) : nat :=
  length (omap (λ e, match e with TickerFires => Some tt | _ => None end) seen).
Definition at_tick s : nat := match task s with AtTick => 1 | _ => 0 end.
Lemma taken_step e s s' : step e s = Some s' →
  (length (taken s') + at_tick s = length (taken s) + firings (task_events [e]) + at_tick s')%nat.
Proof.
  destruct s as [n c l t m sn tk y]. unfold at_tick. intros Hstep.
  destruct e; cbn in Hstep; unfold Stop_ticker in Hstep; cbn in Hstep;
    open_step; cbn in *; repeat case_match; simplify_eq/=; rewrite ?length_app; cbn; lia.
Qed.
Lemma taken_run es s s' : run step es s = Some s' →
  (length (taken s') + at_tick s = length (taken s) + firings (task_events es) + at_tick s')%nat.
Proof.
  revert s. induction es as [|e es IH]; intros s; cbn [run]; [intros [= <-]; cbn; lia|].
  intros (s1 & Hstep & Hrun)%bind_Some. pose proof (taken_step e s s1 Hstep) as H1. pose proof (IH s1 Hrun) as H2.
  assert (firings (task_events (e :: es)) = firings (task_events [e]) + firings (task_events es))%nat as ->; [|lia].
  unfold firings, task_events. by destruct e.
Qed.
End Refinement.

(** The clock of a ticker that was made at a time; [ScheduleNext] is [cron.Schedule.Next]. *)
Section Started.
Context {Location Schedule : Type} (ScheduleNext : Schedule → Location → Z → Z).
Definition ticker_Next (t : TaskTicker Schedule Location) : Z → Z :=
  match t with CronTicker (Some (schedule, loc)) => ScheduleNext schedule loc | _ => λ t, t end.
Definition ticker_period (t : TaskTicker Schedule Location) : Z := match t with StdTicker d => d | _ => 1 end.
Definition ticker_clock (start : Z) (t : TaskTicker Schedule Location) : Clock :=
  match t with
  | StdTicker d => std_clock d start
  | CronTicker _ => cron_clock (ticker_Next t) start
  end.
End Started.

(** The reconciliation task runs on its clock: whatever happens between its goroutine,
    the goroutine of its ticker and the rest of the server, in whatever time, the loop of the
    task is where the function of the events it saw says, with the same connections and the
    same queue; and it saw one firing for each tick it took, no earlier than its clock. *)
Theorem reconciliation_clocked `{MultiErr, Machine P} {W Location Schedule : Type}
    (LoadLocation : string → Location + gerror) (Parse : string → Schedule + gerror) ScheduleNext
    Range Compare mainCtx cfg ticker start es (y : BackendAdapter W P * P) s
    (step := ticked_step (ticker_Next ScheduleNext ticker) (ticker_period ticker)
               (reconcile_tick Range Compare mainCtx cfg))
    (seen := task_events es)
    (loop := startReconciliationPeriodicTask LoadLocation Parse Range Compare mainCtx (Some cfg) seen y) :
  reconciliation_enabled (Some cfg) = true →
  choose_ticker LoadLocation Parse cfg y = (Ret ticker, y) → ticker ≠ CronTicker None →
  run step es (task_starts start (ticker_clock ScheduleNext start ticker) y) = Some s →
  loop.1 = task_outcome s ∧ (in_loop s = true → loop.2 = world s) ∧
  (length (taken s) = firings seen + at_tick s)%nat.
Proof.
  intros Hen Hticker Hnil Hrun. assert (in_loop (task_starts start (ticker_clock ScheduleNext start ticker) y) = true) as Hin by done.
  destruct (loop_follows _ _ _ ticker es _ s Hnil Hin Hrun) as [Ho Hw].
  pose proof (taken_run _ _ _ es _ s Hrun) as Htaken. cbn in Htaken.
  unfold loop, startReconciliationPeriodicTask. rewrite Hen, bind_run, Hticker.
  split_and!; [exact Ho|exact Hw|unfold seen; lia].
Qed.

Lemma reconciliation_clocked_witness :
  let step := ticked_step (ticker_Next (λ _ _ t, t) (StdTicker (60 * second) : TaskTicker unit unit)) (60 * second)
                (@reconcile_tick _ later_machine (list string) map_to_list (λ _ _, 1) Background sample_task) in
  let es := [Passes (60 * second); TimerFires (60 * second); TakesTick; MainEnds; DoesTick; SeesEnd; StopsTicker] in
  ∃ s, run step es (task_starts 0 (std_clock (60 * second) 0) started_newer) = Some s ∧
  (@startReconciliationPeriodicTask _ later_machine (list string) unit unit (λ _, inl tt) sample_cron
     map_to_list (λ _ _, 1) Background (Some sample_task) (task_events es) started_newer).1 = Ret Returned ∧
  length (taken s) = 1%nat.
Proof.
  intros step es.
  destruct (run step es (task_starts 0 (std_clock (60 * second) 0) started_newer)) as [s|] eqn:Hrun.
  2: { exfalso. assert ((λ s, task s) <$> run step es (task_starts 0 (std_clock (60 * second) 0) started_newer)
         = Some TaskGone) as Hr by (vm_compute; reflexivity). by rewrite Hrun in Hr. }
  assert ((λ s, task s) <$> run step es (task_starts 0 (std_clock (60 * second) 0) started_newer) = Some TaskGone)
    as Htask by (vm_compute; reflexivity).
  rewrite Hrun in Htask. injection Htask as Htask.
  destruct (@reconciliation_clocked sample_multierr (list IncomingMessage) later_machine (list string) unit unit
    (λ _, inl tt) sample_cron (λ _ _ t, t) map_to_list (λ _ _, 1) Background sample_task (StdTicker (60 * second)) 0 es
    started_newer s eq_refl eq_refl) as (Ho & _ & Hn); [discriminate|exact Hrun|].
  exists s. split; [done|]. rewrite Ho, Hn. unfold task_outcome, at_tick. rewrite Htask. by split.
Defined.
