(* ===== verification/HttpEndpoint.v ===== *)
(** * HttpEndpoint: [adapters/httpendpoint/v1/adapter.go].

    An adapter that lets a process in the cluster push objects over HTTP: [ServeHTTP]
    checks a request against the configured resources and calls the core.  The server of
    [net/http] is the caller; it is a parameter only where the adapter starts and stops it. *)

From S2P Require Export K8s.

Abbreviation Paths := (gmap string (gmap string (gmap string (gmap string bool)))).

(** [BaseContext] of the server and the registered callbacks; [None] is the nil map. *)
Record HttpAdapter (W : Type) : Type := mkHttpAdapter {
  he_callbacks : Callbacks W;
  he_InCluster : InCluster;
  he_cfg : HTTPEndpoint;
  he_BaseContext : option Ctx;
  supportedPaths : option Paths;
  isStarted : bool
}.
Arguments mkHttpAdapter {W} _ _ _ _ _ _.
Arguments he_callbacks {W} _.
Arguments he_InCluster {W} _.
Arguments he_cfg {W} _.
Arguments he_BaseContext {W} _.
Arguments supportedPaths {W} _.
Arguments isStarted {W} _.

Definition NewHTTPEndpointAdapter {W} (cfg : InCluster) (http : HTTPEndpoint) : HttpAdapter W :=
  mkHttpAdapter nil_Callbacks cfg http None None false.

(** A request: its body is nil, or what reading it gives. *)
Record Request : Type := mkRequest {
  r_Method : string;
  r_Path : string;
  r_Context : Ctx;
  r_Body : option (string + gerror)
}.

(** The levels that are missing are created, the resource is set. *)
Definition add_path (strategy group version resource : string) (m : Paths) : Paths :=
  let groups := default ∅ (m !! strategy) in
  let versions := default ∅ (groups !! group) in
  let resources := default ∅ (versions !! version) in
  <[strategy := <[group := <[version := <[resource := true]> resources]> versions]> groups]> m.
Definition add_resource (m : Paths) (r : ConfigResource) : Paths :=
  add_path (ToLower (r_Strategy r)) (r_Group r) (r_Version r) (r_Resource r) m.
Definition build_paths (resources : list ConfigResource) : Paths := foldl add_resource ∅ resources.

Definition StatusOK : Z := 200.
Definition StatusAccepted : Z := 202.
Definition StatusBadRequest : Z := 400.
Definition StatusNotFound : Z := 404.
Definition StatusMethodNotAllowed : Z := 405.
Definition StatusInternalServerError : Z := 500.
Definition StatusServiceUnavailable : Z := 503.

(** [/apis/v1/<group>/<version>/<resource>], in lower case. *)
Definition parse_path (path : string) : option (string * string * string) :=
  match Split slash (ToLower path) with
  | [p0; p1; p2; p3; p4; p5] =>
      if negb (String.eqb p0 "") || negb (String.eqb p1 "apis") || negb (String.eqb p2 "v1")
         || String.eqb p3 "" || String.eqb p4 "" || String.eqb p5 ""
      then None else Some (p3, p4, p5)
  | _ => None
  end.
Definition strategy_of (method : string) : Strategy :=
  if String.eqb method "PUT" then PatchStrategy
  else if String.eqb method "POST" then CopyStrategy
  else ToLower method.
(** The first level of the configuration that does not know the path decides the status. *)
Definition path_status (m : Paths) (strategy group version resource : string) : option Z :=
  match m !! strategy with
  | None => Some StatusMethodNotAllowed
  | Some groups =>
      match groups !! group with
      | None => Some StatusNotFound
      | Some versions =>
          match versions !! version with
          | None => Some StatusNotFound
          | Some resources =>
              match resources !! resource with
              | None => Some StatusNotFound
              | Some _ => None
              end
          end
      end
  end.

Section HttpEndpoint.
Context `{KubeLib} {W : Type}.
Local Abbreviation Y := (HttpAdapter W * W)%type.
(** [helpers2.SyncChecksumMetadataKey]. *)
Variable SyncChecksumMetadataKey : string.
(** Opening the port and closing the server. *)
Variable Listen : string → M W unit.
Variable Shutdown : M W unit.

Definition he_get : M Y (HttpAdapter W) := s ← getW; mret s.1.
(** [if err := callback(); err != nil { 500 }], else what follows. *)
Definition status_of (m : M W unit) : M Y Z :=
  r ← attempt (liftR m);
  mret match r with inl _ => StatusAccepted | inr _ => StatusInternalServerError end.

(** [ServeHTTP], as the status it answers. *)
Definition ServeHTTP (r : Request) : M Y Z :=
  a ← he_get;
  if String.eqb (r_Path r) "/healthz" then mret StatusOK
  else if String.eqb (r_Path r) "/readyz" then
    mret (if isStarted a then StatusOK else StatusServiceUnavailable)
  else match supportedPaths a with
  | None => mret StatusInternalServerError
  | Some paths =>
  match parse_path (r_Path r) with
  | None => mret StatusBadRequest
  | Some (group, version, resource) =>
  let strategy := strategy_of (r_Method r) in
  match path_status paths strategy group version resource with
  | Some status => mret status
  | None =>
  match r_Body r with
  | None => mret StatusBadRequest
  | Some (inr _) => mret StatusInternalServerError
  | Some (inl bodyBytes) =>
  match UnmarshalJSON bodyBytes with
  | inr _ => mret StatusInternalServerError
  | inl obj =>
  let kindName := FromUnstructured (Some (Meta (inl obj))) in
  kind ← deref (kn_Kind kindName);
  if negb (String.eqb (Group kind) group) || negb (String.eqb (Version kind) version)
     || negb (String.eqb (Resource kind) resource)
  then mret StatusBadRequest
  else
    let checksum := default "" (Annotations (inl obj) !! SyncChecksumMetadataKey) in
    if String.eqb strategy PatchStrategy then
      status_of (cb_PatchObject (he_callbacks a) (r_Context r) kindName checksum bodyBytes)
    else if String.eqb strategy CopyStrategy then
      status_of (cb_PutObject (he_callbacks a) (r_Context r) kindName checksum bodyBytes)
    else mret StatusAccepted
  end end end end end.

Definition he_RegisterCallbacks (mainCtx : Ctx) (callbacks : Callbacks W) : M Y unit :=
  modifyW (λ s, (mkHttpAdapter callbacks (he_InCluster s.1) (he_cfg s.1) (Some mainCtx)
                   (supportedPaths s.1) (isStarted s.1), s.2)).
Definition he_Callbacks (ctx : Ctx) : M Y (Callbacks W) := a ← he_get; mret (he_callbacks a).

Definition he_Start (ctx : Ctx) : M Y unit :=
  modifyW (λ s, (mkHttpAdapter (he_callbacks s.1) (he_InCluster s.1) (he_cfg s.1) (he_BaseContext s.1)
                   (Some (build_paths (he_Resources (he_cfg s.1)))) (isStarted s.1), s.2)) ;;
  a ← he_get;
  let addr := (":" ++ ServerPort (he_cfg a))%string in
  wrapE ("httpendpoint failed to listen on " ++ addr) (liftR (Listen addr)) ;;
  modifyW (λ s, (mkHttpAdapter (he_callbacks s.1) (he_InCluster s.1) (he_cfg s.1) (he_BaseContext s.1)
                   (supportedPaths s.1) true, s.2)).
Definition he_Stop (ctx : Ctx) : M Y unit := liftR Shutdown.
Definition he_IsRelated (ctx : Ctx) (id : ClientIdentifier) : M Y bool :=
  a ← he_get;
  mret (String.eqb (ic_Account (he_InCluster a)) (Account id)
        && String.eqb (ClusterName (he_InCluster a)) (Cluster id)).

(** The operations of the backend's side do nothing. *)
Definition go_http : Adapter W Y :=
  mkAdapter he_Start he_Stop he_IsRelated he_RegisterCallbacks he_Callbacks
    (λ _ _, mret tt) (λ _ _ _, mret tt) (λ _ _ _ _, mret tt) (λ _ _ _ _, mret tt)
    (λ _ _ _, mret tt) (λ _ _ _ _, mret tt).
End HttpEndpoint.

(** ** The table of supported paths is the configuration *)
Definition known (m : Paths) (s g v r : string) : Prop := path_status m s g v r = None.

Lemma known_add m s g v r s' g' v' r' :
  known (add_path s g v r m) s' g' v' r' ↔
  (s' = s ∧ g' = g ∧ v' = v ∧ r' = r) ∨ known m s' g' v' r'.
Proof.
  unfold known, path_status, add_path.
  destruct (decide (s' = s)) as [->|]; [rewrite lookup_insert_eq|rewrite lookup_insert_ne by done; naive_solver].
  destruct (decide (g' = g)) as [->|];
    [rewrite lookup_insert_eq|rewrite lookup_insert_ne by done; destruct (m !! s); cbn; naive_solver].
  destruct (decide (v' = v)) as [->|];
    [rewrite lookup_insert_eq
    |rewrite lookup_insert_ne by done; destruct (m !! s) as [gs|]; cbn; [|naive_solver];
     destruct (gs !! g); cbn; naive_solver].
  destruct (decide (r' = r)) as [->|]; [rewrite lookup_insert_eq; naive_solver|].
  rewrite lookup_insert_ne by done. destruct (m !! s) as [gs|]; cbn; [|naive_solver].
  destruct (gs !! g) as [vs|]; cbn; [|naive_solver]. destruct (vs !! v); cbn; naive_solver.
Qed.

Lemma build_paths_known resources s g v r :
  known (build_paths resources) s g v r ↔
  ∃ c, c ∈ resources ∧ ToLower (r_Strategy c) = s ∧ r_Group c = g ∧ r_Version c = v ∧ r_Resource c = r.
Proof.
  unfold build_paths.
  assert (∀ m, known (foldl add_resource m resources) s g v r ↔
    (∃ c, c ∈ resources ∧ ToLower (r_Strategy c) = s ∧ r_Group c = g ∧ r_Version c = v ∧ r_Resource c = r)
    ∨ known m s g v r) as Hf.
  { induction resources as [|c cs IH]; intros m; cbn [foldl].
    - split; [by right|]. intros [(c & Hc & _)|]; [by apply not_elem_of_nil in Hc|done].
    - rewrite IH. unfold add_resource. rewrite known_add. set_solver. }
  rewrite Hf. split; [|by left]. intros [?|Hk]; [done|]. done.
Qed.

(** ** What a request does *)
Section Requests.
Context `{KubeLib} {W : Type}.
Variable key : string.

(** A request that passes every check: its strategy, object, checksum and body. *)
Definition admitted (resources : list ConfigResource) (r : Request)
    (strategy : Strategy) (kindName : KindName) (checksum body : string) : Prop :=
  ∃ g v k obj, parse_path (r_Path r) = Some (g, v, k) ∧
    strategy = strategy_of (r_Method r) ∧
    (∃ c, c ∈ resources ∧ ToLower (r_Strategy c) = strategy ∧ r_Group c = g ∧ r_Version c = v ∧
          r_Resource c = k) ∧
    r_Body r = Some (inl body) ∧ UnmarshalJSON body = inl obj ∧
    kindName = FromUnstructured (Some (Meta (inl obj))) ∧
    (∃ kind, kn_Kind kindName = Some kind ∧ Group kind = g ∧ Version kind = v ∧ Resource kind = k) ∧
    checksum = default "" (Annotations (inl obj) !! key).

Lemma FromUnstructured_kind u : ∃ kind, kn_Kind (FromUnstructured (Some u)) = Some kind.
Proof.
  unfold FromUnstructured. pose proof (Split_nonempty slash (ToLower (GetAPIVersion u))).
  destruct (Split slash _); [done|]. by eexists.
Qed.

(** What the callback of an admitted request leads to. *)
Definition answer (a : HttpAdapter W) (w : W) (r : Request) (strategy : Strategy)
    (kindName : KindName) (checksum body : string) : outcome Z * (HttpAdapter W * W) :=
  if String.eqb strategy PatchStrategy then
    status_of (cb_PatchObject (he_callbacks a) (r_Context r) kindName checksum body) (a, w)
  else if String.eqb strategy CopyStrategy then
    status_of (cb_PutObject (he_callbacks a) (r_Context r) kindName checksum body) (a, w)
  else (Ret StatusAccepted, (a, w)).

Ltac reject Hrej :=
  left; apply Hrej; [done|];
  intros ? ? ? ? (?&?&?&?&?&?&?&?&?&?&(?&?&?&?&?)&?); simplify_eq; congruence.
Lemma serve_dichotomy resources (a : HttpAdapter W) w r :
  supportedPaths a = Some (build_paths resources) → r_Path r ≠ "/healthz" → r_Path r ≠ "/readyz" →
  (∃ status, 400 ≤ status ∧ ServeHTTP key r (a, w) = (Ret status, (a, w))
     ∧ ∀ s kn c b, ¬ admitted resources r s kn c b) ∨
  (∃ s kn c b, admitted resources r s kn c b ∧ ServeHTTP key r (a, w) = answer a w r s kn c b).
Proof.
  intros Hp Hh Hr. unfold ServeHTTP, he_get, admitted. rewrite bind_run. go_compute.
  rewrite (proj2 (String.eqb_neq _ _) Hh), (proj2 (String.eqb_neq _ _) Hr), Hp.
  assert (∀ st : Z, 400 ≤ st → (∀ s kn c b, ¬ admitted resources r s kn c b) →
    ∃ status, 400 ≤ status ∧ (Ret st, (a, w)) = (Ret status, (a, w)) ∧
              ∀ s kn c b, ¬ admitted resources r s kn c b) as Hrej by (intros; eauto).
  unfold admitted in Hrej.
  destruct (parse_path (r_Path r)) as [[[g v] k]|] eqn:Epath;
    [|reject Hrej].
  destruct (path_status (build_paths resources) (strategy_of (r_Method r)) g v k) as [st|] eqn:Est.
  { left. apply Hrej.
    - unfold path_status in Est. repeat case_match; simplify_eq; done.
    - intros s kn c b (g' & v' & k' & obj & Hpath & -> & Hc & _). simplify_eq.
      apply build_paths_known in Hc. unfold known in Hc. congruence. }
  change (known (build_paths resources) (strategy_of (r_Method r)) g v k) in Est.
  apply build_paths_known in Est.
  destruct (r_Body r) as [[body|e]|] eqn:Eb; [|reject Hrej..].
  destruct (UnmarshalJSON body) as [obj|e] eqn:Eu; [|reject Hrej].
  destruct (FromUnstructured_kind (Meta (inl obj))) as [kind Hkind]. rewrite Hkind.
  rewrite deref_Some_run.
  destruct (String.eqb_spec (Group kind) g) as [Hg|Hg]; [|reject Hrej].
  destruct (String.eqb_spec (Version kind) v) as [Hv|Hv]; [|reject Hrej].
  destruct (String.eqb_spec (Resource kind) k) as [Hk|Hk]; [|reject Hrej].
  right. eexists _, _, _, body. split.
  - exists g, v, k, obj. split_and!; [done|reflexivity|exact Est|done|done|reflexivity| |reflexivity].
    by exists kind.
  - unfold answer. subst. by repeat case_match.
Qed.

Lemma admitted_unique resources r s kn c b s' kn' c' b' :
  admitted resources r s kn c b → admitted resources r s' kn' c' b' →
  s = s' ∧ kn = kn' ∧ c = c' ∧ b = b'.
Proof.
  intros (?&?&?&?&?&?&?&?&?&?&?&?) (?&?&?&?&?&?&?&?&?&?&?&?). simplify_eq.
  match goal with
  | H1 : UnmarshalJSON _ = inl ?x, H2 : UnmarshalJSON _ = inl ?y |- _ => assert (x = y) as -> by congruence
  end. done.
Qed.
End Requests.

(** C33. A request other than a health check reaches the core exactly when its path and method
    are those of a configured resource and its body is an object of that resource: then its
    callback is called once and decides the status, 202 or 500; every other request is
    answered with a status of at least 400 and changes nothing. *)
Theorem request_admission `{KubeLib} {W} key resources (a : HttpAdapter W) w r
    (Hpaths : supportedPaths a = Some (build_paths resources))
    (Hhealth : r_Path r ≠ "/healthz") (Hready : r_Path r ≠ "/readyz") :
  (∀ s kn c b, admitted key resources r s kn c b →
     ServeHTTP key r (a, w) = answer a w r s kn c b) ∧
  ((∀ s kn c b, ¬ admitted key resources r s kn c b) →
     ∃ status, 400 ≤ status ∧ ServeHTTP key r (a, w) = (Ret status, (a, w))).
Proof.
  destruct (serve_dichotomy key resources a w r Hpaths Hhealth Hready)
    as [(st & Hst & Hs & Hno)|(s & kn & c & b & Hadm & Hs)].
  - split; [intros s kn c b Hadm; by destruct (Hno s kn c b)|eauto].
  - split; [|intros Hno; by destruct (Hno s kn c b)].
    intros s' kn' c' b' Hadm'.
    by destruct (admitted_unique _ _ _ _ _ _ _ _ _ _ _ Hadm Hadm') as (-> & -> & -> & ->).
Qed.

(** ** A configuration with capital letters

    Paths are put in lower case before they are compared, the configuration is not. *)
Lemma Split_ToLower s : Forall (λ p, ToLower p = p) (Split slash (ToLower s)).
Proof.
  unfold ToLower. induction s as [|c s IH]; [by repeat constructor|]. cbn [smap Split].
  destruct (Ascii.eqb (lower_ascii c) slash); [by constructor|].
  destruct (Split slash (smap lower_ascii s)) as [|p ps].
  - repeat constructor. cbn. by rewrite lower_ascii_idemp.
  - apply Forall_cons in IH as [Hp Hps]. constructor; [|done]. cbn. by rewrite lower_ascii_idemp, Hp.
Qed.
Lemma parse_path_lower path g v k :
  parse_path path = Some (g, v, k) → ToLower g = g ∧ ToLower v = v ∧ ToLower k = k.
Proof.
  unfold parse_path. pose proof (Split_ToLower path) as HF.
  destruct (Split slash (ToLower path)) as [|p0 [|p1 [|p2 [|p3 [|p4 [|p5 [|]]]]]]]; try done.
  rewrite !Forall_cons in HF. destruct HF as (_ & _ & _ & H3 & H4 & H5 & _).
  case_match; [done|]. by intros [= <- <- <-].
Qed.
Definition in_lower_case (c : ConfigResource) : Prop :=
  ToLower (r_Group c) = r_Group c ∧ ToLower (r_Version c) = r_Version c ∧
  ToLower (r_Resource c) = r_Resource c.

(** A configured resource with a capital letter in its group, version or name can never
    be served: if every configured resource has one, each request other than a health check
    fails and changes nothing. *)
Theorem capital_resources_unreachable `{KubeLib} {W} key resources (a : HttpAdapter W) w r
    (Hpaths : supportedPaths a = Some (build_paths resources))
    (Hcap : Forall (λ c, ¬ in_lower_case c) resources)
    (Hhealth : r_Path r ≠ "/healthz") (Hready : r_Path r ≠ "/readyz") :
  ∃ status, 400 ≤ status ∧ ServeHTTP key r (a, w) = (Ret status, (a, w)).
Proof.
  destruct (serve_dichotomy key resources a w r Hpaths Hhealth Hready)
    as [(st & Hst & Hs & Hno)|(s & kn & c & b & Hadm & Hs)]; [eauto|].
  destruct Hadm as (g & v & k & obj & Hpath & _ & (c' & Hin & _ & <- & <- & <-) & _).
  rewrite Forall_forall in Hcap. by destruct (Hcap c' Hin (parse_path_lower _ _ _ _ Hpath)).
Qed.

(** ** Witnesses: an adapter that takes pods, and one configured with a capital letter *)
Definition pod_resource (name : string) : ConfigResource := mkConfigResource "v1" "v1" name "Copy".
Definition sample_http {W} (name : string) : HttpAdapter W :=
  mkHttpAdapter nil_Callbacks (mkInCluster "" "" "" [] [] "" "" []) (mkHTTPEndpoint "8080" [pod_resource name])
    None (Some (build_paths [pod_resource name])) true.
Definition sample_body : string :=
  print (JObj [("kind", JStr "Pod"); ("metadata", JObj [("name", JStr "nginx")])]).
Definition sample_post : Request := mkRequest "POST" "/apis/v1/v1/v1/Pod" [] (Some (inl sample_body)).

Lemma request_admission_witness :
  @ServeHTTP sample_kube unit "sum" sample_post (sample_http "pod", tt)
    = (Panic "call of a nil function", (sample_http "pod", tt)) ∧
  (∃ status, 400 ≤ status ∧
     @ServeHTTP sample_kube unit "sum" (mkRequest "GET" "/apis/v1/v1/v1/pod" [] None) (sample_http "pod", tt)
     = (Ret status, (sample_http "pod", tt))).
Proof.
  split.
  - rewrite (proj1 (@request_admission sample_kube unit "sum" [pod_resource "pod"] (sample_http "pod") tt
               sample_post eq_refl ltac:(done) ltac:(done)) CopyStrategy
               (mkKindName (Some (mkKind "v1" "v1" "pod" None)) "nginx" "" 0) "" sample_body).
    + reflexivity.
    + exists "v1", "v1", "pod". eexists. split_and!; [reflexivity|reflexivity| |reflexivity|vm_compute; reflexivity| | |].
      * exists (pod_resource "pod"). split_and!; [set_solver|reflexivity..].
      * vm_compute. reflexivity.
      * eexists. split_and!; reflexivity.
      * vm_compute. reflexivity.
  - apply (proj2 (@request_admission sample_kube unit "sum" [pod_resource "pod"] (sample_http "pod") tt
               (mkRequest "GET" "/apis/v1/v1/v1/pod" [] None) eq_refl ltac:(done) ltac:(done))).
    intros s kn c b (g & v & k & obj & _ & _ & _ & Hb & _). discriminate.
Defined.

Lemma capital_resources_unreachable_witness :
  ∃ status, 400 ≤ status ∧
    @ServeHTTP sample_kube unit "sum" sample_post (sample_http "Pod", tt)
      = (Ret status, (sample_http "Pod", tt)).
Proof.
  apply (@capital_resources_unreachable sample_kube unit "sum" [pod_resource "Pod"]);
    [reflexivity| |done|done].
  constructor; [|constructor]. intros (_ & _ & Hr). vm_compute in Hr. discriminate.
Defined.
