(* ===== verification/Authentication.v ===== *)
(** * Authentication: [cmd/server/authentication/authentication.go], [core/headers.go].

    The middleware in front of the server's websocket handler.  It refuses a request, or
    lets the next handler serve it in a context that carries the identity of the client.
    The state of the package is whether [once] ran and whether [client] is set. *)

From S2P Require Export Config Utils.

(** ** Headers: [http.Header], whose keys are canonical *)
Definition AccessKeyHeader : string := "X-API-KEY".
Definition AccountHeader : string := "X-API-ACCOUNT".
Definition ClusterNameHeader : string := "X-API-CLUSTER".
Definition HelmVersionHeader : string := "X-HELM-VERSION".
Definition VersionHeader : string := "X-SYNCHRONIZER-VERSION".
Definition GitVersionHeader : string := "X-GIT-VERSION".
Definition CloudProviderHeader : string := "X-CLOUD-PROVIDER".
Definition ClusterUIDHeader : string := "X-CLUSTER-UID".
Definition ResourceGroupHeader : string := "X-RESOURCE-GROUP".

(** [textproto.CanonicalMIMEHeaderKey]: a key that is not a token stays as it is. *)
Definition token_char (c : ascii) : bool :=
  let n := nat_of_ascii c in
  (Nat.leb 48 n && Nat.leb n 57) || (Nat.leb 65 n && Nat.leb n 90) || (Nat.leb 97 n && Nat.leb n 122)
  || existsb (Ascii.eqb c) (String.list_ascii_of_string "!#$%&'*+-.^_`|~").
Fixpoint canonical_from (upper : bool) (s : string) : string :=
  match s with
  | EmptyString => EmptyString
  | String c s' =>
      String ((if upper then upper_ascii else lower_ascii) c) (canonical_from (Ascii.eqb c "-") s')
  end.
Definition CanonicalHeaderKey (s : string) : string :=
  if forallb token_char (String.list_ascii_of_string s) then canonical_from true s else s.

Abbreviation Header := (gmap string (list string)).
(** [Get] is the first value or the empty string, [Set] replaces all values. *)
Definition HeaderGet (h : Header) (key : string) : string :=
  match h !! CanonicalHeaderKey key with Some (v :: _) => v | _ => "" end.
Definition HeaderSet (h : Header) (key value : string) : Header :=
  <[CanonicalHeaderKey key := [value]]> h.

(** ** The middleware *)
Definition armoAccessKeyLength : Z := 36.
Definition helmPlaceholderAccounts (account : string) : bool :=
  bool_decide (account ∈ ["REPLACE_ME_WITH_ARMO_ACCOUNT_UUID"; "test"; ""]).

(** A request to the server, and one to the authentication server: its URL without the
    query, the query, its headers. *)
Record IncomingRequest : Type := mkIncomingRequest {
  ir_Header : Header;
  ir_Context : Ctx
}.
Record AuthRequest : Type := mkAuthRequest {
  aq_URL : string;
  aq_Query : gmap string (list string);
  aq_Header : Header
}.
Record AuthState : Type := mkAuthState { once_done : bool; client_set : bool }.

Definition StatusUnauthorized : Z := 401.
Definition StatusFailedDependency : Z := 424.

Section Middleware.
Context {W : Type}.
(** The environment of the process: the clock, random ids ([uuid.New]), the parser of ids;
  [net/url] and [net/http]: splitting a URL and its query, whether a URL makes a request,
  and the status with which the authentication server answers. *)
Variable Now : M W Z.
Variable NewUUID : M W string.
Variable ValidUUID : string → bool.
Variable ParseURL : string → (string * gmap string (list string)) + gerror.
Variable NewRequest : string → gmap string (list string) → unit + gerror.
Variable Do : AuthRequest → M W Z.
(** The order in which the mappings are visited. *)
Variable Range : gmap string string → list (string * string).
Local Abbreviation Y := (AuthState * W)%type.

(** The reason that is logged for a refused client, empty when there is none. *)
Definition unconfiguredCredentialsReason (account accessKey : string) : string :=
  if helmPlaceholderAccounts account then
    "account is a known Helm placeholder — customer likely did not substitute Helm values"
  else if negb (ValidUUID account) then
    "account is not a valid UUID — customer likely did not substitute Helm values"
  else if negb (Z.of_nat (String.length accessKey) =? armoAccessKeyLength) then
    "accessKey length is not 36 (not a valid ARMO access key) — customer likely did not substitute Helm values"
  else "".

Definition once_Do (cfg : option AuthenticationServerConfig) : M Y unit :=
  modifyW (λ s, if once_done s.1 then s else
    (mkAuthState true match cfg with
                      | None => client_set s.1
                      | Some c => if String.eqb (Url c) "" then client_set s.1 else true
                      end, s.2)).

(** The identity that the headers claim. *)
Definition identity_of (h : Header) (connectionId : string) (connectionTime : Z) : ClientIdentifier :=
  mkClientIdentifier (HeaderGet h AccountHeader) (HeaderGet h ClusterNameHeader) connectionId
    connectionTime (HeaderGet h HelmVersionHeader) (HeaderGet h VersionHeader)
    (HeaderGet h GitVersionHeader) (HeaderGet h CloudProviderHeader)
    (HeaderGet h ClusterUIDHeader) (HeaderGet h ResourceGroupHeader).
Definition authenticated_ctx (parent : Ctx) (h : Header) (id : ClientIdentifier) : Ctx :=
  WithValue (WithValue parent ContextKeyClientIdentifier (VIdentifier id))
    ContextKeyAccessKey (VString (HeaderGet h AccessKeyHeader)).

(** The request that asks the authentication server. *)
Definition auth_query (cfg : AuthenticationServerConfig) (h : Header) (q : gmap string (list string)) :
    gmap string (list string) :=
  foldl (λ q kv, <[kv.2 := [HeaderGet h kv.1]]> q) q (Range (HeaderToQueryParamMapping cfg)).
Definition auth_headers (cfg : AuthenticationServerConfig) (h : Header) : Header :=
  foldl (λ a kv, HeaderSet a kv.2 (HeaderGet h kv.1)) ∅ (Range (HeaderToHeaderMapping cfg)).

(** [Some status] refuses the connection. *)
Definition authenticate (cfg : option AuthenticationServerConfig) (h : Header) : M Y (option Z) :=
  c ← deref cfg;
  match ParseURL (Url c) with
  | inr e => panic "url.Parse"
  | inl (url, q) =>
      let q := auth_query c h q in
      match NewRequest url q with
      | inr _ => mret (Some StatusUnauthorized)
      | inl _ =>
          response ← attempt (liftR (Do (mkAuthRequest url q (auth_headers c h))));
          mret match response with
               | inl status => if negb (status =? 200) then Some StatusUnauthorized else None
               | inr _ => Some StatusUnauthorized
               end
      end
  end.

(** The handler: the status of a refused request, or [None] once [next] served it. *)
Definition AuthenticationServerMiddleware (cfg : option AuthenticationServerConfig)
    (next : Ctx → M W unit) (r : IncomingRequest) : M Y (option Z) :=
  once_Do cfg ;;
  connectionTime ← liftR Now;
  connectionId ← liftR NewUUID;
  let h := ir_Header r in
  let accessKey := HeaderGet h AccessKeyHeader in
  let account := HeaderGet h AccountHeader in
  let cluster := HeaderGet h ClusterNameHeader in
  if String.eqb accessKey "" || String.eqb account "" || String.eqb cluster "" then
    mret (Some StatusUnauthorized)
  else if String.eqb (HeaderGet h VersionHeader) "invalid" then mret (Some StatusFailedDependency)
  else
    s ← getW;
    refused ← (if client_set s.1 then authenticate cfg h else mret None);
    match refused with
    | Some status => mret (Some status)
    | None =>
        liftR (next (authenticated_ctx (ir_Context r) h (identity_of h connectionId connectionTime))) ;;
        mret None
    end.
End Middleware.

(** ** Who is admitted *)
Definition has_credentials (h : Header) : Prop :=
  HeaderGet h AccessKeyHeader ≠ "" ∧ HeaderGet h AccountHeader ≠ "" ∧
  HeaderGet h ClusterNameHeader ≠ "".

Lemma credentials_spec h :
  String.eqb (HeaderGet h AccessKeyHeader) "" || String.eqb (HeaderGet h AccountHeader) ""
  || String.eqb (HeaderGet h ClusterNameHeader) "" = false ↔ has_credentials h.
Proof.
  unfold has_credentials. rewrite !orb_false_iff, !String.eqb_neq. tauto.
Qed.

Lemma authenticated_carries parent h id : carries (authenticated_ctx parent h id) id.
Proof. reflexivity. Qed.
Lemma authenticated_key parent h id :
  AccessKeyFromContext (authenticated_ctx parent h id) = HeaderGet h AccessKeyHeader.
Proof. reflexivity. Qed.

Section Admission.
Context {W : Type}.
Variables (Now : M W Z) (NewUUID : M W string).
Variable ParseURL : string → (string * gmap string (list string)) + gerror.
Variable NewRequest : string → gmap string (list string) → unit + gerror.
Variable Do : AuthRequest → M W Z.
Variable Range : gmap string string → list (string * string).

(** The authentication server was asked about these headers and answered 200. *)
Definition authorised (c : AuthenticationServerConfig) (h : Header) (w w' : W) : Prop :=
  ∃ url q, ParseURL (Url c) = inl (url, q) ∧ NewRequest url (auth_query Range c h q) = inl tt ∧
    Do (mkAuthRequest url (auth_query Range c h q) (auth_headers Range c h)) w = (Ret 200, w').

Lemma authenticate_run c h st (w : W) o st' w' :
  authenticate ParseURL NewRequest Do Range (Some c) h (st, w) = (Ret o, (st', w')) →
  st' = st ∧
  match o with
  | None => authorised c h w w'
  | Some status => status = 401 ∧ (w' = w ∨ ∃ req r, Do req w = (r, w'))
  end.
Proof.
  unfold authenticate, authorised. rewrite deref_bind_Some.
  destruct (ParseURL (Url c)) as [[url q]|e]; [|done].
  destruct (NewRequest url _) as [[]|] eqn:Hreq; [|rewrite ret_run; intros [= <- <- <-]; eauto].
  rewrite bind_run, attempt_run. unfold liftR.
  destruct (Do _ w) as [[status|e|s] w1] eqn:Hdo; cbn beta iota; rewrite ?ret_run;
    [|intros [= <- <- <-]; eauto 6|done].
  destruct (Z.eqb_spec status 200) as [->|Hne]; cbn [negb]; intros [= <- <- <-]; eauto 8.
Qed.
Lemma authenticate_authorised c h st (w w' : W) :
  authorised c h w w' → authenticate ParseURL NewRequest Do Range (Some c) h (st, w) = (Ret None, (st, w')).
Proof.
  intros (url & q & Hurl & Hreq & Hdo). unfold authenticate. rewrite deref_bind_Some, Hurl, Hreq.
  rewrite bind_run, attempt_run. unfold liftR. by rewrite Hdo.
Qed.

(** The authentication server is asked: one was set up by the first request, or is now. *)
Definition required (cfg : option AuthenticationServerConfig) (st : AuthState) : bool :=
  client_set st || negb (once_done st) && match cfg with Some c => negb (String.eqb (Url c) "") | None => false end.
Lemma once_Do_run cfg (st : AuthState) (w : W) :
  once_Do cfg (st, w) = (Ret tt, (mkAuthState true (required cfg st), w)).
Proof.
  unfold once_Do, modifyW, required. destruct st as [[] []], cfg as [c|]; cbn; try done; by destruct (String.eqb (Url c) "").
Qed.

(** A request is admitted: its headers are complete, its version is accepted, and the
    authentication server, where one is required, accepted these headers. *)
Definition admits (cfg : option AuthenticationServerConfig) (st : AuthState) (h : Header) (w w' : W) : Prop :=
  has_credentials h ∧ HeaderGet h VersionHeader ≠ "invalid" ∧
  if required cfg st then ∃ c, cfg = Some c ∧ authorised c h w w' else w' = w.
(** The authentication server can be asked without a panic: its settings are there, its URL
    is one, and the HTTP client returns. *)
Definition can_ask (cfg : option AuthenticationServerConfig) (w : W) : Prop :=
  ∃ c url q, cfg = Some c ∧ ParseURL (Url c) = inl (url, q) ∧ ∀ req s w', Do req w ≠ (Panic s, w').
Lemma authenticate_returns cfg h st (w : W) :
  can_ask cfg w → ∃ o w', authenticate ParseURL NewRequest Do Range cfg h (st, w) = (Ret o, (st, w')) ∧
    (w' = w ∨ ∃ req r, Do req w = (r, w')).
Proof.
  intros (c & url & q & -> & Hurl & Hdo). unfold authenticate. rewrite deref_bind_Some, Hurl.
  destruct (NewRequest url _); [|rewrite ret_run; eauto]. rewrite bind_run, attempt_run. unfold liftR.
  destruct (Do _ w) as [[status|e|s] w1] eqn:Hd; cbn beta iota; rewrite ?ret_run; [eauto 8..|]. by destruct (Hdo _ _ _ Hd).
Qed.
End Admission.

(** The two refusals of the middleware, 424 for a version only. *)
Lemma refusal_status {W} (Now : M W Z) NewUUID ParseURL NewRequest Do Range cfg next r st w status y' :
  AuthenticationServerMiddleware Now NewUUID ParseURL NewRequest Do Range cfg next r (st, w) = (Ret (Some status), y') →
  status = 401 ∨ status = 424 ∧ has_credentials (ir_Header r).
Proof.
  unfold AuthenticationServerMiddleware. rewrite bind_run, once_Do_run. cbn beta iota. rewrite bind_run. unfold liftR at 1.
  destruct (Now w) as [[t|e|s] w1]; [|done..]. cbn beta iota. rewrite bind_run. unfold liftR at 1.
  destruct (NewUUID w1) as [[cid|e|s] w2]; [|done..]. cbn beta iota.
  destruct (_ || _ || _) eqn:Hcred; [intros [= <- _]; by left|]. apply credentials_spec in Hcred.
  destruct (String.eqb _ "invalid"); [intros [= <- _]; by right|].
  rewrite bind_run. unfold getW. cbn beta iota. rewrite bind_run.
  assert (∀ y, (liftR (next (authenticated_ctx (ir_Context r) (ir_Header r) (identity_of (ir_Header r) cid t))) ;;
                mret None) y = (Ret (Some status), y') → False) as Hnext.
  { intros [st2 w3]. rewrite bind_run. unfold liftR. by destruct (next _ w3) as [[]]. }
  destruct (client_set _); [|rewrite ret_run; by intros ?%Hnext].
  destruct cfg as [c|]; [|done].
  destruct (authenticate _ _ _ _ _ _ _) as [[[refused|]|e|s] [st2 w3]] eqn:Hauth; cbn beta iota; [|by intros ?%Hnext|done..].
  apply authenticate_run in Hauth as [_ [-> _]]. intros [= <- _]. by left.
Qed.

(** A request, once the clock and the source of ids answered. *)
Lemma middleware_run {W} (Now : M W Z) NewUUID ParseURL NewRequest Do Range cfg (next : Ctx → M W unit) r st (w w1 w2 : W) t cid :
  Now w = (Ret t, w1) → NewUUID w1 = (Ret cid, w2) →
  let h := ir_Header r in
  AuthenticationServerMiddleware Now NewUUID ParseURL NewRequest Do Range cfg next r (st, w) =
    (if String.eqb (HeaderGet h AccessKeyHeader) "" || String.eqb (HeaderGet h AccountHeader) ""
        || String.eqb (HeaderGet h ClusterNameHeader) "" then mret (Some StatusUnauthorized)
     else if String.eqb (HeaderGet h VersionHeader) "invalid" then mret (Some StatusFailedDependency)
     else refused ← (if required cfg st then authenticate ParseURL NewRequest Do Range cfg h else mret None);
          match refused with
          | Some status => mret (Some status)
          | None => liftR (next (authenticated_ctx (ir_Context r) h (identity_of h cid t))) ;; mret None
          end) (mkAuthState true (required cfg st), w2).
Proof.
  intros Hnow Hid h. unfold AuthenticationServerMiddleware. rewrite bind_run, once_Do_run. cbn beta iota. rewrite bind_run.
  unfold liftR at 1. rewrite Hnow. cbn beta iota. rewrite bind_run. unfold liftR at 1. rewrite Hid. cbn beta iota.
  fold h. destruct (_ || _ || _); [done|]. destruct (String.eqb _ "invalid"); done.
Qed.

Section Answers.
Context {W : Type} (Now : M W Z) (NewUUID : M W string).
Variable ParseURL : string → (string * gmap string (list string)) + gerror.
Variable NewRequest : string → gmap string (list string) → unit + gerror.
Variables (Do : AuthRequest → M W Z) (Range : gmap string string → list (string * string)).
Variables (cfg : option AuthenticationServerConfig) (next : Ctx → M W unit) (r : IncomingRequest) (st : AuthState).
Variables (w w1 w2 : W) (t : Z) (cid : string).
Hypotheses (Hnow : Now w = (Ret t, w1)) (Hid : NewUUID w1 = (Ret cid, w2)).
Let h := ir_Header r.
Local Abbreviation serve := (AuthenticationServerMiddleware Now NewUUID ParseURL NewRequest Do Range cfg next r).
Local Abbreviation st' := (mkAuthState true (required cfg st)).
Lemma admitted_run w3 : admits ParseURL NewRequest Do Range cfg st h w2 w3 →
  serve (st, w) = (liftR (next (authenticated_ctx (ir_Context r) h (identity_of h cid t))) ;; mret None) (st', w3).
Proof using Hnow Hid.
  intros (Hcred & Hv & Hauth). rewrite (middleware_run _ _ _ _ _ _ _ _ _ _ _ _ _ _ _ Hnow Hid). fold h.
  apply credentials_spec in Hcred as ->. apply String.eqb_neq in Hv as ->.
  destruct (required cfg st); [|by subst w3]. destruct Hauth as (c & -> & Ha).
  by rewrite bind_run, (authenticate_authorised _ _ _ _ _ _ _ _ _ Ha).
Qed.
Lemma not_admitted_run : (∀ w3, ¬ admits ParseURL NewRequest Do Range cfg st h w2 w3) →
  ∃ o w3, serve (st, w) = (o, (st', w3)) ∧ o ≠ Ret None ∧ (w3 = w2 ∨ ∃ req a, Do req w2 = (a, w3)).
Proof using Hnow Hid.
  intros Hno. rewrite (middleware_run _ _ _ _ _ _ _ _ _ _ _ _ _ _ _ Hnow Hid). fold h.
  unfold admits in Hno. destruct (_ || _ || _) eqn:Hcred; [by eexists _, w2; eauto|]. apply credentials_spec in Hcred.
  destruct (String.eqb_spec (HeaderGet h VersionHeader) "invalid") as [?|Hv]; [by eexists _, w2; eauto|].
  destruct (required cfg st); [|by destruct (Hno w2)].
  unfold authenticate. destruct cfg as [c|]; [|by eexists _, w2; eauto]. rewrite bind_run, deref_bind_Some.
  destruct (ParseURL (Url c)) as [[url q]|e] eqn:Hurl; [|by eexists _, w2; eauto].
  destruct (NewRequest url _) as [[]|] eqn:Hreq; [|by eexists _, w2; eauto].
  rewrite bind_run, attempt_run. unfold liftR at 1.
  destruct (Do _ w2) as [[status|e|s] w3] eqn:Hdo; cbn beta iota; rewrite ?ret_run; [|by eexists _, w3; eauto 6..].
  destruct (Z.eqb_spec status 200) as [->|Hne]; cbn [negb]; [|by eexists _, w3; eauto 6].
  destruct (Hno w3). split_and!; [done..|]. exists c. split; [done|]. exists url, q. done.
Qed.
End Answers.

(** C19. The handler behind the middleware runs exactly for the requests that are admitted:
    with an access key, an account and a cluster, a version that is not rejected, and, when an
    authentication server was configured for the first request, its answer 200 for those very
    headers; it then runs in a context that carries the identity and the access key of the
    headers.  Every other request is answered, with 424 when its headers are complete and its
    version is rejected and with 401 otherwise, and the handler does not run. *)
Theorem connection_admission {W} (Now : M W Z) NewUUID ParseURL NewRequest Do Range cfg
    (next : Ctx → M W unit) (r : IncomingRequest) (st : AuthState) (w w1 w2 : W) t cid
    (Hnow : Now w = (Ret t, w1)) (Hid : NewUUID w1 = (Ret cid, w2))
    (h := ir_Header r) (admitted := admits ParseURL NewRequest Do Range cfg st h w2)
    (serve := AuthenticationServerMiddleware Now NewUUID ParseURL NewRequest Do Range cfg next r) :
  let st' := mkAuthState true (required cfg st) in
  let id := identity_of h cid t in
  let ctx := authenticated_ctx (ir_Context r) h id in
  carries ctx id ∧ AccessKeyFromContext ctx = HeaderGet h AccessKeyHeader ∧
  (∀ w3, admitted w3 → serve (st, w) = (liftR (next ctx) ;; mret None) (st', w3)) ∧
  ((∀ w3, ¬ admitted w3) → (required cfg st = true → can_ask ParseURL Do cfg w2) →
   ∃ status w3, serve (st, w) = (Ret (Some status), (st', w3)) ∧ (w3 = w2 ∨ ∃ req a, Do req w2 = (a, w3)) ∧
     (status = 424 ∧ has_credentials h ∧ HeaderGet h VersionHeader = "invalid" ∨
      status = 401 ∧ ¬ (has_credentials h ∧ HeaderGet h VersionHeader = "invalid"))).
Proof.
  intros st' id ctx. split; [done|]. split; [done|]. split; [intros w3; by apply (admitted_run _ _ _ _ _ _ _ _ _ _ w w1)|].
  unfold admitted, admits, serve. rewrite (middleware_run _ _ _ _ _ _ _ _ _ _ _ _ _ _ _ Hnow Hid). fold h st' id ctx.
  destruct (_ || _ || _) eqn:Hcred.
  - assert (¬ has_credentials h) as Hno by (rewrite <- credentials_spec; congruence).
    intros _ _. eexists _, w2. split; [done|]. split; [by left|]. right. naive_solver.
  - apply credentials_spec in Hcred. destruct (String.eqb_spec (HeaderGet h VersionHeader) "invalid") as [Hv|Hv].
    { intros _ _. eexists _, w2. split; [done|]. split; [by left|]. by left. }
    destruct (required cfg st) eqn:Hreq; intros Hnone; [|by destruct (Hnone w2)].
    intros Hcan. specialize (Hcan eq_refl).
    destruct (authenticate_returns ParseURL NewRequest Do Range cfg h st' w2 Hcan) as (o & w3 & Ho & Hw).
    rewrite bind_run, Ho. cbn beta iota. destruct Hcan as (c & _ & _ & -> & _).
    apply authenticate_run in Ho as [_ Ha]. destruct o as [status|]; [|destruct (Hnone w3); eauto].
    destruct Ha as [-> _]. exists 401, w3. split; [done|]. split; [done|]. right. by split; [|intros [_ ?]].
Qed.

(** A server that accepts one access key, and a request that carries it. *)
Definition sample_credentials (accessKey : string) : Header :=
  HeaderSet (HeaderSet (HeaderSet ∅ AccessKeyHeader accessKey) AccountHeader "acme") ClusterNameHeader "prod".
Definition sample_auth : AuthenticationServerConfig :=
  mkAuthenticationServerConfig "https://auth" {["X-API-ACCOUNT" := "account"]} {["X-API-KEY" := "X-API-KEY"]}.
Definition sample_auth_Do (q : AuthRequest) : M (list Ctx) Z :=
  mret (if String.eqb (HeaderGet (aq_Header q) "x-api-key") "secret" then 200 else 403).
Definition sample_middleware (accessKey : string) : M (AuthState * list Ctx) (option Z) :=
  AuthenticationServerMiddleware (mret 5) (mret "c1") (λ u, inl (u, ∅)) (λ _ _, inl tt) sample_auth_Do
    map_to_list (Some sample_auth) (λ ctx, modifyW (λ l, l ++ [ctx]))
    (mkIncomingRequest (sample_credentials accessKey) Background).
Definition sample_start : AuthState * list Ctx := (mkAuthState false false, []).

Lemma connection_admission_witness :
  (∃ status, sample_middleware "wrong" sample_start = (Ret (Some status), (mkAuthState true true, [])) ∧ status = 401) ∧
  (let '(o, (_, served)) := sample_middleware "secret" sample_start in
   o = Ret None ∧ ∃ ctx, served = [ctx] ∧ carries ctx (mkClientIdentifier "acme" "prod" "c1" 5 "" "" "" "" "" "")).
Proof.
  pose proof (λ key, connection_admission (W := list Ctx) (mret 5) (mret "c1" : M (list Ctx) string) (λ u, inl (u, ∅)) (λ _ _, inl tt) sample_auth_Do
    map_to_list (Some sample_auth) (λ ctx, modifyW (λ l, l ++ [ctx]))
    (mkIncomingRequest (sample_credentials key) Background) (mkAuthState false false) [] [] [] 5 "c1" eq_refl eq_refl) as Hrun.
  split.
  - destruct (Hrun "wrong") as (_ & _ & _ & Hrefuse). destruct Hrefuse as (status & w3 & Heq & Hw & Hstatus).
    + intros w3 (_ & _ & c & [= <-] & url & q & [= <- <-] & _ & Hdo). vm_compute in Hdo. discriminate.
    + intros _. exists sample_auth, "https://auth", ∅. split; [reflexivity|]. split; [reflexivity|]. discriminate.
    + exists status. assert (w3 = []) as -> by (destruct Hw as [->|(req & a & [= _ <-])]; reflexivity).
      split; [exact Heq|]. destruct Hstatus as [(_ & _ & Hv)|[? _]]; [vm_compute in Hv; discriminate|assumption].
  - destruct (Hrun "secret") as (Hc & _ & Hserve & _). unfold sample_middleware, sample_start. rewrite (Hserve []).
    + split; [reflexivity|]. eexists. split; [reflexivity|exact Hc].
    + split; [split_and!; vm_compute; discriminate|]. split; [vm_compute; discriminate|].
      exists sample_auth. split; [reflexivity|]. eexists _, _. split; [reflexivity|]. split; [reflexivity|]. reflexivity.
Defined.
