(* ===== verification/KafkaConfig.v ===== *)
(** * KafkaConfig: [adapters/backend/v1/kafka_security.go] and the sizes of [kafka.go].

    What the settings of the Kafka transport may be, and what the client library is told:
    an [Opt] is an option of franz-go, as data. *)

From S2P Require Export Config Messages.

Definition securityProtocolPlaintext : string := "PLAINTEXT".
Definition securityProtocolSSL : string := "SSL".
Definition securityProtocolSASLPlaintext : string := "SASL_PLAINTEXT".
Definition securityProtocolSASLSSL : string := "SASL_SSL".
Definition saslMechanismPlain : string := "PLAIN".
Definition saslMechanismScramSHA256 : string := "SCRAM-SHA-256".
Definition saslMechanismScramSHA512 : string := "SCRAM-SHA-512".

Definition normalizeSecurityProtocol (protocol : string) : string :=
  if String.eqb protocol "" then securityProtocolPlaintext else ToUpper protocol.
Definition protocolUsesSASL (protocol : string) : bool :=
  String.eqb protocol securityProtocolSASLPlaintext || String.eqb protocol securityProtocolSASLSSL.
Definition protocolUsesTLS (protocol : string) : bool :=
  String.eqb protocol securityProtocolSSL || String.eqb protocol securityProtocolSASLSSL.

Definition known_protocol (protocol : string) : bool :=
  bool_decide (protocol ∈ [securityProtocolPlaintext; securityProtocolSSL;
                           securityProtocolSASLPlaintext; securityProtocolSASLSSL]).
Definition known_mechanism (mechanism : string) : bool :=
  bool_decide (mechanism ∈ [saslMechanismPlain; saslMechanismScramSHA256; saslMechanismScramSHA512]).

(** The SASL settings of a protocol that uses SASL. *)
Definition validateSASL {W} (cfg : KafkaConfig) (protocol : string) (k : M W unit) : M W unit :=
  let mechanism := ToUpper (SASLMechanism cfg) in
  missing (negb (known_mechanism mechanism)) ("kafkaConfig.saslMechanism is invalid for " ++ protocol)
  (missing (String.eqb mechanism saslMechanismPlain && negb (protocolUsesTLS protocol))
     ("kafkaConfig.saslMechanism PLAIN sends the password in cleartext over " ++ protocol)
  (missing (String.eqb (SASLUsername cfg) "")
     ("kafkaConfig.saslUsername is required for securityProtocol " ++ protocol)
  (missing (String.eqb (SASLPassword cfg) "")
     ("kafkaConfig.saslPassword is required for securityProtocol " ++ protocol) k))).

Definition validateKafkaSecurity {W} (cfg : KafkaConfig) : M W unit :=
  let protocol := normalizeSecurityProtocol (SecurityProtocol cfg) in
  missing (negb (known_protocol protocol)) "kafkaConfig.securityProtocol is invalid"
  (let ca : M W unit :=
     missing (negb (protocolUsesTLS protocol) && negb (String.eqb (TLSCaCertPath cfg) ""))
       ("kafkaConfig.tlsCaCertPath is set but securityProtocol " ++ protocol ++ " does not use TLS")
       (mret tt) in
   if protocolUsesSASL protocol then validateSASL cfg protocol ca
   else missing (negb (String.eqb (SASLMechanism cfg) "") || negb (String.eqb (SASLUsername cfg) "")
                 || negb (String.eqb (SASLPassword cfg) ""))
          ("kafkaConfig SASL settings are set but securityProtocol " ++ protocol ++ " does not use SASL")
          ca).

(** ** Options of the client *)
Inductive Mechanism : Type :=
| PlainAuth (user pass : string)
| ScramSha256 (user pass : string)
| ScramSha512 (user pass : string).
(** A pool of certificates: those of the system, if they were readable, and the added ones. *)
Record CertPool : Type := mkCertPool { system_certs : bool; added_certs : list string }.
Record TLSConfig : Type := mkTLSConfig { MinVersion : string; RootCAs : option CertPool }.
Inductive CompressionCodec : Type :=
| NoCompression | GzipCompression | SnappyCompression | Lz4Compression | ZstdCompression.
Inductive Opt : Type :=
| SeedBrokers (servers : list string)
| DefaultProduceTopic (topic : string)
| ProducerBatchCompression (codec : CompressionCodec)
| ProducerBatchMaxBytes (n : Z)
| BrokerMaxWriteBytes (n : Z)
| ConsumeTopics (topic : string)
| ConsumerGroup (group : string)
| ConsumeFromEnd
| DisableAutoCommit
| FetchMaxBytes (n : Z)
| BrokerMaxReadBytes (n : Z)
| SASL (m : Mechanism)
| DialTLSConfig (c : TLSConfig).

Definition kafkaSASLMechanism {W} (cfg : KafkaConfig) : M W Mechanism :=
  let mechanism := ToUpper (SASLMechanism cfg) in
  if String.eqb mechanism saslMechanismPlain then mret (PlainAuth (SASLUsername cfg) (SASLPassword cfg))
  else if String.eqb mechanism saslMechanismScramSHA256 then
    mret (ScramSha256 (SASLUsername cfg) (SASLPassword cfg))
  else if String.eqb mechanism saslMechanismScramSHA512 then
    mret (ScramSha512 (SASLUsername cfg) (SASLPassword cfg))
  else throw (Errorf "kafkaConfig.saslMechanism is invalid").

Section Options.
Context {W : Type}.
(** A call of the system: a value or an error, and never a panic. *)
Definition syscall {A} (f : W → (A + gerror) * W) : M W A := λ w,
  match f w with (inl a, w') => (Ret a, w') | (inr e, w') => (Throw e, w') end.

(** The machine: whether the system pool is readable, files, and which texts hold
    certificates ([AppendCertsFromPEM]). *)
Variable SystemCertPool : W → bool * W.
Variable ReadFile : string → W → (string + gerror) * W.
Variable HasCerts : string → bool.

Definition kafkaTLSConfig (cfg : KafkaConfig) : M W TLSConfig :=
  if String.eqb (TLSCaCertPath cfg) "" then mret (mkTLSConfig "1.2" None)
  else
  system ← syscall (λ w, let '(ok, w') := SystemCertPool w in (inl ok, w'));
  caPEM ← wrapE "failed to read kafkaConfig.tlsCaCertPath" (syscall (ReadFile (TLSCaCertPath cfg)));
  if HasCerts caPEM then mret (mkTLSConfig "1.2" (Some (mkCertPool system [caPEM])))
  else throw (Errorf "kafkaConfig.tlsCaCertPath contains no valid PEM certificates").

Definition kafkaSecurityOptions (cfg : KafkaConfig) : M W (list Opt) :=
  validateKafkaSecurity cfg ;;
  let protocol := normalizeSecurityProtocol (SecurityProtocol cfg) in
  sasl ← (if protocolUsesSASL protocol
        then m ← kafkaSASLMechanism cfg; mret [SASL m] else mret []);
  tls ← (if protocolUsesTLS protocol
       then c ← kafkaTLSConfig cfg; mret [DialTLSConfig c] else mret []);
  mret (sasl ++ tls).
End Options.

Definition kafkaCompressionCodec (compressionType : string) : CompressionCodec :=
  let t := ToLower compressionType in
  if String.eqb t "none" then NoCompression
  else if String.eqb t "gzip" then GzipCompression
  else if String.eqb t "snappy" then SnappyCompression
  else if String.eqb t "lz4" then Lz4Compression
  else ZstdCompression.

(** ** Sizes: an [int] becomes an [int32] *)
Definition defaultKafkaMaxMessageBytes : Z := 64 * 1024 * 1024.
Definition kafkaDefaultBrokerBytes : Z := Z.shiftl 100 20.
Definition kafkaMaxBrokerBytes : Z := Z.shiftl 1 30.
Definition int32_of (z : Z) : Z := (z + 2 ^ 31) mod 2 ^ 32 - 2 ^ 31.

Definition kafkaMaxMessageBytes (cfg : KafkaConfig) : Z :=
  if 0 <? MaxMessageBytes cfg then MaxMessageBytes cfg else defaultKafkaMaxMessageBytes.
Definition kafkaRecordByteLimit (maxMessageBytes : Z) : Z :=
  if kafkaMaxBrokerBytes <? maxMessageBytes then kafkaMaxBrokerBytes else int32_of maxMessageBytes.
Definition kafkaBrokerByteLimit (maxMessageBytes : Z) : Z :=
  int32_of (Z.min (Z.max maxMessageBytes kafkaDefaultBrokerBytes) kafkaMaxBrokerBytes).

(** ** What the settings guarantee *)
Lemma int32_of_id z : - 2 ^ 31 ≤ z < 2 ^ 31 → int32_of z = z.
Proof. intros H. unfold int32_of. rewrite Z.mod_small; lia. Qed.

(** Whatever size is configured, the limits of a record and of the broker are positive
    32-bit integers, nothing wraps around, the broker accepts every record the limit allows,
    and a configured size up to one gigabyte is the limit that is used. *)
Theorem kafka_limits (cfg : KafkaConfig) :
  let max := kafkaMaxMessageBytes cfg in
  0 < kafkaRecordByteLimit max ≤ kafkaBrokerByteLimit max ∧
  kafkaBrokerByteLimit max ≤ 2 ^ 30 ∧ kafkaRecordByteLimit max = Z.min max (2 ^ 30) ∧
  (0 < MaxMessageBytes cfg ≤ 2 ^ 30 → kafkaRecordByteLimit max = MaxMessageBytes cfg).
Proof.
  intros max.
  assert (0 < max) as Hpos.
  { subst max. unfold kafkaMaxMessageBytes, defaultKafkaMaxMessageBytes.
    destruct (Z.ltb_spec 0 (MaxMessageBytes cfg)); lia. }
  assert (kafkaMaxBrokerBytes = 2 ^ 30) as Hb by reflexivity.
  assert (kafkaDefaultBrokerBytes = 104857600) as Hd by reflexivity.
  assert (kafkaRecordByteLimit max = Z.min max (2 ^ 30)) as Hr.
  { unfold kafkaRecordByteLimit. rewrite Hb. destruct (Z.ltb_spec (2 ^ 30) max); [lia|].
    rewrite int32_of_id; lia. }
  assert (kafkaBrokerByteLimit max = Z.min (Z.max max 104857600) (2 ^ 30)) as Hk.
  { unfold kafkaBrokerByteLimit. rewrite Hb, Hd. apply int32_of_id. lia. }
  rewrite Hr, Hk. split_and!; try lia. intros Hm. subst max. unfold kafkaMaxMessageBytes.
  destruct (Z.ltb_spec 0 (MaxMessageBytes cfg)); lia.
Qed.

Lemma known_protocol_cases p : known_protocol p = true →
  p = "PLAINTEXT" ∨ p = "SSL" ∨ p = "SASL_PLAINTEXT" ∨ p = "SASL_SSL".
Proof. unfold known_protocol. rewrite bool_decide_eq_true. set_solver. Qed.

(** The settings that validation accepts. *)
Definition secure_settings (cfg : KafkaConfig) : Prop :=
  let protocol := normalizeSecurityProtocol (SecurityProtocol cfg) in
  let mechanism := ToUpper (SASLMechanism cfg) in
  (protocol = "PLAINTEXT" ∨ protocol = "SSL" ∨ protocol = "SASL_PLAINTEXT" ∨ protocol = "SASL_SSL") ∧
  (if protocolUsesSASL protocol
   then (mechanism = "PLAIN" ∧ protocol = "SASL_SSL" ∨ mechanism = "SCRAM-SHA-256" ∨
         mechanism = "SCRAM-SHA-512") ∧ SASLUsername cfg ≠ "" ∧ SASLPassword cfg ≠ ""
   else SASLMechanism cfg = "" ∧ SASLUsername cfg = "" ∧ SASLPassword cfg = "") ∧
  (TLSCaCertPath cfg ≠ "" → protocolUsesTLS protocol = true).

Lemma missing_run {W A} b msg (k : M W A) w :
  missing b msg k w = if b then (Throw (Errorf msg), w) else k w.
Proof. by destruct b. Qed.

Lemma missing_ok {W} b msg (k : M W unit) w :
  missing b msg k w = (Ret tt, w) ↔ b = false ∧ k w = (Ret tt, w).
Proof. rewrite missing_run. destruct b; naive_solver. Qed.

Lemma eqb_neq_iff (a b : string) : String.eqb a b = false ↔ a ≠ b.
Proof. apply String.eqb_neq. Qed.

(** The first three settings a protocol with SASL asks for. *)
Lemma validateSASL_ok {W} (cfg : KafkaConfig) p (k : M W unit) w :
  known_protocol p = true → protocolUsesSASL p = true →
  validateSASL cfg p k w = (Ret tt, w) ↔
  (let mechanism := ToUpper (SASLMechanism cfg) in
   (mechanism = "PLAIN" ∧ p = "SASL_SSL" ∨ mechanism = "SCRAM-SHA-256" ∨ mechanism = "SCRAM-SHA-512") ∧
   SASLUsername cfg ≠ "" ∧ SASLPassword cfg ≠ "") ∧ k w = (Ret tt, w).
Proof.
  intros Hk Hsasl. unfold validateSASL. cbv zeta. rewrite !missing_ok, !eqb_neq_iff.
  set (m := ToUpper _).
  assert (negb (known_mechanism m) = false ∧
          String.eqb m saslMechanismPlain && negb (protocolUsesTLS p) = false ↔
          m = "PLAIN" ∧ p = "SASL_SSL" ∨ m = "SCRAM-SHA-256" ∨ m = "SCRAM-SHA-512") as <-; [|tauto].
  unfold known_mechanism. rewrite negb_false_iff, bool_decide_eq_true, andb_false_iff, negb_false_iff, eqb_neq_iff.
  rewrite !elem_of_cons, elem_of_nil. unfold saslMechanismPlain, saslMechanismScramSHA256, saslMechanismScramSHA512.
  assert (protocolUsesTLS p = true ↔ p = "SASL_SSL") as ->
    by (destruct (known_protocol_cases _ Hk) as [-> | [-> | [-> | ->]]]; vm_compute in Hsasl |- *; naive_solver).
  destruct (decide (m = "PLAIN")) as [->|]; naive_solver.
Qed.

Lemma validate_iff {W} (cfg : KafkaConfig) (w : W) :
  validateKafkaSecurity cfg w = (Ret tt, w) ↔ secure_settings cfg.
Proof.
  unfold validateKafkaSecurity, secure_settings. cbv zeta.
  set (p := normalizeSecurityProtocol _). rewrite missing_ok, negb_false_iff.
  assert (negb (protocolUsesTLS p) && negb (String.eqb (TLSCaCertPath cfg) "") = false ↔
          (TLSCaCertPath cfg ≠ "" → protocolUsesTLS p = true)) as Hca.
  { destruct (protocolUsesTLS p), (String.eqb_spec (TLSCaCertPath cfg) ""); cbn; naive_solver. }
  assert (known_protocol p = true ↔ p = "PLAINTEXT" ∨ p = "SSL" ∨ p = "SASL_PLAINTEXT" ∨ p = "SASL_SSL") as Hp.
  { split; [apply known_protocol_cases|]. intros [-> | [-> | [-> | ->]]]; reflexivity. }
  rewrite <- Hp. destruct (known_protocol p) eqn:Hk; [|naive_solver].
  destruct (protocolUsesSASL p) eqn:Hs.
  - rewrite validateSASL_ok, missing_ok, Hca by done. unfold mret, M_ret. tauto.
  - rewrite !missing_ok, Hca, !orb_false_iff, !negb_false_iff, !String.eqb_eq. unfold mret, M_ret. tauto.
Qed.

Lemma validate_run {W} (cfg : KafkaConfig) (w : W) :
  (∃ e, validateKafkaSecurity cfg w = (Throw e, w)) ∨ validateKafkaSecurity cfg w = (Ret tt, w).
Proof.
  unfold validateKafkaSecurity, validateSASL. cbv zeta.
  repeat (rewrite missing_run || match goal with |- context [if ?b then _ else _] => destruct b end);
    unfold mret, M_ret, throw; eauto.
Qed.

(** With settings that pass validation, the mechanism is one that is known. *)
Lemma kafkaSASLMechanism_known {W} (cfg : KafkaConfig) (w : W) :
  secure_settings cfg → protocolUsesSASL (normalizeSecurityProtocol (SecurityProtocol cfg)) = true →
  ∃ m, kafkaSASLMechanism cfg w = (Ret m, w) ∧
    (∀ u q, m = PlainAuth u q → protocolUsesTLS (normalizeSecurityProtocol (SecurityProtocol cfg)) = true).
Proof.
  intros (_ & Hs & _) Hu. cbv zeta in Hs. rewrite Hu in Hs. destruct Hs as (Hm & _ & _).
  unfold kafkaSASLMechanism. cbv zeta.
  destruct Hm as [[-> ->] | [-> | ->]]; eexists; (split; [reflexivity|]); naive_solver.
Qed.

(** The TLS settings: never below 1.2, and an error only from the file of the authority. *)
Lemma kafkaTLSConfig_run {W} SystemCertPool ReadFile HasCerts (cfg : KafkaConfig) (w : W) :
  match kafkaTLSConfig SystemCertPool ReadFile HasCerts cfg w with
  | (Ret c, _) => MinVersion c = "1.2"
  | (Throw _, _) => TLSCaCertPath cfg ≠ ""
  | (Panic _, _) => False
  end.
Proof.
  unfold kafkaTLSConfig. destruct (String.eqb_spec (TLSCaCertPath cfg) ""); [done|].
  rewrite bind_run. unfold syscall. destruct (SystemCertPool w) as [ok w1].
  rewrite bind_run, wrapE_run. destruct (ReadFile _ w1) as [[pem|e] w2]; [|done].
  by destruct (HasCerts pem).
Qed.

(** C34. Whatever the settings of Kafka's security are, the client library is given options
    only when the settings are consistent, and then a mechanism of authentication is among
    them exactly when the protocol names SASL, TLS (1.2 or later) exactly when it names TLS,
    and the one mechanism that sends the password as it is never goes without TLS.  Settings
    that are not consistent are an error and nothing is read. *)
Theorem kafka_security {W} SystemCertPool ReadFile HasCerts (cfg : KafkaConfig) (w : W) :
  let p := normalizeSecurityProtocol (SecurityProtocol cfg) in
  match kafkaSecurityOptions SystemCertPool ReadFile HasCerts cfg w with
  | (Ret opts, _) =>
      secure_settings cfg ∧
      ((∃ m, SASL m ∈ opts) ↔ protocolUsesSASL p = true) ∧
      ((∃ c, DialTLSConfig c ∈ opts) ↔ protocolUsesTLS p = true) ∧
      (∀ c, DialTLSConfig c ∈ opts → MinVersion c = "1.2") ∧
      (∀ u q, SASL (PlainAuth u q) ∈ opts → ∃ c, DialTLSConfig c ∈ opts)
  | (Throw _, w') => ¬ secure_settings cfg ∧ w' = w ∨ secure_settings cfg ∧ TLSCaCertPath cfg ≠ ""
  | (Panic _, _) => False
  end.
Proof.
  intros p. unfold kafkaSecurityOptions. rewrite bind_run.
  destruct (validate_run cfg w) as [[e He] | Hv].
  { rewrite He. left. split; [|done]. rewrite <- (validate_iff cfg w), He. done. }
  rewrite Hv. apply validate_iff in Hv. cbv zeta. fold p.
  assert (∃ sasl, (if protocolUsesSASL p then m ← kafkaSASLMechanism cfg; mret [SASL m] else mret []) w
                  = (Ret sasl, w) ∧
            ((∃ m, SASL m ∈ sasl) ↔ protocolUsesSASL p = true) ∧ (∀ c, DialTLSConfig c ∉ sasl) ∧
            (∀ u q, SASL (PlainAuth u q) ∈ sasl → protocolUsesTLS p = true))
    as (sasl & Hsasl & Hmech & Hno & Hplain).
  { destruct (protocolUsesSASL p) eqn:Hu; [|exists []; set_solver].
    destruct (kafkaSASLMechanism_known cfg w Hv Hu) as (m & Hm & Hclear).
    exists [SASL m]. rewrite bind_run, Hm. set_solver. }
  rewrite bind_run, Hsasl, bind_run. pose proof (kafkaTLSConfig_run SystemCertPool ReadFile HasCerts cfg w) as Ht.
  destruct (protocolUsesTLS p) eqn:Hu.
  - rewrite bind_run. destruct (kafkaTLSConfig _ _ _ cfg w) as [[c|e|e] w']; [|tauto..].
    rewrite !ret_run. set_solver.
  - rewrite !ret_run. rewrite (right_id_L [] (++)). set_solver.
Qed.

(** A broker that wants PLAIN: refused without TLS, accepted with it. *)
Definition sample_kafka (protocol mechanism topic : string) : KafkaConfig :=
  mkKafkaConfig ["kafka:9092"] "to-backend" topic true "" "" 0 protocol mechanism "user" "secret" "".
Example PLAIN_needs_TLS :
  (kafkaSecurityOptions (λ w, (true, w)) (λ _ w, (inl "", w)) (λ _, true) (sample_kafka "sasl_plaintext" "plain" "t") tt).1
    = Throw (Errorf "kafkaConfig.saslMechanism PLAIN sends the password in cleartext over SASL_PLAINTEXT") ∧
  (kafkaSecurityOptions (λ w, (true, w)) (λ _ w, (inl "", w)) (λ _, true) (sample_kafka "sasl_ssl" "plain" "t") tt).1
    = Ret [SASL (PlainAuth "user" "secret"); DialTLSConfig (mkTLSConfig "1.2" None)].
Proof. split; reflexivity. Qed.
