(* ===== verification/Metrics.v ===== *)
(** * Metrics: the counters of the producers, [messaging/metrics.go].

    A counter vector is a map from label sets to numbers.  Prometheus keeps them as
    floating point numbers; the sizes of payloads are exact there. *)

From S2P Require Export Messaging.

Definition prometheusBackendLabel : string := "backend".
Definition prometheusStatusLabel : string := "status".
Definition prometheusKindLabel : string := "kind".
Definition prometheusAccountLabel : string := "account".
Definition prometheusClusterLabel : string := "cluster".
Definition prometheusEventTypeLabel : string := "event_type".
Definition prometheusStatusSuccess : string := "success".
Definition prometheusStatusError : string := "error".

Abbreviation Labels := (gmap string string).
Abbreviation CounterVec := (gmap Labels Z).
Record Metrics : Type := mkMetrics {
  mqProducerMessagesProducedCounter : CounterVec;
  mqProducerMessagePayloadBytesProducedCounter : CounterVec;
  pulsarProducerMessagesProducedCounter : CounterVec;
  pulsarProducerMessagePayloadBytesProducedCounter : CounterVec
}.
Definition count (c : CounterVec) (l : Labels) : Z := default 0 (c !! l).
(** [With(labels).Add(n)]. *)
Definition Add (n : Z) (l : Labels) (c : CounterVec) : CounterVec := <[l := count c l + n]> c.

(** [properties] is [None] for the nil map. *)
Definition producerMetricLabels (backend status : string) (properties : option (gmap string string)) :
    Labels :=
  let labels : Labels :=
    <[prometheusBackendLabel := backend]>
    (<[prometheusStatusLabel := status]>
    (<[prometheusKindLabel := ""]>
    (<[prometheusClusterLabel := ""]>
    (<[prometheusAccountLabel := ""]>
    (<[prometheusEventTypeLabel := ""]> ∅))))) in
  match properties with
  | None => labels
  | Some p =>
      <[prometheusEventTypeLabel := prop_of p MsgPropEvent]>
      (<[prometheusAccountLabel := prop_of p MsgPropAccount]>
      (<[prometheusClusterLabel := prop_of p MsgPropCluster]>
      (<[prometheusKindLabel := prop_of p MsgPropResourceKindResource]> labels)))
  end.

(** The labels of the aliases: the same ones without the backend. *)
Definition pulsarLabels (metricLabels : Labels) : Labels :=
  let copy k m := <[k := prop_of metricLabels k]> m in
  copy prometheusStatusLabel (copy prometheusKindLabel (copy prometheusClusterLabel
    (copy prometheusAccountLabel (copy prometheusEventTypeLabel ∅)))).

Definition RecordProducerMessage (backend status : string) (properties : option (gmap string string))
    (payloadBytes : Z) (m : Metrics) : Metrics :=
  let metricLabels := producerMetricLabels backend status properties in
  let produced := Add 1 metricLabels (mqProducerMessagesProducedCounter m) in
  let bytes := Add payloadBytes metricLabels (mqProducerMessagePayloadBytesProducedCounter m) in
  if String.eqb backend "pulsar" then
    mkMetrics produced bytes
      (Add 1 (pulsarLabels metricLabels) (pulsarProducerMessagesProducedCounter m))
      (Add payloadBytes (pulsarLabels metricLabels) (pulsarProducerMessagePayloadBytesProducedCounter m))
  else
    mkMetrics produced bytes (pulsarProducerMessagesProducedCounter m)
      (pulsarProducerMessagePayloadBytesProducedCounter m).

(** ** What the counters count *)
Lemma count_Add n l l' c : count (Add n l c) l' = if decide (l = l') then count c l' + n else count c l'.
Proof.
  unfold Add, count. case_decide; subst; [by rewrite lookup_insert_eq|by rewrite lookup_insert_ne].
Qed.

(** A result of a producer: backend, status, properties, size. *)
Definition Produced : Type := string * string * option (gmap string string) * Z.
Definition record_produced (m : Metrics) (p : Produced) : Metrics :=
  let '(backend, status, properties, n) := p in RecordProducerMessage backend status properties n m.
Definition no_metrics : Metrics := mkMetrics ∅ ∅ ∅ ∅.
Definition labels_of (p : Produced) : Labels :=
  let '(backend, status, properties, _) := p in producerMetricLabels backend status properties.
Definition sum_bytes (ps : list Produced) : Z := foldr (λ p s, p.2 + s) 0 ps.

(** The label sets that name Pulsar, from those of the aliases. *)
Definition unalias (l : Labels) : Labels := <[prometheusBackendLabel := "pulsar"]> l.

Lemma labels_backend backend status properties :
  producerMetricLabels backend status properties !! prometheusBackendLabel = Some backend.
Proof. by destruct properties. Qed.
Lemma pulsarLabels_unalias status properties :
  unalias (pulsarLabels (producerMetricLabels "pulsar" status properties)) =
  producerMetricLabels "pulsar" status properties.
Proof.
  apply map_eq. intros k. unfold unalias, pulsarLabels, prop_of.
  destruct (decide (k ∈ [prometheusBackendLabel; prometheusStatusLabel; prometheusKindLabel;
                         prometheusAccountLabel; prometheusClusterLabel; prometheusEventTypeLabel]))
    as [Hk|Hk].
  - repeat (apply elem_of_cons in Hk as [->|Hk]); try by destruct properties.
  - repeat (apply not_elem_of_cons in Hk as [? Hk]).
    destruct properties; unfold producerMetricLabels; cbv zeta; rewrite !lookup_insert_ne by congruence; done.
Qed.
Lemma pulsarLabels_alias l status properties :
  l !! prometheusBackendLabel = None →
  pulsarLabels (producerMetricLabels "pulsar" status properties) = l ↔
  producerMetricLabels "pulsar" status properties = unalias l.
Proof.
  intros Hl. split; [intros <-; by rewrite pulsarLabels_unalias|].
  intros Heq. rewrite <- (pulsarLabels_unalias status properties) in Heq. unfold unalias in Heq.
  apply (f_equal (delete prometheusBackendLabel)) in Heq.
  rewrite !delete_insert_eq in Heq. rewrite !delete_id in Heq by done. done.
Qed.

(** The results a counter of one label set counts. *)
Definition with_labels (l : Labels) : list Produced → list Produced := filter (λ p, labels_of p = l).

Lemma with_labels_snoc l ps p :
  with_labels l (ps ++ [p]) = with_labels l ps ++ (if decide (labels_of p = l) then [p] else []).
Proof. unfold with_labels. by rewrite filter_app. Qed.
Lemma sum_bytes_app a b : sum_bytes (a ++ b) = sum_bytes a + sum_bytes b.
Proof. unfold sum_bytes. induction a as [|x a IH]; cbn in *; lia. Qed.

(** After any sequence of results of the producers, each counter of messages is the number
    of results with its labels and each counter of bytes the sum of their sizes; and the
    counters of Pulsar's own are those of the messages whose backend is Pulsar, so the
    dashboards that use the old names see the same numbers. *)
Theorem producer_metrics (ps : list Produced) (l : Labels) :
  let m := foldl record_produced no_metrics ps in
  count (mqProducerMessagesProducedCounter m) l = Z.of_nat (length (with_labels l ps)) ∧
  count (mqProducerMessagePayloadBytesProducedCounter m) l = sum_bytes (with_labels l ps) ∧
  (l !! prometheusBackendLabel = None →
   count (pulsarProducerMessagesProducedCounter m) l =
     count (mqProducerMessagesProducedCounter m) (unalias l) ∧
   count (pulsarProducerMessagePayloadBytesProducedCounter m) l =
     count (mqProducerMessagePayloadBytesProducedCounter m) (unalias l)).
Proof.
  revert l. induction ps as [|p ps IH] using rev_ind; intros l; [done|].
  destruct p as [[[backend status] properties] n]. cbv zeta in *.
  rewrite foldl_app. cbn [foldl record_produced].
  set (m := foldl record_produced no_metrics ps) in *. rewrite with_labels_snoc. cbn [labels_of].
  assert (∀ l', count (mqProducerMessagesProducedCounter (RecordProducerMessage backend status properties n m)) l'
     = count (Add 1 (producerMetricLabels backend status properties) (mqProducerMessagesProducedCounter m)) l' ∧
     count (mqProducerMessagePayloadBytesProducedCounter (RecordProducerMessage backend status properties n m)) l'
     = count (Add n (producerMetricLabels backend status properties) (mqProducerMessagePayloadBytesProducedCounter m)) l')
    as Hmq by (intros l'; unfold RecordProducerMessage; case_match; done).
  destruct (Hmq l) as [-> ->]. rewrite !count_Add. destruct (IH l) as (H1 & H2 & H3).
  split_and!.
  - rewrite length_app, H1. case_decide; cbn [length]; lia.
  - rewrite sum_bytes_app, H2. case_decide; cbn; lia.
  - intros Hl. destruct (H3 Hl) as [H4 H5]. destruct (Hmq (unalias l)) as [-> ->]. rewrite !count_Add.
    unfold RecordProducerMessage. destruct (String.eqb_spec backend "pulsar") as [->|Hne].
    + cbn [pulsarProducerMessagesProducedCounter pulsarProducerMessagePayloadBytesProducedCounter].
      rewrite !count_Add, H4, H5. pose proof (pulsarLabels_alias l status properties Hl).
      repeat case_decide; tauto.
    + cbn [pulsarProducerMessagesProducedCounter pulsarProducerMessagePayloadBytesProducedCounter].
      rewrite H4, H5. case_decide as Heq; [|done].
      pose proof (labels_backend backend status properties) as Hb. rewrite Heq in Hb.
      unfold unalias in Hb. rewrite lookup_insert_eq in Hb. congruence.
Qed.

Lemma producer_metrics_witness :
  let p : Produced := ("pulsar", "success", Some {["event" := "PutObject"]}, 7) in
  let m := foldl record_produced no_metrics [p; p] in
  let l := pulsarLabels (labels_of p) in
  count (pulsarProducerMessagesProducedCounter m) l = 2 ∧
  count (pulsarProducerMessagePayloadBytesProducedCounter m) l = 14.
Proof.
  intros p m l. destruct (producer_metrics [p; p] l) as (_ & _ & H).
  destruct (H eq_refl) as [H1 H2]. split; [refine (eq_trans H1 _)|refine (eq_trans H2 _)]; vm_compute; reflexivity.
Defined.
