(* ===== verification/Kafka.v ===== *)
(** * Kafka: the producer and the records of [adapters/backend/v1/kafka.go].

    A message of the queue becomes a record: its properties are the record's headers, the
    identity of the client is the key that keeps the messages of a cluster in one partition.
    The client of franz-go is a parameter: what it does with a record, a flush, a close. *)

From S2P Require Export KafkaConfig Metrics Queue.

Definition kafkaBackend : string := "kafka".
Record RecordHeader : Type := mkRecordHeader { rh_Key : string; rh_Value : string }.
(** [kgo.Record]; a key of [None] is the nil slice. *)
Record KRecord : Type := mkKRecord {
  rec_Key : option string;
  rec_Value : string;
  rec_Headers : list RecordHeader;
  rec_Topic : string;
  rec_Partition : Z;
  rec_Offset : Z
}.

Definition kafkaPartitionKey (account cluster : string) : option string :=
  if String.eqb account "" && String.eqb cluster "" then None
  else Some (account ++ "/" ++ cluster)%string.
(** [Range]: the order in which [range] visits a map. *)
Definition kafkaHeadersFromProperties (Range : gmap string string → list (string * string))
    (properties : gmap string string) : list RecordHeader :=
  (λ e, mkRecordHeader e.1 e.2) <$> filter (λ e, e.2 ≠ "") (Range properties).
Definition kafkaPropertiesFromHeaders (headers : list RecordHeader) : gmap string string :=
  foldl (λ m h, <[rh_Key h := rh_Value h]> m) ∅ headers.
Definition kafkaMessageID (r : KRecord) : string :=
  (rec_Topic r ++ "/" ++ Itoa (rec_Partition r) ++ "/" ++ Itoa (rec_Offset r))%string.
Definition isSelfProducedKafkaRecord (r : KRecord) : bool :=
  IsSelfProducedMessage (kafkaPropertiesFromHeaders (rec_Headers r)) "".

(** ** The producer *)
Section Producer.
Context {P : Type}.
Variable Range : gmap string string → list (string * string).
Variable now : string.
(** [kgo.Client]: a record enters the buffer; what is sent, and the result of a flush. *)
Variable Produce : Ctx → KRecord → M P unit.
Variable Flush : M P unit.
Variable CloseClient : M P unit.

Definition kafka_ProduceMessage (ctx : Ctx) (id : ClientIdentifier) (eventType payload : string)
    (optionalProperties : list (gmap string string)) : M P unit :=
  let properties := BuildProducerProperties now (Account id) (Cluster id) eventType optionalProperties in
  let record := mkKRecord (kafkaPartitionKey (Account id) (Cluster id)) payload
                  (kafkaHeadersFromProperties Range properties) "" 0 0 in
  Produce ctx record ;; mret tt.
Definition kafka_ProduceMessageWithoutIdentifier (ctx : Ctx) (eventType payload : string) : M P unit :=
  let properties := BuildProducerProperties now "" "" eventType [] in
  let record := mkKRecord None payload (kafkaHeadersFromProperties Range properties) "" 0 0 in
  Produce ctx record ;; mret tt.
Definition KafkaMessageProducer : MessageProducer P :=
  mkMessageProducer kafka_ProduceMessage kafka_ProduceMessageWithoutIdentifier.
(** Buffered records are flushed first; an error of the flush is only logged. *)
Definition kafka_producer_Close : M P unit :=
  errval Flush ;; CloseClient.
End Producer.

(** The callback of a record: [record] is [None] for the nil pointer. *)
Definition logKafkaProduceResult (record : option KRecord) (err : option gerror) (m : Metrics) : Metrics :=
  let messagePayloadBytes := match record with Some r => Z.of_nat (String.length (rec_Value r)) | None => 0 end in
  let messageProperties := (λ r, kafkaPropertiesFromHeaders (rec_Headers r)) <$> record in
  let status := match err with Some _ => prometheusStatusError | None => prometheusStatusSuccess end in
  RecordProducerMessage kafkaBackend status messageProperties messagePayloadBytes m.

(** What a worker of the reader makes of a record. *)
Definition kafka_incoming (r : KRecord) : IncomingMessage :=
  mkIncomingMessage (kafkaMessageID r) (kafkaPropertiesFromHeaders (rec_Headers r)) (rec_Value r).

(** ** Properties survive the headers *)
Section Headers.
Variable Range : gmap string string → list (string * string).
Hypothesis Range_entries : ∀ m, Range m ≡ₚ map_to_list m.

Lemma propertiesFromHeaders_lookup hs k :
  NoDup (rh_Key <$> hs) → ∀ v, kafkaPropertiesFromHeaders hs !! k = Some v ↔ mkRecordHeader k v ∈ hs.
Proof.
  unfold kafkaPropertiesFromHeaders. induction hs as [|h hs IH] using rev_ind; intros Hnd v.
  - cbn. rewrite lookup_empty, elem_of_nil. done.
  - rewrite fmap_app in Hnd. apply NoDup_app in Hnd as (Hnd & Hdis & _).
    rewrite foldl_app. cbn [foldl]. rewrite elem_of_app, list_elem_of_singleton.
    destruct h as [k' v']. cbn [rh_Key rh_Value] in *.
    destruct (decide (k' = k)) as [->|Hk].
    + rewrite lookup_insert_eq. split; [intros [= ->]; by right|].
      intros [Hin|[= ->]]; [|done]. exfalso. apply (Hdis k); [|cbn; set_solver].
      apply list_elem_of_fmap. by exists (mkRecordHeader k v).
    + rewrite lookup_insert_ne, (IH Hnd) by done. split; [by left|intros [?|[= -> ->]]; done].
Qed.

Lemma headers_keys m : NoDup (rh_Key <$> kafkaHeadersFromProperties Range m).
Proof.
  unfold kafkaHeadersFromProperties. rewrite <- list_fmap_compose. cbn.
  apply (sublist_NoDup _ ((Range m).*1)).
  - rewrite Range_entries. apply NoDup_fst_map_to_list.
  - apply fmap_sublist, sublist_filter.
Qed.

Lemma headers_lookup m k v :
  kafkaPropertiesFromHeaders (kafkaHeadersFromProperties Range m) !! k = Some v ↔
  m !! k = Some v ∧ v ≠ "".
Proof.
  rewrite propertiesFromHeaders_lookup by apply headers_keys.
  unfold kafkaHeadersFromProperties. rewrite list_elem_of_fmap. split.
  - intros ([k' v'] & [= -> ->] & Hin). apply list_elem_of_filter in Hin as [Hv Hin].
    rewrite Range_entries, elem_of_map_to_list in Hin. done.
  - intros [Hm Hv]. exists (k, v). split; [done|]. apply list_elem_of_filter. split; [done|].
    by rewrite Range_entries, elem_of_map_to_list.
Qed.
Lemma headers_prop m k :
  prop_of (kafkaPropertiesFromHeaders (kafkaHeadersFromProperties Range m)) k = prop_of m k.
Proof.
  unfold prop_of. pose proof (headers_lookup m k) as Hl.
  destruct (kafkaPropertiesFromHeaders _ !! k) as [v|].
  - destruct (proj1 (Hl v) eq_refl) as [-> _]. done.
  - destruct (m !! k) as [v|]; [|done]. destruct (decide (v = "")) as [->|Hv]; [done|].
    by specialize (proj2 (Hl v) (conj eq_refl Hv)).
Qed.
End Headers.

(** ** Messages that no reader tells apart: the same payload, the same properties as [m[k]]
    sees them, whatever the identifier. *)
Definition same_message (a b : IncomingMessage) : Prop :=
  (∀ k, prop_of (im_Properties a) k = prop_of (im_Properties b) k) ∧ im_Payload a = im_Payload b.
#[export] Instance same_message_equivalence : Equivalence same_message.
Proof.
  split; [by intros ?|by intros ? ? [? ?]|].
  intros x y z [H1 H2] [H3 H4]. split; [intros k; by rewrite H1|by rewrite H2].
Qed.
(** The handler looks at three properties. *)
Lemma Handle_routes `{MultiErr} {W X} (adapter : Adapter W X) Range ctx a b y :
  (∀ k, k ∈ [MsgPropAccount; MsgPropCluster; MsgPropEvent] →
     prop_of (im_Properties a) k = prop_of (im_Properties b) k) →
  im_Payload a = im_Payload b → Handle adapter Range ctx a y = Handle adapter Range ctx b y.
Proof.
  intros Hp Hb. unfold Handle. rewrite !Hb.
  rewrite (Hp MsgPropAccount), (Hp MsgPropCluster), (Hp MsgPropEvent) by set_solver. done.
Qed.
#[export] Instance Handle_proper `{MultiErr} {W X} (adapter : Adapter W X) Range ctx :
  Proper (same_message ==> eq ==> eq) (Handle adapter Range ctx).
Proof. intros a b [Hp Hb] y ? <-. by apply Handle_routes. Qed.
Lemma self_produced_proper a b key :
  same_message a b →
  IsSelfProducedMessage (im_Properties a) key = IsSelfProducedMessage (im_Properties b) key.
Proof. intros [Hp _]. unfold IsSelfProducedMessage. by rewrite Hp. Qed.

(** ** The transport as the rest of the server sees it *)
(** Calls of a producer: with the identity of a client or without. *)
Inductive ProducerCall : Type :=
| CallProduce (id : ClientIdentifier) (event payload : string) (props : list (gmap string string))
| CallWithoutIdentifier (event payload : string).
Definition run_call {P} (p : MessageProducer P) (ctx : Ctx) (c : ProducerCall) : M P unit :=
  match c with
  | CallProduce id event payload props => ProduceMessage p ctx id event payload props
  | CallWithoutIdentifier event payload => ProduceMessageWithoutIdentifier p ctx event payload
  end.
Definition call_client (c : ProducerCall) : string * string :=
  match c with CallProduce id _ _ _ => (Account id, Cluster id) | _ => ("", "") end.
Definition call_props (c : ProducerCall) : list (gmap string string) :=
  match c with CallProduce _ _ _ props => props | _ => [] end.
(** A broker keeps the records it is sent, in order. *)
Definition to_log (ctx : Ctx) (r : KRecord) : M (list KRecord) unit := modifyW (λ log, log ++ [r]).
(** The broker gives a record its topic and its place, and nothing else. *)
Definition fetched_as (r f : KRecord) : Prop :=
  rec_Key f = rec_Key r ∧ rec_Value f = rec_Value r ∧ rec_Headers f = rec_Headers r.
(** The record of a message: its properties as headers, its payload as value. *)
Definition record_of (Range : gmap string string → list (string * string)) (m : IncomingMessage) (r : KRecord) : Prop :=
  rec_Headers r = kafkaHeadersFromProperties Range (im_Properties m) ∧ rec_Value r = im_Payload m.
Lemma record_same Range m r f : (∀ m, Range m ≡ₚ map_to_list m) →
  record_of Range m r → fetched_as r f → same_message (kafka_incoming f) m.
Proof.
  intros HR [Hh Hv] (_ & Hv' & Hh'). split; [|by rewrite <- Hv, <- Hv'].
  intros k. cbn [kafka_incoming im_Properties]. by rewrite Hh', Hh, headers_prop.
Qed.
(** A call, the record it sends and the message that it means. *)
Definition sends (Range : gmap string string → list (string * string)) (c : ProducerCall) (r : KRecord) (m : IncomingMessage) : Prop :=
  rec_Key r = kafkaPartitionKey (call_client c).1 (call_client c).2 ∧ record_of Range m r ∧
  (free_of MsgPropProducerSource (call_props c) → ∀ key, IsSelfProducedMessage (im_Properties m) key = true).

Lemma kafka_call_run Range now ctx c log :
  ∃ r m, run_call (KafkaMessageProducer Range now to_log) ctx c log = (Ret tt, log ++ [r]) ∧
    (∀ sent, run_call (link now) ctx c sent = (Ret tt, sent ++ [m])) ∧ sends Range c r m.
Proof.
  destruct c as [id event payload props|event payload]; cbn [run_call]; do 2 eexists;
    (split; [reflexivity|]); (split; [reflexivity|]); (split; [reflexivity|]); (split; [by split|]);
    intros Hfree key; cbn [queued im_Properties]; by apply routed_source.
Qed.

Lemma kafka_calls_run Range now ctx calls log sent :
  ∃ rs ms, mfor (run_call (KafkaMessageProducer Range now to_log) ctx) calls log = (Ret tt, log ++ rs) ∧
    mfor (run_call (link now) ctx) calls sent = (Ret tt, sent ++ ms) ∧
    Forall3 (sends Range) calls rs ms.
Proof.
  revert log sent. induction calls as [|c calls IH]; intros log sent.
  - exists [], []. rewrite !(right_id_L [] (++)). split_and!; [done..|constructor].
  - destruct (kafka_call_run Range now ctx c log) as (r & m & Hr & Hm & Hc).
    destruct (IH (log ++ [r]) (sent ++ [m])) as (rs & ms & Hrs & Hms & Hall).
    exists (r :: rs), (m :: ms). cbn [mfor]. rewrite !bind_run, Hr, Hm, Hrs, Hms, <- !(assoc_L (++)).
    split_and!; [done..|by constructor].
Qed.

(** Two clusters never share a key, unless an account has a slash in its name. *)
Lemma kafkaPartitionKey_inj a c a' c' :
  no_sep slash a = true → no_sep slash a' = true →
  kafkaPartitionKey a c = kafkaPartitionKey a' c' → a = a' ∧ c = c'.
Proof.
  intros Ha Ha'. unfold kafkaPartitionKey.
  destruct (String.eqb a "" && String.eqb c "") eqn:H1;
    destruct (String.eqb a' "" && String.eqb c' "") eqn:H2; try done.
  - intros _. apply andb_true_iff in H1 as [->%String.eqb_eq ->%String.eqb_eq].
    apply andb_true_iff in H2 as [->%String.eqb_eq ->%String.eqb_eq]. done.
  - intros [= Heq]. apply (f_equal (Split slash)) in Heq.
    change ("/" ++ c)%string with (String slash c) in Heq.
    change ("/" ++ c')%string with (String slash c') in Heq.
    rewrite !Split_app in Heq by done. injection Heq as -> Heq. split; [done|].
    apply (f_equal (λ l, Join l (chr slash))) in Heq. by rewrite !Join_Split in Heq.
Qed.

(** C12. Messages as Kafka records.  Every call of the server's producer sends one record: its
    headers and its value are the message, its key is that of its cluster, the same for two
    records exactly when they are about the same cluster, and the reader of a server takes it
    for its own and skips it.  A message of any other producer, sent the same way, comes out of
    the record, whatever order its properties were visited in, as it went in: the reader
    tells whether it is its own, and handles it with any adapter, as it would the message. *)
Theorem kafka_transport Range now ctx calls (HR : ∀ m, Range m ≡ₚ map_to_list m)
    (Hprops : Forall (λ c, free_of MsgPropProducerSource (call_props c)) calls) :
  (∃ rs ms, mfor (run_call (KafkaMessageProducer Range now to_log) ctx) calls [] = (Ret tt, rs) ∧
     mfor (run_call (link now) ctx) calls [] = (Ret tt, ms) ∧
     length rs = length calls ∧ length ms = length calls ∧
     (∀ i c r m, calls !! i = Some c → rs !! i = Some r → ms !! i = Some m →
        rec_Key r = kafkaPartitionKey (call_client c).1 (call_client c).2 ∧ record_of Range m r ∧
        ∀ f, fetched_as r f → isSelfProducedKafkaRecord f = true) ∧
     (∀ i j c c' r r', calls !! i = Some c → calls !! j = Some c' → rs !! i = Some r → rs !! j = Some r' →
        no_sep slash (call_client c).1 = true → no_sep slash (call_client c').1 = true →
        rec_Key r = rec_Key r' ↔ call_client c = call_client c')) ∧
  ∀ m r f, record_of Range m r → fetched_as r f →
    isSelfProducedKafkaRecord f = IsSelfProducedMessage (im_Properties m) "" ∧
    ∀ (W X : Type) (multi : MultiErr) (adapter : Adapter W X) R hctx y,
      Handle adapter R hctx (kafka_incoming f) y = Handle adapter R hctx m y.
Proof.
  assert (∀ m r f, record_of Range m r → fetched_as r f →
    isSelfProducedKafkaRecord f = IsSelfProducedMessage (im_Properties m) "") as Hself.
  { intros m r f Hr Hf. by apply (self_produced_proper (kafka_incoming f) m ""), (record_same Range m r f). }
  split.
  - destruct (kafka_calls_run Range now ctx calls [] []) as (rs & ms & Hrs & Hms & Hall).
    assert (length rs = length calls ∧ length ms = length calls) as [Hlr Hlm]
      by (split; symmetry; [by eapply Forall3_length_lm|by eapply Forall3_length_lr]).
    assert (∀ i c r, calls !! i = Some c → rs !! i = Some r → ∃ m, ms !! i = Some m ∧ sends Range c r m) as Hsent.
    { intros i c r Hc Hr. destruct (lookup_lt_is_Some_2 ms i) as [m Hm]; [apply lookup_lt_Some in Hr; lia|].
      exists m. split; [done|]. by apply (Forall3_lookup_lmr _ _ _ _ i _ _ _ Hall). }
    exists rs, ms. split_and!; [done..| |].
    + intros i c r m Hc Hr Hm. destruct (Hsent i c r Hc Hr) as (m' & Hm' & Hkey & Hrec & Hs).
      rewrite Hm in Hm'. injection Hm' as <-. split; [done|]. split; [done|]. intros f Hf. rewrite (Hself m r f) by done.
      apply Hs. by eapply Forall_lookup_1 in Hprops.
    + intros i j c c' r r' Hc Hc' Hr Hr' Hn Hn'.
      destruct (Hsent i c r Hc Hr) as (_ & _ & -> & _), (Hsent j c' r' Hc' Hr') as (_ & _ & -> & _). split; [|by intros ->].
      intros [H1 H2]%kafkaPartitionKey_inj; [|done..]. destruct (call_client c), (call_client c'); cbn in *; congruence.
  - intros m r f Hr Hf. split; [by eapply Hself|]. intros. by rewrite (record_same Range m r f HR Hr Hf).
Qed.

Lemma kafka_transport_witness :
  let call cluster := CallProduce (mkIdentifier "acme" cluster) MsgPropEventValuePutObjectMessage "{}" [{["name" := "web"]}] in
  let log := (mfor (run_call (KafkaMessageProducer map_to_list "now" to_log) Background) [call "prod"; call "dev"] []).2 in
  length log = 2%nat ∧ Forall (λ r, isSelfProducedKafkaRecord r = true) log ∧ NoDup (rec_Key <$> log).
Proof.
  intros call log.
  destruct (kafka_transport map_to_list "now" Background [call "prod"; call "dev"] (λ m, reflexivity _))
    as ((rs & ms & Hrs & Hms & Hl & Hl' & Hall & Hkeys) & _).
  { repeat constructor. }
  subst log. rewrite Hrs. cbn [snd]. split; [exact Hl|]. destruct rs as [|r [|r' [|]]], ms as [|m [|m' [|]]]; try discriminate.
  split.
  - constructor; [|constructor; [|constructor]].
    + apply (Hall 0%nat (call "prod") r m eq_refl eq_refl eq_refl). by split_and!.
    + apply (Hall 1%nat (call "dev") r' m' eq_refl eq_refl eq_refl). by split_and!.
  - apply NoDup_cons. split; [|apply NoDup_singleton]. intros Heq%list_elem_of_singleton.
    apply (Hkeys 0%nat 1%nat (call "prod") (call "dev") r r' eq_refl eq_refl eq_refl eq_refl eq_refl eq_refl) in Heq.
    discriminate.
Defined.
