(* ===== verification/KafkaStartup.v ===== *)
(** * KafkaStartup: how the server gets its queue, [kafka.go] and [factory.go].

    [newFromConfig] builds the producer and the reader the settings ask for.  With Kafka it
    also proves at startup that both can be used, and closes what it opened when they
    cannot.  The clients of franz-go are handles of the class [Kgo]: what the library does
    when it is called, as far as this code can see. *)

From S2P Require Export Kafka.

(** ** The library, the machine, and what is relied on *)
Inductive TopicErr : Type :=
| TopicAuthorizationFailed
| UnknownTopicOrPartition
| OtherTopicErr (e : gerror).
(** Calls give a value or an error; [kgo_] is franz-go, [kadm_] its admin client, [RetryNotify]
    is [backoff.RetryNotify] with the number of retries of its policy. *)
Class Kgo (W : Type) : Type := {
  kgo_NewClient : list Opt → W → (nat + gerror) * W;
  kgo_Ping : nat → W → (unit + gerror) * W;
  kgo_Produce : nat → Ctx → KRecord → W → W;
  kgo_Flush : nat → W → (unit + gerror) * W;
  kgo_Close : nat → W → W;
  kadm_ListTopics : nat → string → W → (gmap string (option TopicErr) + gerror) * W;
  os_Hostname : W → (string + gerror) * W;
  os_ReadFile : string → W → (string + gerror) * W;
  x509_SystemCertPool : W → bool * W;
  x509_HasCerts : string → bool;
  RetryNotify : nat → M W unit → M W unit
}.

(** What a retried call may do: its operation succeeds; or fails and is the last try; or
    fails, time passes, and it is tried again, at most [n] times. *)
Inductive retried {W} (pause : W → W) (op : M W unit) : nat → W → outcome unit → W → Prop :=
| retried_ok n w w' : op w = (Ret tt, w') → retried pause op n w (Ret tt) w'
| retried_panic n w w' s : op w = (Panic s, w') → retried pause op n w (Panic s) w'
| retried_stop n w w' e e' : op w = (Throw e, w') → retried pause op n w (Throw e') w'
| retried_again n w w1 w' e o : op w = (Throw e, w1) →
    retried pause op n (pause w1) o w' → retried pause op (S n) w o w'.

(** The clients of a world that are open: only [NewClient] opens one, only [Close] closes
    it; and the library retries as its documentation says. *)
Class KgoLaws (W : Type) `{Kgo W} : Type := {
  opened : W → gset nat;
  pause : W → W;
  NewClient_opens opts w : match kgo_NewClient opts w with
    | (inl c, w') => (c ∉ opened w) ∧ opened w' = ({[c]} ∪ opened w)
    | (inr _, w') => opened w' = opened w end;
  Close_closes c w : opened (kgo_Close c w) = opened w ∖ {[c]};
  Ping_opened c w : opened (kgo_Ping c w).2 = opened w;
  Flush_opened c w : opened (kgo_Flush c w).2 = opened w;
  Produce_opened c ctx r w : opened (kgo_Produce c ctx r w) = opened w;
  ListTopics_opened c t w : opened (kadm_ListTopics c t w).2 = opened w;
  Hostname_opened w : opened (os_Hostname w).2 = opened w;
  ReadFile_opened p w : opened (os_ReadFile p w).2 = opened w;
  SystemCertPool_opened w : opened (x509_SystemCertPool w).2 = opened w;
  pause_opened w : opened (pause w) = opened w;
  RetryNotify_retries n op w : retried pause op n w (RetryNotify n op w).1 (RetryNotify n op w).2
}.

(** ** The parts of a queue, [messaging/factory.go] *)
Record KafkaMessageReader : Type := mkKafkaMessageReader {
  kr_name : string;
  kr_client : nat;
  (** The workers; the channel between the reader and them has as many places. *)
  kr_workers : Z
}.
Inductive MessageReader : Type :=
| ReadsKafka (r : KafkaMessageReader)
| ReadsPulsar (name topic : string) (workers : Z).
Record Components (W : Type) : Type := mkComponents {
  Producer : MessageProducer W;
  Reader : MessageReader;
  c_Close : option (M W unit)
}.
Arguments mkComponents {W} _ _ _.
Arguments Producer {W} _.
Arguments Reader {W} _.
Arguments c_Close {W} _.
(** [Shutdown] on a pointer to [Components]. *)
Definition Shutdown {W} (c : option (Components W)) : M W unit :=
  match c with
  | Some c => match c_Close c with Some close => close | None => mret tt end
  | None => mret tt
  end.

(** ** Startup *)
Section Startup.
Context `{Kgo W}.
Variable Range : gmap string string → list (string * string).
Variable now : string.

Definition securityOptions (cfg : KafkaConfig) : M W (list Opt) :=
  kafkaSecurityOptions x509_SystemCertPool os_ReadFile x509_HasCerts cfg.

Definition NewKafkaMessageProducer (kafkaCfg : KafkaConfig) : M W nat :=
  let maxMessageBytes := kafkaMaxMessageBytes kafkaCfg in
  securityOpts ← wrapE "failed to build kafka producer security options" (securityOptions kafkaCfg);
  let opts := [SeedBrokers (BootstrapServers kafkaCfg);
       DefaultProduceTopic (k_ProducerTopic kafkaCfg);
       ProducerBatchCompression (kafkaCompressionCodec (CompressionType kafkaCfg));
       ProducerBatchMaxBytes (kafkaRecordByteLimit maxMessageBytes);
       BrokerMaxWriteBytes (kafkaBrokerByteLimit maxMessageBytes)] in
  wrapE "failed to create kafka producer client" (syscall (kgo_NewClient (opts ++ securityOpts))).
Definition producer_of (client : nat) : MessageProducer W :=
  KafkaMessageProducer Range now (λ ctx r, modifyW (kgo_Produce client ctx r)).
Definition producer_Close (client : nat) : M W unit :=
  kafka_producer_Close (syscall (kgo_Flush client)) (modifyW (kgo_Close client)).

Definition defaultKafkaGroupIDPrefix : string := "synchronizer-server".
Definition defaultKafkaConsumerWorkers : Z := 10.
Definition NewKafkaMessageReader (cfg : Backend) (kafkaCfg : KafkaConfig) : M W KafkaMessageReader :=
  let workers := if 0 <? ConsumerWorkers cfg then ConsumerWorkers cfg else defaultKafkaConsumerWorkers in
  let groupIDPrefix := if String.eqb (GroupIDPrefix kafkaCfg) "" then defaultKafkaGroupIDPrefix
               else GroupIDPrefix kafkaCfg in
  hostname ← wrapE "failed to get hostname" (syscall os_Hostname);
  let groupID := (groupIDPrefix ++ "-" ++ hostname)%string in
  securityOpts ← wrapE "failed to build kafka consumer security options" (securityOptions kafkaCfg);
  let opts := [SeedBrokers (BootstrapServers kafkaCfg);
       ConsumeTopics (k_ConsumerTopic kafkaCfg);
       ConsumerGroup groupID;
       ConsumeFromEnd;
       DisableAutoCommit;
       FetchMaxBytes (kafkaRecordByteLimit (kafkaMaxMessageBytes kafkaCfg));
       BrokerMaxReadBytes (kafkaBrokerByteLimit (kafkaMaxMessageBytes kafkaCfg))] in
  client ← wrapE "failed to create kafka consumer client" (syscall (kgo_NewClient (opts ++ securityOpts)));
  mret (mkKafkaMessageReader groupID client workers).
Definition GroupID (r : KafkaMessageReader) : string := kr_name r.
Definition reader_Close (r : KafkaMessageReader) : M W unit := modifyW (kgo_Close (kr_client r)).

Definition kafkaPingAttempts : nat := 20.
Definition pingKafkaBrokers (clients : list nat) : M W unit :=
  let attempt := mfor (λ c, syscall (kgo_Ping c)) clients in
  let retries := match kafkaPingAttempts with O => O | S n => n end in
  RetryNotify retries attempt.

Definition errMissingKafkaTopic (topic : string) : gerror :=
  Errorf ("kafka topic " ++ quoted topic ++ " does not exist or is not visible to this client")%string.
Definition checkKafkaTopicAccess (client : nat) (topic : string) (requireTopicsExist : bool) : M W unit :=
  topicDetails ← wrapE ("failed to describe topic " ++ quoted topic)%string
           (syscall (kadm_ListTopics client topic));
  match topicDetails !! topic with
  | None => if requireTopicsExist then throw (errMissingKafkaTopic topic) else mret tt
  | Some (Some TopicAuthorizationFailed) =>
  throw (Errorf ("not authorized to access kafka topic " ++ quoted topic)%string)
  | Some (Some UnknownTopicOrPartition) =>
  if requireTopicsExist then throw (errMissingKafkaTopic topic) else mret tt
  | Some (Some (OtherTopicErr e)) =>
  throw (Wrapf ("failed to describe kafka topic " ++ quoted topic)%string e)
  | Some None => mret tt
  end.

(** [if err := m; err != nil { cleanup; return err }]. *)
Definition or_cleanup {A} (m : M W A) (cleanup : M W unit) : M W A :=
  r ← attempt m;
  match r with inl a => mret a | inr e => cleanup ;; throw e end.

Definition newKafkaFromConfig (cfg : Backend) : M W (option (Components W)) :=
  mq ← deref (MessageQueue cfg);
  match mq_KafkaConfig mq with
  | None => throw (Errorf "messageQueue.type is kafka but kafkaConfig is missing")
  | Some kafkaCfg =>
      missing (Nat.eqb (length (BootstrapServers kafkaCfg)) 0) "kafkaConfig.bootstrapServers is required"
      (missing (String.eqb (k_ProducerTopic kafkaCfg) "") "kafkaConfig.producerTopic is required"
      (missing (String.eqb (k_ConsumerTopic kafkaCfg) "") "kafkaConfig.consumerTopic is required"
      (missing (String.eqb (k_ProducerTopic kafkaCfg) (k_ConsumerTopic kafkaCfg))
         "kafkaConfig.producerTopic and kafkaConfig.consumerTopic must differ"
      (producer ← wrapE "failed to create kafka producer" (NewKafkaMessageProducer kafkaCfg);
       reader ← or_cleanup (wrapE "failed to create kafka reader" (NewKafkaMessageReader cfg kafkaCfg))
                  (producer_Close producer);
       let close := producer_Close producer ;; reader_Close reader in
       or_cleanup (wrapE "failed to reach kafka brokers"
                     (pingKafkaBrokers [producer; kr_client reader])) close ;;
       mfor (λ '(client, topic),
               or_cleanup (checkKafkaTopicAccess client topic (RequireTopicsExist kafkaCfg)) close)
            [(producer, k_ProducerTopic kafkaCfg); (kr_client reader, k_ConsumerTopic kafkaCfg)] ;;
       mret (Some (mkComponents (producer_of producer) (ReadsKafka reader) (Some close)))))))
  end.
End Startup.

(** ** Calls that leave the open clients as they are, and never panic *)
Section Calm.
Context `{KgoLaws W}.

Definition calm {A} (m : M W A) : Prop :=
  ∀ w, (∀ s, (m w).1 ≠ Panic s) ∧ opened (m w).2 = opened w.

Lemma calm_ret {A} (a : A) : calm (mret a).
Proof. by split. Qed.
Lemma calm_throw {A} e : calm (throw (A := A) e).
Proof. by split. Qed.
Lemma calm_bind {A B} (m : M W A) (f : A → M W B) : calm m → (∀ a, calm (f a)) → calm (m ≫= f).
Proof.
  intros Hm Hf w. destruct (Hm w) as [Hp Ho]. rewrite bind_run.
  destruct (m w) as [[a|e|s] w']; cbn in *; [|done|by destruct (Hp s)].
  rewrite <- Ho. apply Hf.
Qed.
Lemma calm_wrapE {A} msg (m : M W A) : calm m → calm (wrapE msg m).
Proof.
  intros Hm w. destruct (Hm w) as [Hp Ho]. rewrite wrapE_run.
  destruct (m w) as [[a|e|s] w']; cbn in *; by split.
Qed.
Lemma calm_syscall {A} (f : W → (A + gerror) * W) : (∀ w, opened (f w).2 = opened w) → calm (syscall f).
Proof. intros Hf w. specialize (Hf w). unfold syscall. destruct (f w) as [[a|e] w']; by split. Qed.
Lemma calm_missing {A} b msg (k : M W A) : calm k → calm (missing b msg k).
Proof. intros Hk. destruct b; [apply calm_throw|apply Hk]. Qed.
Lemma calm_if {A} (b : bool) (m n : M W A) : calm m → calm n → calm (if b then m else n).
Proof. by destruct b. Qed.
Lemma calm_mfor {A} (f : A → M W unit) l : (∀ a, calm (f a)) → calm (mfor f l).
Proof. intros Hf. induction l; cbn; [apply calm_ret|by apply calm_bind]. Qed.
Lemma calm_retry n op : calm op → calm (RetryNotify n op).
Proof.
  intros Hop w. pose proof (RetryNotify_retries n op w) as Hr.
  induction Hr as [n w w' Hw|n w w' s Hw|n w w' e e' Hw|n w w1 w' e o Hw _ IH];
  destruct (Hop w) as [Hp Ho]; rewrite Hw in *; cbn in *; [done|by destruct (Hp s)|done|].
  destruct IH as [IHp IHo]. split; [done|]. by rewrite IHo, pause_opened.
Qed.
End Calm.
Create HintDb calm.
#[export] Hint Resolve calm_ret calm_throw calm_bind calm_wrapE calm_syscall calm_missing calm_if
  calm_mfor calm_retry : calm.
#[export] Hint Resolve Ping_opened Flush_opened ListTopics_opened Hostname_opened ReadFile_opened : calm.
Ltac calm := intros; cbv zeta; eauto 12 with calm.

Section StartupFacts.
Context `{KgoLaws W}.

Lemma calm_securityOptions cfg : calm (securityOptions cfg).
Proof.
  unfold securityOptions, kafkaSecurityOptions. apply calm_bind.
  { intros w. destruct (validate_run cfg w) as [[e ->] | ->]; by split. }
  intros _. cbv zeta. apply calm_bind; [|intros sasl; apply calm_bind; [|calm]].
  - apply calm_if; [|calm]. apply calm_bind; [|calm]. unfold kafkaSASLMechanism. cbv zeta.
  repeat apply calm_if; calm.
  - apply calm_if; [|calm]. apply calm_bind; [|calm]. unfold kafkaTLSConfig.
  apply calm_if; [calm|]. apply calm_bind; [|intros ok; apply calm_bind; [calm|]].
  + apply calm_syscall. intros w. pose proof (SystemCertPool_opened w) as Ho.
  by destruct (x509_SystemCertPool w).
  + intros pem. apply calm_if; calm.
Qed.
Lemma calm_ping clients : calm (pingKafkaBrokers clients).
Proof. unfold pingKafkaBrokers. calm. Qed.
Lemma calm_access client topic req : calm (checkKafkaTopicAccess client topic req).
Proof.
  unfold checkKafkaTopicAccess. apply calm_bind; [calm|]. intros details.
  destruct (details !! topic) as [[[| |e]|]|]; [calm|apply calm_if; calm|calm..|apply calm_if; calm].
Qed.

(** A constructor opens one client, or none when it fails. *)
Definition opens {A} (client : A → nat) (m : M W A) : Prop := ∀ w,
  match m w with
  | (Ret a, w') => (client a ∉ opened w) ∧ opened w' = ({[client a]} ∪ opened w)
  | (Throw _, w') => opened w' = opened w
  | (Panic _, _) => False
  end.
Lemma opens_after {A B} (client : B → nat) (m : M W A) (f : A → M W B) :
  calm m → (∀ a, opens client (f a)) → opens client (m ≫= f).
Proof.
  intros Hm Hf w. destruct (Hm w) as [Hp Ho]. rewrite bind_run.
  destruct (m w) as [[a|e|s] w']; cbn in *; [|done|by apply (Hp s)].
  specialize (Hf a w'). by rewrite Ho in Hf.
Qed.
Lemma opens_wrapE {A} (client : A → nat) msg (m : M W A) : opens client m → opens client (wrapE msg m).
Proof. intros Hm w. specialize (Hm w). rewrite wrapE_run. by destruct (m w) as [[]]. Qed.
Lemma opens_map {A B} (client : A → nat) (client' : B → nat) (m : M W A) (f : A → B) :
  (∀ a, client' (f a) = client a) → opens client m → opens client' (a ← m; mret (f a)).
Proof.
  intros Hf Hm w. specialize (Hm w). rewrite bind_run.
  destruct (m w) as [[a|e|s] w']; rewrite ?ret_run, ?Hf; done.
Qed.
Lemma opens_NewClient opts : opens id (syscall (kgo_NewClient opts)).
Proof. intros w. pose proof (NewClient_opens opts w). unfold syscall. by destruct (kgo_NewClient opts w) as [[]]. Qed.

Lemma opens_producer cfg : opens id (NewKafkaMessageProducer cfg).
Proof.
  unfold NewKafkaMessageProducer. cbv zeta. apply opens_after; [apply calm_wrapE, calm_securityOptions|].
  intros opts. apply opens_wrapE, opens_NewClient.
Qed.
Lemma opens_reader cfg kcfg : opens kr_client (NewKafkaMessageReader cfg kcfg).
Proof.
  unfold NewKafkaMessageReader. cbv zeta. apply opens_after; [calm|]. intros host.
  apply opens_after; [apply calm_wrapE, calm_securityOptions|]. intros opts.
  apply (opens_map id); [done|]. apply opens_wrapE, opens_NewClient.
Qed.

Lemma producer_Close_run c w :
  ∃ w', producer_Close c w = (Ret tt, w') ∧ opened w' = opened w ∖ {[c]}.
Proof.
  unfold producer_Close, kafka_producer_Close. rewrite bind_run, errval_run. unfold syscall.
  pose proof (Flush_opened c w) as Hf. destruct (kgo_Flush c w) as [[u|e] w']; cbn in *;
  eexists; (split; [reflexivity|]); by rewrite Close_closes, Hf.
Qed.
Lemma close_both_run p r w :
  ∃ w', (producer_Close p ;; reader_Close r) w = (Ret tt, w') ∧ opened w' = opened w ∖ {[p; kr_client r]}.
Proof.
  rewrite bind_run. destruct (producer_Close_run p w) as (w1 & -> & Ho). eexists. split; [reflexivity|].
  rewrite Close_closes, Ho. set_solver.
Qed.
End StartupFacts.

(** ** What a server that started has *)
Section Started.
Context `{KgoLaws W}.

Definition usable (requireTopicsExist : bool) (detail : option (option TopicErr)) : Prop :=
  match detail with
  | Some None => True
  | None | Some (Some UnknownTopicOrPartition) => requireTopicsExist = false
  | Some (Some _) => False
  end.
Definition accessible (c : nat) (topic : string) (requireTopicsExist : bool) : Prop :=
  ∃ w1 details w2, kadm_ListTopics c topic w1 = (inl details, w2) ∧
  usable requireTopicsExist (details !! topic).
Definition reached (c : nat) : Prop := ∃ w1 w2, kgo_Ping c w1 = (inl tt, w2).

Lemma access_ok c topic req w w' :
  checkKafkaTopicAccess c topic req w = (Ret tt, w') → accessible c topic req.
Proof.
  unfold checkKafkaTopicAccess. rewrite bind_run, wrapE_run. unfold syscall.
  destruct (kadm_ListTopics c topic w) as [[details|e] w1] eqn:Hl; [|done]. intros Hrun.
  exists w, details, w1. split; [done|].
  by destruct (details !! topic) as [[[]|]|], req.
Qed.
Lemma pings_ok cs w w' :
  mfor (λ c, syscall (kgo_Ping c)) cs w = (Ret tt, w') → Forall reached cs.
Proof.
  revert w. induction cs as [|c cs IH]; intros w; [done|]. cbn. rewrite bind_run. unfold syscall at 1.
  destruct (kgo_Ping c w) as [[[]|e] w1] eqn:Hp; [|done]. intros Hrun.
  constructor; [by exists w, w1|by eapply IH].
Qed.
Lemma ping_ok cs w w' : pingKafkaBrokers cs w = (Ret tt, w') → Forall reached cs.
Proof.
  unfold pingKafkaBrokers. cbv zeta.
  match goal with |- RetryNotify ?n ?op w = _ → _ => pose proof (RetryNotify_retries n op w) as Hr end.
  intros Hrun. rewrite Hrun in Hr. cbn [fst snd] in Hr. remember (Ret tt) as o eqn:Ho.
  clear Hrun. induction Hr; simplify_eq; eauto using pings_ok.
Qed.

(** What a failure leaves: the clients that the cleanup closes. *)
Lemma cleanup_run {A} (m : M W A) close S w :
  calm m → (∀ w, ∃ w', close w = (Ret tt, w') ∧ opened w' = opened w ∖ S) →
  match or_cleanup m close w with
  | (Ret a, w') => m w = (Ret a, w') ∧ opened w' = opened w
  | (Throw _, w') => opened w' = opened w ∖ S
  | (Panic _, _) => False
  end.
Proof.
  intros Hm Hclose. destruct (Hm w) as [Hp Ho]. unfold or_cleanup. rewrite bind_run, attempt_run.
  destruct (m w) as [[a|e|s] w1] eqn:Hrun; cbn in *; [done| |by destruct (Hp s)].
  destruct (Hclose w1) as (w2 & Hc & Ho2). rewrite bind_run, Hc. cbn. by rewrite Ho2, Ho.
Qed.

(** The topics the clients of a server that started use. *)
Definition started (kcfg : KafkaConfig) (p r : nat) : Prop :=
  k_ProducerTopic kcfg ≠ "" ∧ k_ConsumerTopic kcfg ≠ "" ∧ k_ProducerTopic kcfg ≠ k_ConsumerTopic kcfg ∧
  reached p ∧ reached r ∧ accessible p (k_ProducerTopic kcfg) (RequireTopicsExist kcfg) ∧
  accessible r (k_ConsumerTopic kcfg) (RequireTopicsExist kcfg).

(** The part of the startup that has both clients. *)
Definition verified (kcfg : KafkaConfig) (p r : nat) (close : M W unit) : M W unit :=
  or_cleanup (wrapE "failed to reach kafka brokers" (pingKafkaBrokers [p; r])) close ;;
  mfor (λ '(client, topic),
      or_cleanup (checkKafkaTopicAccess client topic (RequireTopicsExist kcfg)) close)
   [(p, k_ProducerTopic kcfg); (r, k_ConsumerTopic kcfg)].
Lemma verified_run kcfg p r close S w :
  (∀ w, ∃ w', close w = (Ret tt, w') ∧ opened w' = opened w ∖ S) →
  match verified kcfg p r close w with
  | (Ret _, w') => opened w' = opened w ∧ reached p ∧ reached r ∧
  accessible p (k_ProducerTopic kcfg) (RequireTopicsExist kcfg) ∧
  accessible r (k_ConsumerTopic kcfg) (RequireTopicsExist kcfg)
  | (Throw _, w') => opened w' = opened w ∖ S
  | (Panic _, _) => False
  end.
Proof.
  intros Hclose. unfold verified. rewrite bind_run.
  pose proof (cleanup_run (wrapE "failed to reach kafka brokers" (pingKafkaBrokers [p; r])) close S w
              (calm_wrapE _ _ (calm_ping _)) Hclose) as Hc.
  destruct (or_cleanup _ close w) as [[[]|e|s] w1]; [|done..]. destruct Hc as [Hping Ho1].
  rewrite wrapE_run in Hping. destruct (pingKafkaBrokers _ w) as [[[]|e|s] w1'] eqn:Hpings; simplify_eq.
  apply ping_ok in Hpings. apply Forall_cons in Hpings as [Hp Hpings]. apply Forall_cons in Hpings as [Hr _].
  cbn [mfor]. rewrite bind_run.
  pose proof (λ c t, cleanup_run _ close S w1 (calm_access c t (RequireTopicsExist kcfg)) Hclose) as Hc1.
  specialize (Hc1 p (k_ProducerTopic kcfg)).
  destruct (or_cleanup (checkKafkaTopicAccess p _ _) close w1) as [[[]|e|s] w2]; [|congruence|done].
  destruct Hc1 as [Ha1 Ho2]. rewrite bind_run.
  pose proof (cleanup_run _ close S w2 (calm_access r (k_ConsumerTopic kcfg) (RequireTopicsExist kcfg)) Hclose) as Hc2.
  destruct (or_cleanup (checkKafkaTopicAccess r _ _) close w2) as [[[]|e|s] w3]; [|congruence|done].
  destruct Hc2 as [Ha2 Ho3]. rewrite ret_run. split_and!; [congruence|done..| |];
  eapply access_ok; eassumption.
Qed.
End Started.

(** Two clients that were opened one after the other, and closed. *)
Lemma two_opened (X X1 X2 : gset nat) p r :
  p ∉ X → X1 = {[p]} ∪ X → r ∉ X1 → X2 = {[r]} ∪ X1 →
  (r ∉ X) ∧ p ≠ r ∧ X2 = X ∪ {[p; r]} ∧ X2 ∖ {[p; r]} = X.
Proof. intros Hp -> Hr ->. split_and!; set_solver. Qed.

(** What a startup leaves, for each of its results. *)
Definition startup_result `{KgoLaws W} Range now (cfg : Backend) (w : W)
    (r : outcome (option (Components W)) * W) : Prop :=
  match r with
  | (Ret comps, w') => ∃ c kcfg p r,
      comps = Some c ∧ (mq ← MessageQueue cfg; mq_KafkaConfig mq) = Some kcfg ∧
      Producer c = producer_of Range now p ∧ Reader c = ReadsKafka r ∧
      (p ∉ opened w) ∧ (kr_client r ∉ opened w) ∧ p ≠ kr_client r ∧
      opened w' = opened w ∪ {[p; kr_client r]} ∧ started kcfg p (kr_client r) ∧
      ∀ w1, ∃ w2, Shutdown comps w1 = (Ret tt, w2) ∧ opened w2 = opened w1 ∖ {[p; kr_client r]}
  | (Throw _, w') => opened w' = opened w
  | (Panic _, w') => MessageQueue cfg = None ∧ w' = w
  end.
Lemma newKafkaFromConfig_run `{KgoLaws W} Range now (cfg : Backend) (w : W) :
  startup_result Range now cfg w (newKafkaFromConfig Range now cfg w).
Proof.
  unfold startup_result, newKafkaFromConfig. destruct (MessageQueue cfg) as [mq|]; [|done].
  rewrite deref_bind_Some. cbn [mbind option_bind]. destruct (mq_KafkaConfig mq) as [kcfg|]; [|done].
  rewrite !missing_run. destruct (Nat.eqb _ 0); [done|].
  destruct (String.eqb_spec (k_ProducerTopic kcfg) ""); [done|].
  destruct (String.eqb_spec (k_ConsumerTopic kcfg) ""); [done|].
  destruct (String.eqb_spec (k_ProducerTopic kcfg) (k_ConsumerTopic kcfg)); [done|].
  rewrite bind_run. pose proof (opens_wrapE _ "failed to create kafka producer" _ (opens_producer kcfg) w) as Hp.
  destruct (wrapE _ _ w) as [[p|e|s] w1]; [|done..]. destruct Hp as [Hp Ho1]. cbn [id] in *.
  rewrite bind_run. unfold or_cleanup at 1. rewrite bind_run, attempt_run.
  pose proof (opens_wrapE _ "failed to create kafka reader" _ (opens_reader cfg kcfg) w1) as Hr.
  destruct (wrapE _ _ w1) as [[r|e|s] w2]; [| |done].
  2: { destruct (producer_Close_run p w2) as (w3 & Hc & Ho3). rewrite bind_run, Hc. cbn.
       rewrite Ho3, Hr, Ho1. set_solver. }
  destruct Hr as [Hr Ho2]. destruct (two_opened _ _ _ _ _ Hp Ho1 Hr Ho2) as (? & ? & ? & Hclosed).
  rewrite ret_run. cbv zeta beta iota.
  set (close := _ ← producer_Close p; reader_Close r) in *.
  match goal with |- context [?m w2] =>
    assert (m w2 = (verified kcfg p (kr_client r) close ;;
       mret (Some (mkComponents (producer_of Range now p) (ReadsKafka r) (Some close)))) w2) as ->
      by (unfold verified; rewrite !bind_run; by destruct (or_cleanup _ _ w2) as [[]]) end.
  rewrite bind_run. pose proof (verified_run kcfg p (kr_client r) close _ w2 (close_both_run p r)) as Hv.
  destruct (verified kcfg p (kr_client r) close w2) as [[[]|e|s] w3]; [|congruence|done].
  destruct Hv as (Ho3 & Hv). rewrite ret_run.
  eexists _, kcfg, p, r. split_and!; [reflexivity..|done|done|done|congruence|unfold started; tauto|].
  intros w4. apply close_both_run.
Qed.

(** C22. Starting with Kafka never leaks a connection and never fails half-way in silence: a
    startup that fails closes every client it opened; one that succeeds has opened exactly
    two, both have reached the brokers, each may use its topic, the two topics differ, and
    [Shutdown] closes both.  It panics only without the settings of a queue, and then
    before it opens anything. *)
Theorem kafka_startup `{KgoLaws W} Range now (cfg : Backend) (w : W) :
  match newKafkaFromConfig Range now cfg w with
  | (Ret comps, w') => ∃ c kcfg p r,
      comps = Some c ∧ (mq ← MessageQueue cfg; mq_KafkaConfig mq) = Some kcfg ∧
      Producer c = producer_of Range now p ∧ Reader c = ReadsKafka r ∧
      (p ∉ opened w) ∧ (kr_client r ∉ opened w) ∧ p ≠ kr_client r ∧
      opened w' = opened w ∪ {[p; kr_client r]} ∧ started kcfg p (kr_client r) ∧
      ∀ w1, ∃ w2, Shutdown comps w1 = (Ret tt, w2) ∧ opened w2 = opened w1 ∖ {[p; kr_client r]}
  | (Throw _, w') => opened w' = opened w
  | (Panic _, w') => MessageQueue cfg = None ∧ w' = w
  end.
Proof. exact (newKafkaFromConfig_run Range now cfg w). Qed.

(** A library whose brokers answer, and that knows the topics of a list. *)
Definition one_try {W} (n : nat) (op : M W unit) : M W unit := op.
#[local] Instance sample_Kgo (topics : list string) : Kgo (gset nat) := {
  kgo_NewClient _ w := (inl (fresh w), {[fresh w]} ∪ w);
  kgo_Ping _ w := (inl tt, w);
  kgo_Produce _ _ _ w := w;
  kgo_Flush _ w := (inl tt, w);
  kgo_Close c w := w ∖ {[c]};
  kadm_ListTopics _ t w := (inl (if decide (t ∈ topics) then {[t := None]} else ∅), w);
  os_Hostname w := (inl "pod-0", w);
  os_ReadFile _ w := (inr (Errorf "no such file"), w);
  x509_SystemCertPool w := (true, w);
  x509_HasCerts _ := false;
  RetryNotify := one_try
}.
#[local] Instance sample_KgoLaws topics : @KgoLaws (gset nat) (sample_Kgo topics).
Proof.
  refine (@Build_KgoLaws _ (sample_Kgo topics) id id _ _ _ _ _ _ _ _ _ _ _); try done.
  - intros opts w. cbn. split; [apply is_fresh|done].
  - intros n op w. cbn. unfold one_try. destruct (op w) as [[[]|e|s] w'] eqn:Hop; cbn;
      [by apply retried_ok|by eapply retried_stop|by apply retried_panic].
Defined.
Definition sample_queue_backend (producer consumer : string) : Backend :=
  mkBackend 8080 None "" None "" "" 4 None None None [] None
    (Some (mkMessageQueueConfig "kafka" (Some (mkKafkaConfig ["kafka:9092"] producer consumer true "" ""
                                              0 "" "" "" "" "")))).

Lemma kafka_startup_witness :
  let start topics := @newKafkaFromConfig _ (sample_Kgo topics) map_to_list "now" (sample_queue_backend "out" "in") in
  (start ["out"] ∅).2 = ∅ ∧
  ∃ c w1 w2, start ["out"; "in"] ∅ = (Ret (Some c), w1) ∧ size w1 = 2%nat ∧
    Shutdown (Some c) w1 = (Ret tt, w2) ∧ w2 = ∅.
Proof.
  intros start. split; [vm_compute; reflexivity|].
  pose proof (@kafka_startup _ (sample_Kgo ["out"; "in"]) (sample_KgoLaws _) map_to_list "now"
                (sample_queue_backend "out" "in") ∅) as Hs.
  destruct (start ["out"; "in"] ∅) as [o w1] eqn:Hrun. unfold start in Hrun. rewrite Hrun in Hs.
  destruct o as [comps|e|s]; [|exfalso; vm_compute in Hrun; discriminate Hrun|done].
  destruct Hs as (c & kcfg & p & r & -> & _ & _ & _ & _ & _ & Hne & Ho & _ & Hclose).
  destruct (Hclose w1) as (w2 & Hc & Ho2). exists c, w1, w2. cbn in Ho, Ho2. split; [reflexivity|].
  split; [|split; [exact Hc|]]; subst; [|set_solver].
  rewrite size_union, size_empty, size_union, !size_singleton; [reflexivity|set_solver|set_solver].
Defined.
