(* ===== verification/KafkaReader.v ===== *)
(** * KafkaReader: the goroutines of the Kafka reader, [adapters/backend/v1/kafka.go].

    [Start] runs [readerLoop], which fetches records and sends them on a channel, and the
    workers, which receive from it and handle.  The loop closes the channel when it returns.
    A state is what they share; an event is what one of them does next, or the environment:
    the context is cancelled, the client is closed, the broker has records. *)

From S2P Require Export KafkaStartup Runs.

(** Where [readerLoop] is: at [PollFetches], inside [EachRecord] with records to visit, past
    its [return], past the [close] that follows. *)
Inductive LoopState : Type :=
| Polling
| Visiting (rest : list KRecord)
| Returned
| ChannelClosed.
(** Where a worker is: at its [select], in [Handle], past its [return]. *)
Inductive WorkerState : Type :=
| Waiting
| Handling (r : KRecord)
| WorkerDone.
#[export] Instance RecordHeader_eq_dec : EqDecision RecordHeader.
Proof. solve_decision. Defined.
#[export] Instance KRecord_eq_dec : EqDecision KRecord.
Proof. solve_decision. Defined.
#[export] Instance WorkerState_eq_dec : EqDecision WorkerState.
Proof. solve_decision. Defined.
(** The last four fields only record what happened: the records that were visited, sent,
    received and handled. *)
Record ReaderState : Type := mkReaderState {
  ctx_done : bool;
  client_closed : bool;
  loop : LoopState;
  channel : list KRecord;
  channel_closed : bool;
  workers : list WorkerState;
  crashed : bool;
  visited : list KRecord;
  sent : list KRecord;
  received : list KRecord;
  handled : list KRecord
}.
Inductive ReaderEvent : Type :=
| CancelContext
| CloseTheClient
| FetchRecords (rs : list KRecord)
| LoopReturns
| NextRecord
| RecordDropped
| EndOfFetch
| CloseChannel
| ReceiveRecord (w : nat)
| HandleReturns (w : nat)
| WorkerReturns (w : nat).

Section Updates.
Variable s : ReaderState.
Definition set_loop (l : LoopState) : ReaderState :=
  mkReaderState (ctx_done s) (client_closed s) l (channel s) (channel_closed s) (workers s) (crashed s)
    (visited s) (sent s) (received s) (handled s).
Definition visit (r : KRecord) (rs : list KRecord) : ReaderState :=
  mkReaderState (ctx_done s) (client_closed s) (Visiting rs) (channel s) (channel_closed s) (workers s)
    (crashed s) (visited s ++ [r]) (sent s) (received s) (handled s).
Definition send (r : KRecord) : ReaderState :=
  mkReaderState (ctx_done s) (client_closed s) (loop s) (channel s ++ [r]) (channel_closed s) (workers s)
    (crashed s) (visited s) (sent s ++ [r]) (received s) (handled s).
Definition crash : ReaderState :=
  mkReaderState (ctx_done s) (client_closed s) (loop s) (channel s) (channel_closed s) (workers s) true
    (visited s) (sent s) (received s) (handled s).
Definition set_worker (w : nat) (st : WorkerState) : ReaderState :=
  mkReaderState (ctx_done s) (client_closed s) (loop s) (channel s) (channel_closed s) (<[w := st]> (workers s))
    (crashed s) (visited s) (sent s) (received s) (handled s).
End Updates.

(** The capacity of the channel: [make(chan *kgo.Record, workers)]. *)
Definition capacity (s : ReaderState) : nat := length (workers s).

(** [readerLoop], with the [close] that its caller does next. *)
Definition loop_step (e : ReaderEvent) (s : ReaderState) : option ReaderState :=
  match e, loop s with
  | FetchRecords rs, Polling =>
      if client_closed s || ctx_done s then None else Some (set_loop s (Visiting rs))
  | LoopReturns, Polling =>
      if client_closed s || ctx_done s then Some (set_loop s Returned) else None
  | NextRecord, Visiting (r :: rs) =>
      if isSelfProducedKafkaRecord r then Some (visit s r rs)
      else if channel_closed s then Some (crash s)
      else if (length (channel s) <? capacity s)%nat then Some (send (visit s r rs) r)
      else None
  | RecordDropped, Visiting (r :: rs) =>
      if negb (isSelfProducedKafkaRecord r) && ctx_done s then Some (visit s r rs) else None
  | EndOfFetch, Visiting [] => Some (set_loop s Polling)
  | CloseChannel, Returned =>
      if channel_closed s then Some (crash s)
      else Some (mkReaderState (ctx_done s) (client_closed s) ChannelClosed (channel s) true (workers s)
                   (crashed s) (visited s) (sent s) (received s) (handled s))
  | _, _ => None
  end.
(** [listenOnMessageChannel], in the worker [w]. *)
Definition worker_step (e : ReaderEvent) (s : ReaderState) : option ReaderState :=
  match e with
  | ReceiveRecord w =>
      match workers s !! w, channel s with
      | Some Waiting, r :: rest =>
          Some (mkReaderState (ctx_done s) (client_closed s) (loop s) rest (channel_closed s)
                  (<[w := Handling r]> (workers s)) (crashed s) (visited s) (sent s) (received s ++ [r]) (handled s))
      | _, _ => None
      end
  | HandleReturns w =>
      match workers s !! w with
      | Some (Handling r) =>
          Some (mkReaderState (ctx_done s) (client_closed s) (loop s) (channel s) (channel_closed s)
                  (<[w := Waiting]> (workers s)) (crashed s) (visited s) (sent s) (received s) (handled s ++ [r]))
      | _ => None
      end
  | WorkerReturns w =>
      match workers s !! w with
      | Some Waiting =>
          if ctx_done s || (channel_closed s && bool_decide (channel s = [])) then Some (set_worker s w WorkerDone)
          else None
      | _ => None
      end
  | _ => None
  end.
(** What the rest of the server and the broker do. *)
Definition environment_step (e : ReaderEvent) (s : ReaderState) : option ReaderState :=
  match e with
  | CancelContext =>
      Some (mkReaderState true (client_closed s) (loop s) (channel s) (channel_closed s) (workers s) (crashed s)
              (visited s) (sent s) (received s) (handled s))
  | CloseTheClient =>
      Some (mkReaderState (ctx_done s) true (loop s) (channel s) (channel_closed s) (workers s) (crashed s)
              (visited s) (sent s) (received s) (handled s))
  | _ => None
  end.
(** A crash of one goroutine is the end of the process. *)
Definition reader_step (e : ReaderEvent) (s : ReaderState) : option ReaderState :=
  if crashed s then None else
  match e with
  | CancelContext | CloseTheClient => environment_step e s
  | FetchRecords _ | LoopReturns | NextRecord | RecordDropped | EndOfFetch | CloseChannel => loop_step e s
  | ReceiveRecord _ | HandleReturns _ | WorkerReturns _ => worker_step e s
  end.
(** [Start]. *)
Definition reader_start (n : nat) : ReaderState :=
  mkReaderState false false Polling [] false (replicate n Waiting) false [] [] [] [].

(** ** The invariant *)
Definition foreign : list KRecord → list KRecord := filter (λ r, isSelfProducedKafkaRecord r = false).
Definition in_hand (w : WorkerState) : option KRecord :=
  match w with Handling r => Some r | _ => None end.
Record reader_ok (n : nat) (s : ReaderState) : Prop := {
  ok_crashed : crashed s = false;
  ok_closed : channel_closed s = true ↔ loop s = ChannelClosed;
  ok_workers : length (workers s) = n;
  ok_capacity : (length (channel s) ≤ n)%nat;
  ok_fifo : sent s = received s ++ channel s;
  ok_received : received s ≡ₚ handled s ++ omap in_hand (workers s);
  ok_foreign : sent s `sublist_of` foreign (visited s);
  ok_complete : ctx_done s = false → sent s = foreign (visited s);
  ok_done : WorkerDone ∈ workers s → ctx_done s = true ∨ channel_closed s = true ∧ channel s = []
}.

Lemma foreign_snoc l r :
  foreign (l ++ [r]) = foreign l ++ (if isSelfProducedKafkaRecord r then [] else [r]).
Proof. unfold foreign. rewrite filter_app, filter_cons. by destruct (isSelfProducedKafkaRecord r). Qed.
Lemma omap_in_hand_insert ws w st st' :
  ws !! w = Some st →
  omap in_hand (<[w := st']> ws) ++ option_list (in_hand st) ≡ₚ
  omap in_hand ws ++ option_list (in_hand st').
Proof.
  intros Hw. rewrite (insert_take_drop ws w st') by by eapply lookup_lt_Some.
  rewrite <- (take_drop_middle ws w st Hw) at 3. rewrite !omap_app. cbn.
  destruct (in_hand st), (in_hand st'); cbn; solve_Permutation.
Qed.

Lemma reader_start_ok n : reader_ok n (reader_start n).
Proof.
  split; cbn; try done; try lia.
  - apply length_replicate.
  - induction n; cbn; [done|exact IHn].
  - intros Hw. apply elem_of_replicate in Hw as [? _]. done.
Qed.

(** One lemma for each thing the loop does. *)
Section LoopOk.
Context (n : nat) (s : ReaderState) (Hok : reader_ok n s).

Lemma set_loop_ok l : loop s ≠ ChannelClosed → l ≠ ChannelClosed → reader_ok n (set_loop s l).
Proof using Hok.
  intros Hl Hl'. destruct Hok. split; cbn; try done. split; [|done]. intros Hc. by apply ok_closed0 in Hc.
Qed.
Lemma visit_ok r rs : loop s ≠ ChannelClosed → isSelfProducedKafkaRecord r = true ∨ ctx_done s = true →
  reader_ok n (visit s r rs).
Proof using Hok.
  intros Hl Hr. destruct Hok. split; cbn; try done.
  - split; [|done]. intros Hc. by apply ok_closed0 in Hc.
  - rewrite foreign_snoc. by apply sublist_inserts_r.
  - intros Hc. rewrite foreign_snoc. destruct Hr as [-> |Hr]; [|congruence].
    rewrite (right_id_L [] (++)). by apply ok_complete0.
Qed.
Lemma send_ok r rs : loop s ≠ ChannelClosed → isSelfProducedKafkaRecord r = false →
  (length (channel s) < capacity s)%nat → reader_ok n (send (visit s r rs) r).
Proof using Hok.
  intros Hl Hr Hlen. destruct Hok. unfold capacity in Hlen. split; cbn; try done.
  - split; [|done]. intros Hc. by apply ok_closed0 in Hc.
  - rewrite length_app. cbn. lia.
  - by rewrite ok_fifo0, (assoc_L (++)).
  - rewrite foreign_snoc, Hr. by apply sublist_app.
  - intros Hc. by rewrite foreign_snoc, Hr, ok_complete0.
  - intros Hw. destruct (ok_done0 Hw) as [?|[Hc _]]; [by left|]. by apply ok_closed0 in Hc.
Qed.
End LoopOk.

(** Opens a step into the cases where it is possible. *)
Ltac step_cases H := repeat (case_match; try discriminate H); injection H as <-.

Lemma loop_step_ok n e s s' : reader_ok n s → loop_step e s = Some s' → reader_ok n s'.
Proof.
  intros Hok Hs. pose proof (ok_closed _ _ Hok) as Hcl.
  unfold loop_step in Hs. destruct e, (loop s) as [|[|r rest]| |] eqn:Hl; try discriminate Hs.
  - step_cases Hs. apply set_loop_ok; congruence.
  - step_cases Hs. apply set_loop_ok; congruence.
  - step_cases Hs.
    + apply visit_ok; [done|congruence|by left].
    + naive_solver.
    + apply send_ok; [done|congruence|done|]. by apply Nat.ltb_lt.
  - destruct (isSelfProducedKafkaRecord r), (ctx_done s) eqn:Hd; cbn in Hs; try discriminate Hs.
    injection Hs as <-. apply visit_ok; [done|congruence|by right].
  - step_cases Hs. apply set_loop_ok; congruence.
  - step_cases Hs; [naive_solver|]. destruct Hok. split; cbn; try done.
    intros Hw. destruct (ok_done0 Hw) as [?|[? ?]]; [by left|congruence].
Qed.

Lemma worker_step_ok n e s s' : reader_ok n s → worker_step e s = Some s' → reader_ok n s'.
Proof.
  intros Hok Hs. destruct Hok. unfold worker_step in Hs.
  destruct e as [| | | | | | | |w|w|w]; try discriminate Hs;
    destruct (workers s !! w) as [st|] eqn:Hw; try discriminate Hs; destruct st as [|r|]; try discriminate Hs.
  - destruct (channel s) as [|r rest] eqn:Hch; [discriminate Hs|]. injection Hs as <-.
    pose proof (omap_in_hand_insert _ _ _ (Handling r) Hw) as Hin. cbn in Hin.
    split; cbn; rewrite ?length_insert; try done.
    + cbn in ok_capacity0. lia.
    + by rewrite ok_fifo0, <- (assoc_L (++)).
    + rewrite (right_id_L [] (++)) in Hin. rewrite Hin, ok_received0. solve_Permutation.
    + intros (i & Hi)%list_elem_of_lookup. apply list_lookup_insert_Some in Hi.
      destruct Hi as [[-> [? _]]|[_ Hi]]; [done|].
      destruct ok_done0 as [?|[_ ?]]; [by eapply list_elem_of_lookup_2|by left|done].
  - injection Hs as <-. pose proof (omap_in_hand_insert _ _ _ Waiting Hw) as Hin. cbn in Hin.
    rewrite (right_id_L [] (++)) in Hin. split; cbn; rewrite ?length_insert; try done.
    + rewrite ok_received0, <- Hin. solve_Permutation.
    + intros (i & Hi)%list_elem_of_lookup. apply list_lookup_insert_Some in Hi.
      destruct Hi as [[-> [? _]]|[_ Hi]]; [done|]. apply ok_done0. by eapply list_elem_of_lookup_2.
  - destruct (_ || _) eqn:Hcond; [|discriminate Hs]. injection Hs as <-.
    pose proof (omap_in_hand_insert _ _ _ WorkerDone Hw) as Hin. cbn in Hin.
    rewrite !(right_id_L [] (++)) in Hin. split; cbn; rewrite ?length_insert; try done.
    + by rewrite Hin.
    + intros _. apply orb_true_iff in Hcond as [?|[? ?]%andb_true_iff]; [by left|right].
      split; [done|]. by eapply bool_decide_eq_true.
Qed.

Lemma reader_step_ok n e s s' : reader_ok n s → reader_step e s = Some s' → reader_ok n s'.
Proof.
  intros Hok. unfold reader_step. destruct (crashed s); [done|].
  destruct e; eauto using loop_step_ok, worker_step_ok; intros [= <-]; destruct Hok; split; cbn; try done.
  intros Hw. destruct (ok_done0 Hw) as [?|?]; [by left|by right].
Qed.
Lemma reachable_ok n s : reachable reader_step (reader_start n) s → reader_ok n s.
Proof.
  apply reachable_invariant; [|apply reader_start_ok]. intros. by eapply reader_step_ok.
Qed.

(** C17. The reader of Kafka is safe in every interleaving of its goroutines, of the
    cancellation and of the broker: it never sends on a closed channel nor closes one twice,
    the channel never holds more than its capacity, the workers receive what was sent in the
    order of the topic, none of it was produced by a synchronizer server, and every record
    received is handled or in the hands of one worker.  Until the context is cancelled,
    nothing that was read is lost. *)
Theorem kafka_reader_safe n s (Hs : reachable reader_step (reader_start n) s) :
  crashed s = false ∧ (length (channel s) ≤ n)%nat ∧
  received s ++ channel s = sent s ∧ sent s `sublist_of` foreign (visited s) ∧
  Forall (λ r, isSelfProducedKafkaRecord r = false) (received s) ∧
  received s ≡ₚ handled s ++ omap in_hand (workers s) ∧
  (ctx_done s = false → sent s = foreign (visited s)).
Proof.
  destruct (reachable_ok _ _ Hs). split_and!; try done.
  apply Forall_forall. intros r Hr.
  assert (r ∈ foreign (visited s)) as Hin.
  { eapply elem_of_sublist; [|exact ok_foreign0]. rewrite ok_fifo0. set_solver. }
  by apply list_elem_of_filter in Hin as [? _].
Qed.

(** ** The order in which records are handled *)
Lemma single_worker_step e s s' :
  reader_step e s = Some s' → length (workers s) = 1%nat →
  received s = handled s ++ omap in_hand (workers s) →
  length (workers s') = 1%nat ∧ received s' = handled s' ++ omap in_hand (workers s').
Proof.
  intros Hs Hw Hr. destruct (workers s) as [|st [|]] eqn:Hws; try done. clear Hw.
  unfold reader_step in Hs. destruct (crashed s); [done|].
  destruct e as [| |rs| | | | | |w|w|w]; cbn [environment_step loop_step worker_step] in Hs;
    try (unfold loop_step in Hs; step_cases Hs; cbn; rewrite ?Hws; done);
    rewrite ?Hws in Hs; (destruct w as [|w]; [|by destruct st]); cbn in Hs; destruct st as [|r|]; try discriminate Hs; cbn in Hr.
  - destruct (channel s) as [|r rest]; [discriminate Hs|]. injection Hs as <-. cbn.
    by rewrite Hr, (right_id_L [] (++)).
  - injection Hs as <-. cbn. by rewrite Hr, (right_id_L [] (++)).
  - step_cases Hs. cbn. by rewrite Hws.
Qed.
Lemma foreign_run n r r' :
  isSelfProducedKafkaRecord r = false → isSelfProducedKafkaRecord r' = false →
  run reader_step [FetchRecords [r; r']; NextRecord; NextRecord; EndOfFetch; ReceiveRecord 0; ReceiveRecord 1]
    (reader_start (S (S n))) =
  Some (mkReaderState false false Polling [] false (Handling r :: Handling r' :: replicate n Waiting) false
          [r; r'] [r; r'] [r; r'] []).
Proof.
  intros Hr Hr'. cbn [run]. unfold reader_step, reader_start. cbn. rewrite Hr. cbn. rewrite Hr'.
  unfold capacity. cbn. reflexivity.
Qed.

(** C37. With one worker the records are handled in the order of the topic, in every
    interleaving.  With more, as by default, any two records of other producers that follow
    one another can be handled in the other order, whatever their key: the order that the
    partition key keeps on the topic ends at the workers. *)
Theorem handling_order :
  (∀ s, reachable reader_step (reader_start 1) s →
     handled s ++ omap in_hand (workers s) = received s ∧
     (ctx_done s = false → handled s `prefix_of` foreign (visited s))) ∧
  ∀ n r r', isSelfProducedKafkaRecord r = false → isSelfProducedKafkaRecord r' = false →
    ∃ s, reachable reader_step (reader_start (S (S n))) s ∧ visited s = [r; r'] ∧ handled s = [r'; r].
Proof.
  split.
  - intros s Hs.
    assert (length (workers s) = 1%nat ∧ received s = handled s ++ omap in_hand (workers s)) as [_ Hr].
    { apply (reachable_invariant reader_step (λ s, length (workers s) = 1%nat ∧ received s = handled s ++ omap in_hand (workers s)) (reader_start 1));
        [|by split|done]. intros e t t' [Hl Ht] Hstep. by eapply single_worker_step. }
    destruct (reachable_ok _ _ Hs). split; [done|]. intros Hd. rewrite <- (ok_complete0 Hd), ok_fifo0, Hr, <- (assoc_L (++)).
    by apply prefix_app_r.
  - intros n r r' Hr Hr'. eexists. split.
    + eexists ([FetchRecords [r; r']; NextRecord; NextRecord; EndOfFetch; ReceiveRecord 0; ReceiveRecord 1] ++
               [HandleReturns 1; HandleReturns 0]).
      rewrite run_app, foreign_run by done. cbn. reflexivity.
    + by split.
Qed.

(** ** Shutdown *)
Definition internal (e : ReaderEvent) : Prop :=
  match e with CancelContext | CloseTheClient | FetchRecords _ => False | _ => True end.
Definition stopping (s : ReaderState) : Prop := client_closed s = true ∨ ctx_done s = true.
Definition finished (s : ReaderState) : Prop :=
  loop s = ChannelClosed ∧ Forall (λ w, w = WorkerDone) (workers s).
Definition loop_left (l : LoopState) : nat :=
  match l with Polling => 2 | Visiting rest => 3 + 3 * length rest | Returned => 1 | ChannelClosed => 0 end.
Definition worker_left (w : WorkerState) : nat :=
  match w with Waiting => 1 | Handling _ => 2 | WorkerDone => 0 end.
(** How many steps the goroutines have left at most. *)
Definition left_to_do (s : ReaderState) : nat :=
  loop_left (loop s) + 2 * length (channel s) + sum_list (worker_left <$> workers s).

Lemma sum_workers_insert ws w st st' :
  ws !! w = Some st →
  (sum_list (worker_left <$> <[w := st']> ws) + worker_left st =
   sum_list (worker_left <$> ws) + worker_left st')%nat.
Proof.
  revert w. induction ws as [|x ws IH]; intros [|w] Hw; [done|done| |].
  - injection Hw as ->. cbn. lia.
  - specialize (IH w Hw). change (<[S w := st']> (x :: ws)) with (x :: <[w := st']> ws).
    rewrite !fmap_cons. cbn [sum_list]. lia.
Qed.

Lemma reader_step_decreases e s s' :
  stopping s → internal e → reader_step e s = Some s' → crashed s' = false →
  (left_to_do s' < left_to_do s)%nat.
Proof.
  intros Hst Hi Hs Hcr. unfold reader_step in Hs. destruct (crashed s); [done|].
  destruct e as [| |rs| | | | | |w|w|w]; try done; unfold loop_step, worker_step, left_to_do in *.
  1-5: destruct (loop s) as [|[|r rest]| |] eqn:Hl; try discriminate Hs.
  - step_cases Hs. cbn. lia.
  - step_cases Hs; cbn in *; rewrite ?length_app; cbn; try lia; discriminate Hcr.
  - step_cases Hs. cbn. lia.
  - step_cases Hs. cbn. lia.
  - step_cases Hs; cbn in *; [discriminate Hcr|lia].
  - destruct (workers s !! w) as [[|r|]|] eqn:Hw; try discriminate Hs.
    step_cases Hs. pose proof (sum_workers_insert _ _ _ (Handling k) Hw) as Hsum. cbn in *. lia.
  - destruct (workers s !! w) as [[|r|]|] eqn:Hw; try discriminate Hs.
    step_cases Hs. pose proof (sum_workers_insert _ _ _ Waiting Hw) as Hsum. cbn in *. lia.
  - destruct (workers s !! w) as [[|r|]|] eqn:Hw; try discriminate Hs.
    step_cases Hs. pose proof (sum_workers_insert _ _ _ WorkerDone Hw) as Hsum. cbn in *. lia.
Qed.

(** What the goroutines do neither cancels nor restarts anything. *)
Lemma internal_keeps e s s' : internal e → reader_step e s = Some s' →
  ctx_done s' = ctx_done s ∧ client_closed s' = client_closed s.
Proof.
  intros Hi Hs. unfold reader_step in Hs. destruct (crashed s); [done|].
  destruct e; try done; unfold loop_step, worker_step in Hs; step_cases Hs; done.
Qed.

Lemma worker_can_move n w s :
  reader_ok n s → channel s ≠ [] ∨ channel_closed s = true → workers s !! w ≠ Some WorkerDone →
  (w < n)%nat → enabled reader_step internal s.
Proof.
  intros [Hcr _ Hlen _ _ _ _ _ _] Hch Hw Hlt. destruct (workers s !! w) as [[|r|]|] eqn:Hst; [| |done|].
  - destruct (channel s) as [|r rest] eqn:Hc.
    + exists (WorkerReturns w). eexists. split; [done|]. unfold reader_step, worker_step.
      destruct Hch as [?|Hcl]; [done|]. rewrite Hcr, Hst, Hc, Hcl. by rewrite orb_true_r.
    + exists (ReceiveRecord w). eexists. split; [done|]. unfold reader_step, worker_step.
      by rewrite Hcr, Hst, Hc.
  - exists (HandleReturns w). eexists. split; [done|]. unfold reader_step, worker_step. by rewrite Hcr, Hst.
  - apply lookup_ge_None in Hst. lia.
Qed.

Lemma reader_progress n s :
  (0 < n)%nat → reader_ok n s → stopping s → finished s ∨ enabled reader_step internal s.
Proof.
  intros Hn Hok Hst. pose proof Hok as [Hcr Hcl Hlen Hcap _ _ _ _ Hdone].
  assert (∀ e s', internal e → loop_step e s = Some s' →
    (match e with NextRecord | RecordDropped | EndOfFetch | LoopReturns | CloseChannel => True | _ => False end) →
    enabled reader_step internal s) as Hloop.
  { intros e s' Hi He Hkind. exists e, s'. split; [done|]. unfold reader_step. rewrite Hcr. by destruct e. }
  destruct (loop s) as [|[|r rest]| |] eqn:Hl.
  - right. eapply (Hloop LoopReturns); [done| |done]. cbn. rewrite Hl. by destruct Hst as [-> | ->]; rewrite ?orb_true_r.
  - right. eapply (Hloop EndOfFetch); [done| |done]. cbn. by rewrite Hl.
  - right. assert (channel_closed s = false) as Hopen
      by (apply not_true_is_false; intros Hc; discriminate (proj1 Hcl Hc)).
    destruct (isSelfProducedKafkaRecord r) eqn:Hself.
    { eapply (Hloop NextRecord); [done| |done]. cbn. by rewrite Hl, Hself. }
    destruct (Nat.ltb_spec (length (channel s)) (capacity s)) as [Hlt|Hge].
    { eapply (Hloop NextRecord); [done| |done]. unfold loop_step. rewrite Hl, Hself, Hopen.
      by rewrite (proj2 (Nat.ltb_lt _ _) Hlt). }
    unfold capacity in Hge. assert (channel s ≠ []) as Hne by (intros Hc; rewrite Hc in Hge; cbn in Hge; lia).
    destruct (decide (workers s !! 0%nat = Some WorkerDone)) as [Hw|Hw]; [|by eapply worker_can_move; [|left| |]].
    destruct Hdone as [Hd|[? _]]; [by eapply list_elem_of_lookup_2| |congruence].
    eapply (Hloop RecordDropped); [done| |done]. cbn. by rewrite Hl, Hself, Hd.
  - right. eapply (Hloop CloseChannel); [done| |done]. cbn. rewrite Hl.
    destruct (channel_closed s) eqn:Hc; [discriminate (proj1 Hcl eq_refl)|done].
  - destruct (decide (Forall (λ w, w = WorkerDone) (workers s))) as [Hall|Hnot]; [by left|right].
    apply not_Forall_Exists in Hnot; [|apply _]. apply Exists_exists in Hnot as (st & Hin & Hne).
    apply list_elem_of_lookup in Hin as [w Hw].
    eapply (worker_can_move n w); [done|right; by apply Hcl|congruence|].
    rewrite <- Hlen. by eapply lookup_lt_Some.
Qed.

(** With every worker back, nothing is in the channel nor in hand. *)
Lemma finished_handled n s :
  (0 < n)%nat → reader_ok n s → loop s = ChannelClosed → Forall (λ w, w = WorkerDone) (workers s) →
  ctx_done s = false → handled s ≡ₚ foreign (visited s).
Proof.
  intros Hn [Hcr Hcl Hlen Hcap Hfifo Hrec _ Hcomp Hdone] Hl Hall Hd.
  assert (WorkerDone ∈ workers s) as Hin.
  { destruct (workers s) as [|w ws] eqn:Hw; [cbn in Hlen; lia|]. apply Forall_cons in Hall as [-> _]. by left. }
  destruct (Hdone Hin) as [?|[_ Hch]]; [congruence|].
  rewrite <- (Hcomp Hd), Hfifo, Hch, (right_id_L [] (++)), Hrec.
  assert (omap in_hand (workers s) = []) as ->; [|by rewrite (right_id_L [] (++))].
  clear -Hall. induction Hall as [|w ws -> _ IH]; [done|exact IH].
Qed.

(** C27. Shutdown of the Kafka reader, by cancellation or by closing the client, always
    completes: from any state it can be in, and for every interleaving, the goroutines take
    a bounded number of steps, they are never all blocked before the loop has closed the
    channel and every worker has returned, and that end is reached.  When only the client was
    closed, every record of the topic that was read has been handled then. *)
Theorem kafka_reader_shutdown n s (Hn : (0 < n)%nat)
    (Hs : reachable reader_step (reader_start n) s) (Hst : stopping s) :
  (∀ es s', Forall internal es → run reader_step es s = Some s' →
     (length es ≤ left_to_do s)%nat ∧ (finished s' ∨ enabled reader_step internal s') ∧
     (finished s' → ctx_done s = false → handled s' ≡ₚ foreign (visited s'))) ∧
  ∃ es s', Forall internal es ∧ run reader_step es s = Some s' ∧ finished s'.
Proof.
  apply reachable_ok in Hs.
  set (I s' := reader_ok n s' ∧ stopping s' ∧ ctx_done s' = ctx_done s).
  assert (∀ e s1 s2, internal e → I s1 → reader_step e s1 = Some s2 → I s2) as Hkeep.
  { intros e s1 s2 He (Hok1 & Hst1 & Hd1) Hstep. destruct (internal_keeps _ _ _ He Hstep) as [Hd Hcc].
    split_and!; [by eapply reader_step_ok| |congruence]. unfold stopping. by rewrite Hd, Hcc. }
  assert (∀ e s1 s2, I s1 → internal e → reader_step e s1 = Some s2 → (left_to_do s2 < left_to_do s1)%nat) as Hless.
  { intros e s1 s2 Hi He Hstep. apply (reader_step_decreases e); [apply Hi|done|done|].
    by destruct (Hkeep _ _ _ He Hi Hstep) as [[] _]. }
  assert (I s) as His by (by split_and!). split.
  - intros es s' Hes Hrun. split_and!.
    + pose proof (run_bounded reader_step internal I left_to_do es s s' Hkeep Hless His Hes Hrun). lia.
    + destruct (run_invariant _ _ _ _ _ _ Hkeep Hes His Hrun) as (Hok' & Hst' & _). by eapply reader_progress.
    + intros [Hl Hdone] Hnd. destruct (run_invariant _ _ _ _ _ _ Hkeep Hes His Hrun) as (Hok' & _ & Hd').
      apply (finished_handled n); congruence || done.
  - destruct (run_to_the_end reader_step internal I finished left_to_do s Hkeep Hless) as (es & s' & ? & ? & ?);
      [|done|by exists es, s']. intros s1 (Hok1 & Hst1 & _). by eapply reader_progress.
Qed.

(** Two records of a cluster's topic and one of a server, one worker; the client is closed
    while the worker has the first and the second waits for its place. *)
Definition sample_record (offset : Z) (headers : list RecordHeader) : KRecord :=
  mkKRecord None "{}" headers "in" 0 offset.
Definition sample_fetch : list KRecord :=
  [sample_record 0 []; sample_record 1 [mkRecordHeader MsgPropProducerSource MsgPropProducerSourceSynchronizerServer];
   sample_record 2 []].
Definition sample_events : list ReaderEvent :=
  [FetchRecords sample_fetch; NextRecord; ReceiveRecord 0; NextRecord; NextRecord; CloseTheClient].
Definition sample_reader : ReaderState :=
  default (reader_start 1) (run reader_step sample_events (reader_start 1)).
Lemma sample_reader_reachable : reachable reader_step (reader_start 1) sample_reader.
Proof. exists sample_events. vm_compute. reflexivity. Qed.

Lemma kafka_reader_safe_witness :
  crashed sample_reader = false ∧
  Forall (λ r, isSelfProducedKafkaRecord r = false) (received sample_reader) ∧
  received sample_reader = [sample_record 0 []] ∧ channel sample_reader = [sample_record 2 []].
Proof.
  destruct (kafka_reader_safe 1 sample_reader sample_reader_reachable) as (? & _ & _ & _ & ? & _).
  split_and!; [done|done|vm_compute; reflexivity|vm_compute; reflexivity].
Defined.

Lemma kafka_reader_shutdown_witness :
  ∃ es s', run reader_step es sample_reader = Some s' ∧ finished s' ∧
    handled s' ≡ₚ foreign (visited s').
Proof.
  destruct (kafka_reader_shutdown 1 sample_reader ltac:(lia) sample_reader_reachable) as [Hall (es & s' & Hes & Hrun & Hf)];
    [left; vm_compute; reflexivity|].
  exists es, s'. split_and!; [exact Hrun|exact Hf|]. apply (Hall es s' Hes Hrun); [exact Hf|vm_compute; reflexivity].
Defined.
