(* ===== verification/Pulsar.v ===== *)
(** * Pulsar: the producer of [adapters/backend/v1/pulsar.go] and the choice of a queue,
    [factory.go].

    The Pulsar client and its readers and producers are handles of the class [PulsarLib]. *)

From S2P Require Export KafkaStartup.

(** ** Messages *)
Record ProducerMessage : Type := mkProducerMessage {
  p_Payload : string;
  p_Properties : gmap string string;
  p_Key : string
}.
Definition NewProducerMessage (now producerMessageKey account cluster eventType payload : string)
    (optionalProperties : list (gmap string string)) : ProducerMessage :=
  let properties := BuildProducerProperties now account cluster eventType optionalProperties in
  let properties := if String.eqb producerMessageKey SynchronizerServerProducerKey then properties
                    else delete MsgPropProducerSource properties in
  mkProducerMessage payload properties producerMessageKey.

(** A message as a reader has it: what the producer wrote and its place. *)
Record PulsarMessageID : Type := mkPulsarMessageID { id_String : string; id_BatchIdx : Z }.
Record PulsarMessage : Type := mkPulsarMessage { pm_ID : PulsarMessageID; pm_Message : ProducerMessage }.
Definition PulsarMessageIDtoString (msgID : PulsarMessageID) : string :=
  (id_String msgID ++ ":" ++ Itoa (id_BatchIdx msgID))%string.
Definition isSelfProducedPulsar (msg : PulsarMessage) : bool :=
  IsSelfProducedMessage (p_Properties (pm_Message msg)) (p_Key (pm_Message msg)).
Definition pulsar_incoming (msg : PulsarMessage) : IncomingMessage :=
  mkIncomingMessage (PulsarMessageIDtoString (pm_ID msg)) (p_Properties (pm_Message msg))
    (p_Payload (pm_Message msg)).

(** The callback of a message; [message] is [None] for the nil pointer. *)
Definition logPulsarSyncAsyncErrors (message : option ProducerMessage) (err : option gerror) (m : Metrics) :
    Metrics :=
  let messagePayloadBytes :=
    match message with Some p => Z.of_nat (String.length (p_Payload p)) | None => 0 end in
  let status := match err with Some _ => prometheusStatusError | None => prometheusStatusSuccess end in
  RecordProducerMessage "pulsar" status (p_Properties <$> message) messagePayloadBytes m.

(** ** The library *)
Inductive CompressionTypeOf : Type := ZSTD.
Record ProducerOptions : Type := mkProducerOptions {
  DisableBatching : bool;
  EnableChunking : bool;
  po_CompressionType : CompressionTypeOf;
  CompressionLevel : Z;
  po_Properties : gmap string string;
  po_Topic : string
}.
Record ReaderOptions : Type := mkReaderOptions {
  ro_Name : string;
  ro_Topic : string;
  StartAtLatest : bool;
  StartMessageIDInclusive : bool
}.
Class PulsarLib (W : Type) : Type := {
  pl_NewClient : PulsarSettings → nat → W → (nat + gerror) * W;
  pl_GetConfig : nat → PulsarSettings;
  pl_CreateProducer : nat → ProducerOptions → W → (nat + gerror) * W;
  pl_CreateReader : nat → ReaderOptions → W → (nat + gerror) * W;
  pl_Close : nat → W → W;
  pl_SendAsync : nat → Ctx → ProducerMessage → W → W;
  pl_BuildPersistentTopic : string → string → string → string;
  pl_Hostname : W → (string + gerror) * W;
  pl_Getenv : string → W → string
}.

Section Startup.
Context `{Kgo W} `{PulsarLib W}.
Variable Range : gmap string string → list (string * string).
Variable now : string.

Definition NewPulsarMessageProducer (cfg : Backend) (pulsarClient : nat) : M W nat :=
  w ← getW;
  let settings := pl_GetConfig pulsarClient in
  let topic := ProducerTopic cfg in
  let fullTopic := pl_BuildPersistentTopic (ps_Tenant settings) (ps_Namespace settings) topic in
  let options := mkProducerOptions true true ZSTD 1 {["podName" := pl_Getenv "HOSTNAME" w]} fullTopic in
  wrapE ("failed to create producer for topic '" ++ topic ++ "'")%string
    (syscall (pl_CreateProducer pulsarClient options)).
Definition pulsar_ProduceMessage (producer : nat) (ctx : Ctx) (id : ClientIdentifier)
    (eventType payload : string) (optionalProperties : list (gmap string string)) : M W unit :=
  modifyW (pl_SendAsync producer ctx
             (NewProducerMessage now SynchronizerServerProducerKey (Account id) (Cluster id) eventType payload
                optionalProperties)) ;; mret tt.
Definition pulsar_ProduceMessageWithoutIdentifier (producer : nat) (ctx : Ctx) (eventType payload : string) :
    M W unit :=
  modifyW (pl_SendAsync producer ctx
             (NewProducerMessage now SynchronizerServerProducerKey "" "" eventType payload [])) ;; mret tt.
Definition PulsarMessageProducer (producer : nat) : MessageProducer W :=
  mkMessageProducer (pulsar_ProduceMessage producer) (pulsar_ProduceMessageWithoutIdentifier producer).

(** [if err != nil { panic(err) }]. *)
Definition or_panic {A} (m : M W A) : M W A :=
  r ← attempt m;
  match r with inl a => mret a | inr _ => panic "panic(err)" end.
Definition NewPulsarMessageReader (cfg : Backend) (pulsarClient : nat) : M W MessageReader :=
  let workers := if 0 <? ConsumerWorkers cfg then ConsumerWorkers cfg else 10 in
  hostname ← or_panic (syscall pl_Hostname);
  let readerName := (Subscription cfg ++ "-" ++ hostname)%string in
  let settings := pl_GetConfig pulsarClient in
  let topic := pl_BuildPersistentTopic (ps_Tenant settings) (ps_Namespace settings) (ConsumerTopic cfg) in
  or_panic (syscall (pl_CreateReader pulsarClient (mkReaderOptions readerName topic true true))) ;;
  mret (ReadsPulsar readerName topic workers).

Definition newPulsarFromConfig (cfg : Backend) : M W (option (Components W)) :=
  match PulsarConfig cfg with
  | None => mret None
  | Some settings =>
      pulsarClient ← wrapE "failed to create pulsar client" (syscall (pl_NewClient settings 20));
      let close := modifyW (pl_Close pulsarClient) in
      producer ← or_cleanup (wrapE "failed to create pulsar producer"
                               (NewPulsarMessageProducer cfg pulsarClient)) close;
      reader ← or_cleanup (wrapE "failed to create pulsar reader"
                             (NewPulsarMessageReader cfg pulsarClient)) close;
      mret (Some (mkComponents (PulsarMessageProducer producer) reader (Some close)))
  end.

Definition newFromConfig (cfg : Backend) : M W (option (Components W)) :=
  match MessageQueue cfg with
  | Some mq =>
      if String.eqb (mq_Type mq) "" then newPulsarFromConfig cfg
      else if String.eqb (mq_Type mq) "kafka" then newKafkaFromConfig Range now cfg
      else if String.eqb (mq_Type mq) "pulsar" then newPulsarFromConfig cfg
      else throw (Errorf ("unknown message queue type " ++ quoted (mq_Type mq))%string)
  | None => newPulsarFromConfig cfg
  end.
End Startup.
(** [messaging.NewFromConfig], with the factory that is registered, if one is. *)
Definition NewFromConfig {W} (fromConfigFactory : option (Backend → M W (option (Components W))))
    (cfg : Backend) : M W (option (Components W)) :=
  match fromConfigFactory with None => mret None | Some f => f cfg end.

(** ** The transport *)
(** What the library keeps of the messages it is given, in order. *)
#[local] Instance pulsar_log : PulsarLib (list ProducerMessage) := {
  pl_NewClient _ _ w := (inl 0%nat, w);
  pl_GetConfig _ := mkPulsarSettings "" "";
  pl_CreateProducer _ _ w := (inl 0%nat, w);
  pl_CreateReader _ _ w := (inl 0%nat, w);
  pl_Close _ w := w;
  pl_SendAsync _ _ m w := w ++ [m];
  pl_BuildPersistentTopic _ _ t := t;
  pl_Hostname w := (inl "", w);
  pl_Getenv _ _ := ""
}.

Lemma NewProducerMessage_prop now key account cluster event payload props k :
  k ≠ MsgPropProducerSource →
  prop_of (p_Properties (NewProducerMessage now key account cluster event payload props)) k =
  prop_of (BuildProducerProperties now account cluster event props) k.
Proof.
  intros Hk. unfold NewProducerMessage. cbn [p_Properties]. case_match; [done|].
  unfold prop_of. by rewrite lookup_delete_ne.
Qed.

Lemma pulsar_call_run now ctx c w :
  ∃ m q, run_call (PulsarMessageProducer now 0) ctx c w = (Ret tt, w ++ [m]) ∧
    (∀ sent, run_call (link now) ctx c sent = (Ret tt, sent ++ [q])) ∧
    p_Payload m = im_Payload q ∧ p_Properties m = im_Properties q ∧ p_Key m = SynchronizerServerProducerKey.
Proof. destruct c; do 2 eexists; split_and!; reflexivity. Qed.
Lemma pulsar_calls_run now ctx calls w sent :
  ∃ ms qs, mfor (run_call (PulsarMessageProducer now 0) ctx) calls w = (Ret tt, w ++ ms) ∧
    mfor (run_call (link now) ctx) calls sent = (Ret tt, sent ++ qs) ∧
    Forall2 (λ m q, p_Payload m = im_Payload q ∧ p_Properties m = im_Properties q ∧
                    p_Key m = SynchronizerServerProducerKey) ms qs.
Proof.
  revert w sent. induction calls as [|c calls IH]; intros w sent.
  - exists [], []. by rewrite !(right_id_L [] (++)).
  - destruct (pulsar_call_run now ctx c w) as (m & q & Hm & Hq & Hmq).
    destruct (IH (w ++ [m]) (sent ++ [q])) as (ms & qs & Hms & Hqs & Hall).
    exists (m :: ms), (q :: qs). cbn [mfor]. rewrite !bind_run, Hm, Hq, Hms, Hqs, <- !(assoc_L (++)).
    split_and!; [done..|by constructor].
Qed.

(** Pulsar is a faithful queue too: the messages the server writes are handled, with any
    adapter, as the messages of the queue, and its readers pass over every one of them
    whatever its properties say. *)
Theorem pulsar_transport now ctx calls :
  ∃ ms qs, mfor (run_call (PulsarMessageProducer now 0) ctx) calls [] = (Ret tt, ms) ∧
    mfor (run_call (link now) ctx) calls [] = (Ret tt, qs) ∧
    Forall2 (λ m q, ∀ msgID,
      isSelfProducedPulsar (mkPulsarMessage msgID m) = true ∧
      ∀ (W X : Type) (multi : MultiErr) (adapter : Adapter W X) R hctx y,
        Handle adapter R hctx (pulsar_incoming (mkPulsarMessage msgID m)) y = Handle adapter R hctx q y) ms qs.
Proof.
  destruct (pulsar_calls_run now ctx calls [] []) as (ms & qs & Hms & Hqs & Hall).
  exists ms, qs. split_and!; [done..|]. eapply Forall2_impl; [exact Hall|].
  intros m q (Hb & Hp & Hk) msgID. split.
  - unfold isSelfProducedPulsar, IsSelfProducedMessage. cbn. rewrite Hk. by case_match.
  - intros. apply Handle_routes; [|exact Hb]. intros k _. cbn. by rewrite Hp.
Qed.

(** The helper that other producers use: a message is taken for the server's own exactly
    when it was built with the server's key, whatever properties are added to it; and apart
    from that mark the message is the same, so that a reader which takes it in handles it as
    a message of the queue. *)
Theorem producer_identity now key account cluster event payload props msgID :
  let m := mkPulsarMessage msgID (NewProducerMessage now key account cluster event payload props) in
  (isSelfProducedPulsar m = true ↔ key = SynchronizerServerProducerKey) ∧
  ∀ (W X : Type) (multi : MultiErr) (adapter : Adapter W X) R hctx y,
    Handle adapter R hctx (pulsar_incoming m) y =
    Handle adapter R hctx (queued now account cluster event payload props) y.
Proof.
  intros m. split.
  - subst m. unfold isSelfProducedPulsar, IsSelfProducedMessage, NewProducerMessage. cbn [pm_Message p_Key p_Properties].
    destruct (String.eqb_spec key SynchronizerServerProducerKey) as [->|Hk].
    + split; [done|]. intros _. by case_match.
    + unfold prop_of. rewrite lookup_delete_eq. cbn. done.
  - intros. apply Handle_routes; [|reflexivity]. intros k Hk. apply NewProducerMessage_prop.
    intros ->. set_solver.
Qed.

(** ** Startup *)
Class PulsarLaws (W : Type) `{PulsarLib W} : Type := {
  pl_opened : W → gset nat;
  pl_NewClient_opens cfg n w : match pl_NewClient cfg n w with
    | (inl c, w') => (c ∉ pl_opened w) ∧ pl_opened w' = ({[c]} ∪ pl_opened w)
    | (inr _, w') => pl_opened w' = pl_opened w end;
  pl_Close_closes c w : pl_opened (pl_Close c w) = pl_opened w ∖ {[c]};
  pl_CreateProducer_opened c o w : pl_opened (pl_CreateProducer c o w).2 = pl_opened w;
  pl_CreateReader_opened c o w : pl_opened (pl_CreateReader c o w).2 = pl_opened w;
  pl_Hostname_opened w : pl_opened (pl_Hostname w).2 = pl_opened w
}.
Lemma syscall_run {W A} (f : W → (A + gerror) * W) w :
  syscall f w = match f w with (inl a, w') => (Ret a, w') | (inr e, w') => (Throw e, w') end.
Proof. reflexivity. Qed.

(** The reader panics exactly where it could have returned an error. *)
Lemma NewPulsarMessageReader_run `{PulsarLaws W} cfg c (w : W) :
  match NewPulsarMessageReader cfg c w with
  | (Ret _, w') => pl_opened w' = pl_opened w
  | (Panic s, w') => s = "panic(err)" ∧ pl_opened w' = pl_opened w
  | (Throw _, _) => False
  end.
Proof.
  unfold NewPulsarMessageReader. cbv zeta. rewrite bind_run. unfold or_panic at 1.
  rewrite bind_run, attempt_run, syscall_run. pose proof (pl_Hostname_opened w) as Hh.
  destruct (pl_Hostname w) as [[host|e] w1]; cbn [snd] in Hh; [|by split]. rewrite ret_run.
  rewrite bind_run. unfold or_panic. rewrite bind_run, attempt_run, syscall_run.
  match goal with |- context [pl_CreateReader c ?o w1] => pose proof (pl_CreateReader_opened c o w1) as Hr end.
  destruct (pl_CreateReader c _ w1) as [[r|e] w2]; cbn in *; [congruence|split; congruence].
Qed.

(** Starting with Pulsar: without its settings there is no queue and nothing happens; a
    startup that reports an error has closed the client it opened; one that succeeds has one
    client, which [Shutdown] closes.  A reader that cannot be made is not reported: it
    panics, with the client still open. *)
Theorem pulsar_startup `{PulsarLaws W} now (cfg : Backend) (w : W) :
  match newPulsarFromConfig now cfg w with
  | (Ret None, w') => PulsarConfig cfg = None ∧ w' = w
  | (Ret (Some c), w') => ∃ client, (client ∉ pl_opened w) ∧ pl_opened w' = {[client]} ∪ pl_opened w ∧
      ∀ w1, ∃ w2, Shutdown (Some c) w1 = (Ret tt, w2) ∧ pl_opened w2 = pl_opened w1 ∖ {[client]}
  | (Throw _, w') => pl_opened w' = pl_opened w
  | (Panic _, w') => ∃ client w1, NewPulsarMessageReader cfg client w1 = (Panic "panic(err)", w') ∧
      (client ∉ pl_opened w) ∧ pl_opened w' = {[client]} ∪ pl_opened w
  end.
Proof.
  unfold newPulsarFromConfig. destruct (PulsarConfig cfg) as [settings|]; [|done].
  rewrite bind_run, wrapE_run, syscall_run. pose proof (pl_NewClient_opens settings 20 w) as Hn.
  destruct (pl_NewClient settings 20 w) as [[c|e] w1]; [|done]. destruct Hn as [Hc Ho1].
  cbv zeta. rewrite bind_run. unfold or_cleanup at 1. rewrite bind_run, attempt_run, wrapE_run.
  unfold NewPulsarMessageProducer. rewrite bind_run. unfold getW. cbv zeta. rewrite wrapE_run, syscall_run.
  match goal with |- context [pl_CreateProducer c ?o w1] => pose proof (pl_CreateProducer_opened c o w1) as Hp end.
  destruct (pl_CreateProducer c _ w1) as [[p|e] w2]; cbn [snd] in Hp.
  2: { rewrite bind_run. unfold modifyW. rewrite throw_run, pl_Close_closes, Hp, Ho1. set_solver. }
  rewrite ret_run, bind_run. unfold or_cleanup. rewrite bind_run, attempt_run, wrapE_run.
  pose proof (NewPulsarMessageReader_run cfg c w2) as Hr.
  destruct (NewPulsarMessageReader cfg c w2) as [[r|e|s] w3] eqn:Hrun; [|done|].
  - rewrite !ret_run. exists c. split_and!; [done|congruence|]. intros w4. eexists.
    split; [reflexivity|]. apply pl_Close_closes.
  - destruct Hr as [-> Hr]. exists c, w2. split_and!; [exact Hrun|done|congruence].
Qed.

(** A library that opens clients, whose readers can be refused. *)
Definition sample_PulsarLib (reader_ok : bool) : PulsarLib (gset nat) := {|
  pl_NewClient _ _ w := (inl (fresh w), {[fresh w]} ∪ w);
  pl_GetConfig _ := mkPulsarSettings "tenant" "ns";
  pl_CreateProducer _ _ w := (inl 0%nat, w);
  pl_CreateReader _ _ w := (if reader_ok then inl 0%nat else inr (Errorf "refused"), w);
  pl_Close c w := w ∖ {[c]};
  pl_SendAsync _ _ _ w := w;
  pl_BuildPersistentTopic a b t := ("persistent://" ++ a ++ "/" ++ b ++ "/" ++ t)%string;
  pl_Hostname w := (inl "pod-0", w);
  pl_Getenv _ _ := "pod-0"
|}.
Lemma sample_PulsarLaws reader_ok : @PulsarLaws (gset nat) (sample_PulsarLib reader_ok).
Proof.
  refine (@Build_PulsarLaws _ (sample_PulsarLib reader_ok) id _ _ _ _ _); try done.
  intros cfg n w. cbn. split; [apply is_fresh|done].
Defined.
Definition sample_pulsar_backend : Backend :=
  mkBackend 8080 None "sub" (Some (mkPulsarSettings "tenant" "ns")) "out" "in" 0 None None None [] None None.

Lemma pulsar_startup_witness :
  let start reader_ok := @newPulsarFromConfig _ (sample_PulsarLib reader_ok) "now" sample_pulsar_backend ∅ in
  ((start false).1 = Panic "panic(err)" ∧ size (start false).2 = 1%nat) ∧
  ∃ c w1 w2, start true = (Ret (Some c), w1) ∧ Shutdown (Some c) w1 = (Ret tt, w2) ∧ w2 = ∅.
Proof.
  intros start. split; [by vm_compute|].
  pose proof (@pulsar_startup _ (sample_PulsarLib true) (sample_PulsarLaws _) "now" sample_pulsar_backend ∅) as Hs.
  destruct (start true) as [o w1] eqn:Hrun. unfold start in Hrun. rewrite Hrun in Hs.
  destruct o as [[c|]|e|s]; [|destruct Hs; discriminate|exfalso; vm_compute in Hrun; discriminate Hrun..].
  destruct Hs as (client & _ & Ho & Hclose). destruct (Hclose w1) as (w2 & Hc & Ho2).
  exists c, w1, w2. split; [reflexivity|]. split; [exact Hc|]. cbn in Ho, Ho2. subst. set_solver.
Defined.
