(* ===== verification/PulsarReader.v ===== *)
(** * PulsarReader: the goroutines of the Pulsar reader, [adapters/backend/v1/pulsar.go].

    Unlike the reader of Kafka, here the workers decide when the channel is closed: [stop]
    runs when all of them have returned, whether or not [readerLoop] is still sending. *)

From S2P Require Export Pulsar Runs.

(** Where [readerLoop] is: in [Next], at its [select] with a message to send, returned. *)
Inductive PLoop : Type := PReading | PSending (m : PulsarMessage) | PReturned.
Inductive PWorker : Type := PWaiting | PHandling (m : PulsarMessage) | PWorkerDone.
(** Where the goroutine that stops the reader is: at [wg.Wait], after [reader.Close], at
    [c.done <- true] with the channel closed, returned. *)
Inductive PStop : Type := PStopWaits | PReaderClosed | PChannelClosed | PStopped.
(** A panic of a goroutine and [Fatal] both end the process. *)
Inductive PStatus : Type := PRunning | PPanicked (reason : string) | PFatal (reason : string).
Record PulsarReaderState : Type := mkPulsarReaderState {
  p_ctx_done : bool;
  p_loop : PLoop;
  p_stop : PStop;
  p_channel : list PulsarMessage;
  p_workers : list PWorker;
  p_status : PStatus;
  p_taken : list PulsarMessage;
  p_sent : list PulsarMessage;
  p_received : list PulsarMessage;
  p_handled : list PulsarMessage
}.
Definition p_channel_closed (s : PulsarReaderState) : bool :=
  match p_stop s with PChannelClosed | PStopped => true | _ => false end.
Definition p_all_done (s : PulsarReaderState) : bool :=
  forallb (λ w, match w with PWorkerDone => true | _ => false end) (p_workers s).

Inductive PulsarReaderEvent : Type :=
| PCancelContext
| PNextReturns (m : PulsarMessage)
| PNextFails (consumerClosed : bool)
| PSendMessage
| PReceiveDone
| PReceiveMessage (w : nat)
| PHandleReturns (w : nat)
| PWorkerReturns (w : nat)
| PStopClosesReader
| PStopClosesChannel.

Section Updates.
Variable s : PulsarReaderState.
Definition p_set_loop (l : PLoop) (taken : list PulsarMessage) : PulsarReaderState :=
  mkPulsarReaderState (p_ctx_done s) l (p_stop s) (p_channel s) (p_workers s) (p_status s)
    (p_taken s ++ taken) (p_sent s) (p_received s) (p_handled s).
Definition p_set_status (st : PStatus) : PulsarReaderState :=
  mkPulsarReaderState (p_ctx_done s) (p_loop s) (p_stop s) (p_channel s) (p_workers s) st
    (p_taken s) (p_sent s) (p_received s) (p_handled s).
Definition p_send (m : PulsarMessage) : PulsarReaderState :=
  mkPulsarReaderState (p_ctx_done s) PReading (p_stop s) (p_channel s ++ [m]) (p_workers s) (p_status s)
    (p_taken s) (p_sent s ++ [m]) (p_received s) (p_handled s).
Definition p_set_stop (st : PStop) : PulsarReaderState :=
  mkPulsarReaderState (p_ctx_done s) (p_loop s) st (p_channel s) (p_workers s) (p_status s)
    (p_taken s) (p_sent s) (p_received s) (p_handled s).
End Updates.

Definition p_loop_step (e : PulsarReaderEvent) (s : PulsarReaderState) : option PulsarReaderState :=
  match e, p_loop s with
  | PNextReturns m, PReading =>
      if isSelfProducedPulsar m then Some (p_set_loop s PReading [m])
      else Some (p_set_loop s (PSending m) [m])
  | PNextFails consumerClosed, PReading =>
      if p_ctx_done s || consumerClosed then Some (p_set_loop s PReturned [])
      else Some (p_set_status s (PFatal "failed to read message from pulsar"))
  | PSendMessage, PSending m =>
      if p_channel_closed s then Some (p_set_status s (PPanicked "send on closed channel"))
      else if (length (p_channel s) <? length (p_workers s))%nat then Some (p_send s m)
      else None
  | PReceiveDone, PSending m =>
      match p_stop s with
      | PChannelClosed =>
          Some (p_set_status (p_set_stop s PStopped)
                  (PFatal "pulsar message will not be processed because channel was closed"))
      | _ => None
      end
  | _, _ => None
  end.
(** A receive from a closed channel gives a nil message, whose [ID] is then called. *)
Definition p_worker_step (e : PulsarReaderEvent) (s : PulsarReaderState) : option PulsarReaderState :=
  match e with
  | PReceiveMessage w =>
      match p_workers s !! w, p_channel s with
      | Some PWaiting, m :: rest =>
          Some (mkPulsarReaderState (p_ctx_done s) (p_loop s) (p_stop s) rest (<[w := PHandling m]> (p_workers s))
                  (p_status s) (p_taken s) (p_sent s) (p_received s ++ [m]) (p_handled s))
      | Some PWaiting, [] =>
          if p_channel_closed s then Some (p_set_status s (PPanicked "nil pointer dereference")) else None
      | _, _ => None
      end
  | PHandleReturns w =>
      match p_workers s !! w with
      | Some (PHandling m) =>
          Some (mkPulsarReaderState (p_ctx_done s) (p_loop s) (p_stop s) (p_channel s)
                  (<[w := PWaiting]> (p_workers s)) (p_status s) (p_taken s) (p_sent s) (p_received s)
                  (p_handled s ++ [m]))
      | _ => None
      end
  | PWorkerReturns w =>
      match p_workers s !! w with
      | Some PWaiting =>
          if p_ctx_done s then
            Some (mkPulsarReaderState (p_ctx_done s) (p_loop s) (p_stop s) (p_channel s)
                    (<[w := PWorkerDone]> (p_workers s)) (p_status s) (p_taken s) (p_sent s) (p_received s)
                    (p_handled s))
          else None
      | _ => None
      end
  | _ => None
  end.
(** [wg.Wait] and [stop]. *)
Definition p_stop_step (e : PulsarReaderEvent) (s : PulsarReaderState) : option PulsarReaderState :=
  match e, p_stop s with
  | PStopClosesReader, PStopWaits => if p_all_done s then Some (p_set_stop s PReaderClosed) else None
  | PStopClosesChannel, PReaderClosed => Some (p_set_stop s PChannelClosed)
  | _, _ => None
  end.
Definition pulsar_reader_step (e : PulsarReaderEvent) (s : PulsarReaderState) : option PulsarReaderState :=
  match p_status s with
  | PRunning =>
      match e with
      | PCancelContext =>
          Some (mkPulsarReaderState true (p_loop s) (p_stop s) (p_channel s) (p_workers s) (p_status s)
                  (p_taken s) (p_sent s) (p_received s) (p_handled s))
      | PNextReturns _ | PNextFails _ | PSendMessage | PReceiveDone => p_loop_step e s
      | PReceiveMessage _ | PHandleReturns _ | PWorkerReturns _ => p_worker_step e s
      | PStopClosesReader | PStopClosesChannel => p_stop_step e s
      end
  | _ => None
  end.
(** [Start]. *)
Definition pulsar_reader_start (n : nat) : PulsarReaderState :=
  mkPulsarReaderState false PReading PStopWaits [] (replicate n PWaiting) PRunning [] [] [] [].

(** ** What holds while the reader runs *)
Definition p_foreign : list PulsarMessage → list PulsarMessage := filter (λ m, isSelfProducedPulsar m = false).
Definition p_in_hand (w : PWorker) : option PulsarMessage :=
  match w with PHandling m => Some m | _ => None end.
Definition p_to_send (l : PLoop) : list PulsarMessage := match l with PSending m => [m] | _ => [] end.
Record pulsar_reader_ok (n : nat) (s : PulsarReaderState) : Prop := {
  pok_workers : length (p_workers s) = n;
  pok_capacity : (length (p_channel s) ≤ n)%nat;
  pok_fifo : p_sent s = p_received s ++ p_channel s;
  pok_received : p_received s ≡ₚ p_handled s ++ omap p_in_hand (p_workers s);
  pok_complete : p_sent s ++ p_to_send (p_loop s) = p_foreign (p_taken s);
  pok_done : PWorkerDone ∈ p_workers s → p_ctx_done s = true;
  pok_stop : p_stop s ≠ PStopWaits → Forall (λ w, w = PWorkerDone) (p_workers s) ∧ p_ctx_done s = true;
  pok_panic : ∀ r, p_status s = PPanicked r → r = "send on closed channel" ∧ p_ctx_done s = true
}.

Lemma p_foreign_snoc l m :
  p_foreign (l ++ [m]) = p_foreign l ++ (if isSelfProducedPulsar m then [] else [m]).
Proof. unfold p_foreign. rewrite filter_app, filter_cons. by destruct (isSelfProducedPulsar m). Qed.
Lemma omap_p_in_hand_insert ws w st st' :
  ws !! w = Some st →
  omap p_in_hand (<[w := st']> ws) ++ option_list (p_in_hand st) ≡ₚ
  omap p_in_hand ws ++ option_list (p_in_hand st').
Proof.
  intros Hw. rewrite (insert_take_drop ws w st') by by eapply lookup_lt_Some.
  rewrite <- (take_drop_middle ws w st Hw) at 3. rewrite !omap_app. cbn.
  destruct (p_in_hand st), (p_in_hand st'); cbn; solve_Permutation.
Qed.
Lemma p_all_done_iff s : p_all_done s = true ↔ Forall (λ w, w = PWorkerDone) (p_workers s).
Proof.
  unfold p_all_done. rewrite forallb_forall, Forall_forall. split; intros H w Hw.
  - apply list_elem_of_In in Hw. specialize (H w Hw). by destruct w.
  - apply list_elem_of_In in Hw. by rewrite (H w Hw).
Qed.
Lemma all_done_insert (ws : list PWorker) w st st' :
  ws !! w = Some st → st ≠ PWorkerDone → ¬ Forall (λ w, w = PWorkerDone) ws ∧
  (PWorkerDone ∈ <[w := st']> ws → PWorkerDone ∈ ws ∨ st' = PWorkerDone).
Proof.
  intros Hw Hne. split.
  - intros Hall. by apply (Forall_lookup_1 _ _ _ _ Hall) in Hw.
  - intros (i & Hi)%list_elem_of_lookup. apply list_lookup_insert_Some in Hi.
    destruct Hi as [[_ [-> _]]|[_ Hi]]; [by right|left; by eapply list_elem_of_lookup_2].
Qed.

Ltac step_split H := repeat (case_match; try discriminate H); injection H as <-.
Section PulsarInvariant.
Context (n : nat) (Hn : (0 < n)%nat).

Lemma pulsar_reader_start_ok : pulsar_reader_ok n (pulsar_reader_start n).
Proof.
  split; cbn; try done; try lia.
  - apply length_replicate.
  - clear Hn. induction n as [|k IH]; cbn; [done|exact IH].
  - intros Hw. by apply elem_of_replicate in Hw as [? _].
Qed.
Lemma p_loop_step_ok e s s' :
  p_status s = PRunning → pulsar_reader_ok n s → p_loop_step e s = Some s' → pulsar_reader_ok n s'.
Proof.
  intros Hrun Hok Hs. destruct Hok. unfold p_loop_step in Hs.
  destruct e, (p_loop s) as [|msg|] eqn:Hl; try discriminate Hs; cbn in pok_complete0.
  - rewrite (right_id_L [] (++)) in pok_complete0.
    destruct (isSelfProducedPulsar m) eqn:Hm; injection Hs as <-; split; cbn; try done;
      by rewrite p_foreign_snoc, Hm, <- pok_complete0.
  - step_split Hs; split; cbn; rewrite ?Hl; try done. by rewrite (right_id_L [] (++) (p_taken s)).
  - destruct (p_channel_closed s) eqn:Hc.
    { injection Hs as <-. split; cbn; rewrite ?Hl; try done. intros r [= <-]. split; [done|].
      apply pok_stop0. intros Hst. unfold p_channel_closed in Hc. by rewrite Hst in Hc. }
    destruct (Nat.ltb_spec (length (p_channel s)) (length (p_workers s))); [|discriminate Hs].
    injection Hs as <-. split; cbn; try done.
    + rewrite length_app. cbn. lia.
    + by rewrite pok_fifo0, (assoc_L (++)).
    + by rewrite (right_id_L [] (++)).
  - destruct (p_stop s) eqn:Hst; try discriminate Hs. injection Hs as <-. split; cbn; rewrite ?Hl; try done.
    intros _. by apply pok_stop0.
Qed.
Lemma p_worker_step_ok e s s' :
  p_status s = PRunning → pulsar_reader_ok n s → p_worker_step e s = Some s' → pulsar_reader_ok n s'.
Proof.
  intros Hrun Hok Hs. destruct Hok. unfold p_worker_step in Hs.
  destruct e as [| | | | |w|w|w| |]; try discriminate Hs;
    destruct (p_workers s !! w) as [[|m|]|] eqn:Hw; try discriminate Hs;
    destruct (all_done_insert _ _ _ (PHandling (mkPulsarMessage (mkPulsarMessageID "" 0) (mkProducerMessage "" ∅ ""))) Hw)
      as [Hsome _]; try done;
    assert (p_stop s = PStopWaits) as Hst
      by (destruct (p_stop s); [done|by destruct pok_stop0..]).
  - destruct (p_channel s) as [|m rest] eqn:Hch.
    { unfold p_channel_closed in Hs. by rewrite Hst in Hs. }
    injection Hs as <-. pose proof (omap_p_in_hand_insert _ _ _ (PHandling m) Hw) as Hin. cbn in Hin.
    destruct (all_done_insert _ _ _ (PHandling m) Hw) as [_ Hd]; [done|].
    split; cbn; rewrite ?length_insert; try done.
    + cbn in pok_capacity0. lia.
    + by rewrite pok_fifo0, <- (assoc_L (++)).
    + rewrite (right_id_L [] (++)) in Hin. rewrite Hin, pok_received0. solve_Permutation.
    + intros Hdone. by destruct (Hd Hdone) as [?|?]; [apply pok_done0|].
  - injection Hs as <-. pose proof (omap_p_in_hand_insert _ _ _ PWaiting Hw) as Hin. cbn in Hin.
    destruct (all_done_insert _ _ _ PWaiting Hw) as [_ Hd]; [done|].
    rewrite (right_id_L [] (++)) in Hin. split; cbn; rewrite ?length_insert; try done.
    + rewrite pok_received0, <- Hin. solve_Permutation.
    + intros Hdone. by destruct (Hd Hdone) as [?|?]; [apply pok_done0|].
  - destruct (p_ctx_done s) eqn:Hctx; [|discriminate Hs]. injection Hs as <-.
    pose proof (omap_p_in_hand_insert _ _ _ PWorkerDone Hw) as Hin. cbn in Hin.
    rewrite !(right_id_L [] (++)) in Hin. split; cbn; rewrite ?length_insert; try done. by rewrite Hin.
Qed.
Lemma p_stop_step_ok e s s' :
  p_status s = PRunning → pulsar_reader_ok n s → p_stop_step e s = Some s' → pulsar_reader_ok n s'.
Proof.
  intros Hrun Hok Hs. destruct Hok. unfold p_stop_step in Hs.
  destruct e, (p_stop s) eqn:Hst; try discriminate Hs.
  - destruct (p_all_done s) eqn:Hall; [|discriminate Hs]. injection Hs as <-.
    apply p_all_done_iff in Hall. split; cbn; try done. intros _. split; [done|]. apply pok_done0.
    destruct (p_workers s) as [|w ws] eqn:Hw; [cbn in *; lia|]. apply Forall_cons in Hall as [-> _]. by left.
  - injection Hs as <-. split; cbn; try done. intros _. by apply pok_stop0.
Qed.
Lemma pulsar_reader_step_ok e s s' :
  pulsar_reader_ok n s → pulsar_reader_step e s = Some s' → pulsar_reader_ok n s'.
Proof.
  intros Hok. unfold pulsar_reader_step. destruct (p_status s) eqn:Hst; [|done..].
  destruct e; eauto using p_loop_step_ok, p_worker_step_ok, p_stop_step_ok.
  intros [= <-]. destruct Hok. split; cbn; try done.
  intros Hd. split; [|done]. by apply pok_stop0.
Qed.
Lemma pulsar_reachable_ok s :
  reachable pulsar_reader_step (pulsar_reader_start n) s → pulsar_reader_ok n s.
Proof.
  apply reachable_invariant; [|apply pulsar_reader_start_ok]. intros. by eapply pulsar_reader_step_ok.
Qed.
End PulsarInvariant.

(** C35. While it runs, the reader of Pulsar keeps the order of the topic, never holds more
    than its capacity, loses nothing it has read, gives every message to one worker and
    passes over the server's own; and the only panic it can have is a send on the channel
    that [stop] closed, after the context was cancelled. *)
Theorem pulsar_reader_safe n s (Hn : (0 < n)%nat)
    (Hs : reachable pulsar_reader_step (pulsar_reader_start n) s) :
  (length (p_channel s) ≤ n)%nat ∧ p_received s ++ p_channel s = p_sent s ∧
  p_sent s ++ p_to_send (p_loop s) = p_foreign (p_taken s) ∧
  p_received s ≡ₚ p_handled s ++ omap p_in_hand (p_workers s) ∧
  (∀ r, p_status s = PPanicked r → r = "send on closed channel" ∧ p_ctx_done s = true).
Proof. by destruct (pulsar_reachable_ok n Hn s Hs). Qed.

(** ** Shutdown *)
(** The workers return one after the other. *)
Lemma workers_return done waiting s :
  p_status s = PRunning → p_ctx_done s = true →
  p_workers s = replicate done PWorkerDone ++ replicate waiting PWaiting →
  run pulsar_reader_step (PWorkerReturns <$> seq done waiting) s =
    Some (mkPulsarReaderState true (p_loop s) (p_stop s) (p_channel s) (replicate (done + waiting) PWorkerDone)
            PRunning (p_taken s) (p_sent s) (p_received s) (p_handled s)).
Proof.
  revert done s. induction waiting as [|k IH]; intros done s Hst Hctx Hw.
  - cbn. rewrite Nat.add_0_r. cbn in Hw. rewrite (right_id_L [] (++)) in Hw. rewrite <- Hw.
    destruct s; cbn in *. by subst.
  - assert (p_workers s !! done = Some PWaiting) as Hd.
    { rewrite Hw, lookup_app_r by by rewrite length_replicate. by rewrite length_replicate, Nat.sub_diag. }
    change (PWorkerReturns <$> seq done (S k)) with (PWorkerReturns done :: (PWorkerReturns <$> seq (S done) k)).
    erewrite run_cons by (unfold pulsar_reader_step, p_worker_step; rewrite Hst, Hd, Hctx; reflexivity).
    rewrite IH; try done; [by rewrite <- Nat.add_succ_comm|]. cbn [p_workers].
    rewrite Hw, insert_app_r_alt by by rewrite length_replicate.
    rewrite length_replicate, Nat.sub_diag, (replicate_S_end done), <- (assoc_L (++)). reflexivity.
Qed.

(** With the loop gone, nobody receives from [done]. *)
Lemma stop_blocked e s s' :
  p_loop s = PReturned ∧ p_stop s ≠ PStopped → pulsar_reader_step e s = Some s' →
  p_loop s' = PReturned ∧ p_stop s' ≠ PStopped.
Proof.
  intros [Hl Hst] Hs. unfold pulsar_reader_step in Hs. destruct (p_status s); try discriminate Hs.
  destruct e; unfold p_loop_step, p_worker_step, p_stop_step in Hs; rewrite ?Hl in Hs; try discriminate Hs;
    step_split Hs; by cbn.
Qed.

(** What the server's own goroutines do. *)
Definition p_internal (e : PulsarReaderEvent) : Prop :=
  match e with PCancelContext | PNextReturns _ | PNextFails _ => False | _ => True end.

(** The shutdown of the Pulsar reader is not safe, whatever the number of workers: if a
    message arrives before the context is cancelled, the workers can return and [stop] close
    the channel before [readerLoop] sends, and the process panics; and when the loop returns
    first, as it should, [stop] waits for ever for someone to receive from [done]. *)
Theorem pulsar_shutdown n m (Hm : isSelfProducedPulsar m = false) :
  (∃ es s, Forall p_internal es ∧
     run pulsar_reader_step (PNextReturns m :: PCancelContext :: es) (pulsar_reader_start n) = Some s ∧
     p_status s = PPanicked "send on closed channel") ∧
  ∀ s es s', p_loop s = PReturned → p_stop s ≠ PStopped → run pulsar_reader_step es s = Some s' →
    p_stop s' ≠ PStopped.
Proof.
  split.
  - eexists ((PWorkerReturns <$> seq 0 n) ++ [PStopClosesReader; PStopClosesChannel; PSendMessage]), _.
    split; [|split].
    + apply Forall_app. split; [|by repeat constructor]. by apply Forall_fmap, Forall_true.
    + erewrite run_cons by (cbn; rewrite Hm; reflexivity). erewrite run_cons by reflexivity.
      rewrite run_app, (workers_return 0) by done.
      change (Some ?x ≫= ?f) with (f x). cbn [Nat.add p_loop p_stop p_channel p_taken p_sent p_received p_handled].
      erewrite run_cons.
      2: { unfold pulsar_reader_step, p_stop_step. cbn [p_status p_stop].
           match goal with |- context [p_all_done ?s] => assert (p_all_done s = true) as -> end;
             [|reflexivity]. apply p_all_done_iff. cbn. by apply Forall_replicate. }
      reflexivity.
    + reflexivity.
  - intros s es s' Hl Hst Hrun.
    eapply (run_invariant _ (λ _, True) (λ s, p_loop s = PReturned ∧ p_stop s ≠ PStopped)) in Hrun as [_ ?];
      [done|intros; by eapply stop_blocked|by apply Forall_true|done].
Qed.

Definition sample_pulsar_message : PulsarMessage :=
  mkPulsarMessage (mkPulsarMessageID "1:2:0" 0) (NewProducerMessage "now" "ingester" "acme" "prod" "PutObject" "{}" []).
Definition sample_pulsar_events : list PulsarReaderEvent :=
  [PNextReturns sample_pulsar_message; PSendMessage; PReceiveMessage 1].
Definition sample_pulsar_reader : PulsarReaderState :=
  default (pulsar_reader_start 2) (run pulsar_reader_step sample_pulsar_events (pulsar_reader_start 2)).
Lemma sample_pulsar_reachable :
  reachable pulsar_reader_step (pulsar_reader_start 2) sample_pulsar_reader.
Proof. exists sample_pulsar_events. vm_compute. reflexivity. Qed.

Lemma pulsar_reader_safe_witness :
  p_received sample_pulsar_reader = [sample_pulsar_message] ∧
  p_received sample_pulsar_reader ≡ₚ
    p_handled sample_pulsar_reader ++ omap p_in_hand (p_workers sample_pulsar_reader).
Proof.
  split; [vm_compute; reflexivity|].
  apply (pulsar_reader_safe 2 sample_pulsar_reader ltac:(lia) sample_pulsar_reachable).
Defined.

Lemma pulsar_shutdown_witness :
  ∃ es s, run pulsar_reader_step (PNextReturns sample_pulsar_message :: PCancelContext :: es)
            (pulsar_reader_start 10) = Some s ∧ p_status s = PPanicked "send on closed channel".
Proof.
  destruct (pulsar_shutdown 10 sample_pulsar_message ltac:(vm_compute; reflexivity)) as [(es & s & _ & Hrun & Hs) _].
  exists es, s. split; [exact Hrun|exact Hs].
Defined.
