(* ===== verification/ServerMain.v ===== *)
(** * ServerMain: the server's command, [cmd/server/main.go].

    What [main] does around the parts: it gets the queue, chooses the adapter, serves, and
    closes the queue on the way out.  In a command an error is [Fatal]: the process exits and
    no deferred call runs; a return and a panic run them. *)

From S2P Require Export Pulsar Authentication.

(** [defer cleanup] for the rest [m] of a function. *)
Definition defer {W A} (cleanup : M W unit) (m : M W A) : M W A := λ w,
  match m w with
  | (Ret a, w') => (cleanup ;; mret a) w'
  | (Panic s, w') => (Panic s, (cleanup w').2)
  | (Throw e, w') => (Throw e, w')
  end.

(** The adapter of the server. *)
Inductive ServerAdapter : Type := UsesBackendAdapter | UsesMockAdapter.

Section Handler.
Context {W Conn : Type}.
(** [ws.UpgradeHTTP] and what the goroutine of a connection calls. *)
Variable UpgradeHTTP : M W Conn.
Variable CloseConn : Conn → M W unit.
Variable NewSynchronizerServer : Ctx → Conn → M W unit.
Variable SyncStart : Ctx → M W unit.
Variable SyncStop : Ctx → M W unit.

(** The goroutine of a connection. *)
Definition serve_connection (ctx : Ctx) (conn : Conn) : M W unit :=
  defer (CloseConn conn)
    (r ← attempt (NewSynchronizerServer ctx conn);
     match r with
     | inr _ => mret tt
     | inl _ =>
         r ← attempt (SyncStart ctx);
         match r with
         | inl _ => mret tt
         | inr _ => _ ← attempt (SyncStop ctx); mret tt
         end
     end).
(** The handler behind the middleware: the connection it starts a goroutine for. *)
Definition upgrade : M W (option Conn) :=
  r ← attempt UpgradeHTTP;
  match r with inl conn => mret (Some conn) | inr _ => mret None end.
End Handler.

Section Main.
Context {W : Type}.
Variable LoadConfig : M W Config.
(** What runs beside the server: the metrics on an address, the profiler, the liveness probe. *)
Variable ServeMetrics : string → W → W.
Variables ServePprof StartLivenessProbe : W → W.
(** [messaging.NewFromConfig], and whether a signal came meanwhile. *)
Variable FromConfig : Backend → M W (option (Components W)).
Variable interrupted : W → bool.
Variable StartReader : MessageReader → ServerAdapter → W → W.
(** [ListenAndServe]: [None] is [http.ErrServerClosed]; and the end of the shutdown. *)
Variable ListenAndServe : string → ServerAdapter → W → option gerror * W.
Variable WaitShutdown : W → W.

Definition server_addr (cfg : Backend) : string :=
  if 0 <? Port cfg then (":" ++ Itoa (Port cfg))%string else ":8080".
Definition listen_and_serve (cfg : Backend) (adapter : ServerAdapter) : M W unit := λ w,
  match ListenAndServe (server_addr cfg) adapter w with
  | (Some _, w') => (Ret tt, w')
  | (None, w') => (Ret tt, WaitShutdown w')
  end.
Definition serve_metrics (cfg : Backend) (w : W) : W :=
  match Prometheus cfg with
  | Some p => if Enabled p then ServeMetrics (":" ++ Itoa (prom_Port p)) w else w
  | None => w
  end.
Definition server_main : M W unit :=
  config ← wrapE "unable to load configuration" LoadConfig;
  let cfg := cfg_Backend config in
  modifyW (λ w, StartLivenessProbe (ServePprof (serve_metrics cfg w))) ;;
  mq ← attempt (FromConfig cfg);
  w ← getW;
  if interrupted w then Shutdown match mq with inl mq => mq | inr _ => None end
  else match mq with
  | inr err => throw (Wrapf "failed to initialize message queue" err)
  | inl (Some c) =>
      defer (Shutdown (Some c))
        (modifyW (StartReader (Reader c) UsesBackendAdapter) ;; listen_and_serve cfg UsesBackendAdapter)
  | inl None => listen_and_serve cfg UsesMockAdapter
  end.
End Main.

(** ** The connection is closed whatever happens in it *)
Lemma defer_run {W A} (cleanup : M W unit) (m : M W A) w :
  (∀ w, ∃ w', cleanup w = (Ret tt, w')) →
  (∃ e w', m w = (Throw e, w') ∧ defer cleanup m w = (Throw e, w')) ∨
  (∃ w1 w2, (m w).2 = w1 ∧ cleanup w1 = (Ret tt, w2) ∧ (defer cleanup m w).2 = w2 ∧
     (defer cleanup m w).1 = (m w).1).
Proof.
  intros Hc. unfold defer. destruct (m w) as [[a|e|s] w1].
  - right. destruct (Hc w1) as (w2 & Hw2). exists w1, w2. by rewrite bind_run, Hw2.
  - left. by exists e, w1.
  - right. destruct (Hc w1) as (w2 & Hw2). exists w1, w2. by rewrite Hw2.
Qed.

(** ** The queue is closed on every way out *)
Section Closing.
Context `{KgoLaws W}.
Variable Range : gmap string string → list (string * string).
Variable now : string.
Variable LoadConfig : M W Config.
Variable interrupted : W → bool.
Variable ServeMetrics : string → W → W.
Variables ServePprof StartLivenessProbe : W → W.
Variable StartReader : MessageReader → ServerAdapter → W → W.
Variable ListenAndServe : string → ServerAdapter → W → option gerror * W.
Variable WaitShutdown : W → W.
(** Serving opens and closes no client of the queue. *)
Record serving_keeps_clients : Prop := {
  load_keeps : ∀ w, opened (LoadConfig w).2 = opened w;
  metrics_keep : ∀ addr w, opened (ServeMetrics addr w) = opened w;
  pprof_keeps : ∀ w, opened (ServePprof w) = opened w;
  probe_keeps : ∀ w, opened (StartLivenessProbe w) = opened w;
  reader_keeps : ∀ r a w, opened (StartReader r a w) = opened w;
  serve_keeps : ∀ addr a w, opened (ListenAndServe addr a w).2 = opened w;
  wait_keeps : ∀ w, opened (WaitShutdown w) = opened w
}.
Hypothesis Hkeeps : serving_keeps_clients.

Lemma listen_keeps cfg a w :
  ∃ w', listen_and_serve ListenAndServe WaitShutdown cfg a w = (Ret tt, w') ∧ opened w' = opened w.
Proof using Hkeeps.
  unfold listen_and_serve. pose proof (serve_keeps Hkeeps (server_addr cfg) a w) as Hs.
  destruct (ListenAndServe _ a w) as [[e|] w1]; cbn in Hs; eexists; (split; [reflexivity|]); [done|].
  by rewrite (wait_keeps Hkeeps).
Qed.
End Closing.

(** The factory of [messaging], for a server that is configured for Kafka. *)
Definition uses_kafka (cfg : Backend) : Prop := mq_Type <$> MessageQueue cfg = Some "kafka"%string.
Lemma NewFromConfig_kafka `{Kgo W, PulsarLib W} Range now cfg (w : W) :
  uses_kafka cfg →
  NewFromConfig (Some (newFromConfig Range now)) cfg w = newKafkaFromConfig Range now cfg w.
Proof.
  unfold uses_kafka, NewFromConfig, newFromConfig. destruct (MessageQueue cfg) as [mq|]; [|done].
  cbn. by intros [= ->].
Qed.

(** C36. Whatever happens to a server with Kafka, a configuration that cannot be loaded, a
    queue that cannot be reached, a signal during the startup or after it, a listener that
    fails, when [main] ends it has closed every client of the queue that it opened.  (A crash
    in another goroutine ends the process without [main].) *)
Theorem server_leaves_nothing_open `{KgoLaws W, PulsarLib W} Range now LoadConfig ServeMetrics ServePprof StartLivenessProbe
    interrupted StartReader ListenAndServe WaitShutdown (w : W)
    (Hkeeps : serving_keeps_clients LoadConfig ServeMetrics ServePprof StartLivenessProbe StartReader
                ListenAndServe WaitShutdown)
    (Hkafka : ∀ cfg w', LoadConfig w = (Ret cfg, w') → uses_kafka (cfg_Backend cfg)) :
  opened (server_main LoadConfig ServeMetrics ServePprof StartLivenessProbe
            (NewFromConfig (Some (newFromConfig Range now))) interrupted StartReader ListenAndServe WaitShutdown w).2 = opened w.
Proof.
  unfold server_main. rewrite bind_run, wrapE_run. pose proof (load_keeps _ _ _ _ _ _ _ Hkeeps w) as Hl.
  destruct (LoadConfig w) as [[config|e|s] w0]; cbn [snd] in Hl; [|exact Hl..].
  specialize (Hkafka config w0 eq_refl). cbv zeta. set (cfg := cfg_Backend config) in *.
  rewrite bind_run. unfold modifyW at 1. set (w1 := StartLivenessProbe _).
  assert (opened w1 = opened w) as Hw1.
  { unfold w1. rewrite (probe_keeps _ _ _ _ _ _ _ Hkeeps), (pprof_keeps _ _ _ _ _ _ _ Hkeeps). unfold serve_metrics.
    destruct (Prometheus cfg) as [p|]; [|exact Hl]. destruct (Enabled p); [|exact Hl].
    by rewrite (metrics_keep _ _ _ _ _ _ _ Hkeeps). }
  clear Hl. clearbody w1.
  rewrite bind_run, attempt_run, NewFromConfig_kafka by done. pose proof (newKafkaFromConfig_run Range now cfg w1) as Hs.
  destruct (newKafkaFromConfig Range now cfg w1) as [[comps|e|s] w2]; cbn [startup_result] in Hs.
  3: { unfold uses_kafka in Hkafka. by rewrite (proj1 Hs) in Hkafka. }
  - destruct Hs as (c & kcfg & p & r & -> & _ & _ & _ & Hp & Hr & _ & Ho & _ & Hclose).
    assert (opened w1 = (opened w1 ∪ {[p; kr_client r]}) ∖ {[p; kr_client r]}) as Hback by set_solver.
    rewrite bind_run. unfold getW. destruct (interrupted w2).
    + destruct (Hclose w2) as (w3 & Hrun & Ho3). rewrite Hrun. cbn [snd]. by rewrite Ho3, Ho, <- Hback.
    + destruct (listen_keeps LoadConfig ServeMetrics ServePprof StartLivenessProbe StartReader ListenAndServe WaitShutdown Hkeeps cfg UsesBackendAdapter (StartReader (Reader c) UsesBackendAdapter w2))
        as (w3 & Hserve & Ho3).
      unfold defer. rewrite bind_run. unfold modifyW. rewrite Hserve. cbn [snd].
      destruct (Hclose w3) as (w4 & Hrun & Ho4). rewrite bind_run, Hrun. cbn.
      by rewrite Ho4, Ho3, (reader_keeps _ _ _ _ _ _ _ Hkeeps), Ho, <- Hback.
  - rewrite bind_run. unfold getW. destruct (interrupted w2); cbn; congruence.
Qed.

(** The connection of a client is closed once its goroutine ends, whether the synchronizer
    could not be made, ended, or failed and was stopped, or panicked. *)
Theorem connection_closed {W Conn} CloseConn NewSynchronizerServer SyncStart SyncStop ctx (conn : Conn) (w : W)
    (Hclose : ∀ w, ∃ w', CloseConn conn w = (Ret tt, w')) :
  ∃ w1 w2, CloseConn conn w1 = (Ret tt, w2) ∧
    (serve_connection CloseConn NewSynchronizerServer SyncStart SyncStop ctx conn w).2 = w2 ∧
    ∀ e, (serve_connection CloseConn NewSynchronizerServer SyncStart SyncStop ctx conn w).1 ≠ Throw e.
Proof.
  unfold serve_connection.
  match goal with |- context [defer _ ?m w] => assert (∀ e w', m w ≠ (Throw e, w')) as Hnever;
    [|destruct (defer_run (CloseConn conn) m w Hclose) as [(e & w' & Hm & _)|(w1 & w2 & _ & Hc & Hw & Ho)]] end.
  - intros e w'. rewrite bind_run, attempt_run.
    destruct (NewSynchronizerServer ctx conn w) as [[u|e1|s] w1]; [|done..].
    rewrite bind_run, attempt_run. destruct (SyncStart ctx w1) as [[u'|e1|s] w2]; [done| |done].
    rewrite bind_run, attempt_run. by destruct (SyncStop ctx w2) as [[]].
  - by apply Hnever in Hm.
  - exists w1, w2. split_and!; [done..|]. intros e He. rewrite Ho in He.
    match type of He with (?m w).1 = _ => destruct (m w) as [o w'] eqn:Hm end.
    cbn in He. subst. by eapply Hnever.
Qed.

Lemma server_leaves_nothing_open_witness :
  let main interrupted listen := @server_main (gset nat)
    (mret (mkConfig (sample_queue_backend "out" "in") (mkInCluster "" "" "" [] [] "" "" []) (mkHTTPEndpoint "" [])))
    (λ _ w, w) id id
    (NewFromConfig (Some (@newFromConfig _ (sample_Kgo ["out"; "in"]) (sample_PulsarLib true) map_to_list "now")))
    interrupted (λ _ _ w, w) (λ _ _ w, (listen, w)) id in
  ((main (λ _, false) None ∅).1 = Ret tt ∧ (main (λ _, false) None ∅).2 = ∅) ∧
  (main (λ _, true) None ∅).2 = ∅ ∧ (main (λ _, false) (Some (Errorf "listener")) ∅).2 = ∅.
Proof.
  intros main. split; [split; [vm_compute; reflexivity|]|split];
    apply (@server_leaves_nothing_open (gset nat) (sample_Kgo ["out"; "in"]) (sample_KgoLaws _) (sample_PulsarLib true)
             map_to_list "now");
    first [by split|by intros cfg w' [= <- _]].
Defined.

Definition sample_close (conn : string) : M (list string) unit := modifyW (cons conn).
Lemma connection_closed_witness :
  ∃ w1 w2, sample_close "c1" w1 = (Ret tt, w2) ∧
    (serve_connection sample_close (λ _ _, mret tt) (λ _, panic "nil pointer dereference") (λ _, mret tt)
       Background "c1" []).2 = w2.
Proof.
  destruct (connection_closed sample_close (λ _ _, mret tt) (λ _, panic "nil pointer dereference")
              (λ _, mret tt) Background "c1" []) as (w1 & w2 & Hc & Hw & _); [intros w; by eexists|].
  exists w1, w2. split; [exact Hc|exact Hw].
Defined.
