(* ===== verification/Session.v ===== *)
(** * Session: the life of a connection on the server, from its goroutine in
    [cmd/server/main.go] through the synchronizer of [core] to the adapter of the backend.

    The state is that of the adapter and of the queue; sockets and pools are outside of it.
    The adapter is shared: before the start of this connection, while it is served, and
    before it is stopped, the other goroutines of the server go on. *)

From stdpp Require Import relations.
From S2P Require Export ServerMain Periodic.
From S2P Require Import Synchronizer.

Section Session.
Context `{MultiErr, Machine P} {W Conn : Type}.
Local Abbreviation Y := (BackendAdapter W P * P)%type.
Variable env : string → option string.
(** The outgoing side of the connection: what the callbacks of its synchronizer use. *)
Variable NewMsgId : M W string.
Variable outPool_Invoke : string → M W unit.
(** What happens on the server between the registration of this connection's callbacks and its
    start, while its loop reads, and between the end of the loop and its stop. *)
Variables before_start loop before_stop : M Y unit.

Definition server_callbacks : Callbacks W := callbacks NewMsgId outPool_Invoke false.
(** The goroutine of a connection, with one adapter. *)
Definition serve_client (ctx : Ctx) (conn : Conn) : M Y unit :=
  let adapters := [go_backend env] in
  serve_connection (λ _, mret tt)
    (λ ctx conn, _ ← NewSynchronizerServer (N := unit) NewMsgId outPool_Invoke (mret tt) ctx adapters conn; mret tt)
    (λ ctx, before_start ;; Start adapters false (mret tt) loop ctx)
    (λ ctx, before_stop ;; Stop adapters (Some (mret tt)) (Some (mret tt)) ctx)
    ctx conn.

Implicit Types (b : BackendAdapter W P) (q : P).
Lemma newSynchronizer_run ctx id (conn : Conn) b q :
  carries ctx id →
  (_ ← NewSynchronizerServer (N := unit) NewMsgId outPool_Invoke (mret tt) ctx [go_backend env] conn; mret tt) (b, q) =
    (Ret tt, (set_callbacksMap <[ClientIdentifier_String id := server_callbacks]> b, q)).
Proof.
  intros Hc. unfold NewSynchronizerServer, newSynchronizer. go_run. cbn [mfor].
  rewrite bind_run. cbn [ad_RegisterCallbacks go_backend]. fold server_callbacks.
  by rewrite (register_callbacks_run _ id) by done.
Qed.
Lemma Stop_run ctx id b q :
  carries ctx id →
  Stop [go_backend env] (Some (mret tt)) (Some (mret tt)) ctx (b, q) =
    (Ret tt, (if superseded b id then b else stopped id b, q)).
Proof.
  intros Hc. unfold Stop, stopAdapters. rewrite bind_run, (ClientIdentifier_run _ _ _ Hc). cbn beta iota.
  unfold from_option, Datatypes.id. go_run.
  cbn [ad_Stop go_backend]. by rewrite (stop_run _ _ _ _ Hc).
Qed.
Lemma Start_run ctx id y :
  carries ctx id →
  Start [go_backend env] false (mret tt) loop ctx y =
    match ba_Start env ctx y with
    | (Ret _, y') => wrapE "listen for sync events" loop y'
    | (Throw e, y') => (Throw (Wrapf "start adapter" e), y')
    | (Panic s, y') => (Panic s, y')
    end.
Proof.
  intros Hc. unfold Start, startAdapters. rewrite bind_run, (ClientIdentifier_run _ _ _ Hc). cbn beta iota.
  rewrite bind_run, ret_run. cbn beta iota. cbn [mfor ad_Start go_backend]. go_run.
  by destruct (ba_Start env ctx y) as [[[]|e|s] y'].
Qed.

(** The others never make the goroutine of this connection fail. *)
Definition runs_on (others : M Y unit) : Prop := ∀ y, ∃ y', others y = (Ret tt, y') ∧ rtc (server_step env) y y'.
(** The goroutine ends with a stop, after a start that was refused or a loop that failed. *)
Lemma serve_client_run ctx id conn b q y1 y2 b3 q3 e :
  carries ctx id →
  before_start (set_callbacksMap <[ClientIdentifier_String id := server_callbacks]> b, q) = (Ret tt, y1) →
  Start [go_backend env] false (mret tt) loop ctx y1 = (Throw e, y2) → before_stop y2 = (Ret tt, (b3, q3)) →
  serve_client ctx conn (b, q) = (Ret tt, (if superseded b3 id then b3 else stopped id b3, q3)).
Proof.
  intros Hc H1 Hs H3. unfold serve_client, serve_connection, defer.
  rewrite bind_run, attempt_run, (newSynchronizer_run _ id) by done. cbn beta iota.
  rewrite bind_run, attempt_run, bind_run, H1. cbn beta iota. rewrite Hs. cbn beta iota.
  rewrite bind_run, attempt_run, bind_run, H3. cbn beta iota. rewrite (Stop_run _ id) by done.
  cbn beta iota. by rewrite !ret_run.
Qed.
Lemma superseded_iff b id : superseded b id = true ↔
  ∃ other, connectionMap b !! ClientIdentifier_String id = Some other ∧
    ConnectionString other ≠ ConnectionString id ∧ ConnectionTime id < ConnectionTime other.
Proof.
  unfold superseded, After. destruct (connectionMap b !! _) as [other|]; [|naive_solver].
  rewrite andb_true_iff, negb_true_iff, String.eqb_neq, Z.ltb_lt. naive_solver.
Qed.

(** What is left of a connection that ended: it is not the one that is recorded, and where no
    newer one is, nothing is left.  (A newer one may be left with its callbacks, see
    [superseded_callbacks_take_over].) *)
Definition gone b (id : ClientIdentifier) : Prop :=
  match connectionMap b !! ClientIdentifier_String id with
  | Some other => ConnectionString other ≠ ConnectionString id ∧ ConnectionTime id < ConnectionTime other
  | None => clientsMap b !! ClientIdentifier_String id = None ∧ callbacksMap b !! ClientIdentifier_String id = None
  end.
Lemma stop_gone b id : gone (if superseded b id then b else stopped id b) id.
Proof.
  unfold gone. destruct (superseded b id) eqn:Hs.
  - apply superseded_iff in Hs as (other & -> & Hs). exact Hs.
  - assert (clientsMap (stopped id b) = delete (client_key id) (clientsMap b) ∧
            callbacksMap (stopped id b) = delete (client_key id) (callbacksMap b) ∧
            connectionMap (stopped id b) = delete (client_key id) (connectionMap b)) as (-> & -> & ->)
      by (unfold stopped; repeat case_match; done).
    unfold client_key. by rewrite !lookup_delete_eq.
Qed.
Lemma stop_in_step b id : in_step b → in_step (if superseded b id then b else stopped id b).
Proof. destruct (superseded b id); auto using stopped_in_step. Qed.

(** ** Others that leave a connection alone

    Connections of another name, the calls and the tasks of the adapter; and those starts and
    stops of the same name that [may] happen. *)
Inductive others_step (id : ClientIdentifier) (may : ClientIdentifier → Prop) : Y → Y → Prop :=
| others_register ctx other cb s : carries ctx other → ClientIdentifier_String other ≠ ClientIdentifier_String id →
    others_step id may s (ba_RegisterCallbacks ctx cb s).2
| others_start ctx other s : carries ctx other → ClientIdentifier_String other ≠ ClientIdentifier_String id ∨ may other →
    others_step id may s (ba_Start env ctx s).2
| others_stop ctx other s : carries ctx other → ClientIdentifier_String other ≠ ClientIdentifier_String id ∨ may other →
    others_step id may s (ba_Stop ctx s).2
| others_starting i s : others_step id may s (run_starting i s).2
| others_call m s : adapter_call m → others_step id may s (m s).2.
(** Older connections of the same client. *)
Definition older_than (id other : ClientIdentifier) : Prop :=
  ConnectionString id ≠ ConnectionString other ∧ ConnectionTime other < ConnectionTime id.

(** What the adapter holds of a client. *)
Definition held (id : ClientIdentifier) b :=
  (connectionMap b !! ClientIdentifier_String id, callbacksMap b !! ClientIdentifier_String id,
   is_Some (clientsMap b !! ClientIdentifier_String id)).
Lemma start_elsewhere ctx other id b q :
  carries ctx other → ClientIdentifier_String other ≠ ClientIdentifier_String id →
  held id (ba_Start env ctx (b, q)).2.1 = held id b.
Proof.
  intros Hc Hne. unfold held. destruct (superseded b other) eqn:Hs; [by rewrite (start_superseded _ _ _ _ _ Hc Hs)|].
  rewrite (backend_start_run _ _ _ _ _ Hc Hs). unfold client_key.
  destruct (callbacksMap b !! _); cbn; by rewrite !lookup_insert_ne.
Qed.
Lemma stop_elsewhere ctx other id b q :
  carries ctx other → ClientIdentifier_String other ≠ ClientIdentifier_String id →
  held id (ba_Stop ctx (b, q)).2.1 = held id b.
Proof.
  intros Hc Hne. unfold held. rewrite (stop_run _ _ _ _ Hc). cbn. destruct (superseded b other); [done|].
  destruct (stopped_maps other b) as (-> & -> & ->). unfold client_key. by rewrite !lookup_delete_ne.
Qed.
Lemma others_keep id may s s' :
  (∀ other, may other → connectionMap s.1 !! ClientIdentifier_String id = Some id ∧ older_than id other) →
  others_step id may s s' → held id s'.1 = held id s.1.
Proof.
  intros Hmay Hstep. revert Hmay. destruct Hstep as [ctx other cb [b q] Hc Hne|ctx other [b q] Hc Hor|ctx other [b q] Hc Hor|i [b q]|m s1 Hm]; intros Hmay.
  - rewrite (register_callbacks_run _ _ _ _ _ Hc). unfold held, client_key. cbn. by rewrite lookup_insert_ne.
  - destruct (decide (ClientIdentifier_String other = ClientIdentifier_String id)) as [Heq|Hne]; [|by apply (start_elsewhere _ other)].
    destruct Hor as [?|[Hconn [Hcs Ht]]%Hmay]; [done|].
    assert (superseded b other = true) as Hs by (apply superseded_iff; exists id; rewrite Heq; by split_and!).
    by rewrite (start_superseded _ ctx other).
  - destruct (decide (ClientIdentifier_String other = ClientIdentifier_String id)) as [Heq|Hne]; [|by apply (stop_elsewhere _ other)].
    destruct Hor as [?|[Hconn [Hcs Ht]]%Hmay]; [done|]. rewrite (stop_run _ other) by done.
    assert (superseded b other = true) as -> by (apply superseded_iff; exists id; rewrite Heq; by split_and!). done.
  - destruct (run_starting_keeps (W := W) i b q) as (p & st & q' & ->). done.
  - destruct (adapter_call_keeps m Hm s1) as (H1 & H2 & H3 & _). unfold held. by rewrite H1, H2, H3.
Qed.
Lemma others_steps_keep id may (s s' : Y) :
  (∀ (s : Y) other, may other → held id s.1 = held id s'.1 →
     connectionMap s.1 !! ClientIdentifier_String id = Some id ∧ older_than id other) →
  rtc (others_step id may) s' s → held id s.1 = held id s'.1.
Proof.
  intros Hmay Hsteps. apply rtc_ind_r with (P := λ s : Y, held id s.1 = held id s'.1) in Hsteps; [done|done|].
  intros y z _ Hstep Hy. rewrite <- Hy. eapply others_keep; [|exact Hstep]. intros other Ho. by apply (Hmay y).
Qed.
(** The connection is the one that is recorded, and calls to its client go to these callbacks. *)
Definition served b (id : ClientIdentifier) (cb : Callbacks W) : Prop :=
  connectionMap b !! ClientIdentifier_String id = Some id ∧ callbacksMap b !! ClientIdentifier_String id = Some cb ∧
  is_Some (clientsMap b !! ClientIdentifier_String id).
Lemma served_held id b b' cb : held id b = held id b' → served b' id cb → served b id cb.
Proof. unfold held, served. by intros [= -> -> ->]. Qed.
Lemma stays_served id cb (y y' : Y) :
  served y.1 id cb → rtc (others_step id (older_than id)) y y' → served y'.1 id cb.
Proof.
  intros Hy Hsteps. eapply served_held; [|exact Hy]. eapply others_steps_keep; [|exact Hsteps].
  intros s other Ho Hs. split; [|done]. by apply (served_held id s.1 y.1 cb Hs Hy).
Qed.
Lemma started_served ctx id cb (y : Y) :
  carries ctx id → superseded y.1 id = false → callbacksMap y.1 !! ClientIdentifier_String id = Some cb →
  ∃ y', ba_Start env ctx y = (Ret tt, y') ∧ served y'.1 id cb.
Proof.
  destruct y as [b q]. intros Hc Hs Hcb. cbn [fst] in *. rewrite (backend_start_run _ _ _ _ _ Hc Hs). unfold client_key. rewrite Hcb.
  eexists. split; [done|]. unfold served, client_key. cbn. rewrite !lookup_insert_eq. by split_and!.
Qed.
Lemma start_step ctx id (y : Y) : carries ctx id → server_step env y (ba_Start env ctx y).2.
Proof. intros Hc. by apply step_connection, (step_start _ ctx id). Qed.

(** C14. The life of a connection on the server, from its goroutine through its synchronizer to
    the adapter, whatever the rest of the server does before its start, while it is served and
    before its stop.  It is refused, without its loop having run, when at its start a newer
    connection of its client is recorded or its callbacks are gone; otherwise it is served by
    the callbacks that are there, its own when no connection of its client came between, and
    stays served as long as its client's other connections are older ones that start and stop.
    However it ended, it is not the recorded connection afterwards: either a newer one is, or
    nothing is left of its client. *)
Theorem session_ends ctx id conn b q
    (Hctx : carries ctx id) (Hin : in_step b) (Hbefore : runs_on before_start) (Hafter : runs_on before_stop)
    (Hloop : ∀ y, ∃ e y', loop y = (Throw e, y') ∧ rtc (server_step env) y y')
    (y0 := (set_callbacksMap <[ClientIdentifier_String id := server_callbacks]> b, q)) (y1 := (before_start y0).2)
    (stop := λ y : Y, (ba_Stop ctx (before_stop y).2).2) :
  ∃ y', serve_client ctx conn (b, q) = (Ret tt, y') ∧ in_step y'.1 ∧ gone y'.1 id ∧
    let '(o, y2) := ba_Start env ctx y1 in
    match superseded y1.1 id, callbacksMap y1.1 !! ClientIdentifier_String id with
    | false, Some cb =>
        o = Ret tt ∧ (∀ y, rtc (others_step id (older_than id)) y2 y → served y.1 id cb) ∧ y' = stop (loop y2).2
    | _, _ => (∃ e, o = Throw e) ∧ y' = stop y2
    end ∧
    (rtc (others_step id (λ _, False)) y0 y1 →
     superseded y1.1 id = superseded b id ∧ callbacksMap y1.1 !! ClientIdentifier_String id = Some server_callbacks).
Proof.
  destruct (Hbefore y0) as (y1' & Hrun1 & Hsteps1). assert (y1' = y1) as -> by (unfold y1; by rewrite Hrun1).
  assert (in_step y1.1) as Hin1 by (eapply server_steps_in_step; [exact Hsteps1|by apply (in_step_eq b)]).
  pose proof (Start_run ctx id y1 Hctx) as Hstart. pose proof (start_step ctx id y1 Hctx) as Hstep.
  assert (∀ y2 e, Start [go_backend env] false (mret tt) loop ctx y1 = (Throw e, y2) → rtc (server_step env) y1 y2 →
    ∃ y', serve_client ctx conn (b, q) = (Ret tt, y') ∧ in_step y'.1 ∧ gone y'.1 id ∧ y' = stop y2) as Hend.
  { intros y2 e Hs Hsteps. destruct (Hafter y2) as ([b3 q3] & Hrun3 & Hsteps3).
    eexists. split; [by apply (serve_client_run ctx id conn b q y1 y2 b3 q3 e)|].
    split; [apply stop_in_step; eapply (server_steps_in_step env y1 (b3, q3)); [by etrans|done]|].
    split; [apply stop_gone|]. unfold stop. rewrite Hrun3. cbn [snd]. by rewrite (stop_run ctx id). }
  assert (rtc (others_step id (λ _, False)) y0 y1 → held id y1.1 = held id y0.1) as Hown by by apply others_steps_keep.
  assert (rtc (others_step id (λ _, False)) y0 y1 → superseded y1.1 id = superseded b id ∧
    callbacksMap y1.1 !! ClientIdentifier_String id = Some server_callbacks) as Hfirst.
  { intros [= Hconn Hcb _]%Hown. cbn [fst y0] in Hconn, Hcb. unfold superseded. rewrite Hconn, Hcb.
    split; [done|]. apply lookup_insert_eq. }
  clear Hown. destruct y1 as [b1 q1] eqn:Hy1. clear Hy1. cbn [fst] in *.
  destruct (superseded b1 id) eqn:Hs.
  - rewrite (start_superseded _ _ _ _ _ Hctx Hs) in Hstart |- *. destruct (Hend _ _ Hstart) as (y' & ? & ? & ? & ?); [done|].
    exists y'. split_and!; eauto.
  - destruct (callbacksMap b1 !! ClientIdentifier_String id) as [cb|] eqn:Hcb.
    + destruct (started_served ctx id cb (b1, q1) Hctx Hs Hcb) as (y2 & Heq & Hserved). rewrite Heq in *.
      destruct (Hloop y2) as (e & y3 & Hl & Hsteps). rewrite wrapE_run, Hl in Hstart. rewrite Hl.
      destruct (Hend _ _ Hstart) as (y' & ? & ? & ? & ?); [by eapply rtc_l|].
      exists y'. split_and!; eauto using stays_served.
    + rewrite (backend_start_run _ _ _ _ _ Hctx Hs) in *. unfold client_key in *. rewrite Hcb in *.
      destruct (Hend _ _ Hstart) as (y' & ? & ? & ? & ?); [by apply rtc_once|].
      exists y'. split_and!; eauto.
Qed.
End Session.

(** An older connection that comes when the newer one of its client is served, and the newer
    one on a fresh server; nothing else happens. *)
Local Abbreviation sample_serve := (serve_client (H := sample_multierr) (H0 := sample_machine) sample_env (mret "id")
  (λ _, (mret tt : M (list string) unit)) (mret tt) (λ y, (Throw (Errorf "EOF"), y)) (mret tt)).
Lemma session_ends_witness :
  (∃ y', sample_serve (connected_ctx older) tt started_newer = (Ret tt, y') ∧
    gone y'.1 older ∧ connectionMap y'.1 !! "acme/prod" = Some newer) ∧
  (∃ y', sample_serve (connected_ctx newer) tt (fresh_adapter, []) = (Ret tt, y') ∧
    gone y'.1 newer ∧ connectionMap y'.1 !! "acme/prod" = None).
Proof.
  pose proof (λ ctx id, session_ends (H := sample_multierr) (P := list IncomingMessage) (H0 := sample_machine) (W := list string) sample_env (mret "id")
    (λ _, (mret tt : M (list string) unit)) (mret tt) (λ y, (Throw (Errorf "EOF"), y)) (mret tt) ctx id tt) as Hends.
  assert (∀ y : sample_W, ∃ y', (mret tt : M sample_W unit) y = (Ret tt, y') ∧ rtc (@server_step sample_multierr (list IncomingMessage) sample_machine (list string) sample_env) y y') as Hquiet
    by (intros y; exists y; split; [reflexivity|apply rtc_refl]).
  assert (∀ y : sample_W, ∃ e y', (λ y : sample_W, (Throw (A := unit) (Errorf "EOF"), y)) y = (Throw e, y') ∧ rtc (@server_step sample_multierr (list IncomingMessage) sample_machine (list string) sample_env) y y')
    as Hloop by (intros y; exists (Errorf "EOF"), y; split; [reflexivity|apply rtc_refl]).
  split.
  - destruct (Hends (connected_ctx older) older started_newer.1 started_newer.2 eq_refl (proj1 connections_in_step_witness) Hquiet Hquiet Hloop)
      as (y' & Hrun & _ & Hg & _).
    exists y'. split; [exact Hrun|]. split; [exact Hg|].
    assert (y' = (sample_serve (connected_ctx older) tt started_newer).2) as -> by (symmetry; exact (f_equal snd Hrun)).
    vm_compute. reflexivity.
  - assert (in_step fresh_adapter) as Hin by (split; [reflexivity|]; split; [intros key i Hi; discriminate|reflexivity]).
    destruct (Hends (connected_ctx newer) newer fresh_adapter [] eq_refl Hin Hquiet Hquiet Hloop) as (y' & Hrun & _ & Hg & _).
    exists y'. split; [exact Hrun|]. split; [exact Hg|].
    assert (y' = (sample_serve (connected_ctx newer) tt (fresh_adapter, [])).2) as -> by (symmetry; exact (f_equal snd Hrun)).
    vm_compute. reflexivity.
Defined.
