(* ===== verification/ClientMain.v ===== *)
(** * ClientMain: the client's command, [cmd/client/main.go], and what its identity becomes.

    The client collects its settings from several places, chooses its adapters, and dials the
    server with headers that name it.  The last theorem follows that name through the
    server's middleware and its adapter to the messages on the queue. *)

From S2P Require Export ApiServer Authentication Queue.
From S2P Require Import Synchronizer.

(** ** Settings *)
Record ClusterConfig : Type := mkClusterConfig { cl_ClusterName : string; cl_Namespace : string }.
Record Credentials : Type := mkCredentials { cr_AccessKey : string; cr_Account : string }.

Definition set_cluster (c : ClusterConfig) (i : InCluster) : InCluster :=
  mkInCluster (ServerUrl i) (cl_Namespace c) (cl_ClusterName c) (ExcludeNamespaces i) (IncludeNamespaces i)
    (ic_Account i) (AccessKey i) (ic_Resources i).
Definition set_credentials (c : Credentials) (i : InCluster) : InCluster :=
  mkInCluster (ServerUrl i) (ic_Namespace i) (ClusterName i) (ExcludeNamespaces i) (IncludeNamespaces i)
    (cr_Account c) (cr_AccessKey c) (ic_Resources i).
Definition set_ServerUrl (url : string) (i : InCluster) : InCluster :=
  mkInCluster url (ic_Namespace i) (ClusterName i) (ExcludeNamespaces i) (IncludeNamespaces i)
    (ic_Account i) (AccessKey i) (ic_Resources i).
Definition set_ClusterName (name : string) (i : InCluster) : InCluster :=
  mkInCluster (ServerUrl i) (ic_Namespace i) name (ExcludeNamespaces i) (IncludeNamespaces i)
    (ic_Account i) (AccessKey i) (ic_Resources i).

Section Settings.
(** [os.LookupEnv], the files and the service discovery: [None] where they fail. *)
Variable LookupEnv : string → option string.
Variable LoadClusterConfig : option ClusterConfig.
Variable LoadCredentials : option Credentials.
Variable GetSynchronizerUrl : string → option string.

Definition Getenv (key : string) : string := default "" (LookupEnv key).
Definition updateClusterName (i : InCluster) : InCluster :=
  match LookupEnv "CLUSTER_NAME" with
  | Some name => if String.eqb name "" then i else set_ClusterName name i
  | None => i
  end.
Definition client_settings (i : InCluster) : InCluster :=
  let i := match LoadClusterConfig with Some c => set_cluster c i | None => i end in
  let i := match LoadCredentials with Some c => set_credentials c i | None => i end in
  let apiURL := if String.eqb (Getenv "API_URL") "" then "api.armosec.io" else Getenv "API_URL" in
  let i := match GetSynchronizerUrl apiURL with
           | Some url => if String.eqb url "" then i else set_ServerUrl url i
           | None => i
           end in
  updateClusterName i.

Inductive ClientAdapter : Type := UsesInClusterAdapter | UsesHTTPEndpointAdapter.
Definition valid {C} (validate : C → M unit unit) (c : C) : bool :=
  match validate c tt with (Ret _, _) => true | _ => false end.
(** The adapters of the client; without one it stops. *)
Definition client_adapters {W} (i : InCluster) (h : HTTPEndpoint) : M W (list ClientAdapter) :=
  let adpts := (if valid InCluster_ValidateConfig i then [UsesInClusterAdapter] else []) ++
               (if valid HTTPEndpoint_ValidateConfig h then [UsesHTTPEndpointAdapter] else []) in
  if Nat.eqb (length adpts) 0 then throw (Errorf "no valid adapter found") else mret adpts.

(** The headers of the handshake, as the map that is written. *)
Definition client_headers (i : InCluster) (gitVersion cloudProvider clusterUID resourceGroup : string) :
    list (string * string) :=
  [(AccessKeyHeader, AccessKey i); (AccountHeader, ic_Account i); (ClusterNameHeader, ClusterName i);
   (HelmVersionHeader, Getenv "HELM_RELEASE"); (VersionHeader, Getenv "RELEASE");
   (GitVersionHeader, gitVersion); (CloudProviderHeader, cloudProvider);
   (ClusterUIDHeader, clusterUID); (ResourceGroupHeader, resourceGroup)].
End Settings.
(** The headers as a server reads them: under their canonical keys. *)
Definition received_headers (l : list (string * string)) : Header :=
  foldl (λ h kv, HeaderSet h kv.1 kv.2) ∅ l.

(** ** Dialing *)
(** [ws.Dialer.Dial]: a connection, a status of the server, or another error. *)
Inductive DialResult (Conn : Type) : Type :=
| Dialed (c : Conn)
| Rejected (status : Z)
| DialFailed (e : gerror).
Arguments Dialed {Conn} _.
Arguments Rejected {Conn} _.
Arguments DialFailed {Conn} _.

Section Dialing.
Context {W Conn : Type}.
Variable Dial : W → DialResult Conn * W.
Variable version : string.

Definition status_error (status : Z) : gerror := Errorf ("unexpected HTTP response status: " ++ Itoa status)%string.
(** The operation of [newConn]; the connection it dialed is the state. *)
Definition dial_attempt : M (option Conn * W) unit := λ '(_, w),
  match Dial w with
  | (Dialed c, w') => (Ret tt, (Some c, w'))
  | (Rejected status, w') =>
      if status =? StatusFailedDependency then
        (Throw (Permanent (Errorf ("server rejected our client version <" ++ version ++ ">, please update")%string)),
         (None, w'))
      else if status =? StatusUnauthorized then
        (Throw (Permanent (Errorf "server rejected our credentials")), (None, w'))
      else (Throw (status_error status), (None, w'))
  | (DialFailed e, w') => (Throw e, (None, w'))
  end.
(** [newConn] with at most [n] attempts of [backoff.RetryNotify]: [None] if they do not decide it. *)
Definition newConn (n : nat) (w : W) : option (outcome Conn * W) :=
  match attempts n dial_attempt (None, w) with
  | Some (Ret _, (Some c, w')) => Some (Ret c, w')
  | Some (Ret _, (None, w')) => Some (Panic "nil pointer dereference", w')
  | Some (Throw e, (_, w')) => Some (Throw (Wrapf "unable to create websocket connection" e), w')
  | Some (Panic s, (_, w')) => Some (Panic s, w')
  | None => None
  end.
End Dialing.

(** What the answers of a server are for the client: final, or a reason to try again. *)
Definition transient {Conn} (r : DialResult Conn) : Prop :=
  match r with
  | Dialed _ => False
  | Rejected status => status ≠ StatusFailedDependency ∧ status ≠ StatusUnauthorized
  | DialFailed e => as_permanent e = None
  end.

Section DialingFacts.
Context {W Conn : Type}.
Variable Dial : W → DialResult Conn * W.
Variable version : string.

(** After [n] answers that are transient, the world is [w']. *)
Fixpoint dialed (n : nat) (w w' : W) : Prop :=
  match n with
  | O => w' = w
  | S n' => ∃ r w1, Dial w = (r, w1) ∧ transient r ∧ dialed n' w1 w'
  end.
Lemma attempts_transient n k c w w' :
  dialed n w w' → ∃ c', attempts (n + k) (dial_attempt Dial version) (c, w) =
    attempts k (dial_attempt Dial version) (c', w').
Proof.
  revert c w. induction n as [|n IH]; intros c w; cbn [dialed].
  - intros ->. by exists c.
  - intros (r & w1 & Hd & Hr & Hn). destruct (IH None w1 Hn) as (c' & Hc'). exists c'.
    cbn [Nat.add attempts]. unfold dial_attempt at 1. rewrite Hd.
    destruct r as [c1|status|e]; cbn in Hr; [done| |by rewrite Hr].
    destruct Hr as [H1 H2]. apply Z.eqb_neq in H1, H2. by rewrite H1, H2.
Qed.
End DialingFacts.

(** Dialing ends with the first answer of the server that is not transient, however many
    came before it: with the connection, or with an error that says that the credentials
    (401) or the version (424) were refused, after which it does not dial again. *)
Theorem dialing_ends {W Conn} (Dial : W → DialResult Conn * W) version n w w1 w2 r
    (Htransient : dialed Dial n w w1) (Hlast : Dial w1 = (r, w2)) (Hfinal : ¬ transient r)
    (Hplain : ∀ e, r ≠ DialFailed e) :
  newConn Dial version (n + 1) w = Some (match r with
    | Dialed c => Ret c
    | Rejected status => Throw (Wrapf "unable to create websocket connection"
        (if status =? StatusFailedDependency
         then Errorf ("server rejected our client version <" ++ version ++ ">, please update")%string
         else Errorf "server rejected our credentials"))
    | DialFailed e => Throw e
    end, w2).
Proof.
  unfold newConn. destruct (attempts_transient Dial version n 1 None w w1 Htransient) as (c' & ->).
  cbn [attempts]. unfold dial_attempt. rewrite Hlast. destruct r as [c|status|e]; [done| |by destruct (Hplain e)].
  cbn in Hfinal. destruct (Z.eqb_spec status StatusFailedDependency) as [->|H1]; [done|].
  destruct (Z.eqb_spec status StatusUnauthorized) as [->|H2]; [done|]. by destruct Hfinal.
Qed.

Lemma dialing_ends_witness :
  let Dial n := (match n with O => DialFailed (Errorf "refused") | S O => Rejected 503 | _ => Rejected 401 end, S n) in
  newConn (Conn := unit) Dial "v1" 3 0%nat =
    Some (Throw (Wrapf "unable to create websocket connection" (Errorf "server rejected our credentials")), 3%nat).
Proof.
  intros Dial. apply (dialing_ends Dial "v1" 2 0%nat 2%nat 3%nat (Rejected 401)); [|reflexivity| |].
  - exists (DialFailed (Errorf "refused")), 1%nat. split; [reflexivity|]. split; [reflexivity|].
    exists (Rejected 503), 2%nat. split; [reflexivity|]. split; [|reflexivity]. split; discriminate.
  - intros [_ H]. by apply H.
  - discriminate.
Defined.

(** ** The command *)
Section Command.
Context {W Conn NodeList : Type}.
Variable LookupEnv : string → option string.
Variable LoadConfig : M W Config.
Variable LoadClusterConfig : option ClusterConfig.
Variable LoadCredentials : option Credentials.
Variable GetSynchronizerUrl : string → option string.
(** [utils.NewClient] and [k8sinterface.NewKubernetesApi]. *)
Variable NewClient : M W unit.
Variable KubeApi : KubernetesApi (W := W) (NodeList := NodeList).
(** The profiler and the liveness probe. *)
Variables ServePprof StartLivenessProbe : W → W.
(** The dialer, with its headers, and the synchronizer. *)
Variable Dial : list (string * string) → string → W → DialResult Conn * W.
Variable NewSynchronizerClient : Ctx → list ClientAdapter → Conn → M W unit.
Variable SyncStart : Ctx → M W unit.

(** What [main] prepares before it dials. *)
Record ClientSetup : Type := mkClientSetup {
  su_ctx : Ctx;
  su_settings : InCluster;
  su_adapters : list ClientAdapter;
  su_headers : list (string * string)
}.
Definition client_setup : M W ClientSetup :=
  cfg ← wrapE "load config error" LoadConfig;
  let i := client_settings LookupEnv LoadClusterConfig LoadCredentials GetSynchronizerUrl (cfg_InCluster cfg) in
  k8sApi ← (if valid InCluster_ValidateConfig i then
              wrapE "unable to create k8s client" NewClient ;; mret (Some KubeApi)
            else mret None);
  adpts ← client_adapters i (cfg_HTTPEndpoint cfg);
  let ctx := WithValue Background ContextKeyClientIdentifier
               (VIdentifier (mkIdentifier (ic_Account i) (ClusterName i))) in
  '(gitVersion, cloudProvider) ← GetApiServerGitVersionAndCloudProvider k8sApi;
  clusterUID ← GetClusterUID k8sApi;
  resourceGroup ← GetResourceGroup k8sApi;
  modifyW (λ w, StartLivenessProbe (ServePprof w)) ;;
  mret (mkClientSetup ctx i adpts
          (client_headers LookupEnv i gitVersion cloudProvider clusterUID resourceGroup)).
Definition client_synchronize (su : ClientSetup) (conn : Conn) : M W unit :=
  wrapE "failed to create synchronizer" (NewSynchronizerClient (su_ctx su) (su_adapters su) conn) ;;
  wrapE "error during sync, exiting" (SyncStart (su_ctx su)).
(** [None] while [n] attempts to dial have not been enough. *)
Definition client_main (n : nat) (w : W) : option (outcome unit * W) :=
  match client_setup w with
  | (Ret su, w1) =>
      match newConn (Dial (su_headers su) (ServerUrl (su_settings su))) (Getenv LookupEnv "RELEASE") n w1 with
      | Some (Ret conn, w2) => Some (client_synchronize su conn w2)
      | Some (Throw e, w2) => Some (Throw (Wrapf "failed to connect" e), w2)
      | Some (Panic s, w2) => Some (Panic s, w2)
      | None => None
      end
  | (Throw e, w1) => Some (Throw e, w1)
  | (Panic s, w1) => Some (Panic s, w1)
  end.
End Command.

(** ** From the settings of a client to the messages on the queue *)
Section EndToEnd.
Variable LookupEnv : string → option string.
Variables (i : InCluster) (gitVersion cloudProvider clusterUID resourceGroup : string).
Let h := received_headers (client_headers LookupEnv i gitVersion cloudProvider clusterUID resourceGroup).

Lemma client_headers_received :
  HeaderGet h AccessKeyHeader = AccessKey i ∧ HeaderGet h AccountHeader = ic_Account i ∧
  HeaderGet h ClusterNameHeader = ClusterName i ∧ HeaderGet h VersionHeader = Getenv LookupEnv "RELEASE" ∧
  ∀ cid t, identity_of h cid t = mkClientIdentifier (ic_Account i) (ClusterName i) cid t
    (Getenv LookupEnv "HELM_RELEASE") (Getenv LookupEnv "RELEASE") gitVersion cloudProvider clusterUID resourceGroup.
Proof. split_and!; intros; vm_compute; reflexivity. Qed.
End EndToEnd.

(** ** A client and the server it dials *)
(** The handshake with a server: the answer of its middleware is the answer to the dial. *)
Definition dial_server {X} (middleware : IncomingRequest → M X (option Z)) (headers : list (string * string))
    (url : string) (w : X) : DialResult unit * X :=
  match middleware (mkIncomingRequest (received_headers headers) Background) w with
  | (Ret None, w') => (Dialed tt, w')
  | (Ret (Some status), w') => (Rejected status, w')
  | (_, w') => (DialFailed (Errorf "EOF"), w')
  end.

Section Setup.
Context {W NodeList : Type}.
Variables (LookupEnv : string → option string) (LoadConfig : M W Config).
Variables (LoadClusterConfig : option ClusterConfig) (LoadCredentials : option Credentials).
Variables (GetSynchronizerUrl : string → option string) (NewClient : M W unit).
Variable KubeApi : KubernetesApi (W := W) (NodeList := NodeList).
Variables ServePprof StartLivenessProbe : W → W.
Local Abbreviation setup := (client_setup LookupEnv LoadConfig LoadClusterConfig LoadCredentials
  GetSynchronizerUrl NewClient KubeApi ServePprof StartLivenessProbe).

Lemma client_setup_run w su w' :
  setup w = (Ret su, w') →
  ∃ cfg w1 gv cp uid rg, LoadConfig w = (Ret cfg, w1) ∧
    let i := client_settings LookupEnv LoadClusterConfig LoadCredentials GetSynchronizerUrl (cfg_InCluster cfg) in
    client_adapters i (cfg_HTTPEndpoint cfg) tt = (Ret (su_adapters su), tt) ∧ su_settings su = i ∧
    su_ctx su = WithValue Background ContextKeyClientIdentifier
                  (VIdentifier (mkIdentifier (ic_Account i) (ClusterName i))) ∧
    su_headers su = client_headers LookupEnv i gv cp uid rg.
Proof.
  unfold client_setup. rewrite bind_run, wrapE_run. destruct (LoadConfig w) as [[cfg|e|s] w1]; [|done..].
  cbv zeta. set (i := client_settings _ _ _ _ _). rewrite bind_run.
  match goal with |- context [(if valid ?v i then ?a else ?b) w1] =>
    destruct ((if valid v i then a else b) w1) as [[api|e|s] w2] end; [|done..]. rewrite bind_run.
  unfold client_adapters at 1. destruct (Nat.eqb _ 0) eqn:Hn; [done|]. rewrite ret_run. cbn beta iota.
  rewrite bind_run. destruct (GetApiServerGitVersionAndCloudProvider api w2) as [[[gv cp]|e|s] w3]; [|done..].
  rewrite bind_run. destruct (GetClusterUID api w3) as [[uid|e|s] w4]; [|done..].
  rewrite bind_run. destruct (GetResourceGroup api w4) as [[rg|e|s] w5]; [|done..].
  intros [= <- _]. exists cfg, w1, gv, cp, uid, rg. split; [done|]. cbv zeta. fold i. split_and!; [|done..].
  unfold client_adapters. by rewrite Hn.
Qed.
End Setup.
Lemma valid_iff i : valid InCluster_ValidateConfig i = true ↔
  AccessKey i ≠ "" ∧ ic_Account i ≠ "" ∧ ClusterName i ≠ "" ∧ ServerUrl i ≠ "" ∧ ic_Resources i ≠ [].
Proof.
  unfold valid. rewrite <- InCluster_valid_iff. destruct (InCluster_ValidateConfig i tt) as [[[]|e|s] []]; naive_solver.
Qed.

(** A client has one identity: the account and the cluster that it puts in the context of
    its own adapters are those that the server's middleware reads from the headers it dials
    with.  It never runs without an adapter, and it runs the one that watches the cluster
    exactly when its five settings are there, so that the server finds credentials. *)
Theorem client_identity {W NodeList} LookupEnv (LoadConfig : M W Config) LoadClusterConfig LoadCredentials
    GetSynchronizerUrl NewClient (KubeApi : KubernetesApi (W := W) (NodeList := NodeList)) ServePprof
    StartLivenessProbe w su w'
    (Hrun : client_setup LookupEnv LoadConfig LoadClusterConfig LoadCredentials GetSynchronizerUrl NewClient
              KubeApi ServePprof StartLivenessProbe w = (Ret su, w')) :
  let i := su_settings su in
  let h := received_headers (su_headers su) in
  carries (su_ctx su) (mkIdentifier (ic_Account i) (ClusterName i)) ∧
  (∀ cid t, Account (identity_of h cid t) = ic_Account i ∧ Cluster (identity_of h cid t) = ClusterName i) ∧
  su_adapters su ≠ [] ∧
  (UsesInClusterAdapter ∈ su_adapters su ↔
     AccessKey i ≠ "" ∧ ic_Account i ≠ "" ∧ ClusterName i ≠ "" ∧ ServerUrl i ≠ "" ∧ ic_Resources i ≠ []) ∧
  (UsesInClusterAdapter ∈ su_adapters su → has_credentials h).
Proof.
  apply client_setup_run in Hrun as (cfg & w1 & gv & cp & uid & rg & _ & Ha & Hi & Hctx & Hh).
  intros i h. fold i in Hi. rewrite <- Hi in Ha, Hctx, Hh. clear Hi. clearbody i.
  destruct (client_headers_received LookupEnv i gv cp uid rg) as (Hk & Hacc & Hcl & _ & Hid).
  assert (su_adapters su ≠ [] ∧ (UsesInClusterAdapter ∈ su_adapters su ↔ valid InCluster_ValidateConfig i = true))
    as [Hne Hin].
  { unfold client_adapters in Ha. revert Ha.
    destruct (valid InCluster_ValidateConfig i), (valid HTTPEndpoint_ValidateConfig _); cbn; [..|done];
      intros [= <-]; split; set_solver. }
  rewrite valid_iff in Hin. unfold h. rewrite Hh, Hctx. split_and!; [done|by intros; rewrite Hid|done|exact Hin|].
  rewrite Hin. intros (? & ? & ? & _). unfold has_credentials. by rewrite Hk, Hacc, Hcl.
Qed.

(** C24. Client and server agree on what an answer means: a client that dials the server
    synchronizes on the connection when the middleware admits it, and otherwise stops at the
    first dial with an error that names the reason, its credentials or its version; it never
    dials again after a refusal. *)
Theorem client_meets_server {X NodeList} LookupEnv LoadConfig LoadClusterConfig LoadCredentials GetSynchronizerUrl
    NewClient (KubeApi : KubernetesApi (W := AuthState * X) (NodeList := NodeList)) ServePprof StartLivenessProbe
    NewSynchronizerClient SyncStart Now NewUUID ParseURL NewRequest Do Range acfg next n w su st w1 o w2
    (Hsetup : client_setup LookupEnv LoadConfig LoadClusterConfig LoadCredentials GetSynchronizerUrl NewClient
                KubeApi ServePprof StartLivenessProbe w = (Ret su, (st, w1)))
    (Hserver : AuthenticationServerMiddleware Now NewUUID ParseURL NewRequest Do Range acfg next
                 (mkIncomingRequest (received_headers (su_headers su)) Background) (st, w1) = (Ret o, w2)) :
  let run := client_main LookupEnv LoadConfig LoadClusterConfig LoadCredentials GetSynchronizerUrl NewClient KubeApi
    ServePprof StartLivenessProbe
    (dial_server (AuthenticationServerMiddleware Now NewUUID ParseURL NewRequest Do Range acfg next))
    NewSynchronizerClient SyncStart (S n) w in
  match o with
  | None => run = Some (client_synchronize NewSynchronizerClient SyncStart su tt w2)
  | Some status => ∃ reason, run = Some (Throw (Wrapf "failed to connect"
        (Wrapf "unable to create websocket connection" (Errorf reason))), w2) ∧
      (status = 401 ∧ reason = "server rejected our credentials" ∨
       status = 424 ∧ has_credentials (received_headers (su_headers su)) ∧
       reason = ("server rejected our client version <" ++ Getenv LookupEnv "RELEASE" ++ ">, please update")%string)
  end.
Proof.
  intros run. subst run. unfold client_main. rewrite Hsetup.
  assert (dial_server (AuthenticationServerMiddleware Now NewUUID ParseURL NewRequest Do Range acfg next)
            (su_headers su) (ServerUrl (su_settings su)) (st, w1)
          = (match o with None => Dialed tt | Some status => Rejected status end, w2)) as Hdial
    by (unfold dial_server; rewrite Hserver; by destruct o).
  unfold newConn. cbn [attempts]. unfold dial_attempt. rewrite Hdial.
  destruct o as [status|]; [|done].
  destruct (refusal_status _ _ _ _ _ _ _ _ _ _ _ _ _ Hserver) as [->|[-> Hc]]; cbn;
    eexists; (split; [reflexivity|]); [by left|right; by split_and!].
Qed.

(** A client whose settings are complete, and whose name the server then uses. *)
Definition sample_client_settings : InCluster :=
  mkInCluster "wss://sync" "kubescape" "prod" [] [] "acme" "secret" [mkConfigResource "" "v1" "pods" CopyStrategy].
Definition sample_client_headers : Header :=
  received_headers (client_headers (λ _, None) sample_client_settings "" "" "" "").
Definition sample_answer (q : AuthRequest) : outcome Z :=
  Ret (if String.eqb (HeaderGet (aq_Header q) "x-api-key") "secret" then 200 else 403).

(** A client with complete settings and one with none but the HTTP endpoint, before the same server. *)
Definition sample_config (i : InCluster) : Config :=
  mkConfig (mkBackend 8080 None "" None "" "" 1 None None None [] None None) i
    (mkHTTPEndpoint "8089" [mkConfigResource "" "v1" "pods" CopyStrategy]).
Definition sample_api : KubernetesApi (W := AuthState * unit) (NodeList := unit) :=
  mkKubernetesApi (λ w, (inl (["azure:///subscriptions/s/resourceGroups/rg/providers/x"], tt), w))
    (λ _ w, (inl "uid-1", w)) (λ w, (inl "v1.30.1", w)) (λ _, "azure").
Definition sample_setup (i : InCluster) : M (AuthState * unit) ClientSetup :=
  client_setup (λ _, None) (mret (sample_config i)) None None (λ _, None) (mret tt) sample_api id id.
Definition sample_server : IncomingRequest → M (AuthState * unit) (option Z) :=
  AuthenticationServerMiddleware (mret 5) (mret "c1") (λ u, inl (u, ∅)) (λ _ _, inl tt) (λ q w, (sample_answer q, w))
    map_to_list (Some sample_auth) (λ _, mret tt).
Definition no_settings : InCluster := mkInCluster "wss://sync" "" "" [] [] "" "" [].

Lemma client_identity_witness :
  ∃ su w', sample_setup sample_client_settings (mkAuthState false false, tt) = (Ret su, w') ∧
    has_credentials (received_headers (su_headers su)) ∧
    carries (su_ctx su) (mkIdentifier "acme" "prod").
Proof.
  destruct (sample_setup sample_client_settings (mkAuthState false false, tt)) as [o w'] eqn:Hrun.
  assert (∃ su, o = Ret su ∧ su_settings su = sample_client_settings ∧ UsesInClusterAdapter ∈ su_adapters su)
    as (su & -> & Hi & Hin).
  { vm_compute in Hrun. injection Hrun as <- _. eexists. split; [reflexivity|]. split; [reflexivity|left]. }
  exists su, w'. split; [reflexivity|].
  destruct (client_identity _ _ _ _ _ _ _ _ _ _ _ _ Hrun) as (Hc & _ & _ & _ & Hcred).
  split; [by apply Hcred|]. rewrite Hi in Hc. exact Hc.
Defined.

Lemma client_meets_server_witness :
  let main i := client_main (λ _, None) (mret (sample_config i)) None None (λ _, None) (mret tt) sample_api id id
    (dial_server sample_server) (λ _ _ _, mret tt) (λ _, mret tt) 1 (mkAuthState false false, tt) in
  fst <$> main sample_client_settings = Some (Ret tt) ∧
  ∃ reason w, main no_settings = Some (Throw (Wrapf "failed to connect"
    (Wrapf "unable to create websocket connection" (Errorf reason))), w).
Proof.
  intros main. split; [by vm_compute|].
  destruct (sample_setup no_settings (mkAuthState false false, tt)) as [o [st []]] eqn:Hsetup.
  assert (∃ su, o = Ret su) as [su ->] by (vm_compute in Hsetup; injection Hsetup as <- _; by eexists).
  destruct (sample_server (mkIncomingRequest (received_headers (su_headers su)) Background) (st, tt)) as [o w2] eqn:Hserver.
  assert (o = Ret (Some 401)) as ->.
  { vm_compute in Hsetup. injection Hsetup as <- <-. vm_compute in Hserver. by injection Hserver as <- _. }
  destruct (client_meets_server _ _ _ _ _ _ _ _ _ (λ _ _ _, mret tt) (λ _, mret tt) _ _ _ _ _ _ _ _ 0 _ _ _ _ _ _ Hsetup Hserver)
    as (reason & Hrun & _).
  exists reason, w2. exact Hrun.
Defined.
