(* ===== verification/ServerPath.v ===== *)
(** * ServerPath: a request on its way through the whole server.

    The middleware (Authentication) admits it, its goroutine (Session) starts, every message
    of its connection goes through the worker of the core (Synchronizer) to the adapter
    (BackendAdapter), which looks up the client of the context and writes to the queue
    (BackendClient, Queue). *)

From S2P Require Export ClientMain Session.
From S2P Require Import Synchronizer.

(** ** What is written to the queue under one name *)
Section Named.
Context `{MultiErr, MergePatches, Machine (list IncomingMessage)} {W : Type}.
Local Abbreviation Q := (list IncomingMessage).
Variables (id : ClientIdentifier) (now : string).

Definition names_client (msg : IncomingMessage) : Prop :=
  message_client msg = mkIdentifier (Account id) (Cluster id).
(** [m] keeps [I] and only appends messages that name the client. *)
Definition appends {S A} (queue : S → Q) (I : S → Prop) (m : M S A) : Prop :=
  ∀ s, I s → I (m s).2 ∧ ∃ msgs, queue (m s).2 = queue s ++ msgs ∧ Forall names_client msgs.

Section Rules.
Context {S : Type} (queue : S → Q) (I : S → Prop).
Local Abbreviation ok := (appends queue I).
Lemma appends_same {A} (m : M S A) : (∀ s, (m s).2 = s) → ok m.
Proof. intros Hm s Hs. rewrite Hm. split; [done|]. exists []. by rewrite (right_id_L [] (++)). Qed.
Lemma appends_bind {A B} (m : M S A) (f : A → M S B) : ok m → (∀ a, ok (f a)) → ok (m ≫= f).
Proof.
  intros Hm Hf s Hs. destruct (Hm s Hs) as (Hs1 & l & Hl & Hall). rewrite bind_run.
  destruct (m s) as [[a|e|p] s1]; [|by eauto..]. destruct (Hf a s1 Hs1) as (Hs2 & l' & Hl' & Hall').
  split; [done|]. exists (l ++ l'). cbn [snd] in *. rewrite Hl', Hl, (assoc_L (++)). split; [done|]. by apply Forall_app.
Qed.
Lemma appends_known {A B} (m : M S A) a (f : A → M S B) : (∀ s, m s = (Ret a, s)) → ok (f a) → ok (m ≫= f).
Proof. intros Hm Hf s Hs. rewrite bind_run, Hm. by apply Hf. Qed.
Lemma appends_attempt {A} (m : M S A) : ok m → ok (attempt m).
Proof. intros Hm s Hs. specialize (Hm s Hs). rewrite attempt_run. by destruct (m s) as [[]]. Qed.
Lemma appends_wrapE {A} l (m : M S A) : ok m → ok (wrapE l m).
Proof. intros Hm s Hs. specialize (Hm s Hs). rewrite wrapE_run. by destruct (m s) as [[]]. Qed.
Lemma appends_mfor {A} (f : A → M S unit) l : (∀ a, ok (f a)) → ok (mfor f l).
Proof. intros Hf. induction l as [|a l IH]; [by apply appends_same|]. by apply appends_bind. Qed.
Lemma appends_appendErrs {A} (f : A → M S unit) l err : (∀ a, ok (f a)) → ok (appendErrs f l err).
Proof.
  intros Hf. revert err. induction l as [|a l IH]; intros err; [by apply appends_same|].
  cbn [appendErrs]. apply appends_bind; [|by intros]. intros s Hs. specialize (Hf a s Hs).
  rewrite errval_run. by destruct (f a s) as [[]].
Qed.
Lemma appends_deref {A} (o : option A) : ok (deref o).
Proof. apply appends_same. by destruct o. Qed.
End Rules.

(** *** The operations of the client *)
Local Abbreviation B := (option FeaturesProvider * Q)%type.
Local Abbreviation ok := (appends (S := B) snd (λ _, True)).
(** The clock, the host name and the source of ids do not touch the queue. *)
Definition machine_reads : Prop := ∀ q : Q, (NewMsgId q).2 = q ∧ (Now q).2 = q ∧ (Hostname q).2 = q.
Hypothesis Hmachine : machine_reads.
Implicit Type c : BackendClient W Q.

Lemma appends_reads {A} (m : M Q A) : (∀ q, (m q).2 = q) → ok (liftR m).
Proof. intros Hm. apply appends_same. intros [f q]. specialize (Hm q). unfold liftR. by destruct (m q) as [[] q']; cbn in *; subst. Qed.
Lemma appends_produce c ctx event payload props :
  bc_messageProducer c = link now → free_of MsgPropAccount props → free_of MsgPropCluster props →
  ok (produce c ctx id event payload props).
Proof.
  intros Hc Ha Hcl [f q] _. split; [done|]. unfold produce. rewrite Hc. eexists. split; [done|].
  constructor; [|constructor]. unfold names_client, message_client. cbn [queued im_Properties].
  by rewrite routed_account, routed_cluster.
Qed.
Lemma appends_produce_about c ctx event payload kn :
  bc_messageProducer c = link now → ok (produce_about c ctx id event payload kn).
Proof.
  intros Hc. unfold produce_about. destruct (kn_Kind kn) as [k|] eqn:Hk.
  - eapply appends_known; [intros s; by apply KindNameToCustomProperties_run|].
    apply appends_produce; [done|..]; (constructor; [|constructor]); apply described_free; set_solver.
  - intros [f q] _. rewrite bind_run. unfold KindNameToCustomProperties. rewrite Hk. cbn.
    split; [done|]. exists []. by rewrite (right_id_L [] (++)).
Qed.
Lemma appends_ids ctx : ok (b_ids ctx).
Proof.
  unfold b_ids, DeptMsgIdFromContext. apply appends_bind.
  - destruct (Value ctx ContextKeyMsgId); [by apply appends_same|]. apply appends_bind; [|intros; by apply appends_same].
    apply appends_reads. apply Hmachine.
  - intros v. apply appends_same. intros s. by destruct (default _ _), v.
Qed.
Context (ctx : Ctx) (Hctx : carries ctx id).
Lemma appends_client {A} (f : ClientIdentifier → M B A) : ok (f id) → ok (ClientIdentifierFromContext ctx ≫= f).
Proof using Hctx. intros Hf. eapply appends_known; [intros s; by apply ClientIdentifier_run|done]. Qed.
Create HintDb appends.
#[local] Hint Resolve appends_ids appends_produce_about appends_deref : appends.
Ltac solve_appends :=
  repeat match goal with
  | |- appends _ _ (ClientIdentifierFromContext _ ≫= _) => apply appends_client
  | |- appends _ _ (_ ≫= _) => apply appends_bind; [|intros ?]
  | |- appends _ _ (match ?x with _ => _ end) => destruct x
  | |- appends _ _ (let _ := _ in _) => cbv zeta
  | |- appends _ _ (wrapE _ _) => apply appends_wrapE
  | |- appends _ _ (mret _) => by apply appends_same
  | |- appends _ _ getW => by apply appends_same
  | |- appends _ _ _ => solve [eauto with appends]
  end.
Lemma appends_client_call c ev : bc_messageProducer c = link now → ok (client_call c ctx ev).
Proof using Hctx Hmachine.
  intros Hc.
  assert (∀ kn, ok (b_DeleteObject c ctx kn)) as Hdel by (intros; unfold b_DeleteObject, sendDeleteObjectMessage; solve_appends).
  assert (∀ kn base, ok (b_GetObject c ctx kn base)) as Hget by (intros; unfold b_GetObject, sendGetObjectMessage; solve_appends).
  assert (∀ kn sum p, ok (b_PatchObject c ctx kn sum p)) as Hpatch
    by (intros; unfold b_PatchObject, sendPatchObjectMessage; solve_appends).
  assert (∀ kn sum o, ok (b_PutObject c ctx kn sum o)) as Hput by (intros; unfold b_PutObject, sendPutObjectMessage; solve_appends).
  assert (∀ kn sum, ok (b_VerifyObject c ctx kn sum)) as Hver by (intros; unfold b_VerifyObject, sendVerifyObjectMessage; solve_appends).
  destruct ev; cbn [client_call]; [done..|]. unfold b_Batch.
  repeat (apply appends_bind; [apply appends_appendErrs; intros; unfold b_batch_get, b_batch_verify, b_batch_delete,
    b_batch_patch, b_batch_put; done|intros ?]).
  apply appends_same. intros s. unfold return_err. by case_match.
Qed.
Lemma appends_start c : bc_messageProducer c = link now → ok (b_Start c ctx).
Proof using Hctx Hmachine.
  intros Hc. assert (∀ event payload, ok (produce c ctx id event payload [])) as Hp by (intros; apply appends_produce; done || constructor).
  pose proof (λ q, proj1 (Hmachine q)) as Hid. pose proof (λ q, proj1 (proj2 (Hmachine q))) as Hnow.
  pose proof (λ q, proj2 (proj2 (Hmachine q))) as Hhost.
  unfold b_Start, sendServerConnectedMessage, sendSingleConnectedClientsMessage.
  solve_appends; by apply appends_reads.
Qed.
End Named.

(** *** The adapter and the worker of the core *)
Section Server.
Context `{MultiErr, MergePatches, Machine (list IncomingMessage)} {W : Type}.
Local Abbreviation Q := (list IncomingMessage).
Local Abbreviation Y := (BackendAdapter W Q * Q)%type.
Variables (env : string → option string) (id : ClientIdentifier) (now : string).
Hypothesis Hmachine : machine_reads.

(** All clients write to this queue, and only this connection is about to announce itself. *)
Definition linked (b : BackendAdapter W Q) : Prop :=
  ba_producer b = link now ∧ (∀ key c, clientsMap b !! key = Some c → bc_messageProducer c = link now) ∧
  Forall (λ e, carries e.1 id ∧ bc_messageProducer e.2 = link now) (ba_starting b).
Local Abbreviation okY := (appends id (S := Y) snd (λ y, linked y.1)).
Lemma appends_on_bclient {A} (m : M (option FeaturesProvider * Q) A) :
  appends id (S := option FeaturesProvider * Q) snd (λ _, True) m → okY (on_bclient m).
Proof.
  intros Hm [b q] Hb. unfold on_bclient. destruct (Hm (ba_featuresProvider b, q) I) as (_ & Hq).
  destruct (m _) as [o [p q']]. by split.
Qed.
Lemma appends_getClient ctx (f : BackendClient W Q → M Y unit) :
  carries ctx id → (∀ c, bc_messageProducer c = link now → okY (f c)) → okY (getClient ctx ≫= f).
Proof.
  intros Hc Hf [b q] Hb. rewrite bind_run. unfold getClient. rewrite bind_run, (ClientIdentifier_run _ _ _ Hc).
  unfold ba_get. go_compute. destruct (clientsMap b !! _) as [c|] eqn:Hcl.
  - apply Hf; [|done]. by apply (proj1 (proj2 Hb) _ _ Hcl).
  - split; [done|]. exists []. by rewrite (right_id_L [] (++)).
Qed.
Lemma appends_deliver ctx ev : carries ctx id → okY (deliver (go_backend env) ctx ev).
Proof using Hmachine.
  intros Hc. destruct ev as [kn|kn base|kn sum p|kn sum o|kn sum|k bt items]; apply appends_wrapE;
    (apply appends_getClient; [done|]); intros c Hl; apply appends_on_bclient.
  - by apply (appends_client_call id now Hmachine ctx Hc c (SyncDelete kn)).
  - by apply (appends_client_call id now Hmachine ctx Hc c (SyncGet kn base)).
  - by apply (appends_client_call id now Hmachine ctx Hc c (SyncPatch kn sum p)).
  - by apply (appends_client_call id now Hmachine ctx Hc c (SyncPut kn sum o)).
  - by apply (appends_client_call id now Hmachine ctx Hc c (SyncVerify kn sum)).
  - by apply (appends_client_call id now Hmachine ctx Hc c (SyncBatch k bt items)).
Qed.
Lemma appends_handle ctx ev : carries ctx id → okY (handle [go_backend env] ctx ev).
Proof using Hmachine.
  intros Hc. rewrite handle_loop. apply appends_bind; [by apply appends_deliver|]. intros _. by apply appends_same.
Qed.
Lemma appends_handled event ctx ev : carries ctx id → okY (handled event (handle [go_backend env] ctx ev)).
Proof using Hmachine.
  intros Hc. unfold handled. apply appends_bind; [by apply appends_attempt, appends_handle|].
  intros [u|e]; [by apply appends_same|]. apply appends_bind; [by apply appends_deref|]. intros _. by apply appends_same.
Qed.
Lemma appends_decoded {A} `{Wire A} g data (k : A → M Y turn) : (∀ msg, okY (k msg)) → okY (decoded g data k).
Proof.
  intros Hk. unfold decoded. destruct (Unmarshal data); [done|].
  apply appends_bind; [by apply appends_deref|]. intros _. by apply appends_same.
Qed.
Lemma appends_dispatch event ctx g data : carries ctx id → okY (dispatch [go_backend env] event ctx g data).
Proof using Hmachine.
  intros Hc. unfold dispatch.
  repeat match goal with |- context [if ?b then _ else _] => destruct b end; [..|by apply appends_same]; apply appends_decoded; intros msg.
  - apply appends_bind; [apply appends_deref|]. intros kind. apply appends_bind; [apply appends_deref|]. intros items.
    by apply (appends_handled _ ctx (SyncBatch kind (b_BatchType msg) items)).
  - by eapply (appends_handled _ ctx (SyncGet (mkKindName _ _ _ _) _)).
  - by eapply (appends_handled _ ctx (SyncVerify (mkKindName _ _ _ _) _)).
  - by eapply (appends_handled _ ctx (SyncDelete (mkKindName _ _ _ _))).
  - by eapply (appends_handled _ ctx (SyncPatch (mkKindName _ _ _ _) _ _)).
  - by eapply (appends_handled _ ctx (SyncPut (mkKindName _ _ _ _) _ _)).
Qed.
Local Abbreviation okS := (appends id (S := Ctx * Y) (λ s, s.2.2) (λ s, carries s.1 id ∧ linked s.2.1)).
Lemma appends_worker data : okS (inWorker [go_backend env] data).
Proof using Hmachine.
  unfold inWorker. destruct (String.eqb data ""); [by apply appends_same|].
  destruct (Unmarshal data) as [g|]; [|by apply appends_same].
  apply appends_bind; [apply appends_deref|]. intros e. destruct (_ <? _); [by apply appends_same|].
  intros [ctx y] [Hc Hl]. rewrite bind_run. unfold getW. cbn beta iota. rewrite bind_run. unfold modifyW. cbn beta iota. cbn [fst snd].
  rewrite bind_run. destruct (g_Event g) as [ev|]; cbn beta iota.
  2: { split; [split; [by apply carries_Generic|done]|]. exists []. by rewrite (right_id_L [] (++)). }
  destruct (appends_dispatch ev (ContextFromGeneric ctx g) g data (carries_Generic _ _ _ Hc) y Hl) as (Hl' & Hq).
  unfold liftR. cbn. destruct (dispatch _ _ _ _ _ _) as [o y']. cbn in *. split; [split; [by apply carries_Generic|done]|done].
Qed.
Lemma appends_starting i : okY (run_starting i).
Proof using Hmachine.
  intros [b q] (Hp & Hcl & Hst). unfold run_starting, ba_get, ba_modify. go_compute.
  destruct (ba_starting b !! i) as [[ctx c]|] eqn:Hi; cbn beta iota.
  - pose proof (Forall_lookup_1 _ _ _ _ Hst Hi) as [Hc Hl]. cbn [fst snd] in Hc, Hl.
    destruct (appends_on_bclient (b_Start c ctx) (appends_start id now Hmachine ctx Hc c Hl) (set_starting (delete i) b, q)) as [H1' H2'].
    { split_and!; [done..|]. by apply Forall_delete. }
    revert H1' H2'. unfold attempt. destruct (on_bclient _ _) as [[]]; cbn; eauto.
  - by split; [|exists []; rewrite (right_id_L [] (++))].
Qed.

(** What happens to the server because of one connection: its worker takes a message, or the
    goroutine of its start announces it. *)
Inductive ConnectionEvent : Type := MessageArrives (data : string) | StartAnnounces (i : nat).
Definition connection_event (s : Ctx * Y) (e : ConnectionEvent) : Ctx * Y :=
  match e with
  | MessageArrives data => (inWorker [go_backend env] data s).2
  | StartAnnounces i => (s.1, (run_starting i s.2).2)
  end.
(** The reading loop, until the connection breaks. *)
Definition connection_loop (ctx : Ctx) (es : list ConnectionEvent) : M Y unit := λ y,
  (Throw (Errorf "EOF"), (foldl connection_event (ctx, y) es).2).
Lemma appends_loop ctx es : carries ctx id → okY (connection_loop ctx es).
Proof using Hmachine.
  intros Hc y Hy. unfold connection_loop. cbn [snd].
  assert (okS (λ s, (Ret tt, foldl connection_event s es))) as Hall.
  { clear -Hmachine. induction es as [|e es IH]; [by apply appends_same|]. cbn [foldl].
    intros s Hs. assert ((carries (connection_event s e).1 id ∧ linked (connection_event s e).2.1) ∧
      ∃ msgs, (connection_event s e).2.2 = s.2.2 ++ msgs ∧ Forall (names_client id) msgs) as (Hs' & l & Hl & Hlall).
    { destruct e as [data|i]; [by apply appends_worker|]. destruct Hs as [Hs1 Hs2].
      destruct (appends_starting i s.2 Hs2) as [Hs2' Hq]. split; [by split|exact Hq]. }
    destruct (IH _ Hs') as (Hs2 & l' & Hl' & Hlall'). split; [exact Hs2|]. exists (l ++ l').
    cbn [snd] in *. rewrite Hl', Hl, (assoc_L (++)). split; [done|]. by apply Forall_app. }
  destruct (Hall (ctx, y) (conj Hc Hy)) as ([_ Hl] & Hq). by split.
Qed.
End Server.

(** ** Messages that the core of a client wrote *)
Section Exact.
Context `{MultiErrLaws, MergePatches, Machine (list IncomingMessage)} {W : Type}.
Local Abbreviation Q := (list IncomingMessage).
Local Abbreviation Y := (BackendAdapter W Q * Q)%type.
Variables (env : string → option string) (id : ClientIdentifier) (now : string).

(** A message of an event, with its depth and its id. *)
Record Sent : Type := mkSent { se_event : SyncEvent; se_depth : Z; se_msgId : string }.
Definition acceptable (m : Sent) : Prop :=
  sendable (se_event m) ∧ in_int (se_depth m) ∧ se_depth m ≤ maxMessageDepth ∧ text_ok (se_msgId m).
Definition arrival (m : Sent) : ConnectionEvent :=
  MessageArrives (message_of true (se_event m) (se_depth m) (se_msgId m)).
(** What the events of a message put into the queue: those of a batch one by one. *)
Definition single_events (ev : SyncEvent) : list SyncEvent :=
  match as_received true ev with SyncBatch kind _ items => batch_events kind items | ev' => [ev'] end.
Definition written_for (c : BackendClient W Q) (f : option FeaturesProvider) (m : Sent) : list IncomingMessage :=
  concat (written c now id f (se_depth m) (se_msgId m) <$> single_events (se_event m)).

Lemma client_call_written (c : BackendClient W Q) ctx m f q :
  bc_messageProducer c = link now → carries ctx id → acceptable m →
  let ctx' := ContextFromGeneric ctx (message_header (se_event m) (se_depth m) (se_msgId m)) in
  client_call c ctx' (as_received true (se_event m)) (f, q) = (Ret tt, (f, q ++ written_for c f m)).
Proof.
  intros Hl Hc (Hs & _) ctx'. destruct m as [ev d m]. unfold written_for. cbn [se_event se_depth se_msgId] in *.
  assert (∀ l, Forall (λ ev, ∃ id k, event_id ev = Some id ∧ kn_Kind id = Some k) l →
    mfor (client_call c ctx') l (f, q) = (Ret tt, (f, q ++ concat (written c now id f d m <$> l)))) as Hcalls.
  { intros l Hall. apply client_calls_run; [done|by apply carries_Generic|done..]. }
  destruct ev as [kn|kn base|kn sum p|kn sum o|kn sum|k bt items].
  6: { cbn [as_received client_call]. unfold single_events. cbn [as_received].
       rewrite b_Batch_calls, bind_run. erewrite appendErrs_clean; [done|]. apply Hcalls.
       unfold batch_events, item_id. rewrite !Forall_app. split_and!; apply Forall_fmap, Forall_true; intros; cbn; eauto. }
  all: assert (id_ok kn) as ((k & Hk & _) & _) by (cbn in Hs; tauto).
  all: match goal with |- client_call _ _ ?ev _ = _ =>
    assert (mfor (client_call c ctx') [ev] (f, q) = (Ret tt, (f, q ++ concat (written c now id f d m <$> [ev])))) as Hrun
      by (apply Hcalls; constructor; [eexists _, k; split; [reflexivity|exact Hk]|constructor]) end.
  all: cbn [mfor] in Hrun; rewrite bind_run in Hrun; destruct (client_call _ _ _ _) as [[[]|e|s] y]; exact Hrun.
Qed.
Lemma arrival_written (b : BackendAdapter W Q) (c : BackendClient W Q) ctx m q :
  clientsMap b !! ClientIdentifier_String id = Some c → bc_messageProducer c = link now → carries ctx id → acceptable m →
  ∃ ctx', carries ctx' id ∧
    connection_event env (ctx, (b, q)) (arrival m) = (ctx', (b, q ++ written_for c (ba_featuresProvider b) m)).
Proof.
  intros Hcl Hl Hc Hm. exists (ContextFromGeneric ctx (message_header (se_event m) (se_depth m) (se_msgId m))).
  split; [by apply carries_Generic|].
  pose proof (client_call_written c ctx m (ba_featuresProvider b) q Hl Hc Hm) as Hcall. cbv zeta in Hcall.
  destruct Hm as (Hs & Hin & Hd & Ht). cbn [connection_event arrival]. rewrite receive_run by done.
  set (ctx' := ContextFromGeneric _ _) in *. cbn [mfor]. rewrite bind_run.
  assert (deliver (go_backend env) ctx' (as_received true (se_event m)) (b, q) =
    (Ret tt, (b, q ++ written_for c (ba_featuresProvider b) m))) as ->; [|done].
  assert (∀ (op : BackendClient W Q → M (option FeaturesProvider * Q) unit) label,
    op c = client_call c ctx' (as_received true (se_event m)) →
    wrapE label (client ← getClient ctx'; on_bclient (op client)) (b, q) =
      (Ret tt, (b, q ++ written_for c (ba_featuresProvider b) m))) as Hop.
  { intros op label Hop. rewrite wrapE_run, bind_run. unfold getClient.
    rewrite bind_run, (ClientIdentifier_run ctx' id) by by apply carries_Generic. unfold ba_get. go_compute.
    rewrite Hcl. cbn beta iota. unfold on_bclient. rewrite Hop, Hcall. by destruct b. }
  destruct (se_event m); by apply Hop.
Qed.
Lemma arrivals_written (b : BackendAdapter W Q) (c : BackendClient W Q) ctx l q :
  clientsMap b !! ClientIdentifier_String id = Some c → bc_messageProducer c = link now → carries ctx id → Forall acceptable l →
  (connection_loop env ctx (arrival <$> l) (b, q)).2 = (b, q ++ concat (written_for c (ba_featuresProvider b) <$> l)).
Proof.
  intros Hcl Hl Hc Hall. unfold connection_loop. cbn [snd]. revert ctx q Hc.
  induction Hall as [|m l Hm Hall IH]; intros ctx q Hc; [cbn; by rewrite (right_id_L [] (++))|].
  rewrite fmap_cons. cbn [foldl]. destruct (arrival_written b c ctx m q Hcl Hl Hc Hm) as (ctx' & Hc' & ->).
  rewrite (IH _ _ Hc'), fmap_cons. cbn [concat]. by rewrite <- (assoc_L (++)).
Qed.
End Exact.

(** ** The goroutine of a request *)
Section Request.
Context `{MultiErrLaws, MergePatches, Machine (list IncomingMessage)} {W Conn : Type}.
Local Abbreviation Q := (list IncomingMessage).
Local Abbreviation Y := (BackendAdapter W Q * Q)%type.
Variables (env : string → option string) (NewMsgId : M W string) (outPool_Invoke : string → M W unit).
(** What [ws.UpgradeHTTP] makes of the request. *)
Variable upgraded : Conn + gerror.

(** The handler behind the middleware and the goroutine it starts, with what arrives on the
    connection; the rest of the server does nothing meanwhile. *)
Definition serve_request (es : list ConnectionEvent) (ctx : Ctx) : M Y unit :=
  conn ← upgrade (match upgraded with inl conn => mret conn | inr e => throw e end);
  match conn with
  | Some conn =>
      serve_client env NewMsgId outPool_Invoke (mret tt) (connection_loop env ctx es) (mret tt) ctx conn
  | None => mret tt
  end.

(** The client that a connection gets, and the provider it finds. *)
Definition own_client (b : BackendAdapter W Q) : BackendClient W Q :=
  b_RegisterCallbacks (new_client env b) (server_callbacks NewMsgId outPool_Invoke).
Lemma serve_request_run ctx id now b q es :
  machine_reads → carries ctx id → linked id now b →
  ∃ b' msgs, serve_request es ctx (b, q) = (Ret tt, (b', q ++ msgs)) ∧ Forall (names_client id) msgs ∧
    ∀ conn l, upgraded = inl conn → superseded b id = false → Forall acceptable l → es = arrival <$> l →
      msgs = concat (written_for id now (own_client b) (registered_features ctx id (ba_featuresProvider b)) <$> l).
Proof.
  intros Hmachine Hc Hl. unfold serve_request, upgrade. rewrite !bind_run, attempt_run.
  destruct upgraded as [conn|e]; [rewrite ret_run; cbn beta iota; rewrite ret_run; cbn beta iota|].
  2: { exists b, []. rewrite (right_id_L [] (++)). split_and!; [done|constructor|]. by intros conn l ?. }
  set (b0 := set_callbacksMap <[ClientIdentifier_String id := server_callbacks NewMsgId outPool_Invoke]> b).
  assert (linked id now b0) as Hl0 by exact Hl.
  pose proof (λ y : Y, Start_run env (connection_loop env ctx es) ctx id y Hc) as Hstart.
  assert (∀ y2 e, Start [go_backend env] false (mret tt) (connection_loop env ctx es) ctx (b0, q) = (Throw e, y2) →
    ∃ b', serve_client env NewMsgId outPool_Invoke (mret tt) (connection_loop env ctx es) (mret tt) ctx conn (b, q)
      = (Ret tt, (b', y2.2))) as Hserve.
  { intros [b2 q2] e Hs. eexists. by apply (serve_client_run _ _ _ _ _ _ ctx id conn b q (b0, q) (b2, q2) b2 q2 e). }
  rewrite Hstart in Hserve. destruct (superseded b0 id) eqn:Hs.
  - rewrite (start_superseded _ _ _ _ _ Hc Hs) in Hserve. destruct (Hserve _ _ eq_refl) as [b' Hrun].
    exists b', []. rewrite Hrun, (right_id_L [] (++)). split_and!; [done|constructor|]. intros ?? _ Hs'. 
    change (superseded b0 id) with (superseded b id) in Hs. congruence.
  - rewrite (backend_start_run _ _ _ _ _ Hc Hs) in Hserve.
    assert (callbacksMap b0 !! client_key id = Some (server_callbacks NewMsgId outPool_Invoke)) as Hcb by apply lookup_insert_eq.
    rewrite Hcb in Hserve. cbv zeta in Hserve. cbn beta iota in Hserve.
    match type of Hserve with context [wrapE _ _ (?x, _)] => set (b1 := x) in * end.
    assert (linked id now b1) as Hl1.
    { destruct Hl as (Hp & Hcl & Hst). split; [done|]. split.
      - intros key c. cbn. rewrite lookup_insert_Some. intros [[_ <-]|[_ ?]]; [done|by eapply Hcl].
      - cbn. apply Forall_app. split; [done|]. by repeat constructor. }
    destruct (appends_loop env id now Hmachine ctx es Hc (b1, q) Hl1) as (_ & msgs & Hq & Hall).
    rewrite wrapE_run in Hserve. unfold connection_loop in Hserve at 1. cbn beta iota in Hserve.
    destruct (Hserve _ _ eq_refl) as [b' Hrun]. exists b', msgs. rewrite Hrun.
    change (foldl _ _ _).2 with (connection_loop env ctx es (b1, q)).2. rewrite Hq. split_and!; [done..|].
    intros _ l _ _ Hacc ->. assert (clientsMap b1 !! ClientIdentifier_String id = Some (own_client b)) as Hcl by apply lookup_insert_eq.
    rewrite (arrivals_written env id now b1 (own_client b)) in Hq; [|done|exact (proj1 Hl)|done..].
    by apply app_inv_head in Hq.
Qed.
End Request.


(** A client whose credentials the authentication server accepts sends an object and a batch. *)
Definition sample_sent : list Sent :=
  [mkSent (SyncPut sample_id "c0" "{}") 0 "m1"; mkSent (SyncBatch sample_kind DefaultBatch sample_items) 1 "m2"].
Lemma sample_sent_acceptable : Forall acceptable sample_sent.
Proof.
  assert (wire_ok sample_items) as Hitems.
  { unfold wire_ok, WireOk_BatchItems, sample_items. cbn. split_and!; try exact I; try done;
      (constructor; [|constructor]); repeat split; cbn; unfold int_min, int_max; lia. }
  constructor; [|constructor; [|constructor]].
  - split; [|split_and!; reflexivity || done]. cbn. split; [|split; reflexivity].
    split; [|split; reflexivity]. exists sample_kind. split; [reflexivity|]. by repeat split.
  - split; [|split_and!; reflexivity || done]. cbn. split; [by repeat split|]. split; [reflexivity|exact Hitems].
Qed.
