(* ===== verification/Environment.v ===== *)
(** * Environment: what the commands find and leave around them, [config/config.go] and
    [utils/utils.go].

    The files of the settings, the configuration of the clients of Kubernetes, and the servers
    of the profiler and of the liveness probe.  viper, armometadata, the service discovery and
    client-go are parameters over the world [W]. *)

From S2P Require Export ClientMain.
From S2P Require Import Connections.

(** ** Paths: [filepath.Clean] and [filepath.Join] *)

(** One element of a path, on those before it, the last one first. *)
Definition clean_element (rooted : bool) (stack : list string) (e : string) : list string :=
  if String.eqb e "" || String.eqb e "." then stack
  else if String.eqb e ".." then
    match stack with
    | top :: rest => if String.eqb top ".." then e :: stack else rest
    | [] => if rooted then [] else [e]
    end
  else e :: stack.
Definition Clean (path : string) : string :=
  let rooted := HasPrefix path "/" in
  let elements := rev (foldl (clean_element rooted) [] (Split slash path)) in
  if rooted then ("/" ++ Join elements "/")%string
  else match elements with [] => "." | _ => Join elements "/" end.
(** The elements that are not empty, joined and cleaned. *)
Definition filepath_Join (elements : list string) : string :=
  match filter (λ e, e ≠ "") elements with
  | [] => ""
  | l => Clean (Join l "/")
  end.
Example filepath_Join_home :
  filepath_Join ["/home/me/"; ".kube"; "config"] = "/home/me/.kube/config" ∧
  filepath_Join ["/a/../b//./c"; ".kube"; "config"] = "/b/c/.kube/config" ∧ filepath_Join ["../a"; ".."; "b"] = "../b".
Proof. by repeat split. Qed.

(** ** Settings *)

(** [viper.Viper] as far as [LoadConfig] uses it; [Unmarshal] also applies the environment. *)
Class Viper (V W : Type) : Type := {
  viper_New : V;
  AddConfigPath : string → V → V;
  SetConfigName : string → V → V;
  SetConfigType : string → V → V;
  AutomaticEnv : V → V;
  ReadInConfig : V → M W V;
  viper_Unmarshal : V → M W Config
}.
(** The directories in which it looks, the names it looks for, and what it decodes. *)
Class ViperLaws (V W : Type) `{!Viper V W} : Type := {
  config_paths : V → list string;
  config_name : V → string;
  config_type : V → string;
  (** The settings in a directory under a name and of a type. *)
  settings_in : W → string → string → string → option Config;
  new_paths : config_paths viper_New = [];
  add_path d v : config_paths (AddConfigPath d v) = config_paths v ++ [d];
  name_paths n v : config_paths (SetConfigName n v) = config_paths v;
  type_paths t v : config_paths (SetConfigType t v) = config_paths v;
  env_paths v : config_paths (AutomaticEnv v) = config_paths v;
  set_name n v : config_name (SetConfigName n v) = n;
  type_name t v : config_name (SetConfigType t v) = config_name v;
  env_name v : config_name (AutomaticEnv v) = config_name v;
  set_type t v : config_type (SetConfigType t v) = t;
  env_type v : config_type (AutomaticEnv v) = config_type v;
  (** The first directory that has such a file is read; without one it is an error. *)
  read_first v w :
    match omap (λ d, settings_in w d (config_name v) (config_type v)) (config_paths v) with
    | c :: _ => ∃ v', ReadInConfig v w = (Ret v', w) ∧ viper_Unmarshal v' w = (Ret c, w)
    | [] => ∃ e, ReadInConfig v w = (Throw e, w)
    end
}.

Section Loading.
Context {W : Type} (LookupEnv : string → option string).
(** [armometadata.LoadConfig], whose result is a pointer. *)
Variable armometadata_LoadConfig : string → M W (option ClusterConfig).
Context {Client Services : Type}.
Variable NewServiceDiscoveryClientV3 : string → M W Client.
Variable GetServices : Client → M W Services.

Definition LoadConfig {V} `{Viper V W} (path : string) : M W Config :=
  let v := viper_New in
  let v := if String.eqb (Getenv LookupEnv "CONFIG") "" then v
           else AddConfigPath (Getenv LookupEnv "CONFIG") v in
  let v := AddConfigPath path v in
  let v := AutomaticEnv (SetConfigType "json" (SetConfigName "config" v)) in
  v ← ReadInConfig v;
  viper_Unmarshal v.
Definition LoadClusterConfig : M W ClusterConfig :=
  clusterConfig ← armometadata_LoadConfig (default "/etc/config/clusterData.json" (LookupEnv "CLUSTER_CONFIG"));
  deref clusterConfig.
Definition LoadServiceURLs (apiURL : string) : M W Services :=
  client ← NewServiceDiscoveryClientV3 apiURL;
  GetServices client.
End Loading.

(** ** Clients of Kubernetes *)
Section KubeClients.
Context {W RestConfig DynamicClient StorageClient : Type}.
(** [rest.InClusterConfig], [homedir.HomeDir], [clientcmd.BuildConfigFromFlags], and the
    constructors of the two clients. *)
Variable InClusterConfig : M W RestConfig.
Variable HomeDir : string.
Variable BuildConfigFromFlags : string → string → M W RestConfig.
Variable NewDynamic : RestConfig → M W DynamicClient.
Variable NewStorage : RestConfig → M W StorageClient.

Definition getConfig : M W RestConfig :=
  r ← attempt InClusterConfig;
  match r with
  | inl clusterConfig => mret clusterConfig
  | inr _ =>
      if String.eqb HomeDir "" then throw (Errorf "unable to find config")
      else
        r ← attempt (BuildConfigFromFlags "" (filepath_Join [HomeDir; ".kube"; "config"]));
        match r with
        | inl clusterConfig => mret clusterConfig
        | inr _ => throw (Errorf "unable to find config")
        end
  end.
Definition NewKubeClients : M W (DynamicClient * StorageClient) :=
  clusterConfig ← wrapE "failed to get cluster config" getConfig;
  dynamicClient ← wrapE "failed to create dynamic client" (NewDynamic clusterConfig);
  storageClient ← wrapE "failed to create storage client" (NewStorage clusterConfig);
  mret (dynamicClient, storageClient).
End KubeClients.

(** ** Servers *)

(** The patterns of [http.DefaultServeMux], and the servers that were started: an address with
    the patterns it serves. *)
Record Servers : Type := mkServers { default_mux : list string; listening : list (string * list string) }.
(** [HandleFunc] panics on a pattern that is there already. *)
Definition HandleFunc (pattern : string) : M Servers unit := λ s,
  if bool_decide (pattern ∈ default_mux s) then (Panic "http: multiple registrations", s)
  else (Ret tt, mkServers (default_mux s ++ [pattern]) (listening s)).
(** [go http.ListenAndServe(addr, mux)]; its error is only logged. *)
Definition listen_on (addr : string) (patterns : list string) : M Servers unit :=
  modifyW (λ s, mkServers (default_mux s) (listening s ++ [(addr, patterns)])).

Definition pprof_patterns : list string :=
  (λ p, ("/debug/pprof/" ++ p)%string) <$>
  [""; "cmdline"; "profile"; "symbol"; "goroutine"; "heap"; "allocs"; "threadcreate"; "block"; "mutex"].
(** [level] is that of the log, [DebugLevel] its name for debugging. *)
Definition ServePprof (LookupEnv : string → option string) (level DebugLevel : string) : M Servers unit :=
  if bool_decide (is_Some (LookupEnv "ENABLE_PROFILER")) || String.eqb level DebugLevel
  then listen_on ":6060" pprof_patterns else mret tt.
Definition StartLivenessProbe : M Servers unit :=
  HandleFunc "/healthz" ;;
  s ← getW;
  listen_on ":7888" (default_mux s).

(** [utils.NewBackOff]: without a maximum elapsed time the retries do not stop. *)
Record BackOff : Type := mkBackOff { MaxElapsedTime : Z }.
Definition NewBackOff (NewExponentialBackOff : BackOff) (neverStop : bool) : BackOff :=
  if neverStop then mkBackOff 0 else NewExponentialBackOff.

(** ** Properties *)

(** The settings are those of the directory that CONFIG names, if it has any, else those of
    the default directory; in neither case anything else is read. *)
Theorem config_precedence `{ViperLaws V W} LookupEnv path w :
  let settings d := settings_in w d "config" "json" in
  match (if String.eqb (Getenv LookupEnv "CONFIG") "" then None else settings (Getenv LookupEnv "CONFIG")), settings path with
  | Some c, _ | None, Some c => LoadConfig (V := V) LookupEnv path w = (Ret c, w)
  | None, None => ∃ e, LoadConfig (V := V) LookupEnv path w = (Throw e, w)
  end.
Proof.
  cbv zeta. unfold LoadConfig. set (v := AutomaticEnv _).
  pose proof (read_first v w) as Hread. subst v.
  rewrite env_paths, type_paths, name_paths, add_path, env_name, type_name, set_name, env_type, set_type in Hread.
  destruct (String.eqb (Getenv LookupEnv "CONFIG") ""); rewrite ?add_path, new_paths in Hread; cbn in Hread.
  - destruct (settings_in w path "config" "json") as [c|]; cbn in Hread.
    + destruct Hread as (v' & Hr & Hu). by rewrite bind_run, Hr.
    + destruct Hread as (e & Hr). exists e. by rewrite bind_run, Hr.
  - destruct (settings_in w (Getenv LookupEnv "CONFIG") "config" "json") as [c|]; cbn in Hread;
      [|destruct (settings_in w path "config" "json") as [c|]; cbn in Hread].
    + destruct Hread as (v' & Hr & Hu). by rewrite bind_run, Hr.
    + destruct Hread as (v' & Hr & Hu). by rewrite bind_run, Hr.
    + destruct Hread as (e & Hr). exists e. by rewrite bind_run, Hr.
Qed.

(** The clients of Kubernetes are made from the configuration of the pod, or from that of the
    home directory; an error says which of the three steps failed. *)
Theorem kube_clients {W R D S} (InClusterConfig : M W R) HomeDir BuildConfigFromFlags
    (NewDynamic : R → M W D) (NewStorage : R → M W S) w :
  match NewKubeClients InClusterConfig HomeDir BuildConfigFromFlags NewDynamic NewStorage w with
  | (Ret (d, s), w') => ∃ cfg w1 w2,
      (InClusterConfig w = (Ret cfg, w1) ∨
       ∃ e w0, InClusterConfig w = (Throw e, w0) ∧ HomeDir ≠ "" ∧
         BuildConfigFromFlags "" (filepath_Join [HomeDir; ".kube"; "config"]) w0 = (Ret cfg, w1)) ∧
      NewDynamic cfg w1 = (Ret d, w2) ∧ NewStorage cfg w2 = (Ret s, w')
  | (Throw e, _) =>
      (e = Wrapf "failed to get cluster config" (Errorf "unable to find config")) ∨
      (∃ e', e = Wrapf "failed to create dynamic client" e') ∨ ∃ e', e = Wrapf "failed to create storage client" e'
  | (Panic _, _) => True
  end.
Proof.
  assert (∀ cfg w1 o w', (dynamicClient ← wrapE "failed to create dynamic client" (NewDynamic cfg);
    storageClient ← wrapE "failed to create storage client" (NewStorage cfg); mret (dynamicClient, storageClient)) w1 = (o, w') →
    match o with
    | Ret (d, s) => ∃ w2, NewDynamic cfg w1 = (Ret d, w2) ∧ NewStorage cfg w2 = (Ret s, w')
    | Throw e => (∃ e', e = Wrapf "failed to create dynamic client" e') ∨ ∃ e', e = Wrapf "failed to create storage client" e'
    | Panic _ => True
    end) as Hclients.
  { intros cfg w1 o w'. rewrite bind_run, wrapE_run. destruct (NewDynamic cfg w1) as [[d|e|s] w2]; [|intros [= <- <-]; eauto..].
    rewrite bind_run, wrapE_run. destruct (NewStorage cfg w2) as [[s|e|s] w3] eqn:Hs; intros [= <- <-]; eauto. }
  unfold NewKubeClients, getConfig. rewrite bind_run, wrapE_run, bind_run, attempt_run.
  destruct (InClusterConfig w) as [[cfg|e|s] w1] eqn:Hin; cbn beta iota; [| |done].
  - rewrite ret_run. lazymatch goal with |- match ?x with _ => _ end => destruct x as [o w'] eqn:Hrun end. specialize (Hclients _ _ _ _ Hrun).
    destruct o as [[d s]|e|s]; [|by right|done]. destruct Hclients as (w2 & ? & ?). exists cfg, w1, w2. eauto.
  - destruct (String.eqb_spec HomeDir "") as [->|Hh]; [by left|]. rewrite bind_run, attempt_run.
    destruct (BuildConfigFromFlags _ _ w1) as [[cfg|e'|s] w2] eqn:Hb; cbn beta iota; [|by left|done].
    rewrite ret_run. lazymatch goal with |- match ?x with _ => _ end => destruct x as [o w'] eqn:Hrun end. specialize (Hclients _ _ _ _ Hrun).
    destruct o as [[d s]|e0|s]; [|by right|done]. destruct Hclients as (w3 & ? & ?). exists cfg, w2, w3. eauto 8.
Qed.

Lemma liveness_run s :
  "/healthz" ∉ default_mux s →
  StartLivenessProbe s =
    (Ret tt, mkServers (default_mux s ++ ["/healthz"]) (listening s ++ [(":7888", default_mux s ++ ["/healthz"])])).
Proof. intros Hno. unfold StartLivenessProbe, HandleFunc. rewrite bind_run, bool_decide_eq_false_2; done. Qed.
Lemma liveness_again s :
  "/healthz" ∈ default_mux s → (StartLivenessProbe s).1 = Panic "http: multiple registrations".
Proof. intros Hin. unfold StartLivenessProbe, HandleFunc. by rewrite bind_run, bool_decide_eq_true_2. Qed.

(** The profiler is reachable only where it was asked for; and the liveness probe, whose
    pattern is on the default mux, can be started once: a second start panics. *)
Theorem probes LookupEnv level DebugLevel s :
  "/healthz" ∉ default_mux s →
  ∃ s', (ServePprof LookupEnv level DebugLevel ;; StartLivenessProbe) s = (Ret tt, s') ∧
    listening s' = listening s ++
      (if bool_decide (is_Some (LookupEnv "ENABLE_PROFILER")) || String.eqb level DebugLevel
       then [(":6060", pprof_patterns)] else []) ++ [(":7888", default_mux s ++ ["/healthz"])] ∧
    (StartLivenessProbe s').1 = Panic "http: multiple registrations".
Proof.
  intros Hno. unfold ServePprof.
  destruct (bool_decide (is_Some (LookupEnv "ENABLE_PROFILER")) || String.eqb level DebugLevel);
    rewrite bind_run; [unfold listen_on, modifyW|rewrite ret_run]; cbn beta iota; rewrite liveness_run by done;
    eexists; (split; [done|]); (split; [cbn [listening default_mux]; by rewrite <- ?(assoc_L (++))|]);
    apply liveness_again; cbn [default_mux]; apply elem_of_app; right; by apply list_elem_of_singleton.
Qed.

(** ** Witnesses *)

(** A viper over files: a directory, and what its file says. *)
Record SampleViper : Type := mkSampleViper {
  sv_paths : list string; sv_name : string; sv_type : string; sv_env : bool; sv_read : option Config }.
Definition sample_settings (w : list (string * Config)) (d n t : string) : option Config :=
  if String.eqb n "config" && String.eqb t "json"
  then snd <$> head (filter (λ f, f.1 = d) w) else None.
Definition sample_viper : Viper SampleViper (list (string * Config)) := {|
  viper_New := mkSampleViper [] "" "" false None;
  AddConfigPath d v := mkSampleViper (sv_paths v ++ [d]) (sv_name v) (sv_type v) (sv_env v) (sv_read v);
  SetConfigName n v := mkSampleViper (sv_paths v) n (sv_type v) (sv_env v) (sv_read v);
  SetConfigType t v := mkSampleViper (sv_paths v) (sv_name v) t (sv_env v) (sv_read v);
  AutomaticEnv v := mkSampleViper (sv_paths v) (sv_name v) (sv_type v) true (sv_read v);
  ReadInConfig v := λ w,
    match omap (λ d, sample_settings w d (sv_name v) (sv_type v)) (sv_paths v) with
    | c :: _ => (Ret (mkSampleViper (sv_paths v) (sv_name v) (sv_type v) (sv_env v) (Some c)), w)
    | [] => (Throw (Errorf "Config File Not Found"), w)
    end;
  viper_Unmarshal v := λ w, match sv_read v with Some c => (Ret c, w) | None => (Throw (Errorf "empty"), w) end
|}.
Definition sample_viper_laws : @ViperLaws SampleViper (list (string * Config)) sample_viper.
Proof.
  refine {| config_paths := sv_paths; config_name := sv_name; config_type := sv_type;  settings_in := sample_settings |}; try done.
  intros v w. cbn. destruct (omap _ _) as [|c l]; [by eexists|]. by eexists.
Defined.
Definition sample_config (account : string) : Config :=
  mkConfig sample_backend (mkInCluster "" "" "" [] [] account "" []) (mkHTTPEndpoint "" []).

Lemma config_precedence_witness :
  let files := [("/etc/config", sample_config "default"); ("/other", sample_config "acme")] in
  LoadConfig (H := sample_viper) (λ n, if String.eqb n "CONFIG" then Some "/other" else None) "/etc/config" files
    = (Ret (sample_config "acme"), files).
Proof.
  intros files.
  exact (config_precedence (H := sample_viper_laws) (λ n, if String.eqb n "CONFIG" then Some "/other" else None)
    "/etc/config" files).
Defined.
Lemma probes_witness :
  ∃ s', (ServePprof (λ _, None) "info" "debug" ;; StartLivenessProbe) (mkServers ["/metrics"] []) = (Ret tt, s') ∧
    listening s' = [(":7888", ["/metrics"; "/healthz"])].
Proof.
  destruct (probes (λ _, None) "info" "debug" (mkServers ["/metrics"] [])) as (s' & Hrun & Hl & _).
  - intros [H|H]%elem_of_cons; [done|by apply not_elem_of_nil in H].
  - exists s'. split; [exact Hrun|exact Hl].
Defined.
